(* ===== verification/_CoqProject ===== *)
-Q . S2P
Prelude.v
GoString.v
GoRegexp.v
Http.v
Metrics.v
Effects.v
GoNet.v
GoXml.v
GoMultipart.v
GoTime.v
GoBase64.v
UrlPrefix.v
Helper.v
WriteAfterReader.v
Hijack.v
Block.v
SendData.v
SendFile.v
StaticPages.v
Upstream.v
Queueing.v
KeyWatcher.v
AccessLog.v
Reconnect.v
Redis.v
RedisPool.v
Builds.v
Terminal.v
Log.v
Secret.v
Gitaly.v
Backend.v
Api.v
ObjectStore.v
FileStore.v
ObjectstoreStub.v
PktLine.v
Upload.v
GitalyClient.v
Git.v
GitSend.v
Streams.v
GitalyServer.v
ZipArtifacts.v
Artifacts.v
SendUrl.v
TestHelper.v
Declared.v
System.v
Start.v
