(* ===== verification/Prelude.v ===== *)
(** * A verification development for gitlab-workhorse

    gitlab-workhorse is the HTTP server in front of GitLab's Rails application.  It routes
    each request, asks Rails whether the client may do what it wants, and does the slow part
    of it itself: Git fetches and pushes, uploads and downloads, terminals, long polling.
    This library models the program (the directories main.go, internal/ and cmd/ of the
    repository, with the parts of the Go standard library and of a few vendored packages that
    it depends on) and proves what makes it correct.

    ** How the program is modelled

    A handler is a [prog] (Http.v): a tree of calls on its response writer and on its
    environment (clock, metrics, logs, files, processes, other servers, Gitaly), each followed
    by what the code does with the answer.  [run] executes it on the state of a net/http
    response and an environment [env W], a function that answers calls and changes a world
    [W].  Theorems hold for every environment, or for those that satisfy named laws: [FdEnv]
    (descriptors that are opened are new and closing removes them), [PathEnv] (the same for
    paths), or an interpretation of some calls (a storage server, the disk).  A panic is the
    outcome [Panic], which [deferring] and [try] treat as [defer] and [recover] do.  A
    middleware with a response writer of its own is a [Wrapper]: two methods that are programs
    on the writer below; [under] runs a handler on it.  Shared state is a state machine: a
    step relation on goroutines at the points where the code locks, sends or receives
    (Queueing, KeyWatcher, RedisPool, Gitaly, Terminal, WriteAfterReader), with invariants
    by induction on reachable states and termination by measures.  What handlers share in the
    proofs: [keeps] (an observation is as before, however the program ends), [harmless] and
    [Effects.guarded] (which calls it makes), [wp] and [returns] (what it returns),
    [Transparent] (a writer the client does not notice).

    ** The files

    Foundations.  Prelude: octets, errors, reachability, generic lemmas.  GoString, GoRegexp,
    GoNet, GoTime, GoBase64, GoMultipart, GoXml: the parts of Go's strings, strconv, path,
    regexp, net, mime, time, encoding/base64, mime/multipart and encoding/xml the program
    uses, written out.  Http:
    requests, responses, programs, writers, their logics.  Metrics: every metric of the
    packages as declared data, with the checks of the Prometheus client (the init functions,
    internal/queueing/queue.go, internal/upstream/metrics.go).  Effects: which calls a program
    makes.

    In front of Rails.  UrlPrefix (internal/urlprefix).  Helper, WriteAfterReader, AccessLog
    (internal/helper).  Hijack: the shape of the response writers of the next four.  Block
    (internal/api/block.go).  SendData (internal/senddata).  SendFile (internal/sendfile).
    StaticPages (internal/staticpages).  Upstream (internal/upstream): the routing table, on a
    record [Services] of handlers, so its theorems hold whatever they do.  Queueing
    (internal/queueing).  KeyWatcher, Reconnect, Redis, RedisPool (internal/redis): watching
    keys, the loop that reconnects, the dialers, the pool.  Builds (internal/builds).  Log
    (internal/log).

    With Rails and Gitaly.  Secret (internal/secret).  Gitaly, GitalyClient (internal/gitaly).
    Backend (internal/badgateway, internal/proxy, backend.go).  Api (internal/api/api.go):
    [PreAuthorizeHandler], the interface every authorized handler is written against.
    Terminal (internal/terminal, internal/api/terminal_settings.go).

    Files and Git.  ObjectStore (internal/objectstore).  FileStore (internal/filestore,
    internal/lfs).  Upload (internal/upload), whose interface to the processors of files is
    [accounts].  PktLine, Git, GitSend (internal/git).  Streams: the readers of
    internal/git, internal/helper, internal/gitaly and the hashes of internal/filestore one
    call at a time, as simulations of the bodies that the other files use.  ZipArtifacts (internal/zipartifacts,
    cmd/).  Artifacts (internal/artifacts).  SendUrl (internal/sendurl).

    The other ends, as the repository's tests have them.  ObjectstoreStub
    (internal/objectstore/test): a server that stores objects and multipart uploads.
    GitalyServer (internal/testhelper/gitaly.go, gitaly_dummies.go).  TestHelper
    (internal/testhelper/testhelper.go): the assertions and the server that stands for Rails.

    Together.  Declared: the calls of all handlers obey one type discipline.  System: the
    services put into the routing table, behind one client of Rails.  Start (main.go,
    logging.go, raven.go, internal/config): from the command line to the server.

    Every definition that models code names the file, the lines and the function it models in
    its comment, and keeps the function's name where it can.  State the code keeps in package
    variables is an argument and a result; pointers and slices that are shared are names in a
    store (Secret, Redis) or ghost sets (Gitaly, RedisPool).

    ** What the theorems show

    Authorization and privacy: what Rails sends to this program only is never sent on (Block,
    SendData); a handler runs only with Rails' authorization (Api), and a request that does
    not get it changes nothing, for the whole program (System); uploads under the document root are not
    served as files (Upstream), static files stay below the root (StaticPages); callers get a
    copy of the secret (Secret); credentials do not reach the error tracker when a handler
    panics (Start); a client cannot forge a line of the access log (AccessLog).

    Integrity of data: a file that is saved has the size and checksums announced, and multipart
    uploads are complete or fail (ObjectStore, FileStore); LFS objects that differ are refused;
    a rewritten form stands for the client's (Upload); only whole archives are cached
    (GitSend); the listing of an archive and the entries served are those of the archive
    (ZipArtifacts, Artifacts); terminals and the coupled writer deliver what was written
    (Terminal, WriteAfterReader); a broken upstream body is reported (SendUrl); split points
    of packets are in bounds (PktLine).

    End to end: an upload in parts ends with the same object in the repository's object
    store, and a request leaves nothing in it when it is over (ObjectstoreStub); a push
    reaches the Gitaly server octet by octet and its answer the client, lists of references
    and blobs arrive whole (GitalyServer); reading a push with any buffer relays all of it and
    counts all of it (Streams); what the proxy and the API client send is accepted by the
    server that stands for Rails (TestHelper).

    Resources: descriptors, processes, temporary files and gauges are given back, panics
    included (the theorems named _closes, _leaves_nothing and _balanced); connections are
    shared and bounded (Gitaly, RedisPool); the loop that reconnects closes what it opens and
    waits within bounds (Reconnect).

    Concurrency: bounds, progress and termination of the queue and of the pool; no change of a
    watched key is missed and notifying never blocks; the dialers, which share slices, behave
    as if they did not (Redis).

    Well-formedness: metrics are declared once and well-formed, and every handler updates them
    with the right labels and starts only known programs (Metrics, Declared, System); the
    start leaves the umask alone and exposes what the flags say (Start).

    Each theorem with hypotheses is applied to a concrete case, where the definitions are
    evaluated; examples show the behaviour at the edges, the unwelcome ones included.

    ** Bounds and fuel

    Integers are unbounded except where width matters: lengths modulo 2^32 in ZipArtifacts,
    63-bit random numbers in Log (eleven base-62 digits are proved enough), int64 durations in
    Reconnect.  Fuel is the length of the input where a loop consumes it (regular expressions,
    media types, copying: a chunk is not empty; Streams' [ReadFrom]), with lemmas that it does not run out or that more
    changes nothing; the loop over parent directories in ZipArtifacts is proved to end for any
    name.  Durations are in nanoseconds; buckets of histograms are in hundredths of a unit so
    that fractions are exact; random waiting times are exact fractions where the code computes
    in floating point.

    ** Parameters

    Code that is not in the repository, or that belongs to third parties and is not written
    out, is an argument: the transport and the reverse proxy of net/http, ServeContent, URL,
    JSON, XML, TOML and protobuf decoding, hash functions, signing, gzip, websockets, zip
    files, the network, the processes Git, gzip and bzip2.  The hypotheses on them state
    documented behaviour.

    ** Not modelled

    The clients' side of Gitaly beyond the answers of its calls, HTTP/2 and connection
    handling of net/http, the timing of goroutines that only wait (pings, session timers are
    events), reopening the log file on SIGHUP, the usage text and flag parsing, the test files
    themselves.  In the handlers, bodies are octets with the error that ends them: that a body
    is read piece by piece shows where the code depends on it (the coupled writer, pkt-lines,
    copying in chunks), and Streams proves that for the other readers it makes no difference. *)

From stdpp Require Export base tactics list gmap strings.
From Stdlib Require Export Ascii Lia ZArith.
From stdpp Require Import options.

(** ** Byte strings

    A Go [string] is a Rocq [string]; a Go [[]byte] is a [bytes], a list of
    octets.  Conversions between the two are the standard bijection. *)
Abbreviation octet := ascii.
Abbreviation bytes := (list octet).
Definition to_bytes (s : string) : bytes := String.list_ascii_of_string s.
Definition of_bytes (l : bytes) : string := String.string_of_list_ascii l.

Lemma of_to_bytes s : of_bytes (to_bytes s) = s.
Proof. apply String.string_of_list_ascii_of_string. Qed.

Lemma to_of_bytes l : to_bytes (of_bytes l) = l.
Proof. apply String.list_ascii_of_string_of_list_ascii. Qed.

#[export] Instance to_bytes_inj : Inj (=) (=) to_bytes.
Proof. intros s t H. by rewrite <- (of_to_bytes s), H, of_to_bytes. Qed.

#[export] Instance of_bytes_inj : Inj (=) (=) of_bytes.
Proof. intros s t H. by rewrite <- (to_of_bytes s), H, to_of_bytes. Qed.

Lemma to_bytes_app s t : to_bytes (s +:+ t) = to_bytes s ++ to_bytes t.
Proof.
  unfold to_bytes. induction s as [|a s IH]; [reflexivity|].
  change (String a s +:+ t) with (String a (s +:+ t)). cbn. by rewrite IH.
Qed.

Lemma of_bytes_app s t : of_bytes (s ++ t) = of_bytes s +:+ of_bytes t.
Proof. apply (inj to_bytes). by rewrite to_bytes_app, !to_of_bytes. Qed.

Lemma to_bytes_nil s : to_bytes s = [] ↔ s = "".
Proof. split; [|by intros ->]. by destruct s. Qed.

(** ** Go errors

    Sentinel errors are compared by identity in the source, so they are
    constructors; an error built by [fmt.Errorf] keeps its format and the error
    it embeds. *)
Inductive gerr :=
  | EOF
  | ErrNotMultipart
  | ErrEntityTooLarge
  | ErrNotEnoughParts
  | ErrTooManyRequests
  | ErrQueueingTimedout
  | ErrAuthChanged
  | ErrDeadlineExceeded
  | ErrNotExist
  | ErrExist
  | ErrNotAZip
  | ErrArchiveNotFound
  | ErrBodyNotAllowed
  | Errorf (format : string)
  | Wrapf (format : string) (e : gerr).

#[export] Instance gerr_eq_dec : EqDecision gerr.
Proof. solve_decision. Defined.

(** A Go call that returns a value and an error of which one is nil. *)
Abbreviation result A := (A + gerr)%type.

(** A partial operation of the language (an index out of range, a nil
    dereference) that panics. *)
Inductive outcome (A : Type) :=
  | Value (a : A)
  | Panic (why : string).
Arguments Value {A} a.
Arguments Panic {A} why.

(** ** Tactics *)

(** Opens every conjunction and existential of the context. *)
Ltac unpack :=
  repeat match goal with
  | H : _ ∧ _ |- _ => destruct H
  | H : ∃ _, _ |- _ => destruct H
  | H : _ * _ |- _ => destruct H
  end.

(** Case analysis on the innermost scrutinee of the goal or a hypothesis. *)
Ltac cases_in H :=
  repeat match type of H with
  | context [match ?x with _ => _ end] =>
      lazymatch x with
      | context [match _ with _ => _ end] => fail
      | _ => destruct x eqn:?; simplify_eq/=
      end
  end.
Ltac cases :=
  repeat match goal with
  | |- context [match ?x with _ => _ end] =>
      lazymatch x with
      | context [match _ with _ => _ end] => fail
      | _ => destruct x eqn:?; simplify_eq/=
      end
  end.

(** ** Lists *)

Create HintDb lists.

Lemma filter_all {A} (P : A → Prop) `{!∀ x, Decision (P x)} l :
  Forall P l → filter P l = l.
Proof. induction 1 as [|x l Hx _ IH]; [done|].
  by rewrite filter_cons_True, IH. Qed.

Lemma elem_of_last {A} (l : list A) x : last l = Some x → x ∈ l.
Proof. intros [l' ->]%last_Some. set_solver. Qed.

Lemma last_snoc_cases {A} (l : list A) : l = [] ∨ ∃ l' x, l = l' ++ [x].
Proof. destruct l using rev_ind; eauto. Qed.

(** Counting the elements of a list that satisfy a boolean test: the phases of
    concurrent processes are counted this way. *)
Section count.
Context {A : Type}.
Implicit Types (f : A → bool) (l : list A).

Definition countb f l : nat := length (filter (λ x, f x = true) l).

Lemma countb_nil f : countb f [] = 0.
Proof. done. Qed.

Lemma countb_cons f x l : countb f (x :: l) = Nat.b2n (f x) + countb f l.
Proof. unfold countb. rewrite filter_cons.
  destruct (f x); case_decide; done. Qed.

Lemma countb_app f l k : countb f (l ++ k) = countb f l + countb f k.
Proof. unfold countb. by rewrite filter_app, length_app. Qed.

(** Replacing one element moves the count by the difference of the tests. *)
Lemma countb_insert f l i x y :
  l !! i = Some x →
  countb f (<[i:=y]> l) + Nat.b2n (f x) = countb f l + Nat.b2n (f y).
Proof.
  revert i. induction l as [|z l IH]; intros [|i] H; simplify_eq/=;
    rewrite !countb_cons; [lia|]. specialize (IH _ H). lia.
Qed.

Lemma countb_lookup f l i x :
  l !! i = Some x → f x = true → 1 ≤ countb f l.
Proof.
  revert i. induction l as [|z l IH]; intros [|i] H Hf; simplify_eq/=;
    rewrite countb_cons; [rewrite Hf; cbn; lia|].
  specialize (IH _ H Hf). lia.
Qed.

Lemma countb_pos f l : 1 ≤ countb f l → ∃ i x, l !! i = Some x ∧ f x = true.
Proof.
  induction l as [|z l IH]; [rewrite countb_nil; lia|].
  rewrite countb_cons. destruct (f z) eqn:E; intros H.
  - by exists 0, z.
  - destruct IH as (i & x & Hi & Hx); [cbn in H; lia|]. by exists (S i), x.
Qed.

Lemma countb_le f g l :
  (∀ x, f x = true → g x = true) → countb f l ≤ countb g l.
Proof.
  intros Hfg. induction l as [|z l IH]; [done|]. rewrite !countb_cons.
  specialize (Hfg z). destruct (f z), (g z); cbn; lia.
Qed.

Lemma countb_replicate f n x : countb f (replicate n x) = n * Nat.b2n (f x).
Proof. induction n as [|n IH]; [done|]. cbn [replicate].
  rewrite countb_cons, IH. lia. Qed.
End count.
#[global] Arguments countb {A} f l : simpl never.

(** Replacing one element moves a sum by the difference of what it contributes. *)
Lemma sum_list_with_insert {A} (f : A → nat) l i x y :
  l !! i = Some x → sum_list_with f (<[i:=y]> l) + f x = sum_list_with f l + f y.
Proof.
  revert i. induction l as [|z l IH]; intros [|i] H; simplify_eq/=; [lia|].
  specialize (IH i H). lia.
Qed.

(** ** Reachability

    The states a step relation reaches from an initial state, and the
    induction that proves an invariant of all of them. *)
Section reachable.
Context {S : Type} (init : S → Prop) (step : S → S → Prop).

Definition reachable (s : S) : Prop := ∃ s0, init s0 ∧ rtc step s0 s.

Lemma reachable_init s : init s → reachable s.
Proof. by exists s. Qed.

Lemma reachable_step s s' : reachable s → step s s' → reachable s'.
Proof. intros (s0 & H0 & Hr) Hs. exists s0. split; [done|].
  eapply rtc_r; eauto. Qed.

(** An invariant that holds initially and that every step preserves holds of
    every reachable state. *)
Lemma reachable_invariant (I : S → Prop) :
  (∀ s, init s → I s) →
  (∀ s s', I s → step s s' → I s') →
  ∀ s, reachable s → I s.
Proof.
  intros Hi Hs s (s0 & H0 & Hr). apply Hi in H0.
  induction Hr as [|s1 s2 s3 Hst _ IH]; eauto.
Qed.

(** An invariant of the states that can be reached holds along every execution. *)
Lemma reachable_rtc s s' : reachable s → rtc step s s' → reachable s'.
Proof. intros (s0 & H0 & Hr) Hs. exists s0. split; [done|]. by etrans. Qed.

(** Executions along which a measure decreases come to an end. *)
Lemma sn_measure (I : S → Prop) (m : S → nat) :
  (∀ s s', I s → step s s' → I s' ∧ m s' < m s) → ∀ s, I s → sn step s.
Proof.
  intros Hm s. remember (m s) as n eqn:E. revert s E.
  induction n as [n IH] using lt_wf_ind. intros s -> Hi. constructor.
  intros s' Hs. destruct (Hm s s' Hi Hs) as [Hi' Hlt]. by eapply IH.
Qed.
End reachable.
