(* ===== verification/GoString.v ===== *)
(** * Strings and slash-separated paths of the Go standard library

    The functions of packages [strings], [path] and [path/filepath] (on Unix
    the same functions) that the program uses, on [string] and on its list of
    octets.  [Clean] is given by the rules of its documentation: it splits the
    path at the slashes, drops empty and ["."] elements, lets [".."] cancel the
    element before it (or vanish at the root) and joins what is left. *)

From Stdlib Require Import Sorting.Sorted.
From S2P Require Import Prelude.
From stdpp Require Import options.

(** ** Package strings *)

Definition has_prefix (s p : string) : bool := String.prefix p s.
Definition has_suffix (s p : string) : bool :=
  String.prefix (String.rev p) (String.rev s).
Definition trim_prefix (s p : string) : string :=
  if has_prefix s p then of_bytes (drop (String.length p) (to_bytes s)) else s.
Definition trim_suffix (s p : string) : string :=
  if has_suffix s p
  then of_bytes (take (String.length s - String.length p) (to_bytes s)) else s.

Definition contains_byte (s : string) (c : octet) : bool :=
  existsb (Ascii.eqb c) (to_bytes s).

Fixpoint prefix_of_bytes (p s : bytes) : bool :=
  match p, s with
  | [], _ => true
  | _ :: _, [] => false
  | a :: p', b :: s' => if Ascii.eqb a b then prefix_of_bytes p' s' else false
  end.

(** [strings.Contains]. *)
Fixpoint contains_bytes (s p : bytes) : bool :=
  prefix_of_bytes p s ||
  match s with [] => false | _ :: s' => contains_bytes s' p end.
Definition contains (s p : string) : bool := contains_bytes (to_bytes s) (to_bytes p).

(** [strings.Join]. *)
Fixpoint join_strings (sep : string) (l : list string) : string :=
  match l with
  | [] => ""
  | [x] => x
  | x :: l' => x +:+ sep +:+ join_strings sep l'
  end.

(** The octets before the first separator and those after it. *)
Fixpoint cut_at (sep : octet) (l : bytes) : option (bytes * bytes) :=
  match l with
  | [] => None
  | c :: l' =>
      if Ascii.eqb c sep then Some ([], l')
      else match cut_at sep l' with
           | Some (a, b) => Some (c :: a, b)
           | None => None
           end
  end.

(** [strings.SplitN(s, sep, 2)] for a one-octet separator. *)
Definition split_n2 (s : string) (sep : octet) : list string :=
  match cut_at sep (to_bytes s) with
  | Some (a, b) => [of_bytes a; of_bytes b]
  | None => [s]
  end.

(** ASCII case mapping. *)
Definition is_upper (c : octet) : bool :=
  (65 <=? nat_of_ascii c) && (nat_of_ascii c <=? 90).
Definition is_lower (c : octet) : bool :=
  (97 <=? nat_of_ascii c) && (nat_of_ascii c <=? 122).
Definition is_digit (c : octet) : bool :=
  (48 <=? nat_of_ascii c) && (nat_of_ascii c <=? 57).
Definition lower (c : octet) : octet :=
  if is_upper c then ascii_of_nat (nat_of_ascii c + 32) else c.
Definition upper (c : octet) : octet :=
  if is_lower c then ascii_of_nat (nat_of_ascii c - 32) else c.
Definition to_lower (s : string) : string := of_bytes (lower <$> to_bytes s).

(** [strings.EqualFold] on ASCII letters. *)
Definition equal_fold (s t : string) : bool := bool_decide (to_lower s = to_lower t).

(** Decimal representation of an integer ([strconv.FormatInt(n, 10)], [%d]). *)
Fixpoint digits_of (fuel : nat) (n : N) (acc : bytes) : bytes :=
  match fuel with
  | O => acc
  | S fuel' =>
      let acc' := ascii_of_N (48 + n mod 10) :: acc in
      if (n <? 10)%N then acc' else digits_of fuel' (n / 10) acc'
  end.
Definition itoa (z : Z) : string :=
  let n := Z.to_N (Z.abs z) in
  let ds := of_bytes (digits_of (S (N.size_nat n)) n []) in
  if (z <? 0)%Z then "-" +:+ ds else ds.

Lemma digits_of_octets fuel n acc :
  Forall (λ c, is_digit c = true) acc → Forall (λ c, is_digit c = true) (digits_of fuel n acc).
Proof.
  revert n acc. induction fuel as [|fuel IH]; intros n acc H; [done|]. cbn [digits_of].
  assert (is_digit (ascii_of_N (48 + n mod 10)) = true) as Hd.
  { unfold is_digit. assert (n mod 10 < 10)%N as Hn by (by apply N.mod_lt). revert Hn.
    generalize (n mod 10)%N as m. intros m Hm. destruct m as [|p]; [done|].
    do 4 (destruct p as [p|p|]; try done). }
  destruct (n <? 10)%N; [by constructor|]. apply IH. by constructor.
Qed.

(** A number is written with digits and perhaps a sign. *)
Lemma itoa_octets z : Forall (λ c, is_digit c = true ∨ c = "-"%char) (to_bytes (itoa z)).
Proof.
  assert (∀ n, Forall (λ c, is_digit c = true ∨ c = "-"%char)
    (to_bytes (of_bytes (digits_of (S (N.size_nat n)) n [])))) as H.
  { intros n. rewrite to_of_bytes. eapply Forall_impl; [by apply digits_of_octets|]. by left. }
  unfold itoa. destruct (z <? 0)%Z; [|apply H]. constructor; [by right|apply H].
Qed.

(** [strconv.Atoi]: an optional sign and digits, the value within 64 bits. *)
Definition digit_value (c : octet) : option N :=
  if is_digit c then Some (N_of_ascii c - 48)%N else None.
Fixpoint decimal (acc : N) (l : bytes) : option N :=
  match l with
  | [] => Some acc
  | c :: l => d ← digit_value c; decimal (10 * acc + d) l
  end.
Definition unsigned (l : bytes) : option Z :=
  match l with [] => None | _ => Z.of_N <$> decimal 0 l end.
Definition integer (s : string) : option Z :=
  match to_bytes s with
  | c :: l =>
      if Ascii.eqb c "-"%char then Z.opp <$> unsigned l
      else if Ascii.eqb c "+"%char then unsigned l
      else unsigned (c :: l)
  | [] => None
  end.
Definition int64 (n : Z) : bool := ((- 2 ^ 63 <=? n) && (n <? 2 ^ 63))%Z.
Definition Atoi (s : string) : option Z :=
  n ← integer s; if int64 n then Some n else None.

Lemma decimal_app a l l' : decimal a (l ++ l') = (b ← decimal a l; decimal b l').
Proof.
  revert a. induction l as [|c l IH]; intros a; [done|]. cbn [app decimal].
  destruct (digit_value c); [apply IH|done].
Qed.

Lemma digit_value_of d : (d < 10)%N → digit_value (ascii_of_N (48 + d)) = Some d.
Proof.
  intros Hd. destruct d as [|p]; [done|]. do 4 (destruct p as [p|p|]; try done).
Qed.

Lemma digits_of_decimal fuel n acc : (n < 2 ^ N.of_nat fuel)%N →
  ∃ l, digits_of (S fuel) n acc = l ++ acc ∧ l ≠ [] ∧ decimal 0 l = Some n ∧
    Forall (λ c, is_digit c = true) l.
Proof.
  revert n acc. induction fuel as [|fuel IH]; intros n acc Hn; cbn [digits_of].
  - assert (n = 0%N) as -> by (cbn in Hn; lia). exists ["0"%char]. by repeat constructor.
  - set (c := ascii_of_N (48 + n mod 10)).
    assert (n mod 10 < 10)%N as Hm by (by apply N.mod_lt).
    assert (is_digit c = true) as Hc.
    { pose proof (digit_value_of _ Hm) as H. unfold digit_value in H. fold c in H.
      by destruct (is_digit c). }
    pose proof (digit_value_of _ Hm) as Hv. fold c in Hv.
    destruct (N.ltb_spec n 10) as [Hlt|Hge].
    + exists [c]. split_and!; [done|done| |by constructor]. cbn. rewrite Hv. cbn. f_equal.
      rewrite N.mod_small by done. lia.
    + assert (n / 10 < 2 ^ N.of_nat fuel)%N as Hd.
      { apply N.Div0.div_lt_upper_bound. rewrite Nat2N.inj_succ, N.pow_succ_r' in Hn. lia. }
      destruct (IH (n / 10)%N (c :: acc) Hd) as (l & Hl & Hne & Hdec & Hall).
      exists (l ++ [c]). cbn [digits_of] in Hl. rewrite Hl.
      split_and!; [by rewrite <- app_assoc|by destruct l| |by apply Forall_app; repeat constructor].
      rewrite decimal_app, Hdec. cbn. rewrite Hv. cbn. f_equal.
      pose proof (N.div_mod n 10). lia.
Qed.

Lemma N_size_pow n : (n < 2 ^ N.of_nat (N.size_nat n))%N.
Proof.
  destruct n as [|p]; [done|]. cbn. induction p as [p IH|p IH|]; cbn [Pos.size_nat]; [..|done];
    rewrite Nat2N.inj_succ, N.pow_succ_r'; lia.
Qed.

(** Writing a number and reading it. *)
Lemma Atoi_itoa z : (- 2 ^ 63 ≤ z < 2 ^ 63)%Z → Atoi (itoa z) = Some z.
Proof.
  intros Hz. unfold Atoi, integer, itoa. set (n := Z.to_N (Z.abs z)).
  destruct (digits_of_decimal (N.size_nat n) n [] (N_size_pow n)) as (l & -> & Hne & Hdec & Hall).
  rewrite app_nil_r. destruct l as [|c l]; [done|].
  assert (unsigned (c :: l) = Some (Z.of_N n)) as Hu by (unfold unsigned; by rewrite Hdec).
  assert ((if int64 z then Some z else None) = Some z) as Hb.
  { unfold int64. by rewrite (proj2 (Z.leb_le _ _)), (proj2 (Z.ltb_lt _ _)) by lia. }
  destruct (Z.ltb_spec z 0) as [Hneg|Hpos].
  - rewrite to_bytes_app, to_of_bytes. cbn [to_bytes app]. change (to_bytes "-") with ["-"%char].
    cbn [app Ascii.eqb Bool.eqb]. rewrite Hu. cbn [fmap option_fmap option_map mbind option_bind].
    replace (- Z.of_N n)%Z with z by lia. exact Hb.
  - rewrite to_of_bytes. assert (Ascii.eqb c "-" = false ∧ Ascii.eqb c "+" = false) as [-> ->].
    { inversion_clear Hall as [|? ? Hc]. by split; apply Ascii.eqb_neq; intros ->. }
    rewrite Hu. cbn [mbind option_bind]. replace (Z.of_N n) with z by lia. exact Hb.
Qed.

(** [strconv.Quote] ([%q]); octets outside ASCII are kept, as those of printable
    characters are. *)
Definition hex_digit_of (n : nat) : octet :=
  nth n (to_bytes "0123456789abcdef") "0"%char.
Definition quote_octet (c : octet) : bytes :=
  let n := nat_of_ascii c in
  if (n =? 34) || (n =? 92) then ["\"%char; c]
  else if n =? 7 then to_bytes "\a" else if n =? 8 then to_bytes "\b"
  else if n =? 9 then to_bytes "\t" else if n =? 10 then to_bytes "\n"
  else if n =? 11 then to_bytes "\v" else if n =? 12 then to_bytes "\f"
  else if n =? 13 then to_bytes "\r"
  else if (n <? 32) || (n =? 127)
  then to_bytes "\x" ++ [hex_digit_of (n / 16); hex_digit_of (n mod 16)]
  else [c].
Definition quote (s : string) : string :=
  of_bytes (["034"%char] ++ concat (quote_octet <$> to_bytes s) ++ ["034"%char]).

(** ** Facts about prefixes *)

Lemma prefix_of_bytes_spec p s :
  prefix_of_bytes p s = true ↔ ∃ r, s = p ++ r.
Proof.
  revert s. induction p as [|a p IH]; intros s; cbn.
  - split; [eauto|done].
  - destruct s as [|b s]; [split; [done|by intros []]|].
    destruct (Ascii.eqb_spec a b) as [->|Hne].
    + rewrite IH. split; intros [r Hr]; exists r; by simplify_eq/=.
    + split; [done|]. intros [r Hr]. by simplify_eq/=.
Qed.

Lemma prefix_to_bytes p s :
  String.prefix p s = prefix_of_bytes (to_bytes p) (to_bytes s).
Proof.
  revert s. induction p as [|a p IH]; intros [|b s]; cbn; [done..|].
  destruct (ascii_dec a b) as [->|Hne].
  - rewrite Ascii.eqb_refl. apply IH.
  - by destruct (Ascii.eqb_spec a b).
Qed.

Lemma has_prefix_spec s p : has_prefix s p = true ↔ ∃ r, s = p +:+ r.
Proof.
  unfold has_prefix. rewrite prefix_to_bytes, prefix_of_bytes_spec.
  split; intros [r Hr].
  - exists (of_bytes r). apply (inj to_bytes).
    by rewrite to_bytes_app, to_of_bytes.
  - exists (to_bytes r). by rewrite Hr, to_bytes_app.
Qed.

Lemma length_to_bytes s : length (to_bytes s) = String.length s.
Proof. unfold to_bytes. induction s; cbn; auto. Qed.

Lemma trim_prefix_app p r : trim_prefix (p +:+ r) p = r.
Proof.
  unfold trim_prefix. assert (has_prefix (p +:+ r) p = true) as ->.
  { apply has_prefix_spec. eauto. }
  by rewrite to_bytes_app, <- length_to_bytes, drop_app_length, of_to_bytes.
Qed.

Lemma trim_prefix_id s p : has_prefix s p = false → trim_prefix s p = s.
Proof. unfold trim_prefix. by intros ->. Qed.

Lemma cut_at_Some sep l a b :
  cut_at sep l = Some (a, b) → l = a ++ sep :: b ∧ sep ∉ a.
Proof.
  revert a. induction l as [|c l IH]; intros a H; cbn in H; [done|].
  destruct (Ascii.eqb_spec c sep) as [->|Hne].
  - simplify_eq. split; [done|]. apply not_elem_of_nil.
  - destruct (cut_at sep l) as [[a' b']|] eqn:E; simplify_eq.
    destruct (IH a' eq_refl) as [-> Hn]. split; [done|].
    rewrite elem_of_cons. by intros [<-|?].
Qed.

Lemma cut_at_None sep l : cut_at sep l = None ↔ sep ∉ l.
Proof.
  induction l as [|c l IH]; cbn.
  - split; [intros _; apply not_elem_of_nil|done].
  - rewrite elem_of_cons. destruct (Ascii.eqb_spec c sep) as [->|Hne].
    + split; [done|]. intros Hn. destruct Hn. by left.
    + destruct (cut_at sep l) as [[a b]|]; naive_solver.
Qed.

Lemma cut_at_app sep a b : sep ∉ a → cut_at sep (a ++ sep :: b) = Some (a, b).
Proof.
  induction a as [|c a IH]; intros Ha; cbn.
  - by rewrite Ascii.eqb_refl.
  - rewrite elem_of_cons in Ha. destruct (Ascii.eqb_spec c sep) as [->|];
      [naive_solver|]. rewrite IH; naive_solver.
Qed.

(** ** Splitting at a separator and joining back *)

Section segments.
Context (sep : octet).

(** [strings.Split] for a one-octet separator: never empty. *)
Fixpoint split_on (l : bytes) : list bytes :=
  match l with
  | [] => [[]]
  | c :: l' =>
      if Ascii.eqb c sep then [] :: split_on l'
      else match split_on l' with
           | x :: xs => (c :: x) :: xs
           | [] => [[c]]
           end
  end.

Fixpoint join_on (xs : list bytes) : bytes :=
  match xs with
  | [] => []
  | [x] => x
  | x :: xs' => x ++ sep :: join_on xs'
  end.

Lemma join_on_cons x xs : xs ≠ [] → join_on (x :: xs) = x ++ sep :: join_on xs.
Proof. by destruct xs. Qed.

Lemma split_on_nonempty l : split_on l ≠ [].
Proof. destruct l as [|c l]; cbn; [done|].
  destruct (Ascii.eqb c sep); [done|]. by destruct (split_on l). Qed.

Lemma split_on_no_sep l : Forall (λ x, sep ∉ x) (split_on l).
Proof.
  induction l as [|c l IH]; cbn.
  - repeat constructor. apply not_elem_of_nil.
  - destruct (Ascii.eqb_spec c sep) as [->|Hne].
    + constructor; [apply not_elem_of_nil|done].
    + destruct (split_on l) as [|x xs]; inversion_clear IH; repeat constructor; auto;
        rewrite elem_of_cons; intros [->|?]; by try set_solver.
Qed.

Lemma join_split_on l : join_on (split_on l) = l.
Proof.
  induction l as [|c l IH]; [done|]. cbn [split_on].
  destruct (Ascii.eqb_spec c sep) as [->|Hne].
  - rewrite join_on_cons by apply split_on_nonempty. by rewrite IH.
  - destruct (split_on l) as [|x [|y ys]] eqn:E; cbn in *; by simplify_eq.
Qed.

Lemma split_on_single x : sep ∉ x → split_on x = [x].
Proof.
  induction x as [|c x IH]; intros H; [done|]. cbn.
  rewrite elem_of_cons in H. destruct (Ascii.eqb_spec c sep) as [->|];
    [naive_solver|]. rewrite IH; naive_solver.
Qed.

Lemma split_on_app a b : split_on (a ++ sep :: b) = split_on a ++ split_on b.
Proof.
  induction a as [|c a IH]; cbn.
  - by rewrite Ascii.eqb_refl.
  - destruct (Ascii.eqb_spec c sep) as [->|]; rewrite IH; [done|].
    pose proof (split_on_nonempty a). by destruct (split_on a).
Qed.

Lemma split_join_on xs :
  xs ≠ [] → Forall (λ x, sep ∉ x) xs → split_on (join_on xs) = xs.
Proof.
  intros Hne H. induction H as [|x xs Hx H IH]; [done|].
  destruct xs as [|y ys]; [by apply split_on_single|].
  rewrite join_on_cons, split_on_app, split_on_single, IH by done. done.
Qed.

Lemma join_on_app xs ys :
  xs ≠ [] → ys ≠ [] → join_on (xs ++ ys) = join_on xs ++ sep :: join_on ys.
Proof.
  intros Hx Hy. induction xs as [|x xs IH]; [done|].
  destruct xs as [|x' xs].
  - cbn [app]. by rewrite join_on_cons.
  - change ((x :: x' :: xs) ++ ys) with (x :: (x' :: xs) ++ ys).
    rewrite (join_on_cons x ((x' :: xs) ++ ys)), IH by done.
    rewrite (join_on_cons x (x' :: xs)) by done. by rewrite <- app_assoc.
Qed.

Lemma join_on_nil xs :
  Forall (λ x, x ≠ []) xs → join_on xs = [] → xs = [].
Proof. intros H. destruct xs as [|x [|y ys]]; [done|..]; inversion_clear H; cbn;
  [done|]. by destruct x. Qed.
End segments.

(** ** Package path *)

Module Path.
Definition slash : octet := "/"%char.
Definition dot : bytes := to_bytes ".".
Definition dotdot : bytes := to_bytes "..".

(** An element a cleaned rooted path may contain. *)
Definition plain (x : bytes) : Prop :=
  x ≠ [] ∧ x ≠ dot ∧ x ≠ dotdot ∧ slash ∉ x.

#[export] Instance plain_dec x : Decision (plain x).
Proof. unfold plain. apply _. Defined.

(** One element of the path against the stack of elements kept so far. *)
Definition clean_step (rooted : bool) (st : list bytes) (x : bytes) : list bytes :=
  if decide (x = [] ∨ x = dot) then st
  else if decide (x = dotdot) then
    match st with
    | [] => if rooted then [] else [dotdot]
    | top :: st' => if decide (top = dotdot) then dotdot :: st else st'
    end
  else x :: st.

Definition clean_segs (rooted : bool) (xs : list bytes) : list bytes :=
  rev (foldl (clean_step rooted) [] xs).

Definition rooted (p : bytes) : bool :=
  match p with c :: _ => Ascii.eqb c slash | [] => false end.

(** [path.Clean]. *)
Definition clean_bytes (p : bytes) : bytes :=
  match p with
  | [] => dot
  | _ =>
      let out := join_on slash (clean_segs (rooted p) (split_on slash p)) in
      if rooted p then slash :: out else match out with [] => dot | _ => out end
  end.
Definition Clean (p : string) : string := of_bytes (clean_bytes (to_bytes p)).

(** The octets up to and including the last slash, and those after it
    ([path.Split]). *)
Fixpoint split_last (p : bytes) : bytes * bytes :=
  match p with
  | [] => ([], [])
  | c :: p' =>
      let '(d, f) := split_last p' in
      match d with
      | [] => if Ascii.eqb c slash then ([c], f) else ([], c :: f)
      | _ => (c :: d, f)
      end
  end.

(** [path.Dir]. *)
Definition Dir (p : string) : string :=
  of_bytes (clean_bytes (split_last (to_bytes p)).1).

Fixpoint strip_trailing (l : bytes) : bytes :=
  match l with
  | [] => []
  | c :: l' =>
      match strip_trailing l' with
      | [] => if Ascii.eqb c slash then [] else [c]
      | r => c :: r
      end
  end.

(** [path.Base]. *)
Definition Base (p : string) : string :=
  if decide (p = "") then "."
  else match (split_last (strip_trailing (to_bytes p))).2 with
       | [] => "/"
       | b => of_bytes b
       end.

(** [path.Join] and [filepath.Join] of two elements. *)
Definition Join (a b : string) : string :=
  if decide (a = "") then (if decide (b = "") then "" else Clean b)
  else Clean (a +:+ "/" +:+ b).

(** The extension of the last element ([filepath.Ext]). *)
Fixpoint ext_of (l : bytes) : bytes :=
  match l with
  | [] => []
  | c :: l' =>
      match ext_of l' with
      | [] => if Ascii.eqb c "."%char then c :: l' else []
      | r => r
      end
  end.
Definition Ext (p : string) : string := of_bytes (ext_of (split_last (to_bytes p)).2).

(** *** Cleaning *)

Lemma clean_step_plain r st x : plain x → clean_step r st x = x :: st.
Proof. unfold plain, clean_step. intros. repeat case_decide; naive_solver. Qed.

Lemma foldl_plain r xs st :
  Forall plain xs → foldl (clean_step r) st xs = rev xs ++ st.
Proof.
  intros H. revert st. induction H as [|x xs Hx H IH]; intros st; [done|].
  cbn [foldl rev]. rewrite clean_step_plain, IH by done. by rewrite <- app_assoc.
Qed.

Lemma clean_step_nil r st : clean_step r st [] = st.
Proof. unfold clean_step. case_decide; naive_solver. Qed.

(** The stack of a rooted path only ever holds plain elements. *)
Lemma clean_step_rooted_plain st x :
  slash ∉ x → Forall plain st → Forall plain (clean_step true st x).
Proof.
  intros Hx Hst. unfold clean_step. repeat case_decide; auto.
  - destruct Hst as [|top st' Htop Hst]; [done|].
    case_decide; [|done]. subst. destruct Htop as (_ & _ & [] & _). done.
  - constructor; [|done]. unfold plain. naive_solver.
Qed.

Lemma clean_segs_rooted xs :
  Forall (λ x, slash ∉ x) xs → Forall plain (clean_segs true xs).
Proof.
  intros H. apply Forall_rev. assert (Forall plain []) as Hst by constructor.
  revert Hst. generalize (@nil bytes). induction H as [|x xs Hx H IH];
    intros st Hst; cbn; [done|]. apply IH. by apply clean_step_rooted_plain.
Qed.

Lemma clean_segs_plain r xs : Forall plain xs → clean_segs r xs = xs.
Proof. intros H. unfold clean_segs. rewrite foldl_plain by done.
  by rewrite app_nil_r, rev_involutive. Qed.

(** Plain elements after a path are kept as they are. *)
Lemma clean_segs_app_plain r xs ys :
  Forall plain ys → clean_segs r (xs ++ ys) = clean_segs r xs ++ ys.
Proof.
  intros H. unfold clean_segs. rewrite foldl_app, foldl_plain by done.
  by rewrite rev_app_distr, rev_involutive.
Qed.

Lemma plain_no_slash xs : Forall plain xs → Forall (λ x, slash ∉ x) xs.
Proof. intros H. eapply Forall_impl; [exact H|]. by intros x (_ & _ & _ & ?). Qed.

Lemma plain_not_nil xs : Forall plain xs → Forall (λ x, x ≠ []) xs.
Proof. intros H. eapply Forall_impl; [exact H|]. by intros x (? & _). Qed.

(** The elements of a rooted path, cleaned. *)
Definition elements_of (p : bytes) : list bytes := clean_segs true (split_on slash p).

Lemma elements_of_plain p : Forall plain (elements_of p).
Proof. apply clean_segs_rooted, split_on_no_sep. Qed.

Lemma clean_rooted p :
  clean_bytes (slash :: p) = slash :: join_on slash (elements_of p).
Proof.
  unfold elements_of. cbn [clean_bytes rooted]. rewrite Ascii.eqb_refl.
  cbn [split_on]. rewrite Ascii.eqb_refl. unfold clean_segs. cbn [foldl].
  by rewrite clean_step_nil.
Qed.

Lemma elements_of_join xs :
  Forall plain xs → elements_of (join_on slash xs) = xs.
Proof.
  intros H. unfold elements_of. destruct (decide (xs = [])) as [->|Hne]; [done|].
  rewrite split_join_on; [|done|by apply plain_no_slash].
  by apply clean_segs_plain.
Qed.

Lemma elements_of_join_slash xs :
  Forall plain xs → xs ≠ [] → elements_of (join_on slash xs ++ [slash]) = xs.
Proof.
  intros H Hne. unfold elements_of. rewrite split_on_app, split_join_on;
    [|done|by apply plain_no_slash].
  unfold clean_segs. rewrite foldl_app, (foldl_plain _ xs) by done. cbn.
  by rewrite clean_step_nil, app_nil_r, rev_involutive.
Qed.

(** *** Cleaning does not make a path longer *)

Fixpoint weight (xs : list bytes) : nat :=
  match xs with [] => 0 | x :: xs => S (length x) + weight xs end.

Lemma weight_app xs ys : weight (xs ++ ys) = weight xs + weight ys.
Proof. induction xs as [|x xs IH]; cbn; lia. Qed.

Lemma weight_rev xs : weight (rev xs) = weight xs.
Proof. induction xs as [|x xs IH]; [done|]. cbn [rev]. rewrite weight_app, IH. cbn. lia. Qed.

Lemma length_join_on xs : xs ≠ [] → S (length (join_on slash xs)) = weight xs.
Proof.
  induction xs as [|x [|y xs] IH]; intros Hne; [done|cbn; lia|].
  rewrite join_on_cons by done. rewrite length_app. cbn [length]. rewrite IH by done. cbn. lia.
Qed.

Lemma clean_step_weight r st x : weight (clean_step r st x) ≤ weight st + S (length x).
Proof.
  unfold clean_step. case_decide; [lia|]. case_decide as Hx.
  - subst x. destruct st as [|y st]; [destruct r; cbn; lia|].
    case_decide; cbn; lia.
  - cbn. lia.
Qed.

Lemma foldl_weight r xs st : weight (foldl (clean_step r) st xs) ≤ weight st + weight xs.
Proof.
  revert st. induction xs as [|x xs IH]; intros st; cbn [foldl]; [lia|].
  etransitivity; [apply IH|]. pose proof (clean_step_weight r st x). cbn. lia.
Qed.

Lemma clean_segs_weight r xs : weight (clean_segs r xs) ≤ weight xs.
Proof. unfold clean_segs. rewrite weight_rev. etransitivity; [apply foldl_weight|]. done. Qed.

Lemma length_join_clean r xs : length (join_on slash (clean_segs r xs)) ≤ weight xs - 1.
Proof.
  pose proof (clean_segs_weight r xs). destruct (decide (clean_segs r xs = [])) as [->|Hne]; [cbn; lia|].
  pose proof (length_join_on _ Hne). lia.
Qed.

Lemma weight_split p : weight (split_on slash p) = S (length p).
Proof. rewrite <- length_join_on by apply split_on_nonempty. by rewrite join_split_on. Qed.

Lemma length_clean p : length (clean_bytes p) ≤ Nat.max 1 (length p).
Proof.
  destruct p as [|c p]; [cbn; lia|]. destruct (Ascii.eqb_spec c slash) as [->|Hc].
  - rewrite clean_rooted. cbn [length]. unfold elements_of.
    pose proof (length_join_clean true (split_on slash p)). rewrite weight_split in *. lia.
  - unfold clean_bytes. cbn [rooted]. destruct (Ascii.eqb_spec c slash); [done|].
    pose proof (length_join_clean false (split_on slash (c :: p))). rewrite weight_split in *.
    destruct (join_on _ _) eqn:E; [cbn; lia|]. rewrite <- E in *. lia.
Qed.

(** A slash at the end is dropped. *)
Lemma clean_snoc_slash p : p ≠ [] → clean_bytes (p ++ [slash]) = clean_bytes p.
Proof.
  intros Hp. assert (rooted (p ++ [slash]) = rooted p) as Hr by by destruct p.
  unfold clean_bytes. rewrite Hr. rewrite split_on_app. unfold clean_segs. rewrite foldl_app.
  cbn [split_on foldl]. rewrite clean_step_nil. by destruct p.
Qed.

Lemma split_last_app p : p = (split_last p).1 ++ (split_last p).2.
Proof.
  induction p as [|c p IH]; [done|]. cbn. destruct (split_last p) as [d f]. cbn in IH. rewrite IH.
  destruct d as [|x d]; [|done]. by destruct (Ascii.eqb c slash).
Qed.

Lemma split_last_slash p : (split_last p).1 = [] ∨ ∃ d, (split_last p).1 = d ++ [slash].
Proof.
  induction p as [|c p IH]; [by left|]. cbn. destruct (split_last p) as [d f]. cbn in IH.
  destruct IH as [->|[d' ->]].
  - destruct (Ascii.eqb_spec c slash) as [->|]; [right; by exists []|by left].
  - right. exists (c :: d'). by destruct d'.
Qed.

(** The parent of a path is shorter, unless there is none. *)
Lemma length_dir p : 2 ≤ length p → length (clean_bytes (split_last p).1) < length p.
Proof.
  intros Hp. pose proof (length_clean (split_last p).1) as Hl.
  pose proof (f_equal length (split_last_app p)) as Hs. rewrite length_app in Hs.
  destruct (split_last p).2 as [|c f] eqn:Ef; cbn in Hs; [|lia].
  destruct (split_last_slash p) as [E|[d E]]; rewrite E in *; [cbn in *; lia|].
  rewrite length_app in *. cbn in *. assert (d ≠ []) by (intros ->; cbn in *; lia).
  rewrite clean_snoc_slash by done. pose proof (length_clean d). lia.
Qed.

Lemma dir_short p : length p ≤ 1 →
  clean_bytes (split_last p).1 = dot ∨ clean_bytes (split_last p).1 = [slash].
Proof.
  destruct p as [|c [|]]; cbn; intros Hp; [| |lia]; [by left|].
  destruct (Ascii.eqb_spec c slash) as [->|]; [right|left]; cbn; by try case_decide.
Qed.
End Path.

(** ** Sorting by key ([sort.Strings] on the keys of a map) *)

Section sort.
Context {V : Type}.
Implicit Types (x : string * V) (l : list (string * V)).

Fixpoint insert_key x l : list (string * V) :=
  match l with
  | [] => [x]
  | y :: l' => if String.leb x.1 y.1 then x :: l else y :: insert_key x l'
  end.
Definition sort_keys l : list (string * V) := foldr insert_key [] l.

Lemma insert_key_perm x l : insert_key x l ≡ₚ x :: l.
Proof.
  induction l as [|y l IH]; [done|]. cbn. destruct (String.leb x.1 y.1); [done|].
  rewrite IH. constructor.
Qed.

Lemma sort_keys_perm l : sort_keys l ≡ₚ l.
Proof. induction l as [|x l IH]; [done|]. cbn. by rewrite insert_key_perm, IH. Qed.

(** The order of strings is the one of their octets. *)
Lemma leb_trans s t u : String.leb s t = true → String.leb t u = true → String.leb s u = true.
Proof.
  revert t u. induction s as [|a s IH]; intros [|b t] [|c u]; unfold String.leb in *; cbn;
    try done; unfold Ascii.compare; try (by destruct (_ ?= _)%N; congruence).
  specialize (IH t u).
  destruct (N.compare_spec (N_of_ascii a) (N_of_ascii b)) as [E1|E1|E1];
    destruct (N.compare_spec (N_of_ascii b) (N_of_ascii c)) as [E2|E2|E2];
    destruct (N.compare_spec (N_of_ascii a) (N_of_ascii c)) as [E3|E3|E3]; try done; lia.
Qed.

Definition key_le (x y : string * V) : Prop := String.leb x.1 y.1 = true.

Lemma insert_key_sorted x l : StronglySorted key_le l → StronglySorted key_le (insert_key x l).
Proof.
  induction 1 as [|y l Hl IH Hy]; cbn; [repeat constructor|].
  destruct (String.leb x.1 y.1) eqn:E.
  - repeat constructor; try done. eapply Forall_impl; [exact Hy|]. intros z. by apply leb_trans.
  - constructor; [done|]. rewrite insert_key_perm. constructor; [|done]. unfold key_le.
    destruct (String.leb_total x.1 y.1); congruence.
Qed.

Lemma sort_keys_sorted l : StronglySorted key_le (sort_keys l).
Proof. induction l as [|x l IH]; [constructor|]. by apply insert_key_sorted. Qed.
End sort.

(** ** encoding/hex *)
Module Hex.
Definition encode_octet (c : octet) : bytes :=
  [hex_digit_of (nat_of_ascii c / 16); hex_digit_of (nat_of_ascii c mod 16)].

(** [hex.EncodeToString]. *)
Definition EncodeToString (d : bytes) : string := of_bytes (concat (encode_octet <$> d)).

Definition digit (c : octet) : option nat :=
  let n := nat_of_ascii c in
  if (48 <=? n) && (n <=? 57) then Some (n - 48)
  else if (97 <=? n) && (n <=? 102) then Some (n - 87)
  else if (65 <=? n) && (n <=? 70) then Some (n - 55)
  else None.

Fixpoint decode (l : bytes) : option bytes :=
  match l with
  | [] => Some []
  | a :: b :: l => x ← digit a; y ← digit b; d ← decode l; Some (ascii_of_nat (x * 16 + y) :: d)
  | _ => None
  end.

(** [hex.DecodeString]. *)
Definition DecodeString (s : string) : result bytes :=
  match decode (to_bytes s) with
  | Some d => inl d
  | None => inr (Errorf "encoding/hex: invalid")
  end.

Lemma digit_octet c : ∃ x y,
  encode_octet c = [x; y] ∧ digit x = Some (nat_of_ascii c / 16) ∧
  digit y = Some (nat_of_ascii c mod 16).
Proof. by destruct c as [[] [] [] [] [] [] [] []]; do 2 eexists; split_and!. Qed.

Lemma DecodeString_encode d : DecodeString (EncodeToString d) = inl d.
Proof.
  unfold DecodeString, EncodeToString. rewrite to_of_bytes.
  assert (decode (concat (encode_octet <$> d)) = Some d) as ->; [|done].
  induction d as [|c d IH]; [done|]. rewrite fmap_cons. cbn [concat].
  destruct (digit_octet c) as (x & y & -> & Hx & Hy). cbn [app decode]. rewrite Hx, Hy.
  cbn [mbind option_bind]. rewrite IH. cbn [mbind option_bind].
  rewrite (Nat.mul_comm _ 16), <- Nat.div_mod by done.
  by rewrite ascii_nat_embedding.
Qed.
End Hex.
