(* ===== verification/GoRegexp.v ===== *)
(** * Regular expressions of the Go standard library

    The matcher of package [regexp] on the expressions the program uses, by
    backtracking in the order that defines leftmost-first matching, with one
    capturing group.  [lang] says which octet strings an expression denotes;
    [MatchString] is proved to decide it. *)

From S2P Require Import Prelude GoString.
From stdpp Require Import options.

Inductive re :=
  | Eps
  | Chr (p : octet → bool)
  | Seq (a b : re)
  | Alt (a b : re)
  | Star (a : re)
  | Grp (a : re).

Inductive lang : re → bytes → Prop :=
  | lang_eps : lang Eps []
  | lang_chr p c : p c = true → lang (Chr p) [c]
  | lang_seq a b u v : lang a u → lang b v → lang (Seq a b) (u ++ v)
  | lang_alt_l a b u : lang a u → lang (Alt a b) u
  | lang_alt_r a b u : lang b u → lang (Alt a b) u
  | lang_star_nil a : lang (Star a) []
  | lang_star_app a u v : u ≠ [] → lang a u → lang (Star a) v → lang (Star a) (u ++ v)
  | lang_grp a u : lang a u → lang (Grp a) u.

(** ** Building expressions *)

Definition chr (c : octet) : re := Chr (Ascii.eqb c).
Definition lit_bytes (l : bytes) : re := foldr (λ c r, Seq (chr c) r) Eps l.
Definition lit (s : string) : re := lit_bytes (to_bytes s).
Definition plus (a : re) : re := Seq a (Star a).
Definition opt (a : re) : re := Alt a Eps.
Fixpoint alts (l : list re) : re :=
  match l with [] => Chr (λ _, false) | [a] => a | a :: l' => Alt a (alts l') end.
Fixpoint seqs (l : list re) : re :=
  match l with [] => Eps | [a] => a | a :: l' => Seq a (seqs l') end.
Fixpoint repeat_re (n : nat) (a : re) : re :=
  match n with O => Eps | S n' => Seq a (repeat_re n' a) end.
Definition not_chr (c : octet) : re := Chr (λ d, negb (Ascii.eqb c d)).
Definition digit : re := Chr is_digit.

(** ** The matcher *)

Section backtrack.
Context {R : Type}.
Abbreviation cont := (bytes → option bytes → option R).

(** Greedy iteration of the matcher [m]: one more non-empty match if the rest
    can follow it, the continuation otherwise. *)
Fixpoint iterate (m : bytes → option bytes → cont → option R)
    (fuel : nat) (s : bytes) (cap : option bytes) (k : cont) : option R :=
  match fuel with
  | O => k s cap
  | S fuel' =>
      match m s cap (λ s' cap',
               if length s' <? length s then iterate m fuel' s' cap' k else None) with
      | Some x => Some x
      | None => k s cap
      end
  end.

(** Matches a prefix of [s] and calls [k] on the rest, trying the choices in
    order of preference until [k] succeeds. *)
Fixpoint bt (r : re) (s : bytes) (cap : option bytes) (k : cont) : option R :=
  match r with
  | Eps => k s cap
  | Chr p => match s with c :: s' => if p c then k s' cap else None | [] => None end
  | Seq a b => bt a s cap (λ s' cap', bt b s' cap' k)
  | Alt a b => match bt a s cap k with Some x => Some x | None => bt b s cap k end
  | Star a => iterate (bt a) (length s) s cap k
  | Grp a => bt a s cap (λ s' _, k s' (Some (take (length s - length s') s)))
  end.

Definition sound_for (a : re) (m : bytes → option bytes → cont → option R) : Prop :=
  ∀ s cap k x, m s cap k = Some x →
    ∃ u s' cap', s = u ++ s' ∧ lang a u ∧ k s' cap' = Some x.

Definition complete_for (a : re) (m : bytes → option bytes → cont → option R) : Prop :=
  ∀ u s cap k, lang a u → (∀ cap', is_Some (k s cap')) → is_Some (m (u ++ s) cap k).

Lemma iterate_sound a m fuel :
  sound_for a m → sound_for (Star a) (iterate m fuel).
Proof.
  intros Hm. induction fuel as [|fuel IH]; intros s cap k x; cbn [iterate].
  { intros H. exists [], s, cap. repeat split; [constructor|done]. }
  match goal with |- match m s cap ?f with _ => _ end = _ → _ =>
    destruct (m s cap f) as [y|] eqn:E end; intros H; simplify_eq.
  - apply Hm in E as (u & s' & cap' & -> & Hu & E).
    destruct (Nat.ltb_spec (length s') (length (u ++ s'))) as [Hlt|]; [|done].
    apply IH in E as (v & s'' & cap'' & -> & Hv & E).
    exists (u ++ v), s'', cap''. rewrite app_assoc. repeat split; [|done].
    constructor; [|done..]. intros ->. cbn in Hlt. lia.
  - exists [], s, cap. repeat split; [constructor|done].
Qed.

Lemma iterate_complete a m :
  complete_for a m →
  ∀ r u, lang r u → r = Star a →
  ∀ fuel s cap k, length (u ++ s) ≤ fuel → (∀ cap', is_Some (k s cap')) →
    is_Some (iterate m fuel (u ++ s) cap k).
Proof.
  intros Hm r u Hu. induction Hu as [| | | | |a'|a' u v Hne Ha _ Hv IH|];
    intros Hr fuel s cap k Hlen Hk; simplify_eq; cbn [app].
  - destruct fuel as [|fuel]; cbn [iterate]; [apply Hk|].
    match goal with |- is_Some (match ?b with _ => _ end) =>
      destruct b; [done|apply Hk] end.
  - assert (1 ≤ length u) as Hpos by (destruct u; [done|cbn; lia]).
    rewrite !length_app in Hlen. destruct fuel as [|fuel]; [lia|].
    cbn [iterate].
    match goal with |- is_Some (match ?b with _ => _ end) =>
      enough (is_Some b) as [? ->] by done end.
    rewrite <- app_assoc. apply Hm; [done|]. intros cap'.
    rewrite (proj2 (Nat.ltb_lt _ _)) by (rewrite !length_app; lia).
    apply IH; [done| |done]. rewrite length_app. lia.
Qed.

Lemma bt_sound r : sound_for r (bt r).
Proof.
  induction r as [|p|a IHa b IHb|a IHa b IHb|a IH|a IH];
    intros s cap k x; cbn [bt].
  - intros H. exists [], s, cap. repeat split; [constructor|done].
  - destruct s as [|c s]; [done|]. destruct (p c) eqn:E; [|done].
    intros H. exists [c], s, cap. repeat split; [by constructor|done].
  - intros (u & s' & cap' & -> & Ha & H)%IHa.
    apply IHb in H as (v & s'' & cap'' & -> & Hb & H).
    exists (u ++ v), s'', cap''. rewrite <- app_assoc.
    repeat split; [by constructor|done].
  - destruct (bt a s cap k) as [y|] eqn:E; intros H; simplify_eq.
    + apply IHa in E as (u & s' & cap' & -> & ? & ?).
      exists u, s', cap'. repeat split; [by apply lang_alt_l|done].
    + apply IHb in H as (u & s' & cap' & -> & ? & ?).
      exists u, s', cap'. repeat split; [by apply lang_alt_r|done].
  - intros H. by eapply iterate_sound.
  - intros (u & s' & cap' & -> & Ha & H)%IH.
    eexists u, s', _. repeat split; [by constructor|exact H].
Qed.

Lemma bt_complete r : complete_for r (bt r).
Proof.
  induction r as [|p|a IHa b IHb|a IHa b IHb|a IH|a IH];
    intros u s cap k Hu Hk; cbn [bt].
  - inversion Hu; subst. apply Hk.
  - inversion Hu as [|? c Hc| | | | | |]; subst. cbn. case_match; [apply Hk|congruence].
  - inversion Hu; subst. rewrite <- app_assoc.
    apply IHa; [done|]. intros cap'. by apply IHb.
  - inversion Hu; subst.
    + edestruct (IHa u s cap k) as [? ->]; done.
    + destruct (bt a (u ++ s) cap k); [done|]. by apply IHb.
  - by eapply iterate_complete.
  - inversion Hu; subst. apply IH; [done|].
    intros cap'. apply Hk.
Qed.
End backtrack.

(** ** Searching *)

(** An expression with its anchors: [^] (or [\A]) and [$] (or [\z]). *)
Record regexp := mk_regexp { at_start : bool; pattern : re; at_end : bool }.

(** A match at the start of [s], if [at_end] holds up to its end. *)
Definition match_here (x : regexp) (s : bytes) : bool :=
  match bt (pattern x) s None (λ s' _,
          match s' with
          | _ :: _ => if at_end x then None else Some tt
          | [] => Some tt
          end) with
  | Some _ => true
  | None => false
  end.

Fixpoint match_from (x : regexp) (s : bytes) : bool :=
  match_here x s || match s with [] => false | _ :: s' => match_from x s' end.

(** [Regexp.MatchString]. *)
Definition MatchString (x : regexp) (s : string) : bool :=
  if at_start x then match_here x (to_bytes s) else match_from x (to_bytes s).

Lemma match_here_spec x s :
  match_here x s = true ↔
  ∃ u v, s = u ++ v ∧ lang (pattern x) u ∧ (at_end x = true → v = []).
Proof.
  unfold match_here. split.
  - match goal with |- match ?b with _ => _ end = _ → _ => destruct b eqn:E; [|done] end.
    intros _. apply bt_sound in E as (w & v & cap & -> & Hu & E).
    exists w, v. repeat split; [done|]. intros Hx. rewrite Hx in E. by destruct v.
  - intros (u & v & -> & Hu & Hv).
    match goal with |- match ?b with _ => _ end = _ =>
      enough (is_Some b) as [? ->] by done end.
    apply bt_complete; [done|]. intros _. destruct v as [|c v]; [done|].
    destruct (at_end x); [by discriminate Hv|done].
Qed.

Lemma match_from_spec x s :
  match_from x s = true ↔
  ∃ a u v, s = a ++ u ++ v ∧ lang (pattern x) u ∧ (at_end x = true → v = []).
Proof.
  induction s as [|c s IH]; cbn [match_from]; rewrite orb_true_iff, match_here_spec.
  - split.
    + intros [(u & v & -> & ? & ?)|]; [|done]. by exists [], u, v.
    + intros (a & u & v & Hs & ? & ?). left. destruct a; [by exists u, v|done].
  - rewrite IH. split.
    + intros [(u & v & -> & ? & ?)|(a & u & v & -> & ? & ?)].
      * by exists [], u, v.
      * by exists (c :: a), u, v.
    + intros ([|d a] & u & v & Hs & ? & ?); simplify_eq/=.
      * left. by exists u, v.
      * right. by exists a, u, v.
Qed.

(** [MatchString] decides whether some substring, at the anchored positions,
    belongs to the language of the expression. *)
Theorem MatchString_spec x s :
  MatchString x s = true ↔
  ∃ a u v, to_bytes s = a ++ u ++ v ∧ lang (pattern x) u ∧
    (at_start x = true → a = []) ∧ (at_end x = true → v = []).
Proof.
  unfold MatchString. destruct (at_start x).
  - rewrite match_here_spec. split.
    + intros (u & v & -> & ? & ?). by exists [], u, v.
    + intros (a & u & v & Hs & ? & Ha & ?). rewrite Ha in Hs by done. by exists u, v.
  - rewrite match_from_spec. split; intros (a & u & v & ?); exists a, u, v; naive_solver.
Qed.

(** ** Literals *)

Lemma lang_lit_bytes l u : lang (lit_bytes l) u ↔ u = l.
Proof.
  revert u. induction l as [|c l IH]; intros u; cbn.
  - split; [by inversion_clear 1|intros ->; constructor].
  - split.
    + inversion_clear 1 as [| |? ? v w Hv Hw| | | | |].
      inversion_clear Hv as [|? d Hd| | | | | |]. apply Ascii.eqb_eq in Hd as ->.
      apply IH in Hw as ->. done.
    + intros ->. change (c :: l) with ([c] ++ l). constructor; [|by apply IH].
      constructor. apply Ascii.eqb_refl.
Qed.

Lemma lang_lit t u : lang (lit t) u ↔ u = to_bytes t.
Proof. apply lang_lit_bytes. Qed.

(** An anchored literal matches the strings it is a prefix of. *)
Lemma MatchString_lit t s :
  MatchString {| at_start := true; pattern := lit t; at_end := false |} s =
    has_prefix s t.
Proof.
  apply eq_iff_eq_true. rewrite MatchString_spec, has_prefix_spec. cbn. split.
  - intros (a & u & v & Hs & Hu%lang_lit & Ha & _). subst u. rewrite Ha in Hs by done.
    exists (of_bytes v). apply (inj to_bytes). rewrite Hs, to_bytes_app, to_of_bytes. done.
  - intros [r ->]. exists [], (to_bytes t), (to_bytes r).
    rewrite to_bytes_app. repeat split; [|done]. by apply lang_lit.
Qed.

(** ** Replacement *)

(** One match at the start of [s]: the rest, and what the group captured. *)
Definition find_here (r : re) (s : bytes) : option (bytes * bytes) :=
  bt r s None (λ s' cap, Some (s', default [] cap)).

(** [Regexp.ReplaceAllString] for an expression that has no empty match: from
    left to right, each match is replaced by [f] of its group. *)
Fixpoint replace_from (r : re) (f : bytes → bytes) (fuel : nat) (s : bytes) : bytes :=
  match fuel with
  | O => s
  | S fuel' =>
      match find_here r s with
      | Some (s', g) =>
          if length s' <? length s then f g ++ replace_from r f fuel' s'
          else match s with [] => [] | c :: s'' => c :: replace_from r f fuel' s'' end
      | None => match s with [] => [] | c :: s'' => c :: replace_from r f fuel' s'' end
      end
  end.
Definition replace_all (r : re) (f : bytes → bytes) (s : bytes) : bytes :=
  replace_from r f (S (length s)) s.
