(* ===== verification/Http.v ===== *)
(** * Requests, responses and handler programs

    The parts of [net/http] the program is written against.  A header is a
    finite map from canonical names to lists of values.  A handler is a
    [prog]: a tree of calls on its [http.ResponseWriter] and on the environment
    (files, clock, metrics, logs, other servers), each followed by what the code
    does with the answer.  A middleware that passes its own [ResponseWriter] to
    the handler it wraps is a [Wrapper]: two methods that are themselves
    programs on the underlying writer; [under] runs a handler against them.
    [run] executes a program on the state of a [net/http] response. *)

From S2P Require Import Prelude GoString.
From stdpp Require Import options.

(** ** Headers *)

Abbreviation header := (gmap string (list string)).

Module Header.
(** An octet of an RFC 7230 token. *)
Definition token_octet (c : octet) : bool :=
  is_digit c || is_upper c || is_lower c ||
  existsb (Ascii.eqb c) (to_bytes "!#$%&'*+-.^_`|~").

Fixpoint canonical_octets (up : bool) (l : bytes) : bytes :=
  match l with
  | [] => []
  | c :: l' =>
      (if up then upper c else lower c) :: canonical_octets (Ascii.eqb c "-"%char) l'
  end.

(** [textproto.CanonicalMIMEHeaderKey]. *)
Definition canonical_key (k : string) : string :=
  if forallb token_octet (to_bytes k)
  then of_bytes (canonical_octets true (to_bytes k)) else k.

Definition Values (h : header) (k : string) : list string :=
  default [] (h !! canonical_key k).
Definition Get (h : header) (k : string) : string := default "" (head (Values h k)).
Definition Set_ (h : header) (k v : string) : header := <[canonical_key k := [v]]> h.
Definition Del (h : header) (k : string) : header := delete (canonical_key k) h.

Lemma Get_Set_eq h k v : Get (Set_ h k v) k = v.
Proof. unfold Get, Values, Set_. by rewrite lookup_insert_eq. Qed.

Lemma Get_Set_ne h k k' v :
  canonical_key k ≠ canonical_key k' → Get (Set_ h k v) k' = Get h k'.
Proof. intros H. unfold Get, Values, Set_. by rewrite lookup_insert_ne. Qed.

Lemma Get_Del_eq h k : Get (Del h k) k = "".
Proof. unfold Get, Values, Del. by rewrite lookup_delete_eq. Qed.

Lemma Get_Del_ne h k k' :
  canonical_key k ≠ canonical_key k' → Get (Del h k) k' = Get h k'.
Proof. intros H. unfold Get, Values, Del. by rewrite lookup_delete_ne. Qed.
End Header.

(** ** Requests *)

(** The fields of a [url.URL] the program reads or writes. *)
Record url := mk_url { Scheme : string; UHost : string; Path_ : string; RawQuery : string }.

(** A request or response body: the octets it delivers, then [EOF] or the error
    that ends it. *)
Record body := mk_body { b_data : bytes; b_end : gerr }.
Definition whole (d : bytes) : body := {| b_data := d; b_end := EOF |}.

Record Request := mk_request {
  Method : string;
  URL : url;
  ProtoMajor : Z;
  ProtoMinor : Z;
  Header_ : header;
  Body : option body;
  ContentLength : Z;
  Host : string;
  RequestURI : string;
  RemoteAddr : string;
}.

Definition with_header (r : Request) (h : header) : Request :=
  {| Method := Method r; URL := URL r; ProtoMajor := ProtoMajor r;
     ProtoMinor := ProtoMinor r; Header_ := h; Body := Body r;
     ContentLength := ContentLength r; Host := Host r;
     RequestURI := RequestURI r; RemoteAddr := RemoteAddr r |}.

Definition with_body (r : Request) (b : option body) (n : Z) : Request :=
  {| Method := Method r; URL := URL r; ProtoMajor := ProtoMajor r;
     ProtoMinor := ProtoMinor r; Header_ := Header_ r; Body := b;
     ContentLength := n; Host := Host r;
     RequestURI := RequestURI r; RemoteAddr := RemoteAddr r |}.

(** ** The environment *)

(** An open file or connection, named by a number. *)
Abbreviation fd := nat.

(** The response of another server; its body is read from a connection, or lies in
    memory. *)
Record Response := mk_response {
  StatusCode : Z;
  RHeader : header;
  RBody : body;
  RConn : option fd;
}.
Record FileInfo := mk_fileinfo { IsDir : bool; Size : Z; ModTime : Z }.

(** The value of a log field: text, a number, a duration in nanoseconds. *)
Inductive field := FText (s : string) | FInt (n : Z) | FDuration (ns : Z).

(** A protobuf message: its fields by name. *)
Inductive pb :=
  | PText (s : string)
  | PList (l : list string)
  | PEnum (n : Z)
  | PMsg (fields : list (string * pb)).

(** What a remote call answers: the size given by the first message, if one arrived,
    and the data of all messages. *)
Record rpc_stream := mk_rpc_stream { rs_size : option Z; rs_body : body }.

(** An exchange with data in both directions: what was answered while the data was still
    being sent, what was answered later, the error of sending the data, whether sending
    ended before receiving, and how much of the data had been taken when it failed. *)
Record rpc_session := mk_rpc_session {
  rpc_early : bytes;
  rpc_answer : body;
  rpc_send_error : option gerr;
  rpc_send_first : bool;
  rpc_taken : nat;
}.

(** How a process ended: an error, with the exit status if it has one. *)
Abbreviation exit := (option (gerr * option Z)).

(** What a program asks of its environment, with the type of the answer. *)
Inductive ext : Type → Type :=
  | Now : ext Z
  | Metric (name : string) (labels : list string) (delta : Z) : ext unit
  | Capture (hdrs : option header) (e : gerr) : ext unit
  | LogError_ (req : option (string * string)) (e : option gerr) : ext unit
  | LogInfo (fields : list (string * field)) (msg : string) : ext unit
  | AccessLog (fields : list (string * field)) : ext unit
  | ReadFile (path : string) : ext (result bytes)
  | OpenPath (path : string) : ext (result fd)
  | Stat (f : fd) : ext (result FileInfo)
  | ReadFd (f : fd) : ext body
  | CloseFd (f : fd) : ext unit
  | RoundTrip_ (r : Request) : ext (result Response)
  (* a request whose body is still being produced: also the octets of it taken *)
  | Do_ (r : Request) : ext (result Response * nat)
  | TempFile_ (dir prefix : string) : ext (result (fd * string))
  | WriteFd (f : fd) (d : bytes) : ext (nat * option gerr)
  | SeekFd (f : fd) : ext (option gerr)
  | Remove_ (path : string) : ext (option gerr)
  | MkdirAll_ (path : string) : ext (option gerr)
  | Link_ (old new : string) : ext (option gerr)
  (* a process and its standard output; closing it kills and reaps it *)
  | StartCmd (args environ : list string) (stdin : option body) : ext (result fd)
  | WaitCmd (f : fd) : ext exit
  | Output_ (args environ : list string) : ext (result bytes)
  (* Gitaly: a shared connection, and calls on it *)
  | Dial_ (address token : string) : ext (result nat)
  | Rpc_ (conn : nat) (method : string) (request : pb) : ext (result rpc_stream)
  | Bidi_ (conn : nat) (method : string) (request : pb) (data : body) : ext (result rpc_session)
  (* the exchange with a process through its standard input and output *)
  | Duplex_ (f : fd) (data : body) : ext rpc_session
  | QueueAcquire (name : string) : ext (option gerr)
  | QueueRelease (name : string) : ext unit.

(** ** Programs *)

Inductive prog (A : Type) : Type :=
  | Ret (a : A)
  | Raise (why : string)
  | HGet (k : string) (c : list string → prog A)
  | HPut (k : string) (vs : option (list string)) (c : prog A)
  | WHeader (status : Z) (c : prog A)
  | WBody (d : bytes) (c : Z * option gerr → prog A)
  | Call {X : Type} (e : ext X) (c : X → prog A).
Arguments Ret {A} a.
Arguments Raise {A} why.
Arguments HGet {A} k c.
Arguments HPut {A} k vs c.
Arguments WHeader {A} status c.
Arguments WBody {A} d c.
Arguments Call {A X} e c.

Fixpoint bind {A B} (p : prog A) (f : A → prog B) : prog B :=
  match p with
  | Ret a => f a
  | Raise m => Raise m
  | HGet k c => HGet k (λ vs, bind (c vs) f)
  | HPut k vs c => HPut k vs (bind c f)
  | WHeader s c => WHeader s (bind c f)
  | WBody d c => WBody d (λ r, bind (c r) f)
  | Call e c => Call e (λ x, bind (c x) f)
  end.

Declare Scope prog_scope.
Delimit Scope prog_scope with prog.
Notation "x <- p ;; q" := (bind p (λ x, q))
  (at level 100, p at next level, right associativity) : prog_scope.
Notation "' x <- p ;; q" := (bind p (λ x, q))
  (at level 100, x pattern, p at next level, right associativity) : prog_scope.
Notation "p ;; q" := (bind p (λ _, q))
  (at level 100, right associativity) : prog_scope.
#[global] Open Scope prog_scope.

(** The calls, one at a time.  [w.Header()] is one map shared by every writer of
    a chain: its operations go straight to the underlying response. *)
Definition call {X} (e : ext X) : prog X := Call e Ret.
Definition header_get (k : string) : prog string :=
  HGet (Header.canonical_key k) (λ vs, Ret (default "" (head vs))).
Definition header_set (k v : string) : prog unit :=
  HPut (Header.canonical_key k) (Some [v]) (Ret tt).
Definition header_del (k : string) : prog unit :=
  HPut (Header.canonical_key k) None (Ret tt).
(** [w.Header()[k] = vs], which does not canonicalise [k]. *)
Definition header_put (k : string) (vs : list string) : prog unit :=
  HPut k (Some vs) (Ret tt).
Definition write_header (status : Z) : prog unit := WHeader status (Ret tt).
Definition write (d : bytes) : prog (Z * option gerr) := WBody d Ret.

(** [p] with a panic turned into a value ([recover]). *)
Fixpoint try {A} (p : prog A) : prog (outcome A) :=
  match p with
  | Ret a => Ret (Value a)
  | Raise m => Ret (Panic m)
  | HGet k c => HGet k (λ vs, try (c vs))
  | HPut k vs c => HPut k vs (try c)
  | WHeader s c => WHeader s (try c)
  | WBody d c => WBody d (λ r, try (c r))
  | Call e c => Call e (λ x, try (c x))
  end.
Definition reraise {A} (o : outcome A) : prog A :=
  match o with Value a => Ret a | Panic m => Raise m end.

(** [p] with [q] deferred: [q] runs whether [p] returns or panics. *)
Definition deferring {A} (q : prog unit) (p : prog A) : prog A :=
  o <- try p;; q;; reraise o.

Abbreviation Handler := (Request → prog unit).

(** ** Wrapped response writers *)

(** A method of a writer with state [W]: a program on the underlying writer that
    ends with the new state, also when it panics. *)
Definition method (W A : Type) : Type := W → prog (outcome A * W).

Definition mret {W A} (a : A) : method W A := λ w, Ret (Value a, w).
Definition mbind {W A B} (m : method W A) (f : A → method W B) : method W B :=
  λ w, '(o, w') <- m w;;
       match o with Value a => f a w' | Panic e => Ret (Panic e, w') end.
Definition mget {W} : method W W := λ w, Ret (Value w, w).
Definition mput {W} (w : W) : method W unit := λ _, Ret (Value tt, w).
Definition mlift {W A} (p : prog A) : method W A :=
  λ w, o <- try p;; Ret (o, w).

Declare Scope method_scope.
Delimit Scope method_scope with method.
Notation "x <- m ;; n" := (mbind m (λ x, n))
  (at level 100, m at next level, right associativity) : method_scope.
Notation "m ;; n" := (mbind m (λ _, n))
  (at level 100, right associativity) : method_scope.

(** The methods a wrapper type gives [http.ResponseWriter]; its [Header] is the
    underlying one's. *)
Record Wrapper (W : Type) := {
  wr_Write : bytes → method W (Z * option gerr);
  wr_WriteHeader : Z → method W unit;
}.
Arguments wr_Write {W} _ _.
Arguments wr_WriteHeader {W} _ _.

(** [p] running on the wrapped writer. *)
Fixpoint under {W A} (wr : Wrapper W) (p : prog A) : method W A := λ w,
  match p with
  | Ret a => Ret (Value a, w)
  | Raise m => Ret (Panic m, w)
  | HGet k c => HGet k (λ vs, under wr (c vs) w)
  | HPut k vs c => HPut k vs (under wr c w)
  | WHeader s c => mbind (wr_WriteHeader wr s) (λ _, under wr c) w
  | WBody d c => mbind (wr_Write wr d) (λ r, under wr (c r)) w
  | Call e c => Call e (λ x, under wr (c x) w)
  end.

(** [defer fin(&w); h.ServeHTTP(&w, r)]: how both end, and the final state. *)
Definition serve_state {W A} (wr : Wrapper W) (w : W) (fin : method W unit)
    (p : prog A) : prog (outcome A * outcome unit * W) :=
  '(o, w') <- under wr p w;;
  '(o', w'') <- fin w';;
  Ret (o, o', w'').
Definition serve_under {W A} (wr : Wrapper W) (w : W) (fin : method W unit)
    (p : prog A) : prog A :=
  '(o, o', _) <- serve_state wr w fin p;;
  match o' with Value _ => reraise o | Panic m => Raise m end.

(** ** Responses *)

(** The state of a [net/http] response: the live header map, the status and the
    headers sent with it, the body written, how many octets the client still
    accepts ([None]: any number), and how many [WriteHeader] calls came after the
    headers were sent ([net/http] logs those and ignores them). *)
Record resp := mk_resp {
  r_hdr : header;
  r_status : option Z;
  r_sent : header;
  r_body : bytes;
  r_room : option nat;
  r_superfluous : nat;
}.

Definition new_resp (h : header) : resp :=
  {| r_hdr := h; r_status := None; r_sent := ∅; r_body := []; r_room := None;
     r_superfluous := 0 |}.

Definition resp_put (k : string) (vs : option (list string)) (r : resp) : resp :=
  {| r_hdr := partial_alter (λ _, vs) k (r_hdr r); r_status := r_status r;
     r_sent := r_sent r; r_body := r_body r; r_room := r_room r;
     r_superfluous := r_superfluous r |}.

Lemma resp_put_put k vs vs' r : resp_put k vs (resp_put k vs' r) = resp_put k vs r.
Proof.
  unfold resp_put. cbn. f_equal. apply map_eq. intros k'.
  destruct (decide (k' = k)) as [->|Hk].
  - by rewrite !lookup_partial_alter_eq.
  - by rewrite !lookup_partial_alter_ne.
Qed.

(** The same response with another header map. *)
Definition resp_with_hdr (h : header) (r : resp) : resp :=
  {| r_hdr := h; r_status := r_status r; r_sent := r_sent r; r_body := r_body r;
     r_room := r_room r; r_superfluous := r_superfluous r |}.

(** [WriteHeader] of [net/http]: the first call sends the header map as it is
    then. *)
Definition resp_header (s : Z) (r : resp) : resp :=
  match r_status r with
  | Some _ =>
      {| r_hdr := r_hdr r; r_status := r_status r; r_sent := r_sent r;
         r_body := r_body r; r_room := r_room r;
         r_superfluous := S (r_superfluous r) |}
  | None =>
      {| r_hdr := r_hdr r; r_status := Some s; r_sent := r_hdr r;
         r_body := r_body r; r_room := r_room r;
         r_superfluous := r_superfluous r |}
  end.

Definition body_allowed (s : Z) : bool :=
  negb (((100 <=? s)%Z && (s <=? 199)%Z) || (s =? 204)%Z || (s =? 304)%Z).

(** [Write] of [net/http]: sends a 200 first when no header was sent. *)
Definition resp_write (d : bytes) (r : resp) : (Z * option gerr) * resp :=
  let r := match r_status r with Some _ => r | None => resp_header 200 r end in
  if body_allowed (default 200%Z (r_status r)) then
    let d' := match r_room r with Some n => take n d | None => d end in
    ((Z.of_nat (length d'),
      if bool_decide (length d' = length d) then None
      else Some (Errorf "write: broken pipe")),
     {| r_hdr := r_hdr r; r_status := r_status r; r_sent := r_sent r;
        r_body := r_body r ++ d';
        r_room := (λ n, n - length d') <$> r_room r;
        r_superfluous := r_superfluous r |})
  else ((0%Z, Some ErrBodyNotAllowed), r).

(** [Body.Close]. *)
Definition close_body (resp : Response) : prog unit :=
  match RConn resp with Some f => call (CloseFd f) | None => Ret tt end.

(** An environment answers the external calls and changes its own state. *)
Abbreviation env W := (∀ X : Type, ext X → W → X * W).

Section run.
Context {W : Type} (E : env W).

Fixpoint run {A} (p : prog A) (r : resp) (w : W) : outcome A * resp * W :=
  match p with
  | Ret a => (Value a, r, w)
  | Raise m => (Panic m, r, w)
  | HGet k c => run (c (default [] (r_hdr r !! k))) r w
  | HPut k vs c => run c (resp_put k vs r) w
  | WHeader s c => run c (resp_header s r) w
  | WBody d c => let '(x, r') := resp_write d r in run (c x) r' w
  | Call e c => let '(x, w') := E _ e w in run (c x) r w'
  end.

Lemma run_bind {A B} (p : prog A) (f : A → prog B) r w :
  run (bind p f) r w =
    match run p r w with
    | (Value a, r', w') => run (f a) r' w'
    | (Panic m, r', w') => (Panic m, r', w')
    end.
Proof.
  revert r w. induction p as [a|m|k c IH|k vs c IH|s c IH|d c IH|X e c IH];
    intros r w; cbn; auto.
  - destruct (resp_write d r). auto.
  - destruct (E X e w). auto.
Qed.

Lemma run_try {A} (p : prog A) r w :
  run (try p) r w = let '(o, r', w') := run p r w in (Value o, r', w').
Proof.
  revert r w. induction p as [a|m|k c IH|k vs c IH|s c IH|d c IH|X e c IH];
    intros r w; cbn; auto.
  - destruct (resp_write d r). auto.
  - destruct (E X e w). auto.
Qed.

Lemma run_deferring {A} (q : prog unit) (p : prog A) r w :
  run (deferring q p) r w =
    let '(o, r', w') := run p r w in
    match run q r' w' with
    | (Value _, r'', w'') => (o, r'', w'')
    | (Panic m, r'', w'') => (Panic m, r'', w'')
    end.
Proof.
  unfold deferring. rewrite run_bind, run_try.
  destruct (run p r w) as [[o r'] w']. rewrite run_bind.
  destruct (run q r' w') as [[[] r''] w'']; [|done]. by destruct o.
Qed.

Lemma run_mbind {X A B} (m : method X A) (f : A → method X B) x r w :
  run (mbind m f x) r w =
    match run (m x) r w with
    | (Value (Value a, x'), r', w') => run (f a x') r' w'
    | (Value (Panic e, x'), r', w') => (Value (Panic e, x'), r', w')
    | (Panic e, r', w') => (Panic e, r', w')
    end.
Proof. unfold mbind. rewrite run_bind. by destruct (run (m x) r w) as [[[[[a|e] x']|e] r'] w']. Qed.

Lemma run_mlift {X A} (p : prog A) (x : X) r w :
  run (mlift p x) r w = let '(o, r', w') := run p r w in (Value (o, x), r', w').
Proof. unfold mlift. rewrite run_bind, run_try. by destruct (run p r w) as [[o r'] w']. Qed.
End run.

(** ** What a program leaves as it was *)

Section keeps.
Context {W T : Type} (E : env W) (obs : W → T).

(** However [p] ends, what is observed of the environment is what it was. *)
Definition keeps {A} (p : prog A) : Prop := ∀ r w, obs (run E p r w).2 = obs w.

Lemma keeps_ret {A} (a : A) : keeps (Ret a).
Proof. done. Qed.

Lemma keeps_bind {A B} (p : prog A) (f : A → prog B) :
  keeps p → (∀ a, keeps (f a)) → keeps (bind p f).
Proof.
  intros Hp Hf r w. rewrite run_bind. specialize (Hp r w).
  destruct (run E p r w) as [[[a|m] r'] w']; [|done]. by rewrite Hf.
Qed.

Lemma keeps_deferring {A} (q : prog unit) (p : prog A) :
  keeps q → keeps p → keeps (deferring q p).
Proof.
  intros Hq Hp r w. rewrite run_deferring. specialize (Hp r w).
  destruct (run E p r w) as [[o r'] w']. specialize (Hq r' w').
  destruct (run E q r' w') as [[[] r''] w'']; cbn in *; congruence.
Qed.

(** Every external call of [p] is one that changes nothing of what is observed. *)
Fixpoint harmless (ok : ∀ X, ext X → Prop) {A} (p : prog A) : Prop :=
  match p with
  | Ret _ | Raise _ => True
  | HGet _ c => ∀ vs, harmless ok (c vs)
  | HPut _ _ c => harmless ok c
  | WHeader _ c => harmless ok c
  | WBody _ c => ∀ x, harmless ok (c x)
  | Call e c => ok _ e ∧ ∀ x, harmless ok (c x)
  end.

Lemma harmless_bind (ok : ∀ X, ext X → Prop) {A B} (p : prog A) (f : A → prog B) :
  harmless ok p → (∀ a, harmless ok (f a)) → harmless ok (bind p f).
Proof. intros Hp Hf. induction p; cbn in *; naive_solver. Qed.

Lemma harmless_try (ok : ∀ X, ext X → Prop) {A} (p : prog A) :
  harmless ok p → harmless ok (try p).
Proof. intros Hp. induction p; cbn in *; naive_solver. Qed.

Lemma harmless_deferring (ok : ∀ X, ext X → Prop) {A} (q : prog unit) (p : prog A) :
  harmless ok q → harmless ok p → harmless ok (deferring q p).
Proof.
  intros Hq Hp. apply harmless_bind; [by apply harmless_try|]. intros o.
  apply harmless_bind; [done|]. intros _. by destruct o.
Qed.

Lemma keeps_harmless (ok : ∀ X, ext X → Prop) {A} (p : prog A) :
  (∀ X (e : ext X) w, ok X e → obs (E _ e w).2 = obs w) → harmless ok p → keeps p.
Proof.
  intros HE. induction p as [a|m|k c IH|k vs c IH|s c IH|d c IH|X x c IH];
    cbn [harmless]; intros Hp r w; cbn [run]; try done; try (by apply IH).
  - destruct (resp_write d r). by apply IH.
  - destruct Hp as [Hx Hp]. pose proof (HE X x w Hx) as Hw.
    destruct (E X x w) as [v w']. cbn in Hw. rewrite <- Hw. by apply IH.
Qed.
End keeps.

(** ** Open files

    An environment that hands out a fresh descriptor when it opens a file, and
    drops it when the file is closed. *)
Section files.
Context {W : Type} (E : env W) (fds : W → gset fd).

Definition opens_or_closes {X} (e : ext X) : bool :=
  match e with
  | OpenPath _ | CloseFd _ | RoundTrip_ _ | Do_ _ | TempFile_ _ _ | StartCmd _ _ _ => true
  | _ => false
  end.

(** The descriptor that a call opens. *)
Definition opened {X} (e : ext X) : X → option fd :=
  match e in ext X return X → option fd with
  | OpenPath _ => λ x, match x with inl f => Some f | inr _ => None end
  | TempFile_ _ _ => λ x, match x with inl (f, _) => Some f | inr _ => None end
  | StartCmd _ _ _ => λ x, match x with inl f => Some f | inr _ => None end
  | RoundTrip_ _ => λ x, match x with inl resp => RConn resp | inr _ => None end
  | Do_ _ => λ x, match x.1 with inl resp => RConn resp | inr _ => None end
  | _ => λ _, None
  end.

Definition closes {X} (e : ext X) : bool := match e with CloseFd _ => true | _ => false end.

Class FdEnv : Prop := {
  fd_opened : ∀ X (e : ext X) w, closes e = false →
    match opened e (E _ e w).1 with
    | Some f => f ∉ fds w ∧ fds (E _ e w).2 = {[f]} ∪ fds w
    | None => fds (E _ e w).2 = fds w
    end;
  fd_close : ∀ f w, fds (E _ (CloseFd f) w).2 = fds w ∖ {[f]};
}.

Lemma fd_open p w : FdEnv →
  match E _ (OpenPath p) w with
  | (inl f, w') => f ∉ fds w ∧ fds w' = {[f]} ∪ fds w
  | (inr _, w') => fds w' = fds w
  end.
Proof.
  intros HE. pose proof (fd_opened _ (OpenPath p) w eq_refl) as H. cbn in H.
  by destruct (E _ (OpenPath p) w) as [[f|x] w'].
Qed.

Lemma fd_other {X} (e : ext X) w :
  FdEnv → opens_or_closes e = false → fds (E _ e w).2 = fds w.
Proof.
  intros HE He. pose proof (fd_opened _ e w) as H. destruct e; try discriminate He; by apply H.
Qed.

(** A program that leaves open exactly the files that were open, however it ends. *)
Abbreviation closes_files := (keeps E fds).

Lemma closes_call {X} (e : ext X) :
  FdEnv → opens_or_closes e = false → closes_files (call e).
Proof.
  intros HE He r w. cbn. pose proof (fd_other e w HE He).
  by destruct (E X e w).
Qed.

(** A program that opens and closes nothing. *)
Lemma closes_no_files {A} (p : prog A) :
  FdEnv → harmless (λ _ e, opens_or_closes e = false) p → closes_files p.
Proof. intros HE. apply keeps_harmless. intros X e w. by apply fd_other. Qed.

(** The deferred close pays for the file the body found open. *)
Lemma closes_deferring {A} (p : prog A) f r w :
  FdEnv → closes_files p → f ∈ fds w →
  fds (run E (deferring (call (CloseFd f)) p) r w).2 = fds w ∖ {[f]}.
Proof.
  intros HE Hp Hf. rewrite run_deferring. specialize (Hp r w).
  destruct (run E p r w) as [[o r'] w']. cbn in Hp. cbn.
  pose proof (fd_close f w') as Hc. destruct (E _ (CloseFd f) w') as [[] w''].
  cbn in Hc |- *. by rewrite Hc, Hp.
Qed.

(** A program that opens one file when it succeeds and none when it fails. *)
Definition opens_one {X} (p : prog (result (fd * X))) : Prop := ∀ r w,
  let '(o, _, w') := run E p r w in
  match o with
  | Value (inl (f, _)) => f ∉ fds w ∧ fds w' = {[f]} ∪ fds w
  | _ => fds w' = fds w
  end.

(** Opening, then using the file with its closing deferred. *)
Lemma closes_opening {X A} (p : prog (result (fd * X))) (k : result (fd * X) → prog A)
    (body : fd → X → prog A) :
  FdEnv → opens_one p → (∀ e, closes_files (k (inr e))) →
  (∀ f x, k (inl (f, x)) = deferring (call (CloseFd f)) (body f x)) →
  (∀ f x, closes_files (body f x)) → closes_files (bind p k).
Proof.
  intros HE Hp Herr Hk Hbody r w. rewrite run_bind. specialize (Hp r w).
  destruct (run E p r w) as [[[[[f x]|e]|m] r'] w'].
  - destruct Hp as [Hf Hw]. rewrite Hk, closes_deferring; [set_solver..|by apply Hbody|set_solver].
  - by rewrite (Herr e r' w'), Hp.
  - done.
Qed.

(** A call that opens a file or a process, which is closed at the end of what follows. *)
Lemma closes_opening_call {A} (x : ext (result fd)) (k : result fd → prog A) (body : fd → prog A) :
  FdEnv → closes x = false →
  (∀ y, opened x y = match y with inl f => Some f | inr _ => None end) →
  (∀ e, closes_files (k (inr e))) → (∀ f, k (inl f) = deferring (call (CloseFd f)) (body f)) →
  (∀ f, closes_files (body f)) → closes_files (y <- call x;; k y).
Proof.
  intros HE Hc Ho Herr Hk Hbody w e. cbn [bind call run].
  pose proof (fd_opened _ x e Hc) as H. rewrite Ho in H.
  destruct (E _ x e) as [[f|y] e1]; cbn [fst snd] in H.
  - destruct H as [Hf H]. rewrite Hk, (closes_deferring _ f); [set_solver|done|done|set_solver].
  - by rewrite (Herr y w e1).
Qed.

(** A transport that opens the connection its answer is read from, and nothing else. *)
Definition opens_response (p : prog (result Response)) : Prop := ∀ w e,
  let '(o, _, e') := run E p w e in
  match o with
  | Value (inl resp) =>
      match RConn resp with
      | Some f => f ∉ fds e ∧ fds e' = {[f]} ∪ fds e
      | None => fds e' = fds e
      end
  | _ => fds e' = fds e
  end.

(** Whatever was opened for a response is closed with its body. *)
Definition holds_response (before : gset fd) (resp : Response) (e : W) : Prop :=
  match RConn resp with
  | Some f => f ∉ before ∧ fds e = {[f]} ∪ before
  | None => fds e = before
  end.

Lemma close_body_run before resp w e :
  FdEnv → holds_response before resp e →
  ∃ e', run E (close_body resp) w e = (Value tt, w, e') ∧ fds e' = before.
Proof.
  intros HE. unfold close_body, holds_response. destruct (RConn resp) as [f|]; intros H.
  - cbn. pose proof (fd_close f e) as Hc. destruct (E _ (CloseFd f) e) as [[] e'].
    eexists. split; [done|]. cbn in Hc. destruct H. set_solver.
  - by exists e.
Qed.

(** Closing a body again changes nothing. *)
Lemma close_body_again before resp w e :
  FdEnv → fds e = before → (∀ f, RConn resp = Some f → f ∉ before) →
  ∃ e', run E (close_body resp) w e = (Value tt, w, e') ∧ fds e' = before.
Proof.
  intros HE H Hf. unfold close_body. destruct (RConn resp) as [f|]; [|by exists e].
  cbn. pose proof (fd_close f e) as Hc. destruct (E _ (CloseFd f) e) as [[] e'].
  eexists. split; [done|]. cbn in Hc. specialize (Hf f eq_refl). set_solver.
Qed.

Lemma holds_response_fresh before resp e f :
  holds_response before resp e → RConn resp = Some f → f ∉ before.
Proof. unfold holds_response. intros H Hc. rewrite Hc in H. by destruct H. Qed.

End files.

(** ** Files

    An environment in which a temporary file has a name of its own, and is gone when it
    has been removed. *)
Section paths.
Context {W : Type} (E : env W) (files : W → gset string).

Definition makes_or_removes {X} (e : ext X) : bool :=
  match e with TempFile_ _ _ | Remove_ _ => true | _ => false end.

Class PathEnv : Prop := {
  path_temp : ∀ dir prefix w,
    match E _ (TempFile_ dir prefix) w with
    | (inl (_, p), w') => p ∉ files w ∧ files w' = {[p]} ∪ files w
    | (inr _, w') => files w' = files w
    end;
  path_remove : ∀ p w, files (E _ (Remove_ p) w).2 = files w ∖ {[p]};
  path_other : ∀ X (e : ext X) w, makes_or_removes e = false → files (E _ e w).2 = files w;
}.

Lemma keeps_files_harmless {A} (p : prog A) :
  PathEnv → harmless (λ _ e, makes_or_removes e = false) p → keeps E files p.
Proof. intros HE. apply keeps_harmless. intros X e w. apply path_other. Qed.

Lemma run_Remove p r w :
  PathEnv → ∃ x w', run E (call (Remove_ p)) r w = (Value x, r, w') ∧
    files w' = files w ∖ {[p]}.
Proof.
  intros HE. cbn. pose proof (path_remove p w) as H. destruct (E _ (Remove_ p) w) as [x w'].
  by exists x, w'.
Qed.

(** A program that has made a file when it succeeds. *)
Definition makes_file {X} (p : prog (result (X * string))) : Prop := ∀ r w,
  let '(o, _, w') := run E p r w in
  match o with
  | Value (inl (_, path)) => path ∉ files w ∧ files w' = {[path]} ∪ files w
  | _ => files w' = files w
  end.

Lemma TempFile_makes dir prefix : PathEnv → makes_file (call (TempFile_ dir prefix)).
Proof.
  intros HE r w. cbn. pose proof (path_temp dir prefix w) as H.
  by destruct (E _ (TempFile_ dir prefix) w) as [[[f p]|x] w'].
Qed.
End paths.


(** *** Programs that do not panic *)

Fixpoint never_panics {A} (p : prog A) : Prop :=
  match p with
  | Ret _ => True
  | Raise _ => False
  | HGet _ c => ∀ vs, never_panics (c vs)
  | HPut _ _ c => never_panics c
  | WHeader _ c => never_panics c
  | WBody _ c => ∀ x, never_panics (c x)
  | Call _ c => ∀ x, never_panics (c x)
  end.

Lemma never_panics_bind {A B} (p : prog A) (f : A → prog B) :
  never_panics p → (∀ a, never_panics (f a)) → never_panics (bind p f).
Proof. intros Hp Hf. induction p; cbn in *; naive_solver. Qed.

Lemma never_panics_deferring {A} (q : prog unit) (p : prog A) :
  never_panics q → never_panics p → never_panics (deferring q p).
Proof.
  intros Hq Hp. unfold deferring.
  assert (∀ k : outcome A → prog A, (∀ a, never_panics (k (Value a))) →
    never_panics (bind (try p) k)) as H.
  { intros k Hk. induction p; cbn in *; naive_solver. }
  apply H. intros a. apply never_panics_bind; [done|]. intros _. exact I.
Qed.

Lemma never_panics_run {A W} (E : env W) (p : prog A) r w :
  never_panics p → ∃ a r' w', run E p r w = (Value a, r', w').
Proof.
  revert r w. induction p as [a|m|k c IH|k vs c IH|s c IH|d c IH|X e c IH];
    cbn; intros r w Hp; eauto; try done.
  - destruct (resp_write d r). by apply IH.
  - destruct (E X e w). by apply IH.
Qed.

(** Goes through a program without [Raise]. *)
Ltac calm_tac :=
  repeat first
    [ progress cbn [never_panics call header_get header_set header_del header_put
                    write_header write]
    | apply never_panics_deferring
    | apply never_panics_bind
    | match goal with
      | |- never_panics (match ?x with _ => _ end) => destruct x
      | |- never_panics (let '(_, _) := ?x in _) => destruct x
      | |- _ ∧ _ => split
      | |- ∀ _, _ => intros ?
      | |- True => exact I
      end ].

(** Goes through a program whose calls are all harmless. *)
Ltac harmless_tac :=
  repeat first
    [ progress cbn [harmless call header_get header_set header_del header_put
                    write_header write]
    | apply harmless_deferring
    | apply harmless_bind
    | match goal with
      | |- harmless _ (match ?x with _ => _ end) => destruct x
      | |- harmless _ (let '(_, _) := ?x in _) => destruct x
      | |- _ ∧ _ => split
      | |- ∀ _, _ => intros ?
      | |- True => exact I
      | |- _ = _ => reflexivity
      end ].

(** Steps through the calls of a program run on a response. *)
Ltac run_steps :=
  repeat first
    [ progress cbn [run mget mput mret header_get header_set header_del header_put
                    write_header write call fst snd]
    | rewrite run_mbind | rewrite run_mlift ].

(** ** Weakest preconditions

    [wp p Q r]: whatever the environment answers, running [p] on the response [r]
    ends in an outcome and a response that satisfy [Q].  The answers can be
    restricted to those that satisfy [ans]. *)
Section wp.
Context (ans : ∀ X : Type, ext X → X → Prop).

Fixpoint wp {A} (p : prog A) (Q : outcome A → resp → Prop) (r : resp) : Prop :=
  match p with
  | Ret a => Q (Value a) r
  | Raise m => Q (Panic m) r
  | HGet k c => wp (c (default [] (r_hdr r !! k))) Q r
  | HPut k vs c => wp c Q (resp_put k vs r)
  | WHeader s c => wp c Q (resp_header s r)
  | WBody d c => wp (c (resp_write d r).1) Q (resp_write d r).2
  | Call e c => ∀ x, ans _ e x → wp (c x) Q r
  end.

Lemma wp_mono {A} (p : prog A) (Q Q' : outcome A → resp → Prop) r :
  wp p Q r → (∀ o r', Q o r' → Q' o r') → wp p Q' r.
Proof.
  intros H HQ. revert r H. induction p as [a|m|k c IH|k vs c IH|s c IH|d c IH|X e c IH];
    cbn; intros r H; eauto.
Qed.

Lemma wp_bind {A B} (p : prog A) (f : A → prog B) (Q : outcome B → resp → Prop) r :
  wp p (λ o r', match o with
                | Value a => wp (f a) Q r'
                | Panic m => Q (Panic m) r'
                end) r →
  wp (bind p f) Q r.
Proof.
  revert r. induction p as [a|m|k c IH|k vs c IH|s c IH|d c IH|X e c IH];
    cbn; intros r H; eauto.
Qed.

Lemma wp_try {A} (p : prog A) (Q : outcome (outcome A) → resp → Prop) r :
  wp p (λ o, Q (Value o)) r → wp (try p) Q r.
Proof.
  revert r. induction p as [a|m|k c IH|k vs c IH|s c IH|d c IH|X e c IH];
    cbn; intros r H; eauto.
Qed.

Lemma wp_mbind {W A B} (m : method W A) (f : A → method W B) w
    (Q : outcome (outcome B * W) → resp → Prop) r :
  wp (m w) (λ o r', match o with
                    | Value (Value a, w') => wp (f a w') Q r'
                    | Value (Panic e, w') => Q (Value (Panic e, w')) r'
                    | Panic e => Q (Panic e) r'
                    end) r →
  wp (mbind m f w) Q r.
Proof.
  intros H. apply wp_bind. eapply wp_mono; [exact H|].
  by intros [[[a|e] w']|e] r'.
Qed.

Lemma wp_mlift {W A} (p : prog A) w (Q : outcome (outcome A * W) → resp → Prop) r :
  wp p (λ o r', Q (Value (o, w)) r') r → wp (mlift p w) Q r.
Proof. intros H. apply wp_bind. apply wp_try. exact H. Qed.

(** A run whose environment gives allowed answers ends as [wp] says. *)
Lemma wp_run {A W} (E : env W) (p : prog A) Q r (w : W) :
  (∀ X e v, ans X e (E X e v).1) →
  wp p Q r → let '(o, r', _) := run E p r w in Q o r'.
Proof.
  intros HE. revert r w. induction p as [a|m|k c IH|k vs c IH|s c IH|d c IH|X e c IH];
    cbn; intros r w H; try (by apply IH); [done|done|..].
  - destruct (resp_write d r) as [x r']. by apply IH.
  - specialize (HE X e w). destruct (E X e w) as [x w'] eqn:Ex. cbn in HE.
    apply IH. by apply H.
Qed.
End wp.

(** Steps through the calls of a program, leaving the sub-programs that are not
    primitive calls. *)
Ltac wp_steps :=
  repeat first
    [ progress cbn [wp mget mput mret header_get header_set header_del header_put
                    write_header write call fst snd]
    | apply wp_mbind | apply wp_mlift ].

(** Every answer is possible. *)
Definition any_answer : ∀ X : Type, ext X → X → Prop := λ _ _ _, True.

(** *** What a program returns

    If [p] returns a value, it satisfies [P], whatever the environment answers. *)
Definition returns {A} (p : prog A) (P : A → Prop) : Prop :=
  ∀ r, wp any_answer p (λ o _, match o with Value a => P a | Panic _ => True end) r.

Lemma returns_mono {A} (p : prog A) (P Q : A → Prop) :
  returns p P → (∀ a, P a → Q a) → returns p Q.
Proof. intros Hp HPQ r. eapply wp_mono; [apply Hp|]. intros [a|m] _; cbn; auto. Qed.

Lemma returns_ret {A} (a : A) (P : A → Prop) : P a → returns (Ret a) P.
Proof. by intros H r. Qed.

Lemma returns_true {A} (p : prog A) : returns p (λ _, True).
Proof.
  intros r. revert r. induction p as [a|m|k c IH|k vs c IH|s c IH|d c IH|X e c IH];
    cbn; intros r; auto.
Qed.

Lemma returns_bind {A B} (p : prog A) (f : A → prog B) P Q :
  returns p P → (∀ a, P a → returns (f a) Q) → returns (bind p f) Q.
Proof.
  intros Hp Hf r. apply wp_bind. eapply wp_mono; [apply Hp|].
  intros [a|m] r' H; [by apply Hf|done].
Qed.

Lemma returns_bind_any {A B} (p : prog A) (f : A → prog B) Q :
  (∀ a, returns (f a) Q) → returns (bind p f) Q.
Proof. intros Hf. apply (returns_bind p f (λ _, True)); [apply returns_true|auto]. Qed.

Lemma returns_deferring {A} (q : prog unit) (p : prog A) P :
  returns p P → returns (deferring q p) P.
Proof.
  intros Hp r. apply wp_bind, wp_try. eapply wp_mono; [apply Hp|].
  intros o r' Ho. apply wp_bind. eapply wp_mono; [apply (returns_true q)|].
  intros [[]|m] r'' _; [|done]. by destruct o.
Qed.

Lemma returns_run {A W} (E : env W) (p : prog A) P r w a r' w' :
  returns p P → run E p r w = (Value a, r', w') → P a.
Proof.
  intros Hp Hr. pose proof (wp_run any_answer E p _ r w ltac:(done) (Hp r)) as H.
  by rewrite Hr in H.
Qed.

(** What [p] returns is known when what follows runs. *)
Lemma keeps_bind_returns {W T A B} (E : env W) (obs : W → T) (p : prog A) (f : A → prog B) P :
  keeps E obs p → returns p P → (∀ a, P a → keeps E obs (f a)) → keeps E obs (bind p f).
Proof.
  intros Hp HP Hf r w. rewrite run_bind. specialize (Hp r w).
  destruct (run E p r w) as [[[a|m] r'] w'] eqn:Hr; [|done].
  rewrite (Hf a); [done|]. by eapply returns_run.
Qed.

(** The status codes of a program are not zero. *)
Fixpoint codes_ok {A} (p : prog A) : Prop :=
  match p with
  | Ret _ | Raise _ => True
  | HGet _ c => ∀ vs, codes_ok (c vs)
  | HPut _ _ c => codes_ok c
  | WHeader s c => s ≠ 0%Z ∧ codes_ok c
  | WBody _ c => ∀ x, codes_ok (c x)
  | Call _ c => ∀ x, codes_ok (c x)
  end.

Lemma codes_ok_bind {A B} (p : prog A) (f : A → prog B) :
  codes_ok p → (∀ a, codes_ok (f a)) → codes_ok (bind p f).
Proof. intros Hp Hf. induction p; cbn in *; naive_solver. Qed.

Lemma codes_ok_deferring {A} (q : prog unit) (p : prog A) :
  codes_ok q → codes_ok p → codes_ok (deferring q p).
Proof.
  intros Hq Hp. unfold deferring. apply codes_ok_bind.
  - induction p; cbn in *; naive_solver.
  - intros o. apply codes_ok_bind; [done|]. intros _. by destruct o.
Qed.

(** ** Invariants of wrapped writers

    A relation between the state of a wrapper and the underlying response that
    every method keeps holds after any handler. *)
Section maintains.
Context (ans : ∀ X : Type, ext X → X → Prop) {W : Type}.
Implicit Types (wr : Wrapper W) (I : W → resp → Prop).

(** [m] keeps [I], and a panic does not escape the bookkeeping of the state. *)
Definition preserves {A} I (m : method W A) : Prop :=
  ∀ w r, I w r →
    wp ans (m w) (λ o r', match o with Value (_, w') => I w' r' | Panic _ => False end) r.

Lemma preserves_mret {A} I (a : A) : preserves I (mret a).
Proof. by intros w r H. Qed.

Lemma preserves_mbind {A B} I (m : method W A) (f : A → method W B) :
  preserves I m → (∀ a, preserves I (f a)) → preserves I (mbind m f).
Proof.
  intros Hm Hf w r H. apply wp_mbind. eapply wp_mono; [by apply Hm|].
  intros [[[a|e] w']|e] r' H'; [by apply Hf|done..].
Qed.

Class Maintains wr I : Prop := {
  mt_put : ∀ k vs w r, I w r → I w (resp_put k vs r);
  mt_WriteHeader : ∀ s, s ≠ 0%Z → preserves I (wr_WriteHeader wr s);
  mt_Write : ∀ d, preserves I (wr_Write wr d);
}.

Lemma under_maintains {A} wr I (p : prog A) :
  Maintains wr I → codes_ok p → preserves I (under wr p).
Proof.
  intros Hw. induction p as [a|m|k c IH|k vs c IH|s c IH|d c IH|X e c IH];
    cbn [codes_ok]; intros Hp w r H; cbn [under wp].
  - done.
  - done.
  - by apply IH.
  - apply IH; [done|]. by apply mt_put.
  - destruct Hp as [Hs Hp].
    apply (preserves_mbind I (wr_WriteHeader wr s) (λ _, under wr c));
      [by apply mt_WriteHeader| |done]. intros _. by apply IH.
  - apply (preserves_mbind I (wr_Write wr d) (λ x, under wr (c x)));
      [by apply mt_Write| |done]. intros x. by apply IH.
  - intros x _. by apply IH.
Qed.

(** A handler behind a wrapper whose deferred method ends with [Q]. *)
Lemma serve_state_maintains {A} wr I w (fin : method W unit) (p : prog A) Q r :
  Maintains wr I → codes_ok p → I w r →
  (∀ w r, I w r → wp ans (fin w)
     (λ o r', match o with Value (_, w') => Q w' r' | Panic _ => False end) r) →
  wp ans (serve_state wr w fin p)
    (λ o r', match o with Value (_, _, w') => Q w' r' | Panic _ => False end) r.
Proof.
  intros Hw Hp HI Hfin. unfold serve_state. apply wp_bind.
  eapply wp_mono; [by apply (under_maintains wr I)|].
  intros [[o w']|e] r' H'; [|done]. apply wp_bind.
  eapply wp_mono; [by apply Hfin|]. by intros [[o' w'']|e] r'' H''.
Qed.

Lemma serve_maintains {A} wr I w (fin : method W unit) (p : prog A) Q r :
  Maintains wr I → codes_ok p → I w r →
  (∀ w r, I w r → wp ans (fin w)
     (λ o r', match o with Value (_, w') => Q w' r' | Panic _ => False end) r) →
  wp ans (serve_under wr w fin p) (λ _ r', ∃ w', Q w' r') r.
Proof.
  intros Hw Hp HI Hfin. unfold serve_under. apply wp_bind.
  eapply wp_mono; [by eapply serve_state_maintains|].
  intros [[[o o'] w']|e] r' H'; [|done]. destruct o', o; by exists w'.
Qed.
End maintains.

#[export] Hint Resolve preserves_mret preserves_mbind : maintains.

(** A wrapper sends the headers of the response at most once when its [committed]
    state says that they may have been sent: no [WriteHeader] call is superfluous. *)
Definition once {W} (committed : W → bool) (n : nat) (w : W) (r : resp) : Prop :=
  (is_Some (r_status r) → committed w = true) ∧ r_superfluous r = n.

Lemma once_put {W} (committed : W → bool) n k vs w r :
  once committed n w r → once committed n w (resp_put k vs r).
Proof. done. Qed.

(** ** Transparent writers

    Two responses are the same to the client when they differ at most in the
    superfluous calls.  A wrapper is transparent when each of its methods has the
    effect of the underlying one up to that, and keeps a relation [ok] between its
    own state and the response. *)
#[export] Instance resp_equiv : Equiv resp := λ r1 r2,
  r_hdr r1 = r_hdr r2 ∧ r_status r1 = r_status r2 ∧ r_sent r1 = r_sent r2 ∧
  r_body r1 = r_body r2 ∧ r_room r1 = r_room r2.

#[export] Instance resp_equivalence : Equivalence (≡@{resp}).
Proof.
  unfold equiv, resp_equiv. split; red; intros; unpack; repeat split; congruence.
Qed.

#[export] Instance resp_put_proper k vs : Proper ((≡) ==> (≡)) (resp_put k vs).
Proof.
  intros r1 r2 (E1 & E2 & E3 & E4 & E5). unfold equiv, resp_equiv. cbn.
  rewrite E1. done.
Qed.

#[export] Instance resp_header_proper s : Proper ((≡) ==> (≡)) (resp_header s).
Proof.
  intros r1 r2 (E1 & E2 & E3 & E4 & E5). unfold equiv, resp_equiv, resp_header.
  rewrite E2. destruct (r_status r2); cbn; by rewrite ?E1.
Qed.

Lemma resp_write_proper d r1 r2 :
  r1 ≡ r2 → (resp_write d r1).1 = (resp_write d r2).1 ∧
            (resp_write d r1).2 ≡ (resp_write d r2).2.
Proof.
  intros (E1 & E2 & E3 & E4 & E5). destruct r1 as [h1 s1 n1 b1 m1 f1], r2; cbn in *; subst.
  unfold resp_write, resp_header. destruct r_status0; cbn; try destruct (body_allowed _);
    cbn; repeat split; done.
Qed.

(** [Write] sends a 200 first, then behaves as after any header. *)
Lemma resp_write_fresh d r :
  r_status r = None → resp_write d r = resp_write d (resp_header 200 r).
Proof. intros E. unfold resp_write, resp_header. by rewrite E. Qed.

Lemma resp_write_status d r :
  r_status (resp_write d r).2 = Some (default 200%Z (r_status r)).
Proof. unfold resp_write, resp_header. destruct (r_status r) eqn:E; cbn;
  rewrite ?E; try destruct (body_allowed _); cbn; by rewrite ?E. Qed.

Section transparent.
Context {W V : Type} (E : env V).

(** [over w]: the wrapper has taken over the response; until then it is
    transparent. *)
Class Transparent (wr : Wrapper W) (ok : W → resp → Prop) (over : W → bool) : Prop := {
  tr_put : ∀ k vs w r, ok w r → ok w (resp_put k vs r);
  tr_WriteHeader : ∀ s w r e, s ≠ 0%Z → ok w r → over w = false → ∃ o w' r' e',
    run E (wr_WriteHeader wr s w) r e = (Value (o, w'), r', e') ∧
    (over w' = true ∨
     over w' = false ∧ o = Value tt ∧ e' = e ∧ ok w' r' ∧ r' ≡ resp_header s r);
  tr_Write : ∀ d w r e, ok w r → over w = false → ∃ o w' r' e',
    run E (wr_Write wr d w) r e = (Value (o, w'), r', e') ∧
    (over w' = true ∨
     over w' = false ∧ o = Value (resp_write d r).1 ∧ e' = e ∧ ok w' r' ∧
     r' ≡ (resp_write d r).2);
  tr_over_WriteHeader : ∀ s w r e, over w = true → ∃ o w' r' e',
    run E (wr_WriteHeader wr s w) r e = (Value (o, w'), r', e') ∧ over w' = true;
  tr_over_Write : ∀ d w r e, over w = true → ∃ o w' r' e',
    run E (wr_Write wr d w) r e = (Value (o, w'), r', e') ∧ over w' = true;
}.

(** Once taken over, always taken over. *)
Lemma under_over {A} wr ok over (p : prog A) w r e :
  Transparent wr ok over → over w = true → ∃ o w' r' e',
    run E (under wr p w) r e = (Value (o, w'), r', e') ∧ over w' = true.
Proof.
  intros Hw. revert w r e.
  induction p as [a|m|k c IH|k vs c IH|s c IH|d c IH|X x c IH];
    intros w r e Ho; cbn [run under]; [by repeat eexists|by repeat eexists|by apply IH|by apply IH|..].
  - destruct (tr_over_WriteHeader s w r e Ho) as (o & w1 & r1 & e1 & H1 & Ho1).
    unfold mbind. setoid_rewrite run_bind. rewrite H1.
    destruct o as [[]|m]; [by apply IH|by repeat eexists].
  - destruct (tr_over_Write d w r e Ho) as (o & w1 & r1 & e1 & H1 & Ho1).
    unfold mbind. setoid_rewrite run_bind. rewrite H1.
    destruct o as [x|m]; [by apply IH|by repeat eexists].
  - destruct (E X x e) as [v e']. by apply IH.
Qed.

(** A program behind a transparent wrapper has the same result, asks the
    environment the same questions and leaves the client the same response as
    without it, unless the wrapper takes over. *)
Lemma under_transparent {A} wr ok over (p : prog A) w r r0 e :
  Transparent wr ok over → codes_ok p → ok w r → over w = false → r ≡ r0 →
  ∃ o w' r' e', run E (under wr p w) r e = (Value (o, w'), r', e') ∧
    (over w' = true ∨
     over w' = false ∧ ok w' r' ∧ ∃ r0', run E p r0 e = (o, r0', e') ∧ r' ≡ r0').
Proof.
  intros Hw. revert w r r0 e.
  induction p as [a|m|k c IH|k vs c IH|s c IH|d c IH|X x c IH];
    cbn [codes_ok]; intros w r r0 e Hp Hok Ho Hr; cbn [run under].
  - repeat eexists; right; eauto 6.
  - repeat eexists; right; eauto 6.
  - replace (r_hdr r !! k) with (r_hdr r0 !! k) by (by destruct Hr as [-> _]).
    by apply IH.
  - apply IH; [done|by apply tr_put|done|by apply resp_put_proper].
  - destruct Hp as [Hs Hp].
    destruct (tr_WriteHeader s w r e Hs Hok Ho) as (o1 & w1 & r1 & e1 & H1 & Hov).
    setoid_rewrite run_mbind. rewrite H1.
    destruct Hov as [Hov|(Ho1 & -> & -> & Hok1 & Hr1)].
    + destruct o1 as [[]|m]; [|repeat eexists; by left].
      destruct (under_over wr ok over c w1 r1 e1 Hw Hov) as (o & w2 & r2 & e2 & -> & ?).
      repeat eexists; by left.
    + apply IH; [done..|]. rewrite Hr1. by apply resp_header_proper.
  - destruct (tr_Write d w r e Hok Ho) as (o1 & w1 & r1 & e1 & H1 & Hov).
    setoid_rewrite run_mbind. rewrite H1.
    destruct Hov as [Hov|(Ho1 & -> & -> & Hok1 & Hr1)].
    + destruct o1 as [x|m]; [|repeat eexists; by left].
      destruct (under_over wr ok over (c x) w1 r1 e1 Hw Hov) as (o & w2 & r2 & e2 & -> & ?).
      repeat eexists; by left.
    + destruct (resp_write_proper d r r0 Hr) as [Hx Hr2]. rewrite Hx.
      destruct (resp_write d r0) as [x r2]. cbn in *.
      apply IH; [done..|]. by rewrite Hr1.
  - destruct (E X x e) as [v e']. by apply IH.
Qed.

(** With [WriteHeader(200)] deferred, the response is the handler's, completed by
    that call, unless the wrapper takes over. *)
Lemma serve_transparent {A} wr ok over (p : prog A) w r r0 e :
  Transparent wr ok over → codes_ok p → ok w r → over w = false → r ≡ r0 →
  ∃ o o' w' r' e',
    run E (serve_state wr w (wr_WriteHeader wr 200) p) r e = (Value (o, o', w'), r', e') ∧
    (over w' = true ∨
     over w' = false ∧ o' = Value tt ∧
     ∃ r0', run E p r0 e = (o, r0', e') ∧ r' ≡ resp_header 200 r0').
Proof.
  intros Hw Hp Hok Ho Hr. unfold serve_state.
  destruct (under_transparent wr ok over p w r r0 e Hw Hp Hok Ho Hr)
    as (o & w1 & r1 & e1 & H1 & Hov).
  rewrite run_bind, H1, run_bind.
  destruct Hov as [Hov|(Ho1 & Hok1 & r0' & H0 & Hr1)].
  - destruct (tr_over_WriteHeader 200 w1 r1 e1 Hov) as (o' & w2 & r2 & e2 & -> & ?).
    repeat eexists; by left.
  - destruct (tr_WriteHeader 200 w1 r1 e1 ltac:(done) Hok1 Ho1)
      as (o2 & w2 & r2 & e2 & H2 & Hov). rewrite H2. repeat eexists.
    destruct Hov as [Hov|(Ho2 & -> & -> & Hok2 & Hr2)]; [by left|right].
    split_and!; [done..|]. exists r0'. split; [done|]. rewrite Hr2.
    by apply resp_header_proper.
Qed.
End transparent.

(** After the headers, [Write] changes only the body and the room left for it. *)
Lemma resp_write_started d r s :
  r_status r = Some s →
  let r' := (resp_write d r).2 in
  r_hdr r' = r_hdr r ∧ r_status r' = Some s ∧ r_sent r' = r_sent r ∧
  r_superfluous r' = r_superfluous r ∧ (r_room r = None → r_room r' = None).
Proof.
  intros Hs. unfold resp_write. rewrite Hs.
  destruct (body_allowed (default 200%Z (r_status r))); cbn; split_and!; try done.
  by intros ->.
Qed.
