(* ===== verification/Metrics.v ===== *)
(** * Metrics (the variables and init functions that declare them, internal/queueing/queue.go,
    internal/upstream/metrics.go)

    Each metric as the data it is declared with, the checks of the Prometheus client when it
    is created and registered, which panic, and the start-up of the program: the init
    functions of the packages, the queues, the instrumentation of routes.  A bucket bound is
    an integer, in hundredths of a nanosecond or of 10^-9 octets, so that the fractions of a
    timeout are exact (the program computes them in floating point).  The 64-bit hashes that
    name a descriptor in the client stand for what is hashed. *)

From S2P Require Import Prelude GoString.
From stdpp Require Import options.

Module Metrics.

(** ** Descriptors *)

Inductive collector := Counter | CounterVec | Gauge | GaugeVec | Histogram | HistogramVec.

Record metric := {
  m_kind : collector;
  m_namespace : string;
  m_subsystem : string;
  m_name : string;
  m_help : string;
  m_const : list (string * string);
  m_labels : list string;
  m_buckets : list Z;
}.

(** [vendor/github.com/prometheus/client_golang/prometheus/metric.go:98-111 BuildFQName] *)
Definition BuildFQName (namespace subsystem name : string) : string :=
  if String.eqb name "" then ""
  else match String.eqb namespace "", String.eqb subsystem "" with
       | false, false => namespace +:+ "_" +:+ subsystem +:+ "_" +:+ name
       | false, true => namespace +:+ "_" +:+ name
       | true, false => subsystem +:+ "_" +:+ name
       | true, true => name
       end.
Definition fqName (m : metric) : string := BuildFQName (m_namespace m) (m_subsystem m) (m_name m).

Definition letter (c : octet) : bool := is_lower c || is_upper c || Ascii.eqb c "_"%char.

(** [vendor/github.com/prometheus/common/model/metric.go:93-103 IsValidMetricName] *)
Definition IsValidMetricName (n : string) : bool :=
  match to_bytes n with
  | [] => false
  | c :: l => (letter c || Ascii.eqb c ":"%char) &&
              forallb (λ c, letter c || Ascii.eqb c ":"%char || is_digit c) l
  end.

(** [vendor/github.com/prometheus/client_golang/prometheus/labels.go:55-57 checkLabelName] *)
Definition checkLabelName (n : string) : bool :=
  match to_bytes n with
  | [] => false
  | c :: l => letter c && forallb (λ c, letter c || is_digit c) l
  end && negb (has_prefix n "__").

(** [utf8.ValidString]. *)
Definition between (a b : N) (c : octet) : bool := ((a <=? N_of_ascii c) && (N_of_ascii c <=? b))%N.
Fixpoint valid_utf8 (fuel : nat) (l : bytes) : bool :=
  match fuel, l with
  | _, [] => true
  | O, _ => false
  | S fuel, c :: l =>
      let more := between 128 191 in
      if between 0 127 c then valid_utf8 fuel l
      else if between 194 223 c then
        match l with d :: l => more d && valid_utf8 fuel l | _ => false end
      else if between 224 239 c then
        match l with
        | d :: e :: l =>
            (if Ascii.eqb c "224"%char then between 160 191 d
             else if Ascii.eqb c "237"%char then between 128 159 d else more d) &&
            more e && valid_utf8 fuel l
        | _ => false
        end
      else if between 240 244 c then
        match l with
        | d :: e :: f :: l =>
            (if Ascii.eqb c "240"%char then between 144 191 d
             else if Ascii.eqb c "244"%char then between 128 143 d else more d) &&
            more e && more f && valid_utf8 fuel l
        | _ => false
        end
      else false
  end.
Definition ValidString (s : string) : bool := valid_utf8 (String.length s) (to_bytes s).

(** The name and the values of the constant labels, which identify it; the help and the
    labels, which must agree among descriptors of a name. *)
Record Desc := { d_fqName : string; d_id : string * list string; d_dims : string * list string }.

Definition sorted (l : list string) : list string := (sort_keys ((λ x, (x, tt)) <$> l)).*1.

(** [vendor/github.com/prometheus/client_golang/prometheus/desc.go:77-160 NewDesc] *)
Definition NewDesc (m : metric) : result Desc :=
  let consts := sort_keys (m_const m) in
  if String.eqb (m_help m) "" then inr (Errorf "empty help string")
  else if negb (IsValidMetricName (fqName m)) then inr (Errorf "is not a valid metric name")
  else if negb (forallb checkLabelName (m_const m).*1) then inr (Errorf "is not a valid label name")
  else if negb (forallb ValidString (fqName m :: consts.*2)) then inr (Errorf "label value is not valid UTF-8")
  else if negb (forallb checkLabelName (m_labels m)) then inr (Errorf "is not a valid label name")
  else if negb (bool_decide (NoDup ((m_const m).*1 ++ m_labels m))) then inr (Errorf "duplicate label names")
  else inl {| d_fqName := fqName m; d_id := (fqName m, consts.*2);
              d_dims := (m_help m, sorted ((m_const m).*1 ++ ((λ l, "$" +:+ l) <$> m_labels m))) |}.

Fixpoint increasing (l : list Z) : bool :=
  match l with
  | a :: (b :: _) as l' => (a <? b)%Z && increasing l'
  | _ => true
  end.

Definition DefBuckets : list Z :=
  ((λ n, n * 100000000)%Z <$> [5; 10; 25; 50; 100; 250; 500; 1000; 2500; 5000; 10000])%Z.

(** The checks when a histogram is made.
    [vendor/github.com/prometheus/client_golang/prometheus/histogram.go:168-202 newHistogram] *)
Definition newHistogram (m : metric) : outcome unit :=
  if existsb (String.eqb "le") (m_labels m ++ (m_const m).*1)
  then Panic "le is not allowed as label name in histograms"
  else if increasing (match m_buckets m with [] => DefBuckets | l => l end) then Value tt
  else Panic "histogram buckets must be in increasing order".

(** Only a histogram without labels has its buckets checked when it is declared. *)
Definition create (m : metric) : outcome unit :=
  match m_kind m with Histogram => newHistogram m | _ => Value tt end.

(** ** The registry *)

Record registry := { descIDs : gset (string * list string); dimHashesByName : gmap string (string * list string) }.

(** [vendor/github.com/prometheus/client_golang/prometheus/registry.go:284-341 Registry.Register] *)
Definition register_desc (d : Desc) (r : registry) : result registry :=
  if match dimHashesByName r !! d_fqName d with
     | Some dims => negb (bool_decide (dims = d_dims d))
     | None => false
     end
  then inr (Errorf "a previously registered descriptor with the same fully-qualified name has different label names or a different help string")
  else if decide (d_id d ∈ descIDs r) then inr (Errorf "duplicate metrics collector registration attempted")
  else inl {| descIDs := {[d_id d]} ∪ descIDs r;
              dimHashesByName := <[d_fqName d := d_dims d]> (dimHashesByName r) |}.

(** Every collector has one descriptor.
    [vendor/github.com/prometheus/client_golang/prometheus/registry.go:262-282 Registry.Register] *)
Definition Register (m : metric) (r : registry) : result registry :=
  match NewDesc m with
  | inr e => inr (Wrapf "descriptor is invalid" e)
  | inl d => register_desc d r
  end.

(** [vendor/github.com/prometheus/client_golang/prometheus/registry.go:381-387 Registry.MustRegister] *)
Fixpoint MustRegister (ms : list metric) (r : registry) : outcome registry :=
  match ms with
  | [] => Value r
  | m :: ms =>
      match Register m r with
      | inl r => MustRegister ms r
      | inr _ => Panic "MustRegister"
      end
  end.

(** ** The metrics of the packages *)

Definition second : Z := 100000000000.
Definition namespace : string := "gitlab_workhorse".
Definition httpSubsystem : string := "http".

(** [internal/upstream/metrics.go:15-27 secondsDurationBuckets] *)
Definition secondsDurationBuckets : list Z :=
  ((λ ms, ms * (second / 1000))%Z <$> [5; 25; 100; 500; 1000; 10000; 30000; 60000; 300000])%Z.

(** [internal/upstream/metrics.go:29-40 byteSizeBuckets] *)
Definition byteSizeBuckets : list Z :=
  ((λ n, n * second)%Z <$>
    [10; 64; 256; 1024; 64 * 1024; 256 * 1024; 1024 * 1024; 64 * 1024 * 1024])%Z.

(** [internal/objectstore/prometheus.go:35-35 objectStorageUploadTimeBuckets] *)
Definition objectStorageUploadTimeBuckets : list Z :=
  ((λ ms, ms * (second / 1000))%Z <$> [100; 250; 500; 1000; 2500; 5000; 10000; 25000; 50000; 100000])%Z.

(** *** internal/api/api.go *)

(** [internal/api/api.go:40-46 requestsCounter] *)
Definition requestsCounter : metric :=
  {| m_kind := CounterVec; m_namespace := ""; m_subsystem := ""; m_name := "gitlab_workhorse_internal_api_requests";
     m_help := "How many internal API requests have been completed by gitlab-workhorse, partitioned by status code and HTTP method.";
     m_const := []; m_labels := ["code"; "method"]; m_buckets := [] |}.

(** [internal/api/api.go:47-52 bytesTotal] *)
Definition bytesTotal : metric :=
  {| m_kind := Counter; m_namespace := ""; m_subsystem := ""; m_name := "gitlab_workhorse_internal_api_failure_response_bytes";
     m_help := "How many bytes have been returned by upstream GitLab in API failure/rejection response bodies.";
     m_const := []; m_labels := []; m_buckets := [] |}.

(** *** internal/builds/register.go *)

(** [internal/builds/register.go:23-29 registerHandlerRequests] *)
Definition registerHandlerRequests : metric :=
  {| m_kind := CounterVec; m_namespace := ""; m_subsystem := ""; m_name := "gitlab_workhorse_builds_register_handler_requests";
     m_help := "Describes how many requests in different states hit a register handler";
     m_const := []; m_labels := ["status"]; m_buckets := [] |}.

(** [internal/builds/register.go:30-36 registerHandlerOpen] *)
Definition registerHandlerOpen : metric :=
  {| m_kind := GaugeVec; m_namespace := ""; m_subsystem := ""; m_name := "gitlab_workhorse_builds_register_handler_open";
     m_help := "Describes how many requests is currently open in given state";
     m_const := []; m_labels := ["state"]; m_buckets := [] |}.

(** *** internal/git/archive.go *)

(** [internal/git/archive.go:39-45 gitArchiveCache] *)
Definition gitArchiveCache : metric :=
  {| m_kind := CounterVec; m_namespace := ""; m_subsystem := ""; m_name := "gitlab_workhorse_git_archive_cache";
     m_help := "Cache hits and misses for 'git archive' streaming";
     m_const := []; m_labels := ["result"]; m_buckets := [] |}.

(** *** internal/git/responsewriter.go *)

(** [internal/git/responsewriter.go:18-21 gitHTTPSessionsActive] *)
Definition gitHTTPSessionsActive : metric :=
  {| m_kind := Gauge; m_namespace := ""; m_subsystem := ""; m_name := "gitlab_workhorse_git_http_sessions_active";
     m_help := "Number of Git HTTP request-response cycles currently being handled by gitlab-workhorse.";
     m_const := []; m_labels := []; m_buckets := [] |}.

(** [internal/git/responsewriter.go:23-29 gitHTTPRequests] *)
Definition gitHTTPRequests : metric :=
  {| m_kind := CounterVec; m_namespace := ""; m_subsystem := ""; m_name := "gitlab_workhorse_git_http_requests";
     m_help := "How many Git HTTP requests have been processed by gitlab-workhorse, partitioned by request type and agent.";
     m_const := []; m_labels := ["method"; "code"; "service"; "agent"]; m_buckets := [] |}.

(** [internal/git/responsewriter.go:31-37 gitHTTPBytes] *)
Definition gitHTTPBytes : metric :=
  {| m_kind := CounterVec; m_namespace := ""; m_subsystem := ""; m_name := "gitlab_workhorse_git_http_bytes";
     m_help := "How many Git HTTP bytes have been sent by gitlab-workhorse, partitioned by request type, agent and direction.";
     m_const := []; m_labels := ["method"; "code"; "service"; "agent"; "direction"]; m_buckets := [] |}.

(** *** internal/objectstore/prometheus.go *)

(** [internal/objectstore/prometheus.go:6-12 objectStorageUploadRequests] *)
Definition objectStorageUploadRequests : metric :=
  {| m_kind := CounterVec; m_namespace := ""; m_subsystem := ""; m_name := "gitlab_workhorse_object_storage_upload_requests";
     m_help := "How many object storage requests have been processed";
     m_const := []; m_labels := ["status"]; m_buckets := [] |}.

(** [internal/objectstore/prometheus.go:13-18 objectStorageUploadsOpen] *)
Definition objectStorageUploadsOpen : metric :=
  {| m_kind := Gauge; m_namespace := ""; m_subsystem := ""; m_name := "gitlab_workhorse_object_storage_upload_open";
     m_help := "Describes many object storage requests are open now";
     m_const := []; m_labels := []; m_buckets := [] |}.

(** [internal/objectstore/prometheus.go:19-24 objectStorageUploadBytes] *)
Definition objectStorageUploadBytes : metric :=
  {| m_kind := Counter; m_namespace := ""; m_subsystem := ""; m_name := "gitlab_workhorse_object_storage_upload_bytes";
     m_help := "How many bytes were sent to object storage";
     m_const := []; m_labels := []; m_buckets := [] |}.

(** [internal/objectstore/prometheus.go:25-30 objectStorageUploadTime] *)
Definition objectStorageUploadTime : metric :=
  {| m_kind := Histogram; m_namespace := ""; m_subsystem := ""; m_name := "gitlab_workhorse_object_storage_upload_time";
     m_help := "How long it took to upload objects";
     m_const := []; m_labels := []; m_buckets := objectStorageUploadTimeBuckets |}.

(** *** internal/redis/keywatcher.go *)

(** [internal/redis/keywatcher.go:27-32 keyWatchers] *)
Definition keyWatchers : metric :=
  {| m_kind := Gauge; m_namespace := ""; m_subsystem := ""; m_name := "gitlab_workhorse_keywatcher_keywatchers";
     m_help := "The number of keys that is being watched by gitlab-workhorse";
     m_const := []; m_labels := []; m_buckets := [] |}.

(** [internal/redis/keywatcher.go:33-38 totalMessages] *)
Definition totalMessages : metric :=
  {| m_kind := Counter; m_namespace := ""; m_subsystem := ""; m_name := "gitlab_workhorse_keywather_total_messages";
     m_help := "How many messages gitlab-workhorse has received in total on pubsub.";
     m_const := []; m_labels := []; m_buckets := [] |}.

(** *** internal/redis/redis.go *)

(** [internal/redis/redis.go:47-52 totalConnections] *)
Definition totalConnections : metric :=
  {| m_kind := Counter; m_namespace := ""; m_subsystem := ""; m_name := "gitlab_workhorse_redis_total_connections";
     m_help := "How many connections gitlab-workhorse has opened in total. Can be used to track Redis connection rate for this process";
     m_const := []; m_labels := []; m_buckets := [] |}.

(** [internal/redis/redis.go:54-60 errorCounter] *)
Definition errorCounter : metric :=
  {| m_kind := CounterVec; m_namespace := ""; m_subsystem := ""; m_name := "gitlab_workhorse_redis_errors";
     m_help := "Counts different types of Redis errors encountered by workhorse, by type and destination (redis, sentinel)";
     m_const := []; m_labels := ["type"; "dst"]; m_buckets := [] |}.

(** *** internal/senddata/senddata.go *)

(** [internal/senddata/senddata.go:12-18 sendDataResponses] *)
Definition sendDataResponses : metric :=
  {| m_kind := CounterVec; m_namespace := ""; m_subsystem := ""; m_name := "gitlab_workhorse_senddata_responses";
     m_help := "How many HTTP responses have been hijacked by a workhorse senddata injecter";
     m_const := []; m_labels := ["injecter"]; m_buckets := [] |}.

(** [internal/senddata/senddata.go:19-25 sendDataResponseBytes] *)
Definition sendDataResponseBytes : metric :=
  {| m_kind := CounterVec; m_namespace := ""; m_subsystem := ""; m_name := "gitlab_workhorse_senddata_response_bytes";
     m_help := "How many bytes have been written by workhorse senddata response injecters";
     m_const := []; m_labels := ["injecter"]; m_buckets := [] |}.

(** *** internal/sendfile/sendfile.go *)

(** [internal/sendfile/sendfile.go:22-28 sendFileRequests] *)
Definition sendFileRequests : metric :=
  {| m_kind := CounterVec; m_namespace := ""; m_subsystem := ""; m_name := "gitlab_workhorse_sendfile_requests";
     m_help := "How many X-Sendfile requests have been processed by gitlab-workhorse, partitioned by sendfile type.";
     m_const := []; m_labels := ["type"]; m_buckets := [] |}.

(** [internal/sendfile/sendfile.go:30-36 sendFileBytes] *)
Definition sendFileBytes : metric :=
  {| m_kind := CounterVec; m_namespace := ""; m_subsystem := ""; m_name := "gitlab_workhorse_sendfile_bytes";
     m_help := "How many X-Sendfile bytes have been sent by gitlab-workhorse, partitioned by sendfile type.";
     m_const := []; m_labels := ["type"]; m_buckets := [] |}.

(** *** internal/sendurl/sendurl.go *)

(** [internal/sendurl/sendurl.go:57-63 sendURLRequests] *)
Definition sendURLRequests : metric :=
  {| m_kind := CounterVec; m_namespace := ""; m_subsystem := ""; m_name := "gitlab_workhorse_send_url_requests";
     m_help := "How many send URL requests have been processed";
     m_const := []; m_labels := ["status"]; m_buckets := [] |}.

(** [internal/sendurl/sendurl.go:64-69 sendURLOpenRequests] *)
Definition sendURLOpenRequests : metric :=
  {| m_kind := Gauge; m_namespace := ""; m_subsystem := ""; m_name := "gitlab_workhorse_send_url_open_requests";
     m_help := "Describes how many send URL requests are open now";
     m_const := []; m_labels := []; m_buckets := [] |}.

(** [internal/sendurl/sendurl.go:70-75 sendURLBytes] *)
Definition sendURLBytes : metric :=
  {| m_kind := Counter; m_namespace := ""; m_subsystem := ""; m_name := "gitlab_workhorse_send_url_bytes";
     m_help := "How many bytes were passed with send URL";
     m_const := []; m_labels := []; m_buckets := [] |}.

(** *** internal/staticpages/error_pages.go *)

(** [internal/staticpages/error_pages.go:15-21 staticErrorResponses] *)
Definition staticErrorResponses : metric :=
  {| m_kind := CounterVec; m_namespace := ""; m_subsystem := ""; m_name := "gitlab_workhorse_static_error_responses";
     m_help := "How many HTTP responses have been changed to a static error page, by HTTP status code.";
     m_const := []; m_labels := ["code"]; m_buckets := [] |}.

(** *** internal/upload/rewrite.go *)

(** [internal/upload/rewrite.go:18-25 multipartUploadRequests] *)
Definition multipartUploadRequests : metric :=
  {| m_kind := CounterVec; m_namespace := ""; m_subsystem := ""; m_name := "gitlab_workhorse_multipart_upload_requests";
     m_help := "How many multipart upload requests have been processed by gitlab-workhorse. Partitioned by type.";
     m_const := []; m_labels := ["type"]; m_buckets := [] |}.

(** [internal/upload/rewrite.go:27-33 multipartFileUploadBytes] *)
Definition multipartFileUploadBytes : metric :=
  {| m_kind := CounterVec; m_namespace := ""; m_subsystem := ""; m_name := "gitlab_workhorse_multipart_upload_bytes";
     m_help := "How many disk bytes of multipart file parts have been succesfully written by gitlab-workhorse. Partitioned by type.";
     m_const := []; m_labels := ["type"]; m_buckets := [] |}.

(** [internal/upload/rewrite.go:35-41 multipartFiles] *)
Definition multipartFiles : metric :=
  {| m_kind := CounterVec; m_namespace := ""; m_subsystem := ""; m_name := "gitlab_workhorse_multipart_upload_files";
     m_help := "How many multipart file parts have been processed by gitlab-workhorse. Partitioned by type.";
     m_const := []; m_labels := ["type"]; m_buckets := [] |}.

(** *** internal/upstream/metrics.go *)

(** [internal/upstream/metrics.go:43-48 httpInFlightRequests] *)
Definition httpInFlightRequests : metric :=
  {| m_kind := Gauge; m_namespace := namespace; m_subsystem := httpSubsystem; m_name := "in_flight_requests";
     m_help := "A gauge of requests currently being served by workhorse.";
     m_const := []; m_labels := []; m_buckets := [] |}.

(** [internal/upstream/metrics.go:50-58 httpRequestsTotal] *)
Definition httpRequestsTotal : metric :=
  {| m_kind := CounterVec; m_namespace := namespace; m_subsystem := httpSubsystem; m_name := "requests_total";
     m_help := "A counter for requests to workhorse.";
     m_const := []; m_labels := ["code"; "method"; "route"]; m_buckets := [] |}.

(** [internal/upstream/metrics.go:60-69 httpRequestDurationSeconds] *)
Definition httpRequestDurationSeconds : metric :=
  {| m_kind := HistogramVec; m_namespace := namespace; m_subsystem := httpSubsystem; m_name := "request_duration_seconds";
     m_help := "A histogram of latencies for requests to workhorse.";
     m_const := []; m_labels := ["code"; "method"; "route"]; m_buckets := secondsDurationBuckets |}.

(** [internal/upstream/metrics.go:71-80 httpRequestSizeBytes] *)
Definition httpRequestSizeBytes : metric :=
  {| m_kind := HistogramVec; m_namespace := namespace; m_subsystem := httpSubsystem; m_name := "request_size_bytes";
     m_help := "A histogram of sizes of requests to workhorse.";
     m_const := []; m_labels := ["code"; "method"; "route"]; m_buckets := byteSizeBuckets |}.

(** [internal/upstream/metrics.go:82-91 httpResponseSizeBytes] *)
Definition httpResponseSizeBytes : metric :=
  {| m_kind := HistogramVec; m_namespace := namespace; m_subsystem := httpSubsystem; m_name := "response_size_bytes";
     m_help := "A histogram of response sizes for requests to workhorse.";
     m_const := []; m_labels := ["code"; "method"; "route"]; m_buckets := byteSizeBuckets |}.

(** [internal/upstream/metrics.go:93-102 httpTimeToWriteHeaderSeconds] *)
Definition httpTimeToWriteHeaderSeconds : metric :=
  {| m_kind := HistogramVec; m_namespace := namespace; m_subsystem := httpSubsystem; m_name := "time_to_write_header_seconds";
     m_help := "A histogram of request durations until the response headers are written.";
     m_const := []; m_labels := ["code"; "method"; "route"]; m_buckets := secondsDurationBuckets |}.


(** ** Start-up *)

(** [internal/api/api.go:55-58 init] *)
Definition init_api : list metric := [requestsCounter; bytesTotal].
(** [internal/builds/register.go:56-61 init] *)
Definition init_builds : list metric := [registerHandlerRequests; registerHandlerOpen].
(** [internal/git/archive.go:48-50 init] *)
Definition init_archive : list metric := [gitArchiveCache].
(** [internal/git/responsewriter.go:40-44 init] *)
Definition init_git : list metric := [gitHTTPSessionsActive; gitHTTPRequests; gitHTTPBytes].
(** [internal/objectstore/prometheus.go:38-43 init] *)
Definition init_objectstore : list metric :=
  [objectStorageUploadRequests; objectStorageUploadsOpen; objectStorageUploadBytes].
(** [internal/redis/keywatcher.go:41-46 init] *)
Definition init_keywatcher : list metric := [keyWatchers; totalMessages].
(** [internal/redis/redis.go:63-68 init] *)
Definition init_redis : list metric := [totalConnections; errorCounter].
(** [internal/senddata/senddata.go:28-31 init] *)
Definition init_senddata : list metric := [sendDataResponses; sendDataResponseBytes].
(** [internal/sendfile/sendfile.go:48-51 init] *)
Definition init_sendfile : list metric := [sendFileRequests; sendFileBytes].
(** [internal/sendurl/sendurl.go:82-87 init] *)
Definition init_sendurl : list metric := [sendURLRequests; sendURLOpenRequests; sendURLBytes].
(** [internal/staticpages/error_pages.go:24-26 init] *)
Definition init_staticpages : list metric := [staticErrorResponses].
(** [internal/upload/rewrite.go:50-54 init] *)
Definition init_upload : list metric :=
  [multipartUploadRequests; multipartFileUploadBytes; multipartFiles].
(** [internal/upstream/metrics.go:105-111 init] *)
Definition init_upstream : list metric :=
  [httpInFlightRequests; httpRequestsTotal; httpRequestDurationSeconds; httpRequestSizeBytes;
   httpTimeToWriteHeaderSeconds].

(** The init functions of the program; the language runs those of imported packages first. *)
Definition inits : list (list metric) :=
  [init_api; init_builds; init_archive; init_git; init_objectstore; init_keywatcher; init_redis;
   init_senddata; init_sendfile; init_sendurl; init_staticpages; init_upload; init_upstream].

(** ** Queues *)

Definition queue_metric (name : string) (k : collector) (n help : string) (labels : list string)
    (buckets : list Z) : metric :=
  {| m_kind := k; m_namespace := ""; m_subsystem := ""; m_name := n; m_help := help;
     m_const := [("queue_name", name)]; m_labels := labels; m_buckets := buckets |}.

(** The timeout is in nanoseconds.
    [internal/queueing/queue.go:33-44 newQueueMetrics] *)
Definition waitingTimeBuckets (timeout : Z) : list Z :=
  ((λ percent, timeout * percent)%Z <$> [1; 5; 10; 25; 50; 75; 90; 95; 99; 100])%Z.

(** [internal/queueing/queue.go:46-106 newQueueMetrics] *)
Definition queueMetrics (name : string) (timeout : Z) : list metric :=
  [ queue_metric name Gauge "gitlab_workhorse_queueing_limit"
      "Current limit set for the queueing mechanism" [] [];
    queue_metric name Gauge "gitlab_workhorse_queueing_queue_limit"
      "Current queueLimit set for the queueing mechanism" [] [];
    queue_metric name Gauge "gitlab_workhorse_queueing_queue_timeout"
      "Current queueTimeout set for the queueing mechanism" [] [];
    queue_metric name Gauge "gitlab_workhorse_queueing_busy"
      "How many queued requests are now processed" [] [];
    queue_metric name Gauge "gitlab_workhorse_queueing_waiting"
      "How many requests are now queued" [] [];
    queue_metric name Histogram "gitlab_workhorse_queueing_waiting_time"
      "How many time a request spent in queue" [] (waitingTimeBuckets timeout);
    queue_metric name CounterVec "gitlab_workhorse_queueing_errors"
      "How many times the TooManyRequests or QueueintTimedout errors were returned while queueing, partitioned by error type"
      ["type"] [] ].

Fixpoint create_all (ms : list metric) : outcome unit :=
  match ms with
  | [] => Value tt
  | m :: ms => match create m with Value _ => create_all ms | Panic w => Panic w end
  end.

(** All metrics are created before the first is registered.
    [internal/queueing/queue.go:32-117 newQueueMetrics] *)
Definition newQueueMetrics (name : string) (timeout : Z) (r : registry) : outcome registry :=
  match create_all (queueMetrics name timeout) with
  | Value _ => MustRegister (queueMetrics name timeout) r
  | Panic w => Panic w
  end.

(** Queues started one after the other. *)
Fixpoint start_queues (qs : list (string * Z)) (r : registry) : outcome registry :=
  match qs with
  | [] => Value r
  | (name, timeout) :: qs =>
      match newQueueMetrics name timeout r with
      | Value r => start_queues qs r
      | Panic w => Panic w
      end
  end.

(** ** Instrumented routes *)

(** A vector of metrics with the labels that have been given a value. *)
Record vec := { v_metric : metric; v_curried : list string }.

(** [vendor/github.com/prometheus/client_golang/prometheus/vec.go:94-125 metricVec.curryWith] *)
Definition MustCurryWith (v : vec) (label : string) : outcome vec :=
  if negb (existsb (String.eqb label) (m_labels (v_metric v))) then Panic "unknown label(s) found during currying"
  else if existsb (String.eqb label) (v_curried v) then Panic "label name is already curried"
  else Value {| v_metric := v_metric v; v_curried := label :: v_curried v |}.

(** Whether the metric is partitioned by status code, and by method.
    [vendor/github.com/prometheus/client_golang/prometheus/promhttp/instrument_server.go:241-256 checkLabels] *)
Definition checkLabels (v : vec) : outcome (bool * bool) :=
  foldl (λ acc name,
    match acc with
    | Panic w => Panic w
    | Value (code, method) =>
        if existsb (String.eqb name) (v_curried v) then Value (code, method)
        else if String.eqb name "code" then Value (true, method)
        else if String.eqb name "method" then Value (code, true)
        else Panic "metric partitioned with non-supported labels"
    end) (Value (false, false)) (m_labels (v_metric v)).

Definition InstrumentHandler (m : metric) : outcome (bool * bool) :=
  match MustCurryWith {| v_metric := m; v_curried := [] |} "route" with
  | Value v => checkLabels v
  | Panic w => Panic w
  end.

(** What making an instrumented handler checks; the gauge of requests in flight needs no check.
    [internal/upstream/metrics.go:113-124 instrumentRoute] *)
Definition instrumentRoute : list (outcome (bool * bool)) :=
  InstrumentHandler <$>
    [httpRequestsTotal; httpRequestDurationSeconds; httpRequestSizeBytes; httpResponseSizeBytes;
     httpTimeToWriteHeaderSeconds].

(** ** Facts *)

(** A declaration the client accepts: its descriptor is valid, a histogram can be made of
    it, and only a vector has labels. *)
Definition well_formed (m : metric) : bool :=
  match NewDesc m with inl _ => true | inr _ => false end &&
  match m_kind m with
  | Histogram | HistogramVec => match newHistogram m with Value _ => true | Panic _ => false end
  | Counter | Gauge | CounterVec | GaugeVec => true
  end &&
  match m_kind m with
  | Counter | Gauge | Histogram => bool_decide (m_labels m = [])
  | CounterVec | GaugeVec | HistogramVec => bool_decide (m_labels m ≠ [])
  end.

Definition known (r : registry) (n : string) : Prop := is_Some (dimHashesByName r !! n).

(** The registry knows the name of every descriptor. *)
Definition consistent (r : registry) : Prop := ∀ i, i ∈ descIDs r → known r i.1.

Lemma NewDesc_name m d : NewDesc m = inl d → d_fqName d = fqName m ∧ (d_id d).1 = fqName m.
Proof. unfold NewDesc. intros H. repeat case_match; simplify_eq/=; done. Qed.

Fixpoint register_descs (ds : list Desc) (r : registry) : outcome registry :=
  match ds with
  | [] => Value r
  | d :: ds => match register_desc d r with
               | inl r => register_descs ds r
               | inr _ => Panic "MustRegister"
               end
  end.

Lemma MustRegister_descs ms ds r :
  NewDesc <$> ms = inl <$> ds → MustRegister ms r = register_descs ds r.
Proof.
  revert ds r. induction ms as [|m ms IH]; intros [|d ds] r H; simplify_eq/=; [done|].
  unfold Register. rewrite H. by destruct (register_desc d r); auto.
Qed.

Definition compatible (r : registry) (d : Desc) : Prop :=
  dimHashesByName r !! d_fqName d = None ∨ dimHashesByName r !! d_fqName d = Some (d_dims d).

Lemma register_desc_ok d r :
  compatible r d → d_id d ∉ descIDs r →
  register_desc d r = inl {| descIDs := {[d_id d]} ∪ descIDs r;
    dimHashesByName := <[d_fqName d := d_dims d]> (dimHashesByName r) |}.
Proof.
  intros Hc Hn. unfold register_desc. rewrite (decide_False (P := d_id d ∈ descIDs r)) by done.
  destruct Hc as [-> | ->]; [done|]. by rewrite bool_decide_true.
Qed.

(** Descriptors of different names, new and in agreement with the registry. *)
Lemma register_descs_ok ds r :
  NoDup (d_fqName <$> ds) → Forall (λ d, (d_id d).1 = d_fqName d) ds →
  Forall (λ d, compatible r d ∧ d_id d ∉ descIDs r) ds →
  ∃ r', register_descs ds r = Value r' ∧
    (∀ i, i ∈ descIDs r' ↔ i ∈ descIDs r ∨ i ∈ d_id <$> ds) ∧
    Forall (λ d, dimHashesByName r' !! d_fqName d = Some (d_dims d)) ds ∧
    ∀ n, n ∉ d_fqName <$> ds → dimHashesByName r' !! n = dimHashesByName r !! n.
Proof.
  revert r. induction ds as [|d ds IH]; intros r Hnd Hid Hok.
  - exists r. split_and!; [done| |constructor|done]. intros i. set_solver.
  - cbn [fmap list_fmap] in Hnd. apply NoDup_cons in Hnd as [Hd Hnd].
    apply Forall_cons in Hid as [Hid1 Hid]. apply Forall_cons in Hok as [[Hc Hn] Hok].
    cbn [register_descs]. rewrite register_desc_ok by done.
    match goal with |- context [register_descs ds ?r1] => set (r2 := r1) end.
    assert (∀ n, n ≠ d_fqName d → dimHashesByName r2 !! n = dimHashesByName r !! n) as Hother.
    { intros n Hne. unfold r2. cbn. by rewrite lookup_insert_ne. }
    destruct (IH r2) as (r' & E & H1 & H2 & H3); [done|done| |].
    { apply Forall_forall. intros e He. rewrite Forall_forall in Hok. rewrite Forall_forall in Hid.
      assert (d_fqName e ≠ d_fqName d) as Hne.
      { intros Heq. apply Hd. rewrite <- Heq. by apply list_elem_of_fmap_2. }
      destruct (Hok e He) as [Hce Hne2]. split; [unfold compatible; by rewrite Hother|].
      unfold r2. cbn. intros [Hin|Hin]%elem_of_union; [|done]. apply elem_of_singleton in Hin.
      apply Hne. rewrite <- Hid1, <- Hin. symmetry. by apply Hid. }
    exists r'. split; [done|]. split; [|split].
    + intros i. rewrite H1. unfold r2. cbn. rewrite elem_of_union, elem_of_singleton, elem_of_cons. tauto.
    + constructor; [|done]. rewrite H3 by done. unfold r2. cbn. by rewrite lookup_insert_eq.
    + intros n Hn'. apply not_elem_of_cons in Hn' as [Hn1 Hn2]. by rewrite H3, Hother.
Qed.

(** One descriptor that is there already makes registering panic. *)
Lemma register_descs_dup ds d r :
  d ∈ ds → d_id d ∈ descIDs r → ∃ w, register_descs ds r = Panic w.
Proof.
  revert r. induction ds as [|e ds IH]; intros r Hd Hin; [by apply not_elem_of_nil in Hd|].
  cbn. destruct (register_desc e r) as [r1|] eqn:E; [|by eexists].
  assert (d_id e ∉ descIDs r ∧ descIDs r1 = {[d_id e]} ∪ descIDs r) as [He Hr1].
  { unfold register_desc in E. repeat case_match; by simplify_eq/=. }
  apply elem_of_cons in Hd as [->|Hd]; [done|]. apply IH; [done|]. set_solver.
Qed.

Definition declared : list metric :=
  concat inits ++ [objectStorageUploadTime; httpResponseSizeBytes].

Lemma declared_well_formed : Forall (λ m, well_formed m = true) declared.
Proof.
  apply Forall_forall. intros m Hm. apply (proj1 (forallb_forall well_formed declared));
    [vm_compute; reflexivity|by apply list_elem_of_In].
Qed.

(** Metrics with names of their own can be registered. *)
Lemma MustRegister_fresh ms r :
  Forall (λ m, ∃ d, NewDesc m = inl d) ms → NoDup (fqName <$> ms) → consistent r →
  Forall (λ m, ¬ known r (fqName m)) ms →
  ∃ r', MustRegister ms r = Value r' ∧ consistent r' ∧
    ∀ n, known r' n ↔ known r n ∨ n ∈ fqName <$> ms.
Proof.
  intros Hd Hnd Hc Hk.
  assert (∃ ds, NewDesc <$> ms = inl <$> ds ∧ d_fqName <$> ds = fqName <$> ms ∧
    Forall (λ d, (d_id d).1 = d_fqName d) ds) as (ds & E & En & Hid).
  { clear -Hd. induction Hd as [|m ms [d Hd] _ (ds & E & En & Hid)]; [by exists []|].
    exists (d :: ds). destruct (NewDesc_name m d Hd) as [H1 H2]. cbn. rewrite Hd, E, En, H1.
    split_and!; [done..|]. constructor; [congruence|done]. }
  rewrite (MustRegister_descs ms ds) by done.
  assert (Forall (λ n, ¬ known r n) (d_fqName <$> ds)) as Hk'.
  { rewrite En. by apply Forall_fmap. }
  destruct (register_descs_ok ds r) as (r' & Er & H1 & H2 & H3); [by rewrite En|done| |].
  { apply Forall_forall. intros d Hin. rewrite Forall_forall in Hk'. rewrite Forall_forall in Hid.
    specialize (Hk' _ (list_elem_of_fmap_2 d_fqName ds d Hin)). split.
    - left. by apply eq_None_not_Some.
    - intros Hin'. apply Hk'. rewrite <- (Hid d Hin). by apply Hc. }
  exists r'. split; [done|].
  assert (∀ n, known r' n ↔ known r n ∨ n ∈ fqName <$> ms) as Hkn.
  { intros n. unfold known. rewrite <- En. destruct (decide (n ∈ d_fqName <$> ds)) as [Hn|Hn].
    - apply list_elem_of_fmap in Hn as (d & -> & Hin). rewrite Forall_forall in H2.
      rewrite (H2 d Hin). split; [|by eauto]. right. by apply list_elem_of_fmap_2.
    - rewrite H3 by done. tauto. }
  split; [|done]. intros i [Hi|Hi]%H1; apply Hkn; [left; by apply Hc|right].
  apply list_elem_of_fmap in Hi as (d & -> & Hin). rewrite Forall_forall in Hid.
  rewrite (Hid d Hin), <- En. by apply list_elem_of_fmap_2.
Qed.

(** *** Queues *)

Definition queue_desc (name : string) (m : metric) : Desc :=
  {| d_fqName := m_name m; d_id := (m_name m, [name]);
     d_dims := (m_help m, sorted ("queue_name" :: ((λ l, "$" +:+ l) <$> m_labels m))) |}.
Definition queue_descs (name : string) : list Desc := queue_desc name <$> queueMetrics "" 0.

Lemma NewDesc_queue name t :
  ValidString name = true → NewDesc <$> queueMetrics name t = inl <$> queue_descs name.
Proof.
  intros Hn.
  assert (∀ k n help labels buckets, IsValidMetricName n = true → ValidString n = true →
    String.eqb help "" = false → forallb checkLabelName labels = true →
    NoDup ("queue_name" :: labels) → n ≠ "" →
    NewDesc (queue_metric name k n help labels buckets) =
    inl (queue_desc name (queue_metric "" k n help labels buckets))) as H.
  { intros k n help labels buckets H1 H2 H3 H4 H5 H6. unfold NewDesc, fqName, BuildFQName.
    cbn [queue_metric m_name m_namespace m_subsystem m_help m_const m_labels].
    destruct (String.eqb_spec n "") as [|_]; [done|]. cbn [String.eqb].
    rewrite H1, H3, H4. cbn [sort_keys foldr insert_key fmap list_fmap fst snd app forallb].
    rewrite H2, Hn. rewrite bool_decide_true by done. reflexivity. }
  unfold queueMetrics, queue_descs. cbn [fmap list_fmap queueMetrics].
  rewrite !H; [reflexivity|..]; try (vm_compute; reflexivity); try discriminate;
    try (apply (bool_decide_eq_true_1 (NoDup _)); vm_compute; reflexivity).
Qed.

Lemma create_queue name t :
  create_all (queueMetrics name t) = if (0 <? t)%Z then Value tt
    else Panic "histogram buckets must be in increasing order".
Proof.
  unfold queueMetrics. cbn [create_all create queue_metric m_kind]. unfold newHistogram.
  cbn [m_labels m_const m_buckets queue_metric waitingTimeBuckets fmap list_fmap].
  change (existsb (String.eqb "le") ([] ++ [("queue_name", name)].*1)) with false. cbn match.
  cbn [increasing waitingTimeBuckets fmap list_fmap].
  destruct (Z.ltb_spec 0 t) as [Ht|Ht].
  - assert (∀ a b, (a < b)%Z → (t * a <? t * b)%Z = true) as H.
    { intros a b Hab. apply Z.ltb_lt. nia. }
    by rewrite !H by lia.
  - destruct (Z.ltb_spec (t * 1) (t * 5)); [lia|done].
Qed.

(** A registry in which the queues of these names are registered. *)
Definition started (used : list string) (r : registry) : Prop :=
  Forall (λ d, compatible r d ∧ ∀ name, (d_fqName d, [name]) ∈ descIDs r ↔ name ∈ used)
    (queue_descs "").

Lemma newQueueMetrics_step used r name t :
  started used r → ValidString name = true →
  ((0 < t)%Z ∧ name ∉ used →
   ∃ r', newQueueMetrics name t r = Value r' ∧ started (name :: used) r') ∧
  (¬ ((0 < t)%Z ∧ name ∉ used) → ∃ w, newQueueMetrics name t r = Panic w).
Proof.
  intros Hs Hv. unfold newQueueMetrics. rewrite create_queue.
  assert (∀ d, d ∈ queue_descs name → ∃ e, e ∈ queue_descs "" ∧ d_fqName d = d_fqName e ∧
    d_dims d = d_dims e ∧ d_id d = (d_fqName e, [name])) as Hde.
  { intros d (m & -> & Hm)%list_elem_of_fmap. exists (queue_desc "" m).
    split; [by apply list_elem_of_fmap_2|done]. }
  unfold started in Hs. rewrite Forall_forall in Hs.
  destruct (Z.ltb_spec 0 t) as [Ht|Ht]; split; intros H.
  - destruct H as [_ Hn]. rewrite (MustRegister_descs _ (queue_descs name)) by (by apply NewDesc_queue).
    destruct (register_descs_ok (queue_descs name) r) as (r' & E & H1 & H2 & H3).
    { apply (bool_decide_eq_true_1 (NoDup _)). vm_compute. reflexivity. }
    { apply Forall_forall. intros d (e & _ & He & _ & Hi)%Hde. by rewrite Hi, He. }
    { apply Forall_forall. intros d (e & Hin & He & Hd & Hi)%Hde. destruct (Hs e Hin) as [Hc Hu].
      split; [unfold compatible; by rewrite He, Hd|]. rewrite Hi. by rewrite Hu. }
    exists r'. split; [done|]. apply Forall_forall. intros e Hin. rewrite Forall_forall in H2.
    assert (∃ d, d ∈ queue_descs name ∧ d_fqName d = d_fqName e ∧ d_dims d = d_dims e ∧
      d_id d = (d_fqName e, [name])) as (d & Hd & E1 & E2 & E3).
    { apply list_elem_of_fmap in Hin as (m & -> & Hm). exists (queue_desc name m).
      split; [by apply list_elem_of_fmap_2|done]. }
    split; [right; rewrite <- E1, <- E2; by apply H2|]. intros n.
    rewrite H1, elem_of_cons. destruct (Hs e Hin) as [_ Hu]. rewrite Hu. split.
    + intros [Hn'|Hn']; [by right|]. apply list_elem_of_fmap in Hn' as (d' & Heq & Hd').
      apply Hde in Hd' as (e' & _ & _ & _ & Hi'). rewrite Hi' in Heq. left. by injection Heq.
    + intros [->|Hn']; [|by left]. right. rewrite <- E3. by apply list_elem_of_fmap_2.
  - rewrite (MustRegister_descs _ (queue_descs name)) by (by apply NewDesc_queue).
    assert (name ∈ used) as Hu by (destruct (decide (name ∈ used)); [done|exfalso; by apply H]).
    set (m := queue_metric "" Gauge "gitlab_workhorse_queueing_limit"
      "Current limit set for the queueing mechanism" [] []).
    assert (m ∈ queueMetrics "" 0) as Hm by apply list_elem_of_here.
    apply (register_descs_dup _ (queue_desc name m)); [by apply list_elem_of_fmap_2|].
    apply (Hs (queue_desc "" m)); [by apply list_elem_of_fmap_2|done].
  - lia.
  - by eexists.
Qed.

Lemma start_queues_step qs used r :
  started used r → Forall (λ n, ValidString n = true) qs.*1 →
  (∃ r', start_queues qs r = Value r') ↔
  NoDup qs.*1 ∧ (∀ n, n ∈ qs.*1 → n ∉ used) ∧ Forall (λ t, 0 < t)%Z qs.*2.
Proof.
  revert used r. induction qs as [|[name t] qs IH]; intros used r Hs Hv; cbn.
  { split; [intros _|by eexists]. split_and!; [constructor|set_solver|constructor]. }
  apply Forall_cons in Hv as [Hv1 Hv]. destruct (newQueueMetrics_step used r name t Hs Hv1) as [Hok Hno].
  rewrite NoDup_cons, Forall_cons.
  destruct (decide ((0 < t)%Z ∧ name ∉ used)) as [Hc|Hc].
  - destruct (Hok Hc) as (r' & -> & Hs'). rewrite (IH (name :: used) r') by done. set_solver.
  - destruct (Hno Hc) as [w ->]. split; [by intros [r' ?]|]. intros ([H1 H2] & H3 & H4 & H5).
    exfalso. apply Hc. split; [done|]. apply H3. set_solver.
Qed.

(** ** Properties *)


(** Every metric of the packages is well-formed (valid name, help and labels, increasing
    buckets, labels only on vectors), and no two have one name: in whatever order the init
    functions run, registering them does not panic, and all but two get exported. *)
Theorem inits_register (order : list (list metric)) (r0 : registry)
    (Horder : order ≡ₚ inits) (Hr0 : consistent r0)
    (Hothers : Forall (λ m, ¬ known r0 (fqName m)) declared) :
  Forall (λ m, well_formed m = true) declared ∧
  ∃ r, MustRegister (concat order) r0 = Value r ∧ consistent r ∧
    (∀ n, known r n ↔ known r0 n ∨ n ∈ fqName <$> concat inits) ∧
    ¬ known r (fqName objectStorageUploadTime) ∧ ¬ known r (fqName httpResponseSizeBytes).
Proof.
  assert (concat order ≡ₚ concat inits) as Hperm by (by rewrite Horder).
  split; [apply declared_well_formed|].
  destruct (MustRegister_fresh (concat order) r0) as (r & E & Hc & Hk).
  - rewrite Forall_forall. intros m Hm. rewrite Hperm in Hm.
    pose proof declared_well_formed as Hw. rewrite Forall_forall in Hw. unfold declared in Hw.
    specialize (Hw m (proj2 (elem_of_app _ _ _) (or_introl Hm))). unfold well_formed in Hw. by destruct (NewDesc m); [eexists|].
  - rewrite Hperm. apply (bool_decide_eq_true_1 (NoDup _)). vm_compute. reflexivity.
  - done.
  - rewrite Hperm. unfold declared in Hothers. by apply Forall_app in Hothers as [? _].
  - exists r. split; [done|]. split; [done|].
    assert (∀ n, known r n ↔ known r0 n ∨ n ∈ fqName <$> concat inits) as Hk'.
    { intros n. rewrite Hk. by rewrite Hperm. }
    split; [done|]. unfold declared in Hothers. apply Forall_app in Hothers as [_ Ho].
    apply Forall_cons in Ho as [Ho1 [Ho2 _]%Forall_cons].
    rewrite !Hk'. split; intros [H|H]; try done; revert H;
      apply (bool_decide_eq_true_1 (_ ∉ _)); vm_compute; reflexivity.
Qed.

(** Queues can be started exactly if their names are different and their timeouts are
    positive: the second queue of a name makes the program panic, as the comment warns, and
    so does a timeout that is not positive, whose histogram has no increasing buckets. *)
Theorem start_queues_spec (qs : list (string * Z)) (r : registry) (Hr : consistent r)
    (Hnew : Forall (λ d, ¬ known r (d_fqName d)) (queue_descs ""))
    (Hnames : Forall (λ n, ValidString n = true) qs.*1) :
  (∃ r', start_queues qs r = Value r') ↔ NoDup qs.*1 ∧ Forall (λ t, 0 < t)%Z qs.*2.
Proof.
  rewrite (start_queues_step qs [] r); [|  |done].
  { split; [by intros (? & _ & ?)|]. intros [? ?]. split_and!; [done| |done].
    intros n _. apply not_elem_of_nil. }
  eapply Forall_impl; [exact Hnew|]. intros d Hd. split; [left; by apply eq_None_not_Some|].
  intros n. split; [|by intros H%not_elem_of_nil]. intros H%Hr. by destruct Hd.
Qed.

(** Instrumenting a route checks the metrics without panic: each has a route label to give,
    and is then partitioned by status code and method. *)
Theorem instrumentRoute_checks : instrumentRoute = replicate 5 (Value (true, true)).
Proof. vm_compute. reflexivity. Qed.

(** ** Examples *)

Definition empty_registry : registry := {| descIDs := ∅; dimHashesByName := ∅ |}.

Lemma empty_registry_consistent : consistent empty_registry.
Proof. intros i Hi. unfold empty_registry in Hi. cbn in Hi. by apply not_elem_of_empty in Hi. Qed.

Lemma inits_register_witness :
  Forall (λ m, well_formed m = true) declared ∧
  ∃ r, MustRegister (concat (reverse inits)) empty_registry = Value r ∧ consistent r ∧
    (∀ n, known r n ↔ known empty_registry n ∨ n ∈ fqName <$> concat inits) ∧
    ¬ known r (fqName objectStorageUploadTime) ∧ ¬ known r (fqName httpResponseSizeBytes).
Proof.
  apply (inits_register (reverse inits) empty_registry).
  - apply reverse_Permutation.
  - apply empty_registry_consistent.
  - apply Forall_forall. intros m _ [x Hx]. done.
Defined.

Lemma start_queues_spec_witness :
  (∃ r', start_queues [("ci_api_job_requests", 30000000000%Z); ("other", 0%Z)] empty_registry = Value r') ↔
  NoDup ["ci_api_job_requests"; "other"] ∧ Forall (λ t, 0 < t)%Z [30000000000%Z; 0%Z].
Proof.
  apply (start_queues_spec [("ci_api_job_requests", 30000000000%Z); ("other", 0%Z)] empty_registry).
  - apply empty_registry_consistent.
  - apply Forall_forall. intros d _ [x Hx]. done.
  - repeat constructor; vm_compute; reflexivity.
Defined.
End Metrics.
