(* ===== verification/Effects.v ===== *)
(** * Which external calls a program makes

    [guarded ans ok p Q]: as long as the environment's answers satisfy [ans], every
    external call of [p] satisfies [ok], and what [p] returns satisfies [Q].  It is
    compositional where [harmless] is, also through wrapped writers, and it says what an
    execution leaves as it was.  [well_counted] is the type discipline of the metrics: only
    declared ones are updated, with as many label values as they have labels. *)

From S2P Require Import Prelude GoString Http Metrics.
From stdpp Require Import options.

Module Effects.

Section guarded.
Context (ans : ∀ X : Type, ext X → X → Prop) (ok : ∀ X : Type, ext X → Prop).

Fixpoint guarded {A} (p : prog A) (Q : A → Prop) : Prop :=
  match p with
  | Ret a => Q a
  | Raise _ => True
  | HGet _ c => ∀ vs, guarded (c vs) Q
  | HPut _ _ c => guarded c Q
  | WHeader _ c => guarded c Q
  | WBody _ c => ∀ x, guarded (c x) Q
  | Call e c => ok _ e ∧ ∀ x, ans _ e x → guarded (c x) Q
  end.

Lemma guarded_mono {A} (p : prog A) (Q Q' : A → Prop) :
  guarded p Q → (∀ a, Q a → Q' a) → guarded p Q'.
Proof. intros Hp HQ. induction p; cbn in *; naive_solver. Qed.

Lemma guarded_bind {A B} (p : prog A) (f : A → prog B) (Q : B → Prop) :
  guarded p (λ a, guarded (f a) Q) → guarded (bind p f) Q.
Proof. intros Hp. induction p; cbn in *; naive_solver. Qed.

Lemma guarded_try {A} (p : prog A) (Q : A → Prop) :
  guarded p Q → guarded (try p) (λ o, match o with Value a => Q a | Panic _ => True end).
Proof. intros Hp. induction p; cbn in *; naive_solver. Qed.

Lemma guarded_deferring {A} (q : prog unit) (p : prog A) (Q : A → Prop) :
  guarded q (λ _, True) → guarded p Q → guarded (deferring q p) Q.
Proof.
  intros Hq Hp. apply guarded_bind. eapply guarded_mono; [by apply guarded_try|]. intros o Ho.
  apply guarded_bind. eapply guarded_mono; [exact Hq|]. intros _ _. by destruct o.
Qed.

Lemma guarded_harmless {A} (p : prog A) : harmless ok p → guarded p (λ _, True).
Proof. intros Hp. induction p; cbn in *; naive_solver. Qed.

(** Writers whose methods are guarded. *)
Definition guarded_wrapper {W} (wr : Wrapper W) : Prop :=
  (∀ s w, guarded (wr_WriteHeader wr s w) (λ _, True)) ∧
  (∀ d w, guarded (wr_Write wr d w) (λ _, True)).

Lemma guarded_under {W A} (wr : Wrapper W) (p : prog A) (w : W) :
  guarded_wrapper wr → guarded p (λ _, True) → guarded (under wr p w) (λ _, True).
Proof.
  intros [Hh Hw]. revert w. induction p as [a|m|k c IH|k vs c IH|s c IH|d c IH|X e c IH];
    intros w Hp; cbn in *; auto.
  - apply guarded_bind. eapply guarded_mono; [apply Hh|]. intros [[a|m] w'] _; [by apply IH|done].
  - apply guarded_bind. eapply guarded_mono; [apply Hw|]. intros [[a|m] w'] _; [by apply IH|done].
  - destruct Hp as [Hok Hp]. split; [done|]. intros x Hx. by apply IH, Hp.
Qed.

Lemma guarded_serve_under {W A} (wr : Wrapper W) (w : W) (fin : method W unit) (p : prog A) :
  guarded_wrapper wr → (∀ w, guarded (fin w) (λ _, True)) → guarded p (λ _, True) →
  guarded (serve_under wr w fin p) (λ _, True).
Proof.
  intros Hwr Hfin Hp. unfold serve_under, serve_state.
  apply guarded_bind, guarded_bind. eapply guarded_mono; [by apply guarded_under|].
  intros [o w'] _. apply guarded_bind. eapply guarded_mono; [apply Hfin|].
  intros [o' w''] _. cbn. destruct o' as [|m]; [by destruct o|done].
Qed.

(** What such a program leaves as it was. *)
Lemma guarded_keeps {A W T} (E : env W) (obs : W → T) (p : prog A) (Q : A → Prop) r w :
  (∀ X (e : ext X) w, ok X e → obs (E _ e w).2 = obs w) →
  (∀ X (e : ext X) w, ans X e (E _ e w).1) →
  guarded p Q → obs (run E p r w).2 = obs w.
Proof.
  intros HE Hans. revert r w. induction p as [a|m|k c IH|k vs c IH|s c IH|d c IH|X x c IH];
    cbn [guarded]; intros r w Hp; cbn [run]; try done; try (by apply IH).
  - destruct (resp_write d r). by apply IH.
  - destruct Hp as [Hx Hp]. pose proof (HE X x w Hx) as Hw. pose proof (Hans X x w) as Ha.
    destruct (E X x w) as [v w']. cbn in Hw, Ha. rewrite <- Hw. apply IH. by apply Hp.
Qed.
End guarded.

(** What [p] returns is known when what follows runs. *)
Lemma harmless_bind_guarded (ok : ∀ X : Type, ext X → Prop) {A B} (p : prog A) (f : A → prog B)
    (Q : A → Prop) :
  guarded (λ _ _ _, True) ok p Q → (∀ a, Q a → harmless ok (f a)) → harmless ok (bind p f).
Proof. intros Hp Hf. induction p; cbn in *; naive_solver. Qed.

(** An invariant of the environment that every call keeps. *)
Lemma run_invariant {A W} (E : env W) (I : W → Prop) (p : prog A) r w :
  (∀ X (e : ext X) w, I w → I (E X e w).2) → I w → I (run E p r w).2.
Proof.
  intros HE. revert r w. induction p as [a|m|k c IH|k vs c IH|s c IH|d c IH|X x c IH];
    intros r w Hw; cbn [run]; try done; try (by apply IH).
  - destruct (resp_write d r). by apply IH.
  - pose proof (HE X x w Hw) as H. destruct (E X x w). by apply IH.
Qed.

(** ** How a program may panic *)

Section panics.
Context (P : string → Prop).

Fixpoint panics {A} (p : prog A) : Prop :=
  match p with
  | Ret _ => True
  | Raise m => P m
  | HGet _ c => ∀ vs, panics (c vs)
  | HPut _ _ c => panics c
  | WHeader _ c => panics c
  | WBody _ c => ∀ x, panics (c x)
  | Call _ c => ∀ x, panics (c x)
  end.

Lemma panics_bind {A B} (p : prog A) (f : A → prog B) :
  panics p → (∀ a, panics (f a)) → panics (bind p f).
Proof. intros Hp Hf. induction p; cbn in *; naive_solver. Qed.

Lemma panics_deferring {A} (q : prog unit) (p : prog A) :
  panics q → panics p → panics (deferring q p).
Proof.
  intros Hq Hp. unfold deferring.
  assert (∀ k : outcome A → prog A, (∀ a, panics (k (Value a))) → (∀ m, P m → panics (k (Panic m))) →
    panics (bind (try p) k)) as H.
  { intros k Hk Hk'. induction p; cbn in *; naive_solver. }
  apply H; intros x; intros; by apply panics_bind.
Qed.

Lemma panics_never {A} (p : prog A) : never_panics p → panics p.
Proof. intros Hp. induction p; cbn in *; naive_solver. Qed.

Lemma panics_run {A W} (E : env W) (p : prog A) m r w r' w' :
  panics p → run E p r w = (Panic m, r', w') → P m.
Proof.
  revert r w. induction p as [a|n|k c IH|k vs c IH|s c IH|d c IH|X x c IH];
    cbn [panics run]; intros r w Hp Hr; try (by eapply IH); [done|by injection Hr as <-|..].
  - destruct (resp_write d r). by eapply IH.
  - destruct (E X x w). by eapply IH.
Qed.
End panics.

(** Goes through a program that only panics in the ways allowed. *)
Ltac panics_tac :=
  repeat first
    [ progress cbn [panics call header_get header_set header_del header_put write_header write]
    | apply panics_deferring
    | apply panics_bind
    | match goal with
      | |- panics _ (match ?x with _ => _ end) => destruct x eqn:?
      | |- panics _ (let '(_, _) := ?x in _) => destruct x
      | |- ∀ _, _ => intros ?
      | |- True => exact I
      end ].

(** ** Harmless programs under writers *)

Section harmless_under.
Context (ok : ∀ X : Type, ext X → Prop).

Definition harmless_wrapper {W} (wr : Wrapper W) : Prop :=
  (∀ s w, harmless ok (wr_WriteHeader wr s w)) ∧ (∀ d w, harmless ok (wr_Write wr d w)).

Lemma harmless_under {W A} (wr : Wrapper W) (p : prog A) (w : W) :
  harmless_wrapper wr → harmless ok p → harmless ok (under wr p w).
Proof.
  intros [Hh Hw]. revert w. induction p as [a|m|k c IH|k vs c IH|s c IH|d c IH|X e c IH];
    intros w Hp; cbn in *; auto.
  - apply harmless_bind; [apply Hh|]. intros [[a|m] w']; [by apply IH|done].
  - apply harmless_bind; [apply Hw|]. intros [[a|m] w']; [by apply IH|done].
  - destruct Hp as [Hok Hp]. split; [done|]. intros x. by apply IH.
Qed.

Lemma harmless_serve_under {W A} (wr : Wrapper W) (w : W) (fin : method W unit) (p : prog A) :
  harmless_wrapper wr → (∀ w, harmless ok (fin w)) → harmless ok p →
  harmless ok (serve_under wr w fin p).
Proof.
  intros Hwr Hfin Hp. unfold serve_under, serve_state.
  apply harmless_bind; [apply harmless_bind; [by apply harmless_under|]|].
  - intros [o w']. apply harmless_bind; [apply Hfin|]. intros [o' w'']. done.
  - intros [[o o'] w']. destruct o'; [by destruct o|done].
Qed.
End harmless_under.

(** ** Metrics *)

Definition arity (name : string) : option nat :=
  (λ m, length (Metrics.m_labels m)) <$>
    head (filter (λ m, Metrics.fqName m = name) Metrics.declared).

(** An update of a declared metric with the right number of label values; anything that is
    no update of a metric is fine. *)
Definition well_counted {X} (e : ext X) : Prop :=
  match e with
  | Metric name labels _ => arity name = Some (length labels)
  | _ => True
  end.

End Effects.
