(* ===== verification/GoNet.v ===== *)
(** * Addresses, media types and canned responses of the Go standard library

    [net.SplitHostPort], [mime.ParseMediaType] (the media type only: the program
    never looks at the parameters, but they must parse), and the error responses
    of [net/http].  White space is ASCII white space. *)

From S2P Require Import Prelude GoString Http.
From stdpp Require Import options.

(** ** Package net *)

Module Net.
(** The octets before the last separator and those after it. *)
Definition cut_last (sep : octet) (l : bytes) : option (bytes * bytes) :=
  (λ '(a, b), (rev b, rev a)) <$> cut_at sep (rev l).

Definition mem (c : octet) (l : bytes) : bool := existsb (Ascii.eqb c) l.

(** [net.SplitHostPort]. *)
Definition split_host_port (hp : bytes) : option (bytes * bytes) :=
  match cut_last ":"%char hp with
  | None => None
  | Some (before, port) =>
      match hp with
      | "["%char :: hp' =>
          match cut_at "]"%char hp' with
          | None => None
          | Some (host, after) =>
              (* the first ']' must sit just before the last ':' *)
              match after with
              | ":"%char :: port' =>
                  if mem ":"%char port' then None
                  else if mem "["%char hp' || mem "]"%char after then None
                  else Some (host, port)
              | _ => None
              end
          end
      | _ =>
          if mem ":"%char before || mem "["%char hp || mem "]"%char hp then None
          else Some (before, port)
      end
  end.
Definition SplitHostPort (hp : string) : option (string * string) :=
  (λ '(h, p), (of_bytes h, of_bytes p)) <$> split_host_port (to_bytes hp).

Lemma mem_spec c l : mem c l = true ↔ c ∈ l.
Proof. unfold mem. rewrite existsb_exists. setoid_rewrite Ascii.eqb_eq.
  split; [intros (x & Hx & ->)|intros Hx; exists c]; rewrite ?list_elem_of_In in *; auto. Qed.

Lemma mem_false c l : mem c l = false ↔ c ∉ l.
Proof. rewrite <- mem_spec. by destruct (mem c l). Qed.

Lemma cut_last_app sep a b : sep ∉ b → cut_last sep (a ++ sep :: b) = Some (a, b).
Proof.
  intros Hb. unfold cut_last. rewrite rev_app_distr. cbn. rewrite <- app_assoc. cbn.
  rewrite cut_at_app by (by rewrite list_elem_of_In, <- in_rev, <- list_elem_of_In).
  cbn. by rewrite !rev_involutive.
Qed.
End Net.

(** ** Package mime *)

Module Mime.
Definition is_tspecial (c : octet) : bool :=
  existsb (Ascii.eqb c) (to_bytes "()<>@,;:\/[]?=" ++ ["034"%char]).
Definition is_token_char (c : octet) : bool :=
  (32 <? nat_of_ascii c) && (nat_of_ascii c <? 127) && negb (is_tspecial c).
Definition is_space (c : octet) : bool :=
  ((9 <=? nat_of_ascii c) && (nat_of_ascii c <=? 13)) || (nat_of_ascii c =? 32).

Fixpoint trim_left (l : bytes) : bytes :=
  match l with c :: l' => if is_space c then trim_left l' else l | [] => [] end.
Definition trim_space (l : bytes) : bytes := rev (trim_left (rev (trim_left l))).

Fixpoint consume_token (l : bytes) : bytes * bytes :=
  match l with
  | c :: l' =>
      if is_token_char c then let '(t, r) := consume_token l' in (c :: t, r) else ([], l)
  | [] => ([], [])
  end.

(** The content of a quoted string after its opening quote. *)
Fixpoint consume_quoted (l acc : bytes) : option (bytes * bytes) :=
  match l with
  | [] => None
  | c :: l' =>
      if Ascii.eqb c "034"%char then Some (rev acc, l')
      else match l' with
           | d :: l'' =>
               if Ascii.eqb c "\"%char && is_tspecial d then consume_quoted l'' (d :: acc)
               else if Ascii.eqb c "013"%char || Ascii.eqb c "010"%char then None
               else consume_quoted l' (c :: acc)
           | [] => None
           end
  end.

Definition consume_value (l : bytes) : bytes * bytes :=
  match l with
  | [] => ([], [])
  | c :: l' =>
      if Ascii.eqb c "034"%char
      then match consume_quoted l' [] with Some p => p | None => ([], l) end
      else consume_token l
  end.

(** A parameter: its name in lower case, its value and what follows it. *)
Definition consume_media_param (v : bytes) : option (bytes * bytes * bytes) :=
  match trim_left v with
  | ";"%char :: rest =>
      let '(param, rest) := consume_token (trim_left rest) in
      match param, trim_left rest with
      | _ :: _, "="%char :: rest =>
          let rest := trim_left rest in
          let '(value, rest') := consume_value rest in
          match value with
          | [] => if bool_decide (rest' = rest) then None else Some (lower <$> param, [], rest')
          | _ => Some (lower <$> param, value, rest')
          end
      | _, _ => None
      end
  | _ => None
  end.

(** All parameters, in order; [None] where one does not parse or is repeated. *)
Fixpoint media_params (fuel : nat) (v : bytes) (seen : list (bytes * bytes))
    : option (list (bytes * bytes)) :=
  match fuel with
  | O => None
  | S fuel' =>
      match trim_left v with
      | [] => Some seen
      | v =>
          match consume_media_param v with
          | None => if bool_decide (trim_space v = to_bytes ";") then Some seen else None
          | Some (k, value, rest) =>
              if bool_decide (k ∈ seen.*1) then None
              else media_params fuel' rest (seen ++ [(k, value)])
          end
      end
  end.

Definition type_ok (t : bytes) : bool :=
  match consume_token t with
  | ([], _) => false
  | (_, []) => true
  | (_, "/"%char :: rest) =>
      match consume_token rest with ([], _) => false | (_, []) => true | _ => false end
  | _ => false
  end.

(** *** Parameters in pieces (RFC 2231) *)

Definition star : octet := "*"%char.
Definition param (l : list (bytes * bytes)) (k : bytes) : option bytes :=
  snd <$> (snd <$> list_find (λ kv : bytes * bytes, kv.1 = k) l).

(** [percentHexUnescape]. *)
Fixpoint percent_unescape (l : bytes) : option bytes :=
  match l with
  | [] => Some []
  | c :: l' =>
      if Ascii.eqb c "%"%char then
        match l' with
        | a :: b :: l'' =>
            x ← Hex.digit a; y ← Hex.digit b; d ← percent_unescape l'';
            Some (ascii_of_nat (x * 16 + y) :: d)
        | _ => None
        end
      else d ← percent_unescape l'; Some (c :: d)
  end.

(** [decode2231Enc]: a character set, a language and an escaped text. *)
Definition decode2231 (v : bytes) : bytes :=
  match cut_at "'"%char v with
  | Some (charset, rest) =>
      match cut_at "'"%char rest with
      | Some (_, encoded) =>
          let charset := of_bytes (lower <$> charset) in
          if String.eqb charset "us-ascii" || String.eqb charset "utf-8"
          then default [] (percent_unescape encoded) else []
      | None => []
      end
  | None => []
  end.

(** The pieces [name*0], [name*1], ... of a value, some of them escaped. *)
Fixpoint continued (fuel n : nat) (l : list (bytes * bytes)) (k : bytes) : bytes :=
  match fuel with
  | O => []
  | S fuel =>
      let simple := k ++ star :: to_bytes (itoa (Z.of_nat n)) in
      match param l simple with
      | Some v => v ++ continued fuel (S n) l k
      | None =>
          match param l (simple ++ [star]) with
          | Some v =>
              (if Nat.eqb n 0 then decode2231 v else default [] (percent_unescape v))
                ++ continued fuel (S n) l k
          | None => []
          end
      end
  end.

(** What [mime.ParseMediaType] says of parameter [k]: a piece with a star takes the
    place of a plain value. *)
Definition Param (l : list (bytes * bytes)) (k : string) : option string :=
  let k := to_bytes k in
  let starred := k ++ [star] in
  of_bytes <$>
    match param l starred with
    | Some v => Some (decode2231 v)
    | None =>
        if existsb (λ kv, prefix_of_bytes starred kv.1) l &&
           negb (bool_decide (param l (starred ++ to_bytes "0") = None ∧
                              param l (starred ++ to_bytes "0*") = None))
        then Some (continued (length l) 0 l k)
        else param l k
    end.

(** [mime.ParseMediaType]: the media type and the parameters, if there is no error. *)
Definition parse_media_type (v : string) : option (string * list (bytes * bytes)) :=
  let l := to_bytes v in
  let '(t, rest) := match cut_at ";"%char l with
                    | Some (a, b) => (a, ";"%char :: b) | None => (l, []) end in
  let t := trim_space (lower <$> t) in
  if type_ok t then
    params ← media_params (S (length rest)) rest []; Some (of_bytes t, params)
  else None.
Definition ParseMediaType (v : string) : option string := fst <$> parse_media_type v.

(** An escaped text between quotes is read back. *)
Definition escape_octet (c : octet) : bytes :=
  if Ascii.eqb c "\"%char || Ascii.eqb c "034"%char then ["\"%char; c] else [c].
Definition escape_quotes (l : bytes) : bytes := concat (escape_octet <$> l).

Lemma consume_quoted_escaped l acc rest :
  "013"%char ∉ l → "010"%char ∉ l →
  consume_quoted (escape_quotes l ++ "034"%char :: rest) acc = Some (rev acc ++ l, rest).
Proof.
  unfold escape_quotes. revert acc. induction l as [|c l IH]; intros acc Hr Hn; cbn.
  { by rewrite app_nil_r. }
  rewrite not_elem_of_cons in Hr, Hn. destruct Hr as [Hr Hr'], Hn as [Hn Hn'].
  rewrite <- app_assoc.
  assert (rev acc ++ c :: l = rev (c :: acc) ++ l) as -> by (cbn; by rewrite <- app_assoc).
  assert (escape_octet c = if Ascii.eqb c "\"%char || Ascii.eqb c "034"%char
    then ["\"%char; c] else [c]) as -> by done.
  destruct (Ascii.eqb_spec c "\"%char) as [->|H1]; cbn [orb app].
  { cbn. by rewrite IH. }
  destruct (Ascii.eqb_spec c "034"%char) as [->|H2]; cbn [app].
  { cbn. by rewrite IH. }
  remember (concat (escape_octet <$> l) ++ "034"%char :: rest) as m eqn:E.
  cbn [consume_quoted]. destruct (Ascii.eqb_spec c "034"%char); [done|].
  destruct m as [|d m]; [by destruct (app_cons_not_nil _ _ _ E)|].
  destruct (Ascii.eqb_spec c "\"%char); [done|]. cbn [andb].
  destruct (Ascii.eqb_spec c "013"%char); [by subst|].
  destruct (Ascii.eqb_spec c "010"%char); [by subst|]. cbn [orb]. by apply IH.
Qed.
End Mime.

(** ** Canned responses of net/http *)

Definition newline : octet := "010"%char.

(** [http.Error]. *)
Definition http_Error (msg : string) (code : Z) : prog unit :=
  header_set "Content-Type" "text/plain; charset=utf-8";;
  header_set "X-Content-Type-Options" "nosniff";;
  write_header code;;
  _ <- write (to_bytes msg ++ [newline]);;
  Ret tt.

(** [http.NotFound]. *)
Definition http_NotFound : prog unit := http_Error "404 page not found" 404.

(** [http.MaxBytesReader]: at most [n] octets, then an error. *)
Definition max_bytes (n : Z) (b : body) : body :=
  if (Z.of_nat (length (b_data b)) <=? n)%Z then b
  else {| b_data := take (Z.to_nat n) (b_data b);
          b_end := Errorf "http: request body too large" |}.

(** [ioutil.ReadAll]. *)
Definition read_all (b : body) : bytes * option gerr :=
  (b_data b, if decide (b_end b = EOF) then None else Some (b_end b)).

(** [io.LimitReader]. *)
Definition limit_reader (b : body) (n : Z) : body :=
  if (Z.of_nat (length (b_data b)) <? n)%Z then b
  else whole (take (Z.to_nat n) (b_data b)).

(** [io.Copy] to the response writer: reads fill a buffer of 32 kB, which is written
    before the next read.  The octets written, and the error of the write or of the
    body. *)
Definition ErrShortWrite : gerr := Errorf "short write".
Definition copy_buffer : nat := 32 * 1024.
#[global] Opaque copy_buffer.

Fixpoint copy_chunks (fuel : nat) (d : bytes) (end_ : option gerr) (n : Z)
    : prog (Z * option gerr) :=
  match fuel, d with
  | S fuel, _ :: _ =>
      let chunk := take copy_buffer d in
      '(m, err) <- write chunk;;
      match err with
      | Some e => Ret ((n + m)%Z, Some e)
      | None =>
          if (m =? Z.of_nat (length chunk))%Z
          then copy_chunks fuel (drop copy_buffer d) end_ (n + m)
          else Ret ((n + m)%Z, Some ErrShortWrite)
      end
  | _, _ => Ret (n, end_)
  end.
Definition io_Copy (b : body) : prog (Z * option gerr) :=
  copy_chunks (length (b_data b)) (b_data b) (read_all b).2 0.
#[global] Arguments io_Copy : simpl never.

(** The same response with octets appended to its body. *)
Definition resp_append (d : bytes) (r : resp) : resp :=
  {| r_hdr := r_hdr r; r_status := r_status r; r_sent := r_sent r; r_body := r_body r ++ d;
     r_room := r_room r; r_superfluous := r_superfluous r |}.

Lemma resp_write_append d r s :
  r_status r = Some s → body_allowed s = true → r_room r = None →
  resp_write d r = ((Z.of_nat (length d), None), resp_append d r).
Proof.
  destruct r. cbn. intros -> Hb ->. unfold resp_write, resp_append. cbn -[body_allowed].
  rewrite Hb. cbn.
  by rewrite bool_decide_eq_true_2.
Qed.

Lemma resp_append_app d d' r : resp_append d' (resp_append d r) = resp_append (d ++ d') r.
Proof. unfold resp_append. cbn. by rewrite app_assoc. Qed.

Lemma resp_append_nil r : resp_append [] r = r.
Proof. unfold resp_append. rewrite app_nil_r. by destruct r. Qed.

Lemma copy_buffer_pos : 0 < copy_buffer.
Proof. Transparent copy_buffer. unfold copy_buffer. lia. Opaque copy_buffer. Qed.

Lemma run_copy_chunks {W} (E : env W) fuel d x n r s e :
  length d ≤ fuel → r_status r = Some s → body_allowed s = true → r_room r = None →
  run E (copy_chunks fuel d x n) r e =
    (Value ((n + Z.of_nat (length d))%Z, x), resp_append d r, e).
Proof.
  revert d n r. induction fuel as [|fuel IH]; intros d n r Hd Hs Hb Hr.
  - destruct d; [|cbn in Hd; lia]. cbn. by rewrite Z.add_0_r, resp_append_nil.
  - destruct d as [|c d]; [cbn; by rewrite Z.add_0_r, resp_append_nil|].
    cbn [copy_chunks]. remember (c :: d) as l eqn:El. rewrite run_bind. cbn [write run].
    erewrite resp_write_append by done. rewrite Z.eqb_refl.
    rewrite IH; [|rewrite length_drop; pose proof copy_buffer_pos; subst; cbn in *; lia|done..].
    rewrite resp_append_app, take_drop, length_take, length_drop. do 4 f_equal. lia.
Qed.

(** On a response that has started and whose client accepts everything, the whole body
    arrives, and the error is the one that ended the body. *)
Lemma run_io_Copy {W} (E : env W) b r s e :
  r_status r = Some s → body_allowed s = true → r_room r = None →
  run E (io_Copy b) r e =
    (Value (Z.of_nat (length (b_data b)), (read_all b).2), resp_append (b_data b) r, e).
Proof. intros. unfold io_Copy. by erewrite run_copy_chunks. Qed.

Lemma copy_chunks_harmless ok fuel d x n : harmless ok (copy_chunks fuel d x n).
Proof.
  revert d n. induction fuel as [|fuel IH]; intros [|c d] n; try exact I. cbn.
  intros [m [y|]]; [exact I|]. destruct (m =? _)%Z; [apply IH|exact I].
Qed.

(** On a response that has not started, the first octet sends a 200. *)
Lemma run_io_Copy_fresh {W} (E : env W) b r e :
  r_status r = None → r_room r = None → b_data b ≠ [] →
  run E (io_Copy b) r e =
    (Value (Z.of_nat (length (b_data b)), (read_all b).2),
     resp_append (b_data b) (resp_header 200 r), e).
Proof.
  intros Hs Hr Hd. transitivity (run E (io_Copy b) (resp_header 200 r) e).
  - unfold io_Copy. destruct (b_data b) as [|c d]; [done|]. cbn [length copy_chunks].
    rewrite !run_bind. cbn [run write]. by rewrite resp_write_fresh.
  - unfold resp_header. rewrite Hs. by apply (run_io_Copy E b _ 200%Z).
Qed.

Lemma copy_chunks_calm fuel d x n : never_panics (copy_chunks fuel d x n).
Proof.
  revert d n. induction fuel as [|fuel IH]; intros [|c d] n; try exact I. cbn.
  intros [m [y|]]; [exact I|]. destruct (m =? _)%Z; [apply IH|exact I].
Qed.

Lemma io_Copy_calm b : never_panics (io_Copy b).
Proof. apply copy_chunks_calm. Qed.

Lemma copy_chunks_codes fuel d x n : codes_ok (copy_chunks fuel d x n).
Proof.
  revert d n. induction fuel as [|fuel IH]; intros [|c d] n; try exact I. cbn.
  intros [m [y|]]; [exact I|]. destruct (m =? _)%Z; [apply IH|exact I].
Qed.

Lemma io_Copy_codes b : codes_ok (io_Copy b).
Proof. apply copy_chunks_codes. Qed.

Lemma io_Copy_harmless ok b : harmless ok (io_Copy b).
Proof. apply copy_chunks_harmless. Qed.

(** A server request always has a body, empty if none was sent. *)
Definition body_of (r : Request) : body := default (whole []) (Body r).

(** ** Query strings ([url.ParseQuery], [url.Values.Get]) *)
Module Query.
(** [url.QueryUnescape]. *)
Fixpoint unescape (l : bytes) : option bytes :=
  match l with
  | [] => Some []
  | c :: l' =>
      if Ascii.eqb c "%"%char then
        match l' with
        | a :: b :: l'' =>
            x ← Hex.digit a; y ← Hex.digit b; d ← unescape l''; Some (ascii_of_nat (x * 16 + y) :: d)
        | _ => None
        end
      else
        d ← unescape l'; Some ((if Ascii.eqb c "+"%char then " "%char else c) :: d)
  end.

(** The pieces between ampersands and semicolons. *)
Fixpoint pieces (cur : bytes) (l : bytes) : list bytes :=
  match l with
  | [] => [rev cur]
  | c :: l =>
      if Ascii.eqb c "&"%char || Ascii.eqb c ";"%char then rev cur :: pieces [] l
      else pieces (c :: cur) l
  end.

(** A piece that is not well escaped is skipped. *)
Definition parse_piece (l : bytes) : option (string * string) :=
  match l with
  | [] => None
  | _ =>
      let '(k, v) := match cut_at "="%char l with Some kv => kv | None => (l, []) end in
      k ← unescape k; v ← unescape v; Some (of_bytes k, of_bytes v)
  end.

Definition Get (rawquery key : string) : string :=
  match list_find (λ kv : string * string, kv.1 = key)
          (omap parse_piece (pieces [] (to_bytes rawquery))) with
  | Some (_, (_, v)) => v
  | None => ""
  end.

Example Get_1 : Get "a=b&service=git-upload-pack" "service" = "git-upload-pack".
Proof. reflexivity. Qed.
Example Get_2 : Get "service=%67it%2Dx&service=y" "service" = "git-x".
Proof. reflexivity. Qed.
End Query.

Example parse_media_type_1 :
  Mime.ParseMediaType "Application/JSON; charset=utf-8" = Some "application/json".
Proof. reflexivity. Qed.
Example parse_media_type_2 : Mime.ParseMediaType "application/json; x" = None.
Proof. reflexivity. Qed.
Example split_host_port_1 : Net.SplitHostPort "10.0.0.1:8080" = Some ("10.0.0.1", "8080").
Proof. reflexivity. Qed.
Example split_host_port_2 : Net.SplitHostPort "[::1]:80" = Some ("::1", "80").
Proof. reflexivity. Qed.
Example split_host_port_3 : Net.SplitHostPort "::1" = None.
Proof. reflexivity. Qed.
