(* ===== verification/GoXml.v ===== *)
(** * XML documents (encoding/xml)

    What [xml.Marshal] writes for the messages of the program: elements without attributes,
    each with text and child elements.  [parse] reads such documents back as [xml.Unmarshal]
    does; it refuses what [Marshal] never writes (attributes, comments, processing
    instructions, CDATA sections).  The round trip is the contract the two ends of an
    exchange of messages rely on. *)

From S2P Require Import Prelude GoString Http GoNet.
From stdpp Require Import options.

Module Xml.

(** An element: its name, the text directly inside it, its child elements. *)
Inductive elem := Elem (name : bytes) (text : bytes) (kids : list elem).

Definition e_name (e : elem) : bytes := let 'Elem n _ _ := e in n.
Definition e_text (e : elem) : bytes := let 'Elem _ t _ := e in t.
Definition e_kids (e : elem) : list elem := let 'Elem _ _ l := e in l.

(** [xml.EscapeText], for valid UTF-8. *)
Definition xml_escape (c : octet) : bytes :=
  let n := nat_of_ascii c in
  if n =? 34 then to_bytes "&#34;" else if n =? 39 then to_bytes "&#39;"
  else if n =? 38 then to_bytes "&amp;" else if n =? 60 then to_bytes "&lt;"
  else if n =? 62 then to_bytes "&gt;" else if n =? 9 then to_bytes "&#x9;"
  else if n =? 10 then to_bytes "&#xA;" else if n =? 13 then to_bytes "&#xD;"
  else if n <? 32 then ["239"; "191"; "189"]%char
  else [c].

Definition open_tag (n : bytes) : bytes := "<"%char :: n ++ [">"%char].
Definition close_tag (n : bytes) : bytes := "<"%char :: "/"%char :: n ++ [">"%char].

(** [xml.Marshal]. *)
Fixpoint print (e : elem) : bytes :=
  match e with
  | Elem n t l =>
      open_tag n ++ concat (xml_escape <$> t) ++ concat (print <$> l) ++ close_tag n
  end.

(** A field of a struct: text only. *)
Definition field (name text : string) : elem := Elem (to_bytes name) (to_bytes text) [].
Definition struct (name : string) (l : list elem) : elem := Elem (to_bytes name) [] l.

(** ** Reading *)

(** Where the reader is: in text, in a tag, in a reference. *)
Inductive mode := MText | MTag (acc : bytes) | MRef (acc : bytes).

Definition name_ok (n : bytes) : bool :=
  match n with [] => false | _ => forallb (λ c, is_upper c || is_lower c || is_digit c) n end.

(** The opened or closed element of a tag. *)
Definition tag (acc : bytes) : option (bool * bytes) :=
  match acc with
  | c :: n =>
      if Ascii.eqb c "/"%char then if name_ok n then Some (false, n) else None
      else if name_ok acc then Some (true, acc) else None
  | [] => None
  end.

Definition reference (acc : bytes) : option octet :=
  snd <$> head (filter (λ x, x.1 = of_bytes acc)
    [("#34", "034"%char); ("quot", "034"%char); ("#39", "039"%char); ("apos", "039"%char);
     ("amp", "&"%char); ("lt", "<"%char); ("gt", ">"%char); ("#x9", "009"%char);
     ("#xA", "010"%char); ("#xD", "013"%char)]).

Definition add_text (c : octet) (st : list elem) : list elem :=
  match st with Elem n t l :: st => Elem n (t ++ [c]) l :: st | [] => [] end.
Definition add_kid (e : elem) (f : elem) : elem := let 'Elem n t l := f in Elem n t (l ++ [e]).

(** The stack holds the elements that are open, the innermost first.  The reader stops
    when the outermost one is closed. *)
Fixpoint read (st : list elem) (m : mode) (l : bytes) : option elem :=
  match l with
  | [] => None
  | c :: l =>
      match m with
      | MText =>
          if Ascii.eqb c "<"%char then read st (MTag []) l
          else if Ascii.eqb c "&"%char then read st (MRef []) l
          else if Ascii.eqb c ">"%char || (nat_of_ascii c <? 32) then None
          else read (add_text c st) MText l
      | MTag acc =>
          if Ascii.eqb c ">"%char then
            match tag acc with
            | Some (true, n) => read (Elem n [] [] :: st) MText l
            | Some (false, n) =>
                match st with
                | f :: st =>
                    if bool_decide (e_name f = n) then
                      match st with
                      | [] => Some f
                      | g :: st => read (add_kid f g :: st) MText l
                      end
                    else None
                | [] => None
                end
            | None => None
            end
          else read st (MTag (acc ++ [c])) l
      | MRef acc =>
          if Ascii.eqb c ";"%char then
            match reference acc with Some d => read (add_text d st) MText l | None => None end
          else read st (MRef (acc ++ [c])) l
      end
  end.

Definition parse (l : bytes) : option elem := read [] MText l.

(** ** The round trip *)

(** Text that escaping does not change: no control characters but tab, line feed and
    carriage return. *)
Definition text_octet (c : octet) : bool :=
  let n := nat_of_ascii c in (32 <=? n) || (n =? 9) || (n =? 10) || (n =? 13).

Fixpoint wf (e : elem) : bool :=
  match e with Elem n t l => name_ok n && forallb text_octet t && forallb wf l end.

(** What reading goes on with when the element on top of the stack is closed. *)
Definition closing (st : list elem) (e : elem) (l : bytes) : option elem :=
  match st with [] => Some e | g :: st => read (add_kid e g :: st) MText l end.

Lemma read_tag st acc n l :
  forallb (λ c, negb (Ascii.eqb c ">"%char)) n = true →
  read st (MTag acc) (n ++ l) = read st (MTag (acc ++ n)) l.
Proof.
  revert acc. induction n as [|c n IH]; intros acc H; cbn [app]; [by rewrite app_nil_r|].
  cbn in H. apply andb_true_iff in H as [Hc H]. cbn [read].
  destruct (Ascii.eqb c ">"%char); [done|]. by rewrite IH, <- app_assoc.
Qed.

Lemma name_ok_spec n : name_ok n = true →
  forallb (λ c, negb (Ascii.eqb c ">"%char)) n = true ∧
  ∃ c n', n = c :: n' ∧ Ascii.eqb c "/"%char = false.
Proof.
  destruct n as [|c n]; [done|]. intros H. unfold name_ok in H. split.
  - apply forallb_forall. intros d Hd. rewrite forallb_forall in H. specialize (H d Hd).
    destruct (Ascii.eqb_spec d ">"%char) as [->|]; [done|done].
  - exists c, n. split; [done|]. cbn in H. apply andb_true_iff in H as [H _].
    destruct (Ascii.eqb_spec c "/"%char) as [->|]; [done|done].
Qed.

Lemma read_open st n l : name_ok n = true →
  read st MText (open_tag n ++ l) = read (Elem n [] [] :: st) MText l.
Proof.
  intros Hn. destruct (name_ok_spec n Hn) as (Hg & c & n' & -> & Hc).
  change (open_tag (c :: n') ++ l) with ("<"%char :: ((c :: n') ++ [">"%char]) ++ l).
  rewrite <- app_assoc. cbn [read Ascii.eqb Bool.eqb]. rewrite read_tag by done.
  cbn [app read Ascii.eqb Bool.eqb]. unfold tag. by rewrite Hc, Hn.
Qed.

Lemma read_close n t k st l : name_ok n = true →
  read (Elem n t k :: st) MText (close_tag n ++ l) = closing st (Elem n t k) l.
Proof.
  intros Hn. destruct (name_ok_spec n Hn) as (Hg & _).
  change (close_tag n ++ l) with ("<"%char :: "/"%char :: (n ++ [">"%char]) ++ l).
  rewrite <- app_assoc. cbn [read Ascii.eqb Bool.eqb]. rewrite read_tag by done.
  cbn [app read tag Ascii.eqb Bool.eqb]. rewrite Hn. by rewrite bool_decide_true.
Qed.

Lemma read_octet c st l : text_octet c = true →
  read st MText (xml_escape c ++ l) = read (add_text c st) MText l.
Proof.
  intros Hc. destruct c as [[] [] [] [] [] [] [] []]; try discriminate Hc; reflexivity.
Qed.

Lemma read_text t n s k st l : forallb text_octet t = true →
  read (Elem n s k :: st) MText (concat (xml_escape <$> t) ++ l) =
    read (Elem n (s ++ t) k :: st) MText l.
Proof.
  revert s. induction t as [|c t IH]; intros s H; cbn [fmap list_fmap concat].
  { by rewrite app_nil_r. }
  cbn in H. apply andb_true_iff in H as [Hc H]. rewrite <- app_assoc, read_octet by done.
  cbn [add_text]. by rewrite IH, <- app_assoc.
Qed.

Lemma read_kids ks n t k st l :
  Forall (λ e, wf e = true → ∀ st l, read st MText (print e ++ l) = closing st e l) ks →
  forallb wf ks = true →
  read (Elem n t k :: st) MText (concat (print <$> ks) ++ l) =
    read (Elem n t (k ++ ks) :: st) MText l.
Proof.
  intros Hks. revert k. induction Hks as [|e ks He _ IH]; intros k H; cbn [fmap list_fmap concat].
  { by rewrite app_nil_r. }
  cbn in H. apply andb_true_iff in H as [Hw H]. rewrite <- app_assoc, He by done.
  cbn [closing add_kid]. by rewrite IH, <- app_assoc.
Qed.

Lemma read_print e : wf e = true → ∀ st l, read st MText (print e ++ l) = closing st e l.
Proof.
  revert e. fix IH 1. intros [n t ks] H st l. cbn [wf] in H.
  apply andb_true_iff in H as [H Hk]. apply andb_true_iff in H as [Hn Ht]. cbn [print].
  rewrite <- !app_assoc, read_open, read_text by done. cbn [app].
  rewrite read_kids, read_close; [done|done| |done].
  clear -IH. induction ks; constructor; auto.
Qed.

Theorem parse_print (e : elem) : wf e = true → parse (print e) = Some e.
Proof. intros H. unfold parse. rewrite <- (app_nil_r (print e)). by apply read_print. Qed.

(** ** Fields of a struct ([xml.Unmarshal]) *)

(** The text of the last child of that name. *)
Definition text_of (name : string) (e : elem) : option string :=
  foldl (λ found k, if String.eqb (of_bytes (e_name k)) name
                    then Some (of_bytes (e_text k)) else found) None (e_kids e).

(** An [int] field: 0 when it is missing or empty. *)
Definition int_of (name : string) (e : elem) : option Z :=
  match text_of name e with
  | None | Some EmptyString => Some 0%Z
  | Some s => Atoi (of_bytes (Mime.trim_space (to_bytes s)))
  end.

Example parse_1 :
  parse (to_bytes "<A><B>x &lt; y</B><C></C></A> rest") =
    Some (struct "A" [field "B" "x < y"; field "C" ""]).
Proof. reflexivity. Qed.
Example parse_2 : parse (to_bytes "<A><B></A></B>") = None.
Proof. reflexivity. Qed.
Example print_1 : of_bytes (print (struct "A" [field "B" "1 & 2"])) = "<A><B>1 &amp; 2</B></A>".
Proof. reflexivity. Qed.
End Xml.
