(* ===== verification/GoMultipart.v ===== *)
(** * Multipart forms of the Go standard library

    Package [mime/multipart], on a whole body: the reader gives the parts in order and the
    error that ends them, [EOF] after the final boundary; the writer appends parts to a
    buffer.  Both follow the code of Go 1.10, line endings, padding of boundaries and
    truncated bodies included; decoding quoted-printable text is a parameter.  The main
    fact is that the reader gives back what the writer wrote. *)

From S2P Require Import Prelude GoString Http GoNet.
From stdpp Require Import options.

Module Multipart.

Definition cr : octet := "013"%char.
Definition lf : octet := "010"%char.
Definition tab : octet := "009"%char.
Definition crlf : bytes := [cr; lf].
Definition is_blank (c : octet) : bool := Ascii.eqb c " "%char || Ascii.eqb c tab.

(** ** Headers of parts ([net/textproto]) *)

Fixpoint skip_blanks (l : bytes) : bytes :=
  match l with c :: l' => if is_blank c then skip_blanks l' else l | [] => [] end.
Definition trim_blanks (l : bytes) : bytes := rev (skip_blanks (rev (skip_blanks l))).

(** A line without its ending, and what follows it; [None] at the end of the data. *)
Definition text_line (d : bytes) : option (bytes * bytes) :=
  match d with
  | [] => None
  | _ =>
      match cut_at lf d with
      | Some (a, rest) =>
          Some (match rev a with c :: a' => if Ascii.eqb c cr then rev a' else a | [] => [] end, rest)
      | None => Some (d, [])
      end
  end.

(** A line with the lines that continue it. *)
Fixpoint continued (fuel : nat) (acc d : bytes) : bytes * bytes :=
  match fuel with
  | O => (acc, d)
  | S fuel =>
      match d with
      | c :: _ =>
          if is_blank c then
            match text_line (skip_blanks d) with
            | Some (line, rest) => continued fuel (acc ++ " "%char :: trim_blanks line) rest
            | None => (acc, [])
            end
          else (acc, d)
      | [] => (acc, [])
      end
  end.

Fixpoint strip_spaces (l : bytes) : bytes :=
  match l with c :: l' => if Ascii.eqb c " "%char then strip_spaces l' else l | [] => [] end.

(** A field: its canonical key, without the spaces before the colon, and its value. *)
Definition field (kv : bytes) : option (string * string) :=
  match cut_at ":"%char kv with
  | None => None
  | Some (k, v) =>
      Some (Header.canonical_key (of_bytes (rev (strip_spaces (rev k)))), of_bytes (skip_blanks v))
  end.

(** Values of one key are kept in order; an empty key is skipped. *)
Definition add (m : header) (k v : string) : header :=
  if String.eqb k "" then m else <[k := default [] (m !! k) ++ [v]]> m.

(** [textproto.Reader.ReadMIMEHeader]: the header, or the error, and what follows. *)
Fixpoint fields (fuel : nat) (m : header) (d : bytes) (err : gerr) : result header * bytes :=
  match fuel with
  | O => (inr err, d)
  | S fuel =>
      match text_line d with
      | None => (inr err, [])
      | Some ([], rest) => (inl m, rest)
      | Some (line, rest) =>
          let '(kv, rest) := continued (length rest) (trim_blanks line) rest in
          match kv with
          | [] => (inl m, rest)
          | _ =>
              match field kv with
              | None => (inr (Errorf "malformed MIME header line"), rest)
              | Some (k, v) => fields fuel (add m k v) rest err
              end
          end
      end
  end.
Definition ReadMIMEHeader (d : bytes) (err : gerr) : result header * bytes :=
  match d with
  | c :: _ =>
      if is_blank c then (inr (Errorf "malformed MIME header initial line"), d)
      else fields (S (length d)) ∅ d err
  | [] => (inr err, [])
  end.

(** ** The reader *)

(** [multipart.Part]: its header, and the octets it delivers. *)
Record Part := mk_part { p_header : header; p_body : body }.

Definition ErrUnexpectedEOF : gerr := Errorf "unexpected EOF".
Definition ErrBufferFull : gerr := Wrapf "multipart: NextPart" (Errorf "bufio: buffer full").
(** The length of a line that [NextPart] can look at. *)
Definition peekBufferSize : nat := 4096.
#[global] Opaque peekBufferSize.

Section reader.
Context (quotedprintable : body → body).
Context (boundary : bytes).

Definition dashBoundary : bytes := to_bytes "--" ++ boundary.

(** What may follow a boundary. *)
Definition after_boundary (rest : bytes) : bool :=
  match rest with
  | [] => true
  | c :: _ => is_blank c || Ascii.eqb c cr || Ascii.eqb c lf || Ascii.eqb c "-"%char
  end.

(** The data before the first delimiter, and the data from it on. *)
Fixpoint scan (delim : bytes) (skip : nat) (d : bytes) : option (bytes * bytes) :=
  match skip with
  | S skip =>
      match d with
      | [] => None
      | c :: d' => prod_map (c ::.) id <$> scan delim skip d'
      end
  | O =>
      if prefix_of_bytes delim d && after_boundary (drop (length delim) d) then Some ([], d)
      else
        match d with
        | [] => None
        | c :: d' =>
            prod_map (c ::.) id <$>
              scan delim (if prefix_of_bytes delim d then length delim - 1 else 0) d'
        end
  end.

(** The data of a truncated part: a last piece that could have begun a delimiter is not
    delivered. *)
Fixpoint drop_partial (delim d : bytes) : bytes :=
  match d with
  | [] => []
  | c :: d' => if prefix_of_bytes d delim then [] else c :: drop_partial delim d'
  end.

(** The body of a part at the start of [d], and what follows it.  A delimiter right at the
    start needs no line ending before it. *)
Definition part_body (nl d : bytes) (err : gerr) : body * bytes :=
  let delim := nl ++ dashBoundary in
  let truncated d := {| b_data := drop_partial delim d;
                        b_end := if decide (err = EOF) then ErrUnexpectedEOF else err |} in
  let found skip :=
    match scan delim skip d with
    | Some (data, rest) => (whole data, rest)
    | None => (truncated d, [])
    end in
  if prefix_of_bytes dashBoundary d then
    if after_boundary (drop (length dashBoundary) d) then (whole [], d)
    else found (length dashBoundary)
  else if prefix_of_bytes d dashBoundary
  then ({| b_data := []; b_end := b_end (truncated []) |}, [])
  else found 0.

(** A boundary line, and whether its ending is a bare line feed, which the first boundary
    makes the ending of all. *)
Definition boundary_rest (line : bytes) : option bytes :=
  if prefix_of_bytes dashBoundary line
  then Some (skip_blanks (drop (length dashBoundary) line)) else None.
Definition is_final (nl line : bytes) : bool :=
  prefix_of_bytes (dashBoundary ++ to_bytes "--") line &&
  let rest := skip_blanks (drop (length dashBoundary + 2) line) in
  bool_decide (rest = []) || bool_decide (rest = nl).

(** What [NextPart] finds: the start of a part, or the error that ends the parts. *)
Fixpoint next_part (fuel : nat) (nl : bytes) (first expect : bool) (d : bytes) (err : gerr)
    : result (bytes * bytes) :=
  match fuel with
  | O => inr ErrUnexpectedEOF
  | S fuel =>
      match cut_at lf d with
      | None =>
          if peekBufferSize <=? length d then inr ErrBufferFull
          else if decide (err = EOF) then
            if is_final nl d then inr EOF else inr (Wrapf "multipart: NextPart" EOF)
          else inr (Wrapf "multipart: NextPart" err)
      | Some (a, rest) =>
          if peekBufferSize <=? length a then inr ErrBufferFull
          else
            let line := a ++ [lf] in
            let nl := if first && bool_decide (boundary_rest line = Some [lf])
                      then [lf] else nl in
            if bool_decide (boundary_rest line = Some nl) then inl (nl, rest)
            else if is_final nl line then inr EOF
            else if expect then inr (Errorf "multipart: expecting a new Part; got line %q")
            else if first then next_part fuel nl first expect rest err
            else if bool_decide (line = nl) then next_part fuel nl first true rest err
            else inr (Errorf "multipart: unexpected line in Next(): %q")
      end
  end.

(** A part whose encoding is quoted-printable is delivered decoded. *)
Definition decode_part (h : header) (b : body) : Part :=
  if String.eqb (Header.Get h "Content-Transfer-Encoding") "quoted-printable"
  then {| p_header := Header.Del h "Content-Transfer-Encoding"; p_body := quotedprintable b |}
  else {| p_header := h; p_body := b |}.

(** All parts, and the error that [NextPart] answers after the last one. *)
Fixpoint parts (fuel : nat) (nl : bytes) (first : bool) (d : bytes) (err : gerr)
    : list Part * gerr :=
  match fuel with
  | O => ([], ErrUnexpectedEOF)
  | S fuel =>
      match next_part (S (length d)) nl first false d err with
      | inr x => ([], x)
      | inl (nl, rest) =>
          match ReadMIMEHeader rest err with
          | (inr x, _) => ([], x)
          | (inl h, rest) =>
              let '(b, rest) := part_body nl rest err in
              let '(ps, x) := parts fuel nl false rest err in
              (decode_part h b :: ps, x)
          end
      end
  end.
Definition read_parts (b : body) : list Part * gerr :=
  parts (S (length (b_data b))) crlf true (b_data b) (b_end b).
End reader.

(** [Part.FormName] and [Part.FileName]. *)
Definition disposition (p : Part) : option (string * list (bytes * bytes)) :=
  Mime.parse_media_type (Header.Get (p_header p) "Content-Disposition").
Definition FormName (p : Part) : string :=
  match disposition p with
  | Some (d, params) =>
      if String.eqb d "form-data" then default "" (Mime.Param params "name") else ""
  | None => ""
  end.
Definition FileName (p : Part) : string :=
  match disposition p with
  | Some (_, params) => default "" (Mime.Param params "filename")
  | None => ""
  end.

(** [http.Request.MultipartReader]: the parts of the body. *)
Definition ErrMissingBoundary : gerr := Errorf "no multipart boundary param in Content-Type".
Definition MultipartReader (quotedprintable : body → body) (r : Request)
    : result (list Part * gerr) :=
  let v := Header.Get (Header_ r) "Content-Type" in
  match Mime.parse_media_type v with
  | Some (d, params) =>
      if negb (String.eqb v "") && String.eqb d "multipart/form-data" then
        match Mime.Param params "boundary" with
        | Some boundary => inl (read_parts quotedprintable (to_bytes boundary) (body_of r))
        | None => inr ErrMissingBoundary
        end
      else inr ErrNotMultipart
  | None => inr ErrNotMultipart
  end.

(** ** The writer *)

(** [multipart.Writer] on a buffer: what was written, and whether a part was. *)
Record Writer := mk_writer { w_boundary : bytes; w_buf : bytes; w_started : bool }.
Definition NewWriter (boundary : bytes) : Writer :=
  {| w_boundary := boundary; w_buf := []; w_started := false |}.

Definition header_lines (h : header) : bytes :=
  concat ((λ '(k, vs), concat ((λ v, to_bytes k ++ to_bytes ": " ++ to_bytes v ++ crlf) <$> vs))
            <$> sort_keys (map_to_list h)).

(** [Writer.CreatePart], and writing [data] to the part. *)
Definition write_part (h : header) (data : bytes) (w : Writer) : Writer :=
  {| w_boundary := w_boundary w;
     w_buf := w_buf w ++ (if w_started w then crlf else []) ++ to_bytes "--" ++ w_boundary w ++
              crlf ++ header_lines h ++ crlf ++ data;
     w_started := true |}.

(** [Writer.WriteField]. *)
Definition field_header (name : string) : header :=
  {["Content-Disposition" := ["form-data; name=" +:+ of_bytes ["034"%char] +:+
      of_bytes (Mime.escape_quotes (to_bytes name)) +:+ of_bytes ["034"%char]]]}.
Definition WriteField (name value : string) (w : Writer) : Writer :=
  write_part (field_header name) (to_bytes value) w.

(** [Writer.Close]. *)
Definition Close (w : Writer) : Writer :=
  {| w_boundary := w_boundary w;
     w_buf := w_buf w ++ crlf ++ to_bytes "--" ++ w_boundary w ++ to_bytes "--" ++ crlf;
     w_started := w_started w |}.

(** [Writer.FormDataContentType]. *)
Definition FormDataContentType (w : Writer) : string :=
  "multipart/form-data; boundary=" +:+ of_bytes (w_boundary w).

(** ** Reading what was written *)

Lemma prefix_of_bytes_app p r : prefix_of_bytes p (p ++ r) = true.
Proof. apply prefix_of_bytes_spec. by exists r. Qed.

Lemma prefix_of_bytes_false p s : (∀ r, s ≠ p ++ r) → prefix_of_bytes p s = false.
Proof.
  intros H. destruct (prefix_of_bytes p s) eqn:E; [|done].
  apply prefix_of_bytes_spec in E as [r ->]. by destruct (H r).
Qed.

(** A line that the reader takes as one: no line feed, no blank at either end. *)
Definition blank_start (l : bytes) : bool := match l with c :: _ => is_blank c | [] => false end.
Definition tidy (l : bytes) : bool :=
  negb (existsb (Ascii.eqb lf) l) && negb (blank_start l) && negb (blank_start (rev l)).
Definition value_ok (v : string) : bool := tidy (to_bytes v).
Definition key_ok (k : string) : bool :=
  tidy (to_bytes k) && negb (existsb (Ascii.eqb ":"%char) (to_bytes k)) &&
  negb (String.eqb k "") && String.eqb (Header.canonical_key k) k.

(** A header that is read back as it was written. *)
Definition header_ok (h : header) : Prop :=
  map_Forall (λ k vs, key_ok k = true ∧ vs ≠ [] ∧ Forall (λ v, value_ok v = true) vs) h ∧
  Header.Get h "Content-Transfer-Encoding" ≠ "quoted-printable".

Lemma tidy_spec l : tidy l = true → lf ∉ l ∧ blank_start l = false ∧ blank_start (rev l) = false.
Proof.
  unfold tidy. rewrite !andb_true_iff, !negb_true_iff. intros [[H1 H2] H3].
  split_and!; [|done..]. by apply Net.mem_false.
Qed.

Lemma skip_blanks_id l : blank_start l = false → skip_blanks l = l.
Proof. destruct l as [|c l]; cbn; [done|]. by intros ->. Qed.

Lemma text_line_app l rest : lf ∉ l → text_line (l ++ crlf ++ rest) = Some (l, rest).
Proof.
  intros Hl. unfold text_line.
  assert (cut_at lf (l ++ crlf ++ rest) = Some (l ++ [cr], rest)) as ->.
  { change (crlf ++ rest) with ([cr] ++ lf :: rest). rewrite app_assoc. apply cut_at_app.
    rewrite elem_of_app, list_elem_of_singleton. by intros [?|?]. }
  rewrite rev_app_distr. cbn [rev app]. rewrite Ascii.eqb_refl, rev_involutive.
  by destruct l.
Qed.

Lemma continued_none fuel acc d : blank_start d = false → continued fuel acc d = (acc, d).
Proof. destruct fuel; [done|]. destruct d as [|c d]; [done|]. cbn. by intros ->. Qed.

(** One field. *)
Definition line_of (kv : string * string) : bytes :=
  to_bytes kv.1 ++ to_bytes ": " ++ to_bytes kv.2.
Definition line_ok (kv : string * string) : Prop := key_ok kv.1 = true ∧ value_ok kv.2 = true.

Lemma strip_spaces_id l : blank_start l = false → strip_spaces l = l.
Proof.
  destruct l as [|c l]; [done|]. cbn. unfold is_blank.
  by destruct (Ascii.eqb c " "%char).
Qed.

Lemma field_line kv : line_ok kv →
  trim_blanks (line_of kv) ≠ [] ∧ field (trim_blanks (line_of kv)) = Some kv.
Proof.
  destruct kv as [k v]. intros [Hk Hv]. unfold key_ok, value_ok in *. cbn [fst snd] in *.
  apply andb_true_iff in Hk as [Hk Hc]. apply andb_true_iff in Hk as [Hk Hne].
  apply andb_true_iff in Hk as [Hk Hcolon].
  apply tidy_spec in Hk as (_ & Hk1 & Hk2). apply tidy_spec in Hv as (_ & Hv1 & Hv2).
  rewrite negb_true_iff in Hcolon, Hne. apply Net.mem_false in Hcolon.
  apply String.eqb_neq in Hne. apply String.eqb_eq in Hc.
  assert (to_bytes k ≠ []) as Hk0 by (by rewrite to_bytes_nil).
  assert (∃ v', trim_blanks (line_of (k, v)) = to_bytes k ++ ":"%char :: v' ∧
    skip_blanks v' = to_bytes v) as (v' & -> & Hv').
  { unfold trim_blanks, line_of. cbn [fst snd].
    rewrite (skip_blanks_id (to_bytes k ++ _)) by (by destruct (to_bytes k)).
    rewrite !rev_app_distr. destruct (to_bytes v) as [|c l] eqn:Ev.
    - exists []. cbn. by rewrite rev_involutive.
    - exists (" "%char :: c :: l). split; [|exact (skip_blanks_id (c :: l) Hv1)].
      rewrite skip_blanks_id.
      + rewrite !rev_app_distr, !rev_involutive, <- ?app_assoc. done.
      + destruct (rev (c :: l)) as [|x y] eqn:Er; [by apply app_eq_nil in Er as [_ ?]|done]. }
  split; [by destruct (to_bytes k)|]. unfold field. rewrite cut_at_app by done.
  rewrite strip_spaces_id, rev_involutive, of_to_bytes, Hc, Hv', of_to_bytes by done. done.
Qed.

Lemma line_starts kv rest : line_ok kv →
  lf ∉ line_of kv ∧ blank_start (line_of kv ++ rest) = false ∧ line_of kv ≠ [].
Proof.
  destruct kv as [k v]. intros [Hk Hv]. unfold key_ok, value_ok in *. cbn [fst snd] in *.
  rewrite !andb_true_iff in Hk. destruct Hk as [[[Hk _] Hne] _].
  apply tidy_spec in Hk as (Hk0 & Hk1 & _). apply tidy_spec in Hv as (Hv0 & _ & _).
  unfold line_of. cbn [fst snd]. split_and!.
  - rewrite !elem_of_app. intros [?|[Hin|?]]; [done| |done].
    revert Hin. apply Net.mem_false. reflexivity.
  - destruct (to_bytes k) eqn:Ek; [|done]. apply to_bytes_nil in Ek as ->. done.
  - by destruct (to_bytes k).
Qed.

Lemma fields_lines fuel m l data err :
  Forall line_ok l → length l < fuel →
  fields fuel m (concat ((λ kv, line_of kv ++ crlf) <$> l) ++ crlf ++ data) err =
    (inl (foldl (λ m kv, add m kv.1 kv.2) m l), data).
Proof.
  intros Hl. revert fuel m. induction Hl as [|kv l Hkv Hl IH]; intros fuel m Hf.
  { destruct fuel as [|fuel]; [cbn in Hf; lia|]. reflexivity. }
  destruct fuel as [|fuel]; [cbn in Hf; lia|]. rewrite fmap_cons. cbn [concat].
  destruct (line_starts kv [] Hkv) as (Hlf & _ & Hne).
  rewrite <- !app_assoc. cbn [fields]. rewrite text_line_app by done.
  destruct (line_of kv) as [|c0 l0] eqn:E; [done|]. rewrite <- E in *. clear E.
  rewrite continued_none.
  2:{ destruct l as [|kv' l]; [done|]. inversion_clear Hl as [|x y Hkv' Hl'].
      rewrite fmap_cons. cbn [concat]. rewrite <- !app_assoc.
      by destruct (line_starts kv' (crlf ++ concat ((λ kv, line_of kv ++ crlf) <$> l) ++ crlf ++ data) Hkv') as (_ & -> & _). }
  destruct (field_line kv Hkv) as [Hn Hkv'].
  destruct (trim_blanks (line_of kv)) as [|c1 l1] eqn:E; [done|]. rewrite Hkv'.
  destruct kv as [k v]. rewrite IH by (cbn in Hf; lia). done.
Qed.

(** The fields of a header, one by one. *)
Definition flat (l : list (string * list string)) : list (string * string) :=
  concat ((λ kvs : string * list string, pair kvs.1 <$> kvs.2) <$> l).

Lemma header_lines_flat h :
  header_lines h = concat ((λ kv, line_of kv ++ crlf) <$> flat (sort_keys (map_to_list h))).
Proof.
  unfold header_lines, flat. induction (sort_keys (map_to_list h)) as [|[k vs] l IH]; [done|].
  rewrite !fmap_cons. cbn [concat]. rewrite fmap_app, concat_app, IH. f_equal.
  rewrite <- list_fmap_compose. cbn. unfold line_of. cbn.
  induction vs as [|v vs IHv]; [done|]. rewrite !fmap_cons. cbn [concat]. rewrite IHv.
  f_equal. unfold compose. cbn. rewrite <- !app_assoc. reflexivity.
Qed.

Lemma foldl_add_values m k vs : k ≠ "" → vs ≠ [] →
  foldl (λ m kv, add m kv.1 kv.2) m (pair k <$> vs) = <[k := default [] (m !! k) ++ vs]> m.
Proof.
  intros Hk. assert (∀ m v, add m k v = <[k := default [] (m !! k) ++ [v]]> m) as Hadd.
  { intros m' v. unfold add. by destruct (String.eqb_spec k ""). }
  revert m. induction vs as [|v vs IH]; intros m Hvs; [done|].
  rewrite fmap_cons. cbn [foldl fst snd]. rewrite Hadd.
  destruct vs as [|v' vs]; [done|]. rewrite IH by done.
  rewrite lookup_insert_eq, insert_insert_eq. cbn. by rewrite <- app_assoc.
Qed.

Lemma foldl_add_flat m l :
  NoDup l.*1 → (∀ k vs, (k, vs) ∈ l → k ≠ "" ∧ vs ≠ [] ∧ m !! k = None) →
  foldl (λ m kv, add m kv.1 kv.2) m (flat l) = list_to_map l ∪ m.
Proof.
  revert m. induction l as [|[k vs] l IH]; intros m Hnd Hl.
  { cbn. by rewrite map_empty_union. }
  rewrite fmap_cons in Hnd. apply NoDup_cons in Hnd as [Hk Hnd].
  unfold flat. rewrite fmap_cons. cbn [concat]. rewrite foldl_app.
  destruct (Hl k vs ltac:(by left)) as (Hk0 & Hvs & Hm).
  cbn [fst snd]. rewrite foldl_add_values by done. rewrite Hm. cbn [default app].
  fold (flat l). rewrite IH; [|done|].
  - rewrite list_to_map_cons, <- insert_union_l. symmetry. apply insert_union_r.
    by apply not_elem_of_list_to_map_1.
  - intros k' vs' Hin. destruct (Hl k' vs' ltac:(by right)) as (? & ? & ?). split_and!; [done..|].
    rewrite lookup_insert_ne; [done|]. intros <-. apply Hk. apply list_elem_of_fmap.
    by exists (k, vs').
Qed.

(** The header of a part is read back. *)
Lemma ReadMIMEHeader_lines h data err :
  header_ok h → ReadMIMEHeader (header_lines h ++ crlf ++ data) err = (inl h, data).
Proof.
  intros [Hh _]. pose proof (sort_keys_perm (map_to_list h)) as Hp.
  assert (∀ k vs, (k, vs) ∈ sort_keys (map_to_list h) →
    key_ok k = true ∧ vs ≠ [] ∧ Forall (λ v, value_ok v = true) vs) as Hin.
  { intros k vs Hin. rewrite Hp, elem_of_map_to_list in Hin. by apply Hh. }
  rewrite header_lines_flat. set (l := sort_keys (map_to_list h)) in *.
  assert (Forall line_ok (flat l)) as Hl.
  { apply Forall_forall. intros [k v] Hkv. unfold flat in Hkv.
    rewrite list_elem_of_In, in_concat in Hkv. destruct Hkv as (x & Hx & Hkv).
    rewrite <- list_elem_of_In in Hx. rewrite <- list_elem_of_In in Hkv.
    apply list_elem_of_fmap in Hx as ([k' vs] & -> & Hx).
    apply list_elem_of_fmap in Hkv as (v' & [= -> ->] & Hv). cbn in Hv.
    destruct (Hin k' vs Hx) as (H1 & _ & H3). split; [done|]. rewrite Forall_forall in H3. by apply H3. }
  assert (foldl (λ m kv, add m kv.1 kv.2) ∅ (flat l) = h) as Hfold.
  { rewrite foldl_add_flat.
    - rewrite map_union_empty. rewrite <- (list_to_map_to_list h). apply list_to_map_proper; [|done].
      rewrite Hp. apply NoDup_fst_map_to_list.
    - rewrite Hp. apply NoDup_fst_map_to_list.
    - intros k vs Hkv. destruct (Hin k vs Hkv) as (H1 & H2 & _). split_and!; [|done|apply lookup_empty].
      intros ->. discriminate H1. }
  assert (length (flat l) ≤ length (concat ((λ kv, line_of kv ++ crlf) <$> flat l))) as Hlen.
  { clear. induction (flat l) as [|kv fl IH]; [done|]. rewrite fmap_cons. cbn [concat length].
    rewrite !length_app. cbn [crlf length]. lia. }
  unfold ReadMIMEHeader.
  destruct (concat ((λ kv, line_of kv ++ crlf) <$> flat l) ++ crlf ++ data) as [|c d] eqn:E.
  { by destruct (app_cons_not_nil _ _ _ (eq_sym E)). }
  assert (is_blank c = false) as ->.
  { destruct (flat l) as [|kv fl]; [by cbn in E; injection E as <- <-|].
    inversion_clear Hl as [|x y Hkv _]. rewrite fmap_cons in E. cbn [concat] in E.
    rewrite <- !app_assoc in E.
    destruct (line_starts kv (crlf ++ concat ((λ kv, line_of kv ++ crlf) <$> fl) ++ crlf ++ data) Hkv)
      as (_ & Hs & _). rewrite E in Hs. done. }
  rewrite <- E, fields_lines; [by rewrite Hfold|done|].
  rewrite !length_app. lia.
Qed.

(** A part to write. *)
Abbreviation item := (header * bytes)%type.

(** *** Delimiters *)

Section delimiters.
Context (quotedprintable : body → body).
Context (boundary : bytes).
Context (Hcr : cr ∉ boundary) (Hlf : lf ∉ boundary).
Context (Hshort : length boundary < 70).
#[local] Set Default Proof Using "Type*".
Abbreviation dash := (dashBoundary boundary).
Abbreviation delim := (crlf ++ dash).

(** The boundary does not occur in the data, not even at its start. *)
Definition fresh (data : bytes) : bool := negb (contains_bytes (crlf ++ data) delim).

Lemma cr_dash : cr ∉ dash.
Proof.
  unfold dashBoundary. rewrite elem_of_app. intros [H|H]; [|done].
  revert H. apply Net.mem_false. reflexivity.
Qed.
Lemma lf_dash : lf ∉ dash.
Proof.
  unfold dashBoundary. rewrite elem_of_app. intros [H|H]; [|done].
  revert H. apply Net.mem_false. reflexivity.
Qed.

Lemma contains_bytes_cons c d p : contains_bytes (c :: d) p = false →
  prefix_of_bytes p (c :: d) = false ∧ contains_bytes d p = false.
Proof using Type. cbn [contains_bytes]. by rewrite orb_false_iff. Qed.

(** A delimiter that starts in the data ends in the data. *)
Lemma delim_overlap c data x r :
  (c :: data) ++ delim ++ x = delim ++ r → ∃ y, c :: data = delim ++ y.
Proof.
  intros H. apply app_eq_inv in H as [(k & H1 & H2)|(k & H1 & H2)].
  - by exists k.
  - destruct k as [|d k]; [exists []; by rewrite app_nil_r in *|].
    cbn in H1. injection H1 as <- H1.
    assert (cr ∈ delim) as Hin by by left.
    assert (d = cr) as -> by (by injection H2).
    destruct data as [|c' data]; [by injection H1|].
    injection H1 as <- H1. destruct cr_dash.
    assert (dash = data ++ cr :: k) as -> by done. apply elem_of_app. right. by left.
Qed.

Lemma scan_fresh data rest :
  contains_bytes data delim = false → after_boundary rest = true →
  scan delim 0 (data ++ delim ++ rest) = Some (data, delim ++ rest).
Proof.
  intros Hf Ha. induction data as [|c data IH].
  - cbn [app]. unfold scan.
    assert (prefix_of_bytes delim (delim ++ rest) &&
      after_boundary (drop (length delim) (delim ++ rest)) = true) as Hp
      by (by rewrite prefix_of_bytes_app, drop_app_length).
    by destruct (delim ++ rest) eqn:E; rewrite Hp.
  - apply contains_bytes_cons in Hf as [Hp Hf].
    assert (prefix_of_bytes delim ((c :: data) ++ delim ++ rest) = false) as E.
    { apply prefix_of_bytes_false. intros r Hr. apply delim_overlap in Hr as [y Hy].
      rewrite Hy, prefix_of_bytes_app in Hp. done. }
    rewrite <- app_comm_cons in *. cbn [scan]. rewrite E. cbn [andb]. by rewrite IH.
Qed.

Lemma part_body_fresh data rest err :
  fresh data = true → after_boundary rest = true →
  part_body boundary crlf (data ++ delim ++ rest) err = (whole data, delim ++ rest).
Proof.
  unfold fresh. rewrite negb_true_iff. intros Hf Ha.
  apply contains_bytes_cons in Hf as [Hp Hf]. apply contains_bytes_cons in Hf as [_ Hf].
  unfold part_body.
  assert (prefix_of_bytes dash (data ++ delim ++ rest) = false) as ->.
  { apply prefix_of_bytes_false. intros r Hr.
    apply app_eq_inv in Hr as [(k & H1 & H2)|(k & H1 & H2)].
    - rewrite H1 in Hp. change (cr :: lf :: dash ++ k) with (delim ++ k) in Hp.
      by rewrite prefix_of_bytes_app in Hp.
    - destruct k as [|d k].
      + rewrite app_nil_r in H1. rewrite <- H1 in Hp.
        assert (prefix_of_bytes delim (delim ++ []) = true) as Hq by apply prefix_of_bytes_app.
        rewrite app_nil_r in Hq. change (cr :: lf :: dash) with delim in Hp. congruence.
      + cbn in H2. injection H2 as <- H2. destruct cr_dash. rewrite H1.
        apply elem_of_app. right. by left. }
  assert (prefix_of_bytes (data ++ delim ++ rest) dash = false) as ->.
  { apply prefix_of_bytes_false. intros r Hr. destruct cr_dash. rewrite Hr.
    rewrite !elem_of_app. left. right. left. left. by left. }
  by rewrite scan_fresh.
Qed.

(** The boundary line of a part, and the final one. *)
Lemma skip_blanks_cr l : skip_blanks (cr :: l) = cr :: l.
Proof using Type. done. Qed.

Lemma next_part_line fuel first expect rest err :
  0 < fuel →
  next_part boundary fuel crlf first expect (dash ++ crlf ++ rest) err = inl (crlf, rest).
Proof.
  intros Hfuel. destruct fuel as [|fuel]; [lia|]. cbn [next_part].
  assert (cut_at lf (dash ++ crlf ++ rest) = Some (dash ++ [cr], rest)) as ->.
  { change (crlf ++ rest) with ([cr] ++ lf :: rest). rewrite app_assoc. apply cut_at_app.
    rewrite elem_of_app, list_elem_of_singleton. by intros [?%lf_dash|?]. }
  assert (peekBufferSize <=? length (dash ++ [cr]) = false) as ->.
  { apply Nat.leb_gt. unfold dashBoundary. rewrite !length_app. cbn.
    Transparent peekBufferSize. unfold peekBufferSize. Opaque peekBufferSize. lia. }
  rewrite <- app_assoc. cbn [app].
  assert (boundary_rest boundary (dash ++ [cr; lf]) = Some crlf) as ->
    by (unfold boundary_rest; by rewrite prefix_of_bytes_app, drop_app_length).
  rewrite andb_false_r. by rewrite bool_decide_eq_true_2.
Qed.

(** After a part the reader first sees the ending of its last line. *)
Lemma next_part_skip fuel first d err :
  next_part boundary (S fuel) crlf first false (crlf ++ d) err =
  next_part boundary fuel crlf first (negb first) d err.
Proof.
  cbn [next_part app crlf]. 
  assert (cut_at lf (cr :: lf :: d) = Some ([cr], d)) as -> by done.
  assert (peekBufferSize <=? length [cr] = false) as ->.
  { apply Nat.leb_gt. Transparent peekBufferSize. unfold peekBufferSize. cbn. lia.
    Opaque peekBufferSize. }
  cbn [app]. assert (boundary_rest boundary [cr; lf] = None) as -> by done.
  rewrite andb_false_r. cbn. by destruct first.
Qed.

Lemma next_part_final fuel first expect err :
  0 < fuel →
  next_part boundary fuel crlf first expect (dash ++ to_bytes "--" ++ crlf) err = inr EOF.
Proof.
  intros Hfuel. destruct fuel as [|fuel]; [lia|]. cbn [next_part].
  assert (cut_at lf (dash ++ to_bytes "--" ++ crlf) = Some (dash ++ to_bytes "--" ++ [cr], [])) as ->.
  { change (to_bytes "--" ++ crlf) with ((to_bytes "--" ++ [cr]) ++ [lf]).
    rewrite app_assoc. apply cut_at_app. rewrite elem_of_app.
    intros [?%lf_dash|H]; [done|]. revert H. apply Net.mem_false. reflexivity. }
  assert (peekBufferSize <=? length (dash ++ to_bytes "--" ++ [cr]) = false) as ->.
  { apply Nat.leb_gt. unfold dashBoundary. rewrite !length_app. cbn.
    Transparent peekBufferSize. unfold peekBufferSize. Opaque peekBufferSize. lia. }
  rewrite <- !app_assoc. cbn [app].
  assert (boundary_rest boundary (dash ++ to_bytes "--" ++ [cr; lf]) = Some (to_bytes "--" ++ [cr; lf]))
    as -> by (unfold boundary_rest; by rewrite prefix_of_bytes_app, drop_app_length).
  rewrite andb_false_r. rewrite bool_decide_eq_false_2 by done.
  assert (is_final boundary crlf (dash ++ to_bytes "--" ++ [cr; lf]) = true) as ->; [|done].
  unfold is_final. rewrite app_assoc, prefix_of_bytes_app.
  rewrite drop_app_length' by (by rewrite length_app). reflexivity.
Qed.

(** What the writer writes. *)
Definition item_text (it : item) : bytes :=
  dash ++ crlf ++ header_lines it.1 ++ crlf ++ it.2.
Definition rest_text (l : list item) : bytes :=
  concat ((λ it, crlf ++ item_text it) <$> l) ++ crlf ++ dash ++ to_bytes "--" ++ crlf.
Definition item_ok (it : item) : Prop := header_ok it.1 ∧ fresh it.2 = true.
Definition part_of (it : item) : Part := {| p_header := it.1; p_body := whole it.2 |}.

Lemma rest_text_delim l : ∃ r, rest_text l = delim ++ r ∧ after_boundary r = true.
Proof using Type.
  destruct l as [|it l]; unfold rest_text.
  - exists (to_bytes "--" ++ crlf). by rewrite <- app_assoc.
  - rewrite fmap_cons. cbn [concat]. unfold item_text.
    eexists (crlf ++ _). rewrite <- !app_assoc. split; [reflexivity|done].
Qed.

Lemma rest_text_length l : length l ≤ length (rest_text l).
Proof using Type.
  clear. unfold rest_text. rewrite length_app. induction l as [|it l IH]; [cbn; lia|].
  rewrite fmap_cons. cbn [concat length]. rewrite !length_app in *. cbn [crlf length] in *. lia.
Qed.

Lemma decode_part_id h b : header_ok h → decode_part quotedprintable h b = {| p_header := h; p_body := b |}.
Proof using Type. intros [_ H]. unfold decode_part. by destruct (String.eqb_spec (Header.Get h "Content-Transfer-Encoding") "quoted-printable"). Qed.

(** One part, once its boundary line has been found. *)
Lemma parts_item fuel first it l d :
  item_ok it →
  next_part boundary (S (length d)) crlf first false d EOF =
    inl (crlf, header_lines it.1 ++ crlf ++ it.2 ++ rest_text l) →
  parts quotedprintable boundary (S fuel) crlf first d EOF =
    prod_map (part_of it ::.) id (parts quotedprintable boundary fuel crlf false (rest_text l) EOF).
Proof.
  intros [Hh Hd] Hn. cbn [parts]. rewrite Hn, ReadMIMEHeader_lines by done.
  destruct (rest_text_delim l) as (r & -> & Hr). rewrite part_body_fresh by done.
  rewrite decode_part_id by done.
  by destruct (parts quotedprintable boundary fuel crlf false (delim ++ r) EOF).
Qed.

Lemma parts_rest fuel l : length l < fuel → Forall item_ok l →
  parts quotedprintable boundary fuel crlf false (rest_text l) EOF = (part_of <$> l, EOF).
Proof.
  intros Hf Hl. revert fuel Hf. induction Hl as [|it l Hit Hl IH]; intros fuel Hf.
  - destruct fuel as [|fuel]; [cbn in Hf; lia|]. cbn [parts]. unfold rest_text.
    cbn [fmap list_fmap concat app]. rewrite next_part_skip.
    by rewrite next_part_final by (cbn; lia).
  - destruct fuel as [|fuel]; [cbn in Hf; lia|].
    rewrite (parts_item fuel false it l); [by rewrite IH by (cbn in Hf; lia)|done|].
    unfold rest_text at 2. rewrite fmap_cons. cbn [concat]. unfold item_text at 1.
    rewrite <- !app_assoc, next_part_skip.
    rewrite next_part_line; [unfold rest_text; by rewrite <- ?app_assoc|].
    unfold rest_text. rewrite fmap_cons. cbn [concat]. rewrite !length_app. cbn. lia.
Qed.

Definition write_items (l : list item) (w : Writer) : Writer :=
  foldl (λ w it, write_part it.1 it.2 w) w l.

Lemma write_items_buf l w : w_boundary w = boundary → w_started w = true →
  w_buf (Close (write_items l w)) = w_buf w ++ rest_text l.
Proof using Type.
  revert w. induction l as [|it l IH]; intros w Hb Hs.
  - unfold rest_text. cbn. rewrite Hb. done.
  - cbn [write_items foldl]. fold (write_items l (write_part it.1 it.2 w)).
    rewrite IH by done. unfold rest_text. rewrite fmap_cons. cbn [concat].
    unfold write_part, item_text, dashBoundary. cbn [w_buf]. rewrite Hb, Hs.
    by rewrite <- !app_assoc.
Qed.

(** What was written is read back: the parts, in order, with their headers and data. *)
Lemma read_written l :
  Forall item_ok l →
  read_parts quotedprintable boundary
    (whole (w_buf (Close (write_items l (NewWriter boundary))))) = (part_of <$> l, EOF).
Proof.
  intros Hl. unfold read_parts. cbn [b_data b_end whole].
  destruct l as [|it l].
  - change (w_buf (Close (write_items [] (NewWriter boundary)))) with (rest_text []).
    cbn [parts]. unfold rest_text. cbn [fmap list_fmap concat app]. rewrite next_part_skip.
    by rewrite next_part_final by (cbn; lia).
  - inversion_clear Hl as [|x y Hit Hl'].
    assert (w_buf (Close (write_items (it :: l) (NewWriter boundary))) = item_text it ++ rest_text l) as ->.
    { cbn [write_items foldl]. fold (write_items l (write_part it.1 it.2 (NewWriter boundary))).
      by rewrite write_items_buf. }
    rewrite (parts_item _ true it l); [|done|].
    + rewrite parts_rest; [done| |done]. rewrite length_app.
      pose proof (rest_text_length l). unfold item_text, dashBoundary. rewrite !length_app. cbn. lia.
    + unfold item_text. rewrite <- !app_assoc. apply next_part_line. lia.
Qed.
End delimiters.

(** *** Fields *)

(** A name that fits on a line. *)
Definition name_ok (name : string) : bool :=
  negb (existsb (Ascii.eqb lf) (to_bytes name)) && negb (existsb (Ascii.eqb cr) (to_bytes name)).

Definition disposition_text (name : string) : bytes :=
  to_bytes "form-data; name=" ++ "034"%char :: Mime.escape_quotes (to_bytes name) ++ ["034"%char].

Lemma field_header_text name :
  field_header name = {["Content-Disposition" := [of_bytes (disposition_text name)]]}.
Proof.
  unfold field_header. do 2 f_equal. apply (inj to_bytes).
  by rewrite !to_bytes_app, !to_of_bytes.
Qed.

Lemma escape_without c l : c ≠ "\"%char → c ∉ l → c ∉ Mime.escape_quotes l.
Proof.
  intros Hc Hl. unfold Mime.escape_quotes. induction l as [|d l IH]; [done|].
  rewrite not_elem_of_cons in Hl. destruct Hl as [Hd Hl]. rewrite fmap_cons. cbn [concat].
  rewrite not_elem_of_app. split; [|auto]. unfold Mime.escape_octet.
  destruct (_ || _); rewrite ?not_elem_of_cons; split_and!; try done; apply not_elem_of_nil.
Qed.

Lemma disposition_value_ok name : lf ∉ to_bytes name →
  value_ok (of_bytes (disposition_text name)) = true.
Proof.
  intros H. unfold value_ok, tidy. rewrite to_of_bytes.
  assert (existsb (Ascii.eqb lf) (disposition_text name) = false) as ->.
  { apply Net.mem_false. unfold disposition_text.
    rewrite !not_elem_of_app, not_elem_of_cons, not_elem_of_app. split_and!; [|done| |].
    - apply Net.mem_false. reflexivity.
    - by apply escape_without.
    - apply Net.mem_false. reflexivity. }
  unfold disposition_text. cbn [negb andb].
  rewrite app_comm_cons, app_assoc, rev_app_distr. done.
Qed.

Lemma field_header_ok name : lf ∉ to_bytes name → header_ok (field_header name).
Proof.
  intros H. rewrite field_header_text. split.
  - apply map_Forall_singleton. split_and!; [done|done|].
    apply Forall_singleton. by apply disposition_value_ok.
  - unfold Header.Get, Header.Values. rewrite lookup_singleton_ne by done. done.
Qed.

Lemma consume_name l : "013"%char ∉ l → "010"%char ∉ l →
  Mime.consume_media_param (to_bytes "; name=" ++ "034"%char :: Mime.escape_quotes l ++ ["034"%char]) =
    Some (to_bytes "name", l, []).
Proof.
  intros H1 H2. pose proof (Mime.consume_quoted_escaped l [] [] H1 H2) as Hq. revert Hq.
  generalize (Mime.escape_quotes l ++ ["034"%char]) as q. intros q Hq.
  assert (Mime.consume_value ("034"%char :: q) = (l, [])) as Hv.
  { unfold Mime.consume_value. by rewrite Hq. }
  transitivity (let '(value, rest') := Mime.consume_value ("034"%char :: q) in
    match value with
    | [] => if bool_decide (rest' = "034"%char :: q) then None else Some (to_bytes "name", [], rest')
    | _ => Some (to_bytes "name", value, rest')
    end); [reflexivity|].
  rewrite Hv. by destruct l.
Qed.

Lemma disposition_field name data :
  name_ok name = true →
  disposition (part_of (field_header name, data)) =
    Some ("form-data", [(to_bytes "name", to_bytes name)]).
Proof.
  unfold name_ok. rewrite andb_true_iff, !negb_true_iff. intros [H1%Net.mem_false H2%Net.mem_false].
  unfold disposition, part_of. cbn [p_header fst]. rewrite field_header_text.
  assert (Header.Get {["Content-Disposition" := [of_bytes (disposition_text name)]]}
            "Content-Disposition" = of_bytes (disposition_text name)) as ->.
  { unfold Header.Get, Header.Values. by rewrite lookup_singleton_eq. }
  unfold Mime.parse_media_type. rewrite to_of_bytes. unfold disposition_text.
  set (q := Mime.escape_quotes (to_bytes name) ++ ["034"%char]).
  cbn [to_bytes String.list_ascii_of_string app cut_at Ascii.eqb Bool.eqb]. cbn [fmap list_fmap].
  match goal with |- context [Mime.trim_space ?t] =>
    let v := eval vm_compute in (Mime.trim_space t) in change (Mime.trim_space t) with v end.
  match goal with |- context [Mime.type_ok ?t] => change (Mime.type_ok t) with true end.
  cbn [length Mime.media_params].
  match goal with |- context [Mime.trim_left ?t] =>
    change (Mime.trim_left t) with t end.
  cbv iota beta.
  match goal with |- context [Mime.consume_media_param ?t] =>
    assert (Mime.consume_media_param t = Some (to_bytes "name", to_bytes name, [])) as -> end.
  { by apply consume_name. }
  done.
Qed.

Lemma FormName_field name data :
  name_ok name = true →
  FormName (part_of (field_header name, data)) = name ∧
  FileName (part_of (field_header name, data)) = "".
Proof.
  intros H. unfold FormName, FileName. rewrite disposition_field by done.
  split; [exact (of_to_bytes name)|done].
Qed.

(** *** Boundaries

    [NewWriter] writes 30 random octets in hexadecimal. *)
Definition hex_digit (c : octet) : bool :=
  existsb (Ascii.eqb c) (to_bytes "0123456789abcdef").
Definition boundary_ok (boundary : bytes) : bool :=
  Nat.eqb (length boundary) 60 && forallb hex_digit boundary.

Lemma boundary_without boundary c : boundary_ok boundary = true → hex_digit c = false → c ∉ boundary.
Proof.
  intros [_ H]%andb_true_iff Hc Hin. rewrite forallb_forall in H.
  rewrite list_elem_of_In in Hin. apply H in Hin. congruence.
Qed.

Lemma hex_token c : hex_digit c = true → Mime.is_token_char c = true.
Proof.
  unfold hex_digit. intros (d & Hd & ->%Ascii.eqb_eq)%existsb_exists. cbn in Hd.
  repeat (destruct Hd as [<-|Hd]; [reflexivity|]). destruct Hd.
Qed.

Lemma consume_token_all l : Forall (λ c, Mime.is_token_char c = true) l →
  Mime.consume_token l = (l, []).
Proof. induction 1 as [|c l Hc _ IH]; [done|]. cbn. by rewrite Hc, IH. Qed.

(** The content type of the writer announces its boundary. *)
Lemma parse_FormDataContentType w :
  boundary_ok (w_boundary w) = true →
  Mime.parse_media_type (FormDataContentType w) =
    Some ("multipart/form-data", [(to_bytes "boundary", w_boundary w)]).
Proof.
  intros Hb. unfold Mime.parse_media_type, FormDataContentType. rewrite to_bytes_app, to_of_bytes.
  assert (Mime.consume_token (w_boundary w) = (w_boundary w, [])) as Ht.
  { apply consume_token_all. apply andb_true_iff in Hb as [_ Hb].
    rewrite forallb_forall in Hb. apply Forall_forall. intros c Hc. apply hex_token, Hb.
    by rewrite <- list_elem_of_In. }
  assert (∃ c l, w_boundary w = c :: l ∧ hex_digit c = true) as (c & l & E & Hc).
  { apply andb_true_iff in Hb as [H60 Hb]. destruct (w_boundary w) as [|c l]; [done|].
    exists c, l. split; [done|]. by apply andb_true_iff in Hb as [Hb _]. }
  assert (Mime.is_space c = false ∧ Ascii.eqb c "034"%char = false) as [Hs Hq].
  { unfold hex_digit in Hc. apply existsb_exists in Hc as (d & Hd & ->%Ascii.eqb_eq). cbn in Hd.
    repeat (destruct Hd as [<-|Hd]; [split; reflexivity|]). destruct Hd. }
  assert (Mime.consume_media_param (to_bytes "; boundary=" ++ w_boundary w) =
    Some (to_bytes "boundary", w_boundary w, [])) as Hp.
  { rewrite E in *.
    transitivity (let rest := Mime.trim_left (c :: l) in
      let '(value, rest') := Mime.consume_value rest in
      match value with
      | [] => if bool_decide (rest' = rest) then None else Some (to_bytes "boundary", [], rest')
      | _ => Some (to_bytes "boundary", value, rest')
      end); [reflexivity|].
    cbn [Mime.trim_left]. rewrite Hs. unfold Mime.consume_value. rewrite Hq, Ht. done. }
  change (to_bytes "multipart/form-data; boundary=") with
    (to_bytes "multipart/form-data" ++ to_bytes "; boundary=").
  rewrite <- app_assoc.
  change (to_bytes "; boundary=" ++ w_boundary w) with (";"%char :: to_bytes " boundary=" ++ w_boundary w).
  rewrite cut_at_app by (apply Net.mem_false; reflexivity).
  match goal with |- context [Mime.trim_space ?t] =>
    let v := eval vm_compute in (Mime.trim_space t) in change (Mime.trim_space t) with v end.
  match goal with |- context [Mime.type_ok ?t] => change (Mime.type_ok t) with true end.
  cbn [length Mime.media_params].
  match goal with |- context [Mime.trim_left ?t] => change (Mime.trim_left t) with t end.
  cbv iota beta.
  change (";"%char :: to_bytes " boundary=" ++ w_boundary w) with (to_bytes "; boundary=" ++ w_boundary w).
  rewrite Hp. done.
Qed.

(** A request whose body is a written form. *)
Lemma MultipartReader_written quotedprintable boundary l r :
  boundary_ok boundary = true → Forall (item_ok boundary) l →
  let w := Close (write_items l (NewWriter boundary)) in
  MultipartReader quotedprintable
    (with_header (with_body r (Some (whole (w_buf w))) (Z.of_nat (length (w_buf w))))
       (Header.Set_ (Header_ r) "Content-Type" (FormDataContentType w)))
  = inl (part_of <$> l, EOF).
Proof.
  intros Hb Hl w. unfold MultipartReader. cbn [Header_ with_header with_body].
  rewrite Header.Get_Set_eq.
  assert (w_boundary w = boundary) as Ew.
  { unfold w. cbn. generalize (NewWriter boundary) as w0, (eq_refl : w_boundary (NewWriter boundary) = boundary).
    clear. induction l as [|it l IH]; intros w0 H0; [done|]. cbn. by apply IH. }
  rewrite parse_FormDataContentType by (by rewrite Ew).
  assert (String.eqb (FormDataContentType w) "" = false) as -> by done. cbn [negb andb].
  assert (Mime.Param [(to_bytes "boundary", w_boundary w)] "boundary" = Some (of_bytes boundary)) as ->
    by (by rewrite Ew).
  rewrite String.eqb_refl, to_of_bytes. f_equal. apply read_written; [..|done].
  - by apply boundary_without.
  - by apply boundary_without.
  - apply andb_true_iff in Hb as [Hb%Nat.eqb_eq _]. lia.
Qed.

Definition test_header : header :=
  {["Content-Disposition" :=
      [of_bytes (to_bytes "form-data; name=" ++ ["034"%char] ++ to_bytes "a" ++ ["034"%char] ++
         to_bytes "; filename*=utf-8''x%20y")]]}.
Definition test_form : bytes :=
  w_buf (Close (write_part test_header (to_bytes "hello") (WriteField "k" "v" (NewWriter (to_bytes "B"))))).

Example read_test :
  (λ p, (FormName p, FileName p, b_data (p_body p))) <$> (read_parts id (to_bytes "B") (whole test_form)).1 =
  [("k", "", to_bytes "v"); ("a", "x y", to_bytes "hello")].
Proof. vm_compute. reflexivity. Qed.
End Multipart.
