(* ===== verification/GoTime.v ===== *)
(** * Dates of the Go standard library

    [Time.AddDate] and [Time.Format] with the layout of HTTP dates, on the number
    of seconds since the epoch of a wall clock.  The calendar is the proleptic
    Gregorian one. *)

From S2P Require Import Prelude GoString.
From stdpp Require Import options.
Open Scope Z_scope.

Module Time.

(** Days since 1970-01-01 of a civil date; months and days outside their range
    carry over, as in [time.Date]. *)
Definition days_from_civil (y m d : Z) : Z :=
  let y := y + (m - 1) / 12 in
  let m := (m - 1) mod 12 + 1 in
  let y := if m <=? 2 then y - 1 else y in
  let era := y / 400 in
  let yoe := y mod 400 in
  let mp := (m + 9) mod 12 in
  let doy := (153 * mp + 2) / 5 in
  let doe := yoe * 365 + yoe / 4 - yoe / 100 + doy in
  era * 146097 + doe - 719468 + (d - 1).

(** The year, month and day of a day number. *)
Definition civil_from_days (z : Z) : Z * Z * Z :=
  let z := z + 719468 in
  let era := z / 146097 in
  let doe := z mod 146097 in
  let yoe := (doe - doe / 1460 + doe / 36524 - doe / 146096) / 365 in
  let doy := doe - (365 * yoe + yoe / 4 - yoe / 100) in
  let mp := (5 * doy + 2) / 153 in
  let d := doy - (153 * mp + 2) / 5 + 1 in
  let m := if mp <? 10 then mp + 3 else mp - 9 in
  (yoe + era * 400 + (if m <=? 2 then 1 else 0), m, d).

(** [Time.AddDate(years, 0, 0)] on the seconds of a wall clock. *)
Definition add_years (n : Z) (t : Z) : Z :=
  let '(y, m, d) := civil_from_days (t / 86400) in
  days_from_civil (y + n) m d * 86400 + t mod 86400.

Definition pad_to (n : nat) (z : Z) : string :=
  let s := itoa z in
  of_bytes (replicate (n - String.length s) "0"%char) +:+ s.

Definition weekday (days : Z) : string :=
  nth (Z.to_nat ((days + 4) mod 7)) ["Sun"; "Mon"; "Tue"; "Wed"; "Thu"; "Fri"; "Sat"] "".
Definition month (m : Z) : string :=
  nth (Z.to_nat (m - 1)) ["Jan"; "Feb"; "Mar"; "Apr"; "May"; "Jun"; "Jul"; "Aug"; "Sep";
                          "Oct"; "Nov"; "Dec"] "".

(** [Time.Format(http.TimeFormat)]: the fields of the wall clock, followed by the
    letters GMT whatever its zone. *)
Definition http_format (t : Z) : string :=
  let days := t / 86400 in
  let secs := t mod 86400 in
  let '(y, m, d) := civil_from_days days in
  weekday days +:+ ", " +:+ pad_to 2 d +:+ " " +:+ month m +:+ " " +:+ pad_to 4 y +:+ " " +:+
  pad_to 2 (secs / 3600) +:+ ":" +:+ pad_to 2 (secs / 60 mod 60) +:+ ":" +:+
  pad_to 2 (secs mod 60) +:+ " GMT".

Example format_1 : http_format 784111777 = "Sun, 06 Nov 1994 08:49:37 GMT".
Proof. vm_compute. reflexivity. Qed.
Example add_leap : http_format (add_years 1 1582934400) = "Mon, 01 Mar 2021 00:00:00 GMT".
Proof. vm_compute. reflexivity. Qed.
Example civil_inverse :
  forallb (λ n, let z := Z.of_nat n * 37 - 200000 in
    let '(y, m, d) := civil_from_days z in (days_from_civil y m d =? z)%Z) (seq 0 4000) = true.
Proof. vm_compute. reflexivity. Qed.
End Time.
