(* ===== verification/GoBase64.v ===== *)
(** * Base 64 of the Go standard library

    Package [encoding/base64] with padding: the encoder and the decoder, which
    skips carriage returns and line feeds, for an alphabet given by its two last
    characters ([StdEncoding], [URLEncoding]), and the round trip. *)

From S2P Require Import Prelude.
From stdpp Require Import options.

Section base64.
(** The characters of the values 62 and 63. *)
Context (c62 c63 : octet).

Definition pad : octet := "="%char.

Definition alphabet : bytes :=
  to_bytes "ABCDEFGHIJKLMNOPQRSTUVWXYZabcdefghijklmnopqrstuvwxyz0123456789" ++ [c62; c63].

Definition encode_value (v : N) : octet := nth (N.to_nat v) alphabet pad.

Fixpoint index_of (c : octet) (l : bytes) : option N :=
  match l with
  | [] => None
  | d :: l' => if Ascii.eqb c d then Some 0%N else N.succ <$> index_of c l'
  end.
Definition decode_value (c : octet) : option N := index_of c alphabet.

Definition enc3 (a b c : octet) : bytes :=
  let v := (N_of_ascii a * 65536 + N_of_ascii b * 256 + N_of_ascii c)%N in
  [encode_value (v / 262144); encode_value (v / 4096 mod 64);
   encode_value (v / 64 mod 64); encode_value (v mod 64)].

(** [Encoding.Encode]. *)
Fixpoint encode (l : bytes) : bytes :=
  match l with
  | [] => []
  | [a] => take 2 (enc3 a zero zero) ++ [pad; pad]
  | [a; b] => take 3 (enc3 a b zero) ++ [pad]
  | a :: b :: c :: l' => enc3 a b c ++ encode l'
  end.

Definition octets_of (v : N) : bytes :=
  [ascii_of_N (v / 65536); ascii_of_N (v / 256 mod 256); ascii_of_N (v mod 256)].

Definition dec4 (a b c d : N) : bytes :=
  octets_of (a * 262144 + b * 4096 + c * 64 + d)%N.

(** The octets decoded, and whether the input was well formed. *)
Fixpoint decode_quanta (l : bytes) : bytes * bool :=
  match l with
  | [] => ([], true)
  | a :: b :: c :: d :: l' =>
      match decode_value a, decode_value b, decode_value c, decode_value d with
      | Some va, Some vb, Some vc, Some vd =>
          let '(r, e) := decode_quanta l' in (dec4 va vb vc vd ++ r, e)
      | Some va, Some vb, Some vc, None =>
          if Ascii.eqb d pad
          then (take 2 (dec4 va vb vc 0), match l' with [] => true | _ => false end)
          else ([], false)
      | Some va, Some vb, None, None =>
          if Ascii.eqb c pad && Ascii.eqb d pad
          then (take 1 (dec4 va vb 0 0), match l' with [] => true | _ => false end)
          else ([], false)
      | _, _, _, _ => ([], false)
      end
  | _ => ([], false)
  end.

Definition is_break (c : octet) : bool :=
  Ascii.eqb c "013"%char || Ascii.eqb c "010"%char.

(** [Encoding.Decode]. *)
Definition decode (l : bytes) : bytes * bool :=
  decode_quanta (filter (λ c, is_break c = false) l).

(** ** The round trip *)

Context (Hdistinct : NoDup alphabet) (Hpad : pad ∉ alphabet)
  (Hbreak : Forall (λ c, is_break c = false) alphabet).

#[local] Set Default Proof Using "Type*".

Lemma length_alphabet : length alphabet = 64.
Proof. reflexivity. Qed.

Lemma index_of_lookup l i c :
  NoDup l → l !! i = Some c → index_of c l = Some (N.of_nat i).
Proof.
  intros Hl. revert i. induction Hl as [|d l Hd Hl IH]; intros i Hi; [done|].
  cbn. destruct i as [|i]; cbn in Hi.
  - simplify_eq. by rewrite Ascii.eqb_refl.
  - destruct (Ascii.eqb_spec c d) as [->|].
    { apply list_elem_of_lookup_2 in Hi. done. }
    rewrite (IH i Hi). cbn. f_equal. lia.
Qed.

Lemma encode_value_lookup v :
  (v < 64)%N → alphabet !! N.to_nat v = Some (encode_value v).
Proof.
  intros Hv. unfold encode_value. rewrite nth_lookup.
  destruct (alphabet !! N.to_nat v) eqn:E; [done|].
  apply lookup_ge_None in E. rewrite length_alphabet in E. lia.
Qed.

Lemma decode_encode_value v : (v < 64)%N → decode_value (encode_value v) = Some v.
Proof.
  intros Hv. unfold decode_value.
  rewrite (index_of_lookup _ (N.to_nat v)); [by rewrite N2Nat.id|done|].
  by apply encode_value_lookup.
Qed.

Lemma encode_value_elem v : (v < 64)%N → encode_value v ∈ alphabet.
Proof. intros Hv. by eapply list_elem_of_lookup_2, encode_value_lookup. Qed.

Lemma decode_value_pad : decode_value pad = None.
Proof.
  unfold decode_value. revert Hpad. generalize alphabet as l.
  induction l as [|d l IH]; intros Hl; [done|]. cbn [index_of].
  rewrite elem_of_cons in Hl. destruct (Ascii.eqb_spec pad d); [naive_solver|].
  rewrite IH; naive_solver.
Qed.

Lemma octet_bound c : (N_of_ascii c < 256)%N.
Proof. apply N_ascii_bounded. Qed.

Lemma octets_of_sum a b c :
  octets_of (N_of_ascii a * 65536 + N_of_ascii b * 256 + N_of_ascii c) = [a; b; c].
Proof.
  pose proof (octet_bound a). pose proof (octet_bound b). pose proof (octet_bound c).
  unfold octets_of.
  replace ((N_of_ascii a * 65536 + N_of_ascii b * 256 + N_of_ascii c) / 65536)%N
    with (N_of_ascii a) by (apply N.div_unique with (N_of_ascii b * 256 + N_of_ascii c)%N; lia).
  replace ((N_of_ascii a * 65536 + N_of_ascii b * 256 + N_of_ascii c) / 256)%N
    with (N_of_ascii a * 256 + N_of_ascii b)%N
    by (apply N.div_unique with (N_of_ascii c); lia).
  replace ((N_of_ascii a * 256 + N_of_ascii b) mod 256)%N with (N_of_ascii b)
    by (apply N.mod_unique with (N_of_ascii a); lia).
  replace ((N_of_ascii a * 65536 + N_of_ascii b * 256 + N_of_ascii c) mod 256)%N
    with (N_of_ascii c)
    by (apply N.mod_unique with (N_of_ascii a * 256 + N_of_ascii b)%N; lia).
  by rewrite !ascii_N_embedding.
Qed.

(** The four values of a group and what they were computed from. *)
Lemma split4 v :
  (v < 16777216)%N →
  (v / 262144 < 64 ∧ v / 4096 mod 64 < 64 ∧ v / 64 mod 64 < 64 ∧ v mod 64 < 64)%N ∧
  (v / 262144 * 262144 + v / 4096 mod 64 * 4096 + v / 64 mod 64 * 64 + v mod 64 = v)%N.
Proof.
  intros Hv. split; [repeat split|]; try (by apply N.mod_lt).
  - by apply N.Div0.div_lt_upper_bound.
  - pose proof (N.div_mod v 64 ltac:(done)) as H1.
    pose proof (N.div_mod (v / 64) 64 ltac:(done)) as H2.
    pose proof (N.div_mod (v / 64 / 64) 64 ltac:(done)) as H3.
    rewrite !N.Div0.div_div in *.
    change (64 * 64)%N with 4096%N in *. change (4096 * 64)%N with 262144%N in *. lia.
Qed.

Lemma group_bound a b c :
  (N_of_ascii a * 65536 + N_of_ascii b * 256 + N_of_ascii c < 16777216)%N.
Proof. pose proof (octet_bound a). pose proof (octet_bound b).
  pose proof (octet_bound c). lia. Qed.

Lemma decode_enc3 a b c r :
  decode_quanta (enc3 a b c ++ r) =
    let '(x, e) := decode_quanta r in ([a; b; c] ++ x, e).
Proof.
  unfold enc3. set (v := (N_of_ascii a * 65536 + _ + _)%N).
  destruct (split4 v (group_bound a b c)) as [(? & ? & ? & ?) Hsum].
  cbn [app decode_quanta]. rewrite !decode_encode_value by done.
  unfold dec4. rewrite Hsum. unfold v. by rewrite octets_of_sum.
Qed.

Lemma decode_enc2 a b :
  decode_quanta (take 3 (enc3 a b zero) ++ [pad]) = ([a; b], true).
Proof.
  unfold enc3. set (v := (N_of_ascii a * 65536 + _ + _)%N).
  destruct (split4 v (group_bound a b zero)) as [(? & ? & ? & ?) Hsum].
  cbn [take app decode_quanta]. rewrite !decode_encode_value, decode_value_pad by done.
  rewrite Ascii.eqb_refl. unfold dec4.
  replace (_ + 0)%N with v.
  { unfold v. by rewrite octets_of_sum. }
  assert (v mod 64 = 0)%N; [|lia].
  unfold v. change (N_of_ascii zero) with 0%N. rewrite N.add_0_r.
  symmetry. apply N.mod_unique with (N_of_ascii a * 1024 + N_of_ascii b * 4)%N; lia.
Qed.

Lemma decode_enc1 a :
  decode_quanta (take 2 (enc3 a zero zero) ++ [pad; pad]) = ([a], true).
Proof.
  unfold enc3. set (v := (N_of_ascii a * 65536 + _ + _)%N).
  destruct (split4 v (group_bound a zero zero)) as [(? & ? & ? & ?) Hsum].
  cbn [take app decode_quanta]. rewrite !decode_encode_value, decode_value_pad by done.
  rewrite Ascii.eqb_refl. cbn [andb]. unfold dec4.
  replace (_ + 0)%N with v.
  { unfold v. by rewrite octets_of_sum. }
  assert (v mod 4096 = 0)%N.
  { unfold v. change (N_of_ascii zero) with 0%N. rewrite !N.add_0_r.
    symmetry. apply N.mod_unique with (N_of_ascii a * 16)%N; lia. }
  pose proof (N.div_mod v 4096 ltac:(done)) as Hd1.
  pose proof (N.div_mod (v / 4096) 64 ltac:(done)) as Hd2.
  rewrite N.Div0.div_div in Hd2. change (4096 * 64)%N with 262144%N in Hd2. lia.
Qed.

Lemma decode_quanta_encode l : decode_quanta (encode l) = (l, true).
Proof.
  assert (∀ n l, length l ≤ n → decode_quanta (encode l) = (l, true)) as H.
  2:{ by eapply H. }
  clear l. induction n as [|n IH]; intros [|a [|b [|c l]]] Hl; cbn [length] in Hl;
    try done; try lia; cbn [encode].
  - apply decode_enc1.
  - apply decode_enc2.
  - rewrite decode_enc3, IH by lia. done.
Qed.

Lemma encode_no_break l : Forall (λ c, is_break c = false) (encode l).
Proof.
  assert (∀ v, (v < 64)%N → is_break (encode_value v) = false) as Hv.
  { intros v H. eapply Forall_forall in Hbreak; [done|]. by apply encode_value_elem. }
  assert (∀ a b c, Forall (λ c, is_break c = false) (enc3 a b c)) as H3.
  { intros a b c. unfold enc3. set (v := (N_of_ascii a * 65536 + _ + _)%N).
    destruct (split4 v (group_bound a b c)) as [(? & ? & ? & ?) _].
    repeat constructor; by apply Hv. }
  assert (∀ n l, length l ≤ n → Forall (λ c, is_break c = false) (encode l)) as H.
  2:{ by eapply H. }
  clear l. induction n as [|n IH]; intros [|a [|b [|c l]]] Hl; cbn [length] in Hl;
    try lia; cbn [encode]; [constructor|constructor|..].
  - apply Forall_app. split; [by apply Forall_take|by repeat constructor].
  - apply Forall_app. split; [by apply Forall_take|by repeat constructor].
  - apply Forall_app. split; [done|]. apply IH. lia.
Qed.

(** Decoding what was encoded gives it back. *)
Lemma decode_encode l : decode (encode l) = (l, true).
Proof.
  unfold decode. rewrite filter_all; [apply decode_quanta_encode|].
  apply encode_no_break.
Qed.
End base64.

Definition StdEncode : bytes → bytes := encode "+"%char "/"%char.
Definition StdDecode : bytes → bytes * bool := decode "+"%char "/"%char.
Definition URLEncode : bytes → bytes := encode "-"%char "_"%char.
Definition URLDecode : bytes → bytes * bool := decode "-"%char "_"%char.

Lemma StdDecode_encode l : StdDecode (StdEncode l) = (l, true).
Proof. apply decode_encode; by apply (bool_decide_unpack _). Qed.

Lemma URLDecode_encode l : URLDecode (URLEncode l) = (l, true).
Proof. apply decode_encode; by apply (bool_decide_unpack _). Qed.

Example encode_1 : of_bytes (StdEncode (to_bytes "hello")) = "aGVsbG8=".
Proof. reflexivity. Qed.
