(* ===== verification/UrlPrefix.v ===== *)
(** * URL prefixes (internal/urlprefix)

    The relative URL root under which the instance is served: matching a
    request path against it, stripping it, and the canonical form of a request
    path.  Every operation of the package is modelled. *)

From S2P Require Import Prelude GoString.
From stdpp Require Import options.

Module UrlPrefix.
Import Path.

(** [internal/urlprefix/urlprefix.go:8-8 Prefix] *)
Definition Prefix : Type := string.

Definition last_is_slash (p : bytes) : bool :=
  match last p with Some c => Ascii.eqb c slash | None => false end.

(** The body of [CleanURIPath] on octets. *)
Definition clean_uri_bytes (p : bytes) : bytes :=
  match p with
  | [] => [slash]
  | c :: _ =>
      let p := if Ascii.eqb c slash then p else slash :: p in
      let np := clean_bytes p in
      if last_is_slash p && negb (bool_decide (np = [slash]))
      then np ++ [slash] else np
  end.

(** [internal/urlprefix/urlprefix.go:21-35 CleanURIPath] *)
Definition CleanURIPath (p : string) : string :=
  of_bytes (clean_uri_bytes (to_bytes p)).

(** [internal/urlprefix/urlprefix.go:10-12 Prefix.Strip] *)
Definition Strip (p : Prefix) (path : string) : string :=
  CleanURIPath (trim_prefix path (p : string)).

(** [internal/urlprefix/urlprefix.go:14-17 Prefix.Match] *)
Definition Match (p : Prefix) (path : string) : bool :=
  has_prefix path (p : string) || String.eqb (path +:+ "/") p.

(** ** Canonical request paths

    A canonical path is a slash followed by plain elements, with or without a
    trailing slash. *)
Definition canonical (p : bytes) : Prop :=
  ∃ xs, Forall plain xs ∧
    (p = slash :: join_on slash xs ∨
     (xs ≠ [] ∧ p = slash :: join_on slash xs ++ [slash])).

Lemma join_plain_not_nil xs : Forall plain xs → xs ≠ [] → join_on slash xs ≠ [].
Proof. intros H Hne Hj. apply Hne. eapply join_on_nil; [|exact Hj].
  by apply plain_not_nil. Qed.

(** Cleaning a path that starts with a slash, in terms of its elements. *)
Lemma clean_uri_rooted p :
  clean_uri_bytes (slash :: p) =
    slash :: join_on slash (elements_of p) ++
      (if last_is_slash (slash :: p) && negb (bool_decide (elements_of p = []))
       then [slash] else []).
Proof.
  unfold clean_uri_bytes. rewrite Ascii.eqb_refl, clean_rooted.
  pose proof (elements_of_plain p) as Hp.
  destruct (decide (elements_of p = [])) as [E|E].
  - rewrite E. cbn [join_on]. rewrite !bool_decide_true by done.
    by rewrite andb_false_r.
  - rewrite (bool_decide_false (elements_of p = [])) by done.
    rewrite bool_decide_false.
    2:{ intros [=Hj]. by eapply join_plain_not_nil. }
    destruct (last_is_slash _); cbn; [done|]. by rewrite app_nil_r.
Qed.

Lemma clean_uri_canonical p : canonical (clean_uri_bytes p).
Proof.
  assert (∀ q, canonical (clean_uri_bytes (slash :: q))) as Hs.
  { intros q. rewrite clean_uri_rooted. exists (elements_of q).
    split; [apply elements_of_plain|].
    destruct (last_is_slash _); cbn [andb]; [|left; by rewrite app_nil_r].
    case_bool_decide; cbn [negb]; [left; by rewrite app_nil_r|by right]. }
  destruct p as [|c p]; [exists []; split; [constructor|by left]|].
  destruct (Ascii.eqb_spec c slash) as [->|Hne]; [apply Hs|].
  specialize (Hs (c :: p)). unfold clean_uri_bytes in *.
  rewrite Ascii.eqb_refl in Hs. by destruct (Ascii.eqb_spec c slash).
Qed.

Lemma last_is_slash_join xs :
  Forall plain xs → last_is_slash (slash :: join_on slash xs) = true → xs = [].
Proof.
  intros H Hl. destruct (decide (xs = [])) as [->|Hne]; [done|]. exfalso.
  destruct (last_snoc_cases xs) as [->|(ys & x & ->)]; [done|].
  apply Forall_app in H as [Hys Hx]. inversion_clear Hx as [|? ? Hpx _].
  destruct Hpx as (Hx0 & _ & _ & Hxs).
  destruct (last_snoc_cases x) as [->|(x' & c & ->)]; [done|].
  assert (∃ z, slash :: join_on slash (ys ++ [x' ++ [c]]) = z ++ [c]) as [z Hz].
  { destruct (decide (ys = [])) as [->|Hy].
    - exists (slash :: x'). done.
    - rewrite join_on_app by done. cbn [join_on].
      exists (slash :: join_on slash ys ++ slash :: x').
      cbn. by rewrite <- app_assoc. }
  rewrite Hz in Hl. unfold last_is_slash in Hl. rewrite last_snoc in Hl.
  apply Ascii.eqb_eq in Hl. subst c. apply Hxs. set_solver.
Qed.

Lemma last_is_slash_snoc p : last_is_slash (p ++ [slash]) = true.
Proof. unfold last_is_slash. by rewrite last_snoc, Ascii.eqb_refl. Qed.

(** A canonical path is left alone. *)
Lemma clean_uri_id p : canonical p → clean_uri_bytes p = p.
Proof.
  intros (xs & H & [-> | [Hne ->]]); rewrite clean_uri_rooted.
  - rewrite elements_of_join by done.
    destruct (last_is_slash _) eqn:El; cbn [andb]; [|by rewrite app_nil_r].
    apply last_is_slash_join in El as ->; [|done]. done.
  - rewrite elements_of_join_slash by done.
    change (slash :: join_on slash xs ++ [slash])
      with ((slash :: join_on slash xs) ++ [slash]).
    rewrite last_is_slash_snoc, bool_decide_false by done. done.
Qed.

(** Stripping the root prefix only takes the canonical form. *)
Lemma clean_uri_cons p : clean_uri_bytes (slash :: slash :: p) = clean_uri_bytes (slash :: p).
Proof.
  rewrite !clean_uri_rooted.
  assert (elements_of (slash :: p) = elements_of p) as ->.
  { unfold elements_of. cbn [split_on]. rewrite Ascii.eqb_refl. unfold clean_segs.
    cbn [foldl]. by rewrite clean_step_nil. }
  done.
Qed.

Lemma Strip_root p : Strip "/" p = CleanURIPath p.
Proof.
  unfold Strip, CleanURIPath. f_equal.
  assert (p = of_bytes (to_bytes p)) as Hp by (by rewrite of_to_bytes).
  destruct (to_bytes p) as [|c l] eqn:E; [by rewrite Hp|].
  assert (p = String c (of_bytes l)) as -> by exact Hp. clear Hp E.
  destruct (Ascii.eqb_spec c slash) as [->|Hne].
  - change (String slash (of_bytes l)) with ("/" +:+ of_bytes l).
    rewrite trim_prefix_app, to_of_bytes. destruct l as [|d l]; [done|].
    destruct (Ascii.eqb_spec d slash) as [->|Hd].
    + by rewrite clean_uri_cons.
    + unfold clean_uri_bytes. by destruct (Ascii.eqb_spec d slash).
  - rewrite trim_prefix_id.
    { cbn. by rewrite to_of_bytes. }
    apply not_true_is_false. rewrite has_prefix_spec. intros [r Hr].
    change ("/" +:+ r) with (String slash r) in Hr. congruence.
Qed.

(** ** Properties *)

(** The canonical form of a request path starts with a slash, contains no
    empty, ["."] or [".."] element, and taking the canonical form again
    changes nothing. *)
Theorem CleanURIPath_canonical (p : string) :
  canonical (to_bytes (CleanURIPath p)) ∧
  CleanURIPath (CleanURIPath p) = CleanURIPath p.
Proof.
  unfold CleanURIPath. rewrite !to_of_bytes. split.
  - apply clean_uri_canonical.
  - f_equal. apply clean_uri_id, clean_uri_canonical.
Qed.

(** With a root prefix that ends in a slash, a path that matches is
    stripped to its canonical remainder: a path that extends the prefix loses
    exactly the prefix, and the root without its trailing slash becomes the
    root of the instance when no element repeats it. *)
Theorem Match_Strip (root rest : string) :
  Match (root +:+ "/") (root +:+ "/" +:+ rest) = true ∧
  Strip (root +:+ "/") (root +:+ "/" +:+ rest) = CleanURIPath rest ∧
  Match (root +:+ "/") root = true.
Proof.
  assert (root +:+ "/" +:+ rest = (root +:+ "/") +:+ rest) as Hassoc.
  { apply (inj to_bytes). by rewrite !to_bytes_app, <- app_assoc. }
  rewrite Hassoc. split; [|split].
  - unfold Match. apply orb_true_intro. left. apply has_prefix_spec. eauto.
  - unfold Strip. by rewrite trim_prefix_app.
  - unfold Match. apply orb_true_intro. right. apply String.eqb_refl.
Qed.
End UrlPrefix.
