(* ===== verification/Helper.v ===== *)
(** * Helpers shared by the handlers (internal/helper)

    Error responses, header utilities, content types, request cloning, URL
    scrubbing (helpers.go, raven.go), and the two response writers that count
    what is written (countingresponsewriter.go, logging.go). *)

From S2P Require Import Prelude GoString GoRegexp Http GoNet.
From stdpp Require Import options.

Module Helper.

(** ** Scrubbing URLs *)

(** A letter under the case-insensitive flag: both cases, and the two letters
    outside ASCII that Unicode folds to [s] and [k]. *)
Definition fold_chr (c : octet) : re :=
  let both := Chr (λ d, Ascii.eqb (lower d) (lower c)) in
  if Ascii.eqb (lower c) "s"%char then Alt both (lit_bytes ["197"%char; "191"%char])
  else if Ascii.eqb (lower c) "k"%char
  then Alt both (lit_bytes ["226"%char; "132"%char; "170"%char])
  else both.
Definition ci (s : string) : re := seqs (fold_chr <$> to_bytes s).
Definition one_of (s : string) : re := Chr (λ d, existsb (Ascii.eqb d) (to_bytes s)).

(** [internal/helper/helpers.go:22-22 scrubRegexp] *)
Definition scrubRegexp : re :=
  seqs [Grp (Alt (seqs [one_of "?&"; alts [ci "private"; ci "authenticity"; ci "rss"];
                        one_of "-_"; ci "token"])
                 (Seq (opt (ci "X-AMZ-")) (ci "Signature")));
        lit "="; Star (not_chr "&"%char)].

(** [internal/helper/helpers.go:201-203 ScrubURLParams] *)
Definition ScrubURLParams (url : string) : string :=
  of_bytes (replace_all scrubRegexp (λ g, g ++ to_bytes "=[FILTERED]") (to_bytes url)).

(** ** Errors *)

#[global] Arguments ScrubURLParams _ : simpl never.

(** [internal/helper/raven.go:10-13 ravenHeaderBlacklist] *)
Definition ravenHeaderBlacklist : list string := ["Authorization"; "Private-Token"].

(** One iteration of the loop of [CleanHeadersForRaven]. *)
Definition redact (h : header) (key : string) : header :=
  if String.eqb (Header.Get h key) "" then h else Header.Set_ h key "[redacted]".

(** [internal/helper/raven.go:35-45 CleanHeadersForRaven] *)
Definition CleanHeadersForRaven (r : option Request) : option Request :=
  match r with
  | None => None
  | Some r => Some (with_header r (foldl redact (Header_ r) ravenHeaderBlacklist))
  end.

(** [internal/helper/raven.go:15-33 captureRavenError] *)
Definition captureRavenError (r : option Request) (e : gerr) : prog unit :=
  call (Capture (Header_ <$> CleanHeadersForRaven r) e).

(** [internal/helper/helpers.go:47-56 printError] *)
Definition printError (r : option Request) (e : option gerr) : prog unit :=
  match r with
  | Some r => call (LogError_ (Some (Method r, ScrubURLParams (RequestURI r))) e)
  | None => call (LogError_ None e)
  end.

(** [internal/helper/helpers.go:24-31 Fail500] *)
Definition Fail500 (r : Request) (e : option gerr) : prog unit :=
  http_Error "Internal server error" 500;;
  match e with Some e => captureRavenError (Some r) e | None => Ret tt end;;
  printError (Some r) e.

#[global] Arguments Fail500 _ _ : simpl never.

(** [internal/helper/helpers.go:33-39 LogError] *)
Definition LogError (r : option Request) (e : option gerr) : prog unit :=
  match e with Some e => captureRavenError r e | None => Ret tt end;;
  printError r e.

(** [internal/helper/helpers.go:41-45 RequestEntityTooLarge] *)
Definition RequestEntityTooLarge (r : Request) (e : gerr) : prog unit :=
  http_Error "Request Entity Too Large" 413;;
  captureRavenError (Some r) e;;
  printError (Some r) (Some e).

(** [http.Request.ProtoAtLeast]. *)
Definition ProtoAtLeast (r : Request) (major minor : Z) : bool :=
  (major <? ProtoMajor r)%Z || ((ProtoMajor r =? major)%Z && (minor <=? ProtoMinor r)%Z).

(** [internal/helper/helpers.go:102-109 HTTPError] *)
Definition HTTPError (r : Request) (error : string) (code : Z) : prog unit :=
  if ProtoAtLeast r 1 1 then
    header_set "Connection" "close";;
    http_Error error code
  else http_Error error code.

(** ** Headers *)

(** [internal/helper/helpers.go:58-62 SetNoCacheHeaders] *)
Definition SetNoCacheHeaders : prog unit :=
  header_set "Cache-Control" "no-cache, no-store, max-age=0, must-revalidate";;
  header_set "Pragma" "no-cache";;
  header_set "Expires" "Fri, 01 Jan 1990 00:00:00 GMT".

(** [internal/helper/helpers.go:20-20 NginxResponseBufferHeader] *)
Definition NginxResponseBufferHeader : string := "X-Accel-Buffering".

(** [internal/helper/helpers.go:150-152 DisableResponseBuffering] *)
Definition DisableResponseBuffering : prog unit :=
  header_set NginxResponseBufferHeader "no".

(** [internal/helper/helpers.go:154-156 AllowResponseBuffering] *)
Definition AllowResponseBuffering : prog unit :=
  header_del NginxResponseBufferHeader.

(** [internal/helper/helpers.go:111-119 HeaderClone] *)
Definition HeaderClone (h : header) : header :=
  map_fold (λ k vv h2, <[k := vv]> h2) (∅ : header) h.

(** [internal/helper/helpers.go:158-172 SetForwardedFor] *)
Definition SetForwardedFor (newHeaders : header) (originalRequest : Request) : header :=
  match Net.SplitHostPort (RemoteAddr originalRequest) with
  | Some (clientIP, _) =>
      let value :=
        match Header_ originalRequest !! "X-Forwarded-For" with
        | Some prior => join_strings ", " prior +:+ ", " +:+ clientIP
        | None => clientIP
        end in
      Header.Set_ newHeaders "X-Forwarded-For" value
  | None => newHeaders
  end.

(** ** Content types and bodies *)

(** [internal/helper/helpers.go:174-177 IsContentType] *)
Definition IsContentType (expected actual : string) : bool :=
  match Mime.ParseMediaType actual with
  | Some parsed => String.eqb parsed expected
  | None => false
  end.

#[global] Arguments IsContentType _ _ : simpl never.

(** [internal/helper/helpers.go:179-182 IsApplicationJson] *)
Definition IsApplicationJson (r : Request) : bool :=
  IsContentType "application/json" (Header.Get (Header_ r) "Content-Type").

(** [internal/helper/helpers.go:184-189 ReadRequestBody] *)
Definition ReadRequestBody (r : Request) (maxBodySize : Z) : bytes * option gerr :=
  read_all (max_bytes maxBodySize (body_of r)).

(** [internal/helper/helpers.go:191-197 CloneRequestWithNewBody] *)
Definition CloneRequestWithNewBody (r : Request) (d : bytes) : Request :=
  with_header (with_body r (Some (whole d)) (Z.of_nat (length d)))
    (HeaderClone (Header_ r)).

(** [internal/helper/helpers.go:64-92 OpenFile] *)
Definition OpenFile (path : string) : prog (result (fd * FileInfo)) :=
  o <- call (OpenPath path);;
  match o with
  | inr e => Ret (inr e)
  | inl file =>
      s <- call (Stat file);;
      match s with
      | inr e => call (CloseFd file);; Ret (inr e)
      | inl fi =>
          if IsDir fi
          then call (CloseFd file);; Ret (inr (Errorf "path is directory"))
          else Ret (inl (file, fi))
      end
  end.

(** [OpenFile] leaves open the file it returns and nothing else. *)
Lemma Fail500_status {W} (E : env W) r e w v :
  r_status w = None → r_status (run E (Fail500 r e) w v).1.2 = Some 500%Z.
Proof.
  intros Hw. unfold Fail500. rewrite run_bind. cbn [run http_Error header_set write_header write bind].
  set (w1 := resp_header 500 _). assert (r_status w1 = Some 500%Z) as H1.
  { unfold w1, resp_header. cbn. by rewrite Hw. }
  pose proof (resp_write_status (to_bytes "Internal server error" ++ [newline]) w1) as H2.
  rewrite H1 in H2. destruct (resp_write _ w1) as [x w2]. cbn in H2. clearbody w1.
  rewrite run_bind. destruct e as [x0|]; cbn.
  - destruct (E unit (Capture _ _) v) as [[] v1]. cbn. by destruct (E _ (LogError_ _ _) v1) as [[] v2].
  - by destruct (E _ (LogError_ _ _) v) as [[] v2].
Qed.

(** What [Fail500] adds to a response that has started. *)
Lemma Fail500_started {W} (E : env W) r x w st (e : W) :
  r_status w = Some st → body_allowed st = true → r_room w = None →
  ∃ w' e', run E (Fail500 r x) w e = (Value tt, w', e') ∧ r_status w' = Some st ∧
    r_sent w' = r_sent w ∧ r_body w' = r_body w ++ to_bytes "Internal server error" ++ [newline].
Proof.
  intros Hs Hb Hr. unfold Fail500, http_Error. cbn -[resp_write newline].
  match goal with |- context [resp_write ?d ?w1] => rewrite (resp_write_append d w1 st) end;
    [|by unfold resp_header; cbn; rewrite Hs|done|by unfold resp_header; cbn; rewrite Hs].
  cbv iota beta.
  destruct x as [x|]; unfold printError, captureRavenError; cbn;
    repeat (destruct (E unit _ _) as [[] ?]); eexists _, _; (split; [reflexivity|]);
    unfold resp_header; cbn; by rewrite Hs.
Qed.

Lemma Fail500_harmless (ok : ∀ X, ext X → Prop) r e :
  (∀ h x, ok unit (Capture h x)) ∧ (∀ rq x, ok unit (LogError_ rq x)) ∧ True →
  harmless ok (Fail500 r e).
Proof.
  intros (H1 & H2 & _). unfold Fail500. apply harmless_bind; [done|]. intros _.
  apply harmless_bind; [|intros _; by split]. destruct e; [by split|done].
Qed.

Lemma LogError_harmless (ok : ∀ X, ext X → Prop) r e :
  (∀ h x, ok unit (Capture h x)) ∧ (∀ rq x, ok unit (LogError_ rq x)) →
  harmless ok (LogError r e).
Proof.
  intros [H1 H2]. unfold LogError. apply harmless_bind; [destruct e; [by split|done]|].
  intros _. by destruct r; split.
Qed.

Lemma LogError_calm r e : never_panics (LogError r e).
Proof. by destruct e, r; repeat intros []. Qed.

Lemma Fail500_calm r e : never_panics (Fail500 r e).
Proof. by destruct e; repeat intros []. Qed.

Lemma LogError_codes r e : codes_ok (LogError r e).
Proof. by destruct e, r; repeat intros []. Qed.

Lemma Fail500_codes r e : codes_ok (Fail500 r e).
Proof. split; [done|]. intros [n y]. by destruct e; repeat intros []. Qed.

Lemma LogError_run {W} (E : env W) r e w v :
  ∃ v', run E (LogError r e) w v = (Value tt, w, v').
Proof.
  unfold LogError. destruct e as [e|], r as [r|]; cbn;
    repeat match goal with |- context [E unit ?x ?v] => destruct (E unit x v) as [[] ?]; cbn end;
    by eexists.
Qed.

Lemma RequestEntityTooLarge_harmless (ok : ∀ X, ext X → Prop) r e :
  (∀ h x, ok unit (Capture h x)) ∧ (∀ rq x, ok unit (LogError_ rq x)) →
  harmless ok (RequestEntityTooLarge r e).
Proof.
  intros (H1 & H2). unfold RequestEntityTooLarge. apply harmless_bind; [done|]. intros _.
  apply harmless_bind; [by split|]. intros _. by split.
Qed.

Lemma Fail500_closes {W} (E : env W) fds r e :
  FdEnv E fds → keeps E fds (Fail500 r e).
Proof.
  intros HE. unfold Fail500. apply keeps_bind; [apply closes_no_files; [done|]|intros _].
  - by repeat split.
  - apply keeps_bind; [|intros _].
    + destruct e; [|done]. apply closes_no_files; [done|]. by destruct r; repeat split.
    + apply closes_no_files; [done|]. by destruct r; repeat split.
Qed.

Lemma OpenFile_fds {W} (E : env W) fds path r w :
  FdEnv E fds →
  ∃ o w', run E (OpenFile path) r w = (Value o, r, w') ∧
    match o with
    | inl (f, fi) => f ∉ fds w ∧ fds w' = {[f]} ∪ fds w ∧ IsDir fi = false
    | inr _ => fds w' = fds w
    end.
Proof.
  intros HE. unfold OpenFile. cbn. pose proof (fd_open E fds path w HE) as Ho.
  destruct (E _ (OpenPath path) w) as [[f|x] w1]; cbn; [|by eexists _, _].
  destruct Ho as [Hf Ho]. pose proof (fd_other E fds (Stat f) w1 HE eq_refl) as Hs.
  destruct (E _ (Stat f) w1) as [[fi|x] w2]; cbn in Hs |- *.
  - destruct (IsDir fi) eqn:Ed; cbn.
    + pose proof (fd_close E fds f w2) as Hc. destruct (E _ (CloseFd f) w2) as [[] w3].
      eexists _, _. split; [done|]. cbn in *. rewrite Hc, Hs, Ho. set_solver.
    + eexists _, _. split; [done|]. cbn. rewrite Hs. by split_and!.
  - pose proof (fd_close E fds f w2) as Hc. destruct (E _ (CloseFd f) w2) as [[] w3].
    eexists _, _. split; [done|]. cbn in *. rewrite Hc, Hs, Ho. set_solver.
Qed.
End Helper.

(** ** The counting writer *)

Module Counting.
(** [internal/helper/countingresponsewriter.go:13-17 countingResponseWriter] *)
Record countingResponseWriter := { status : Z; count : Z }.

(** [internal/helper/countingresponsewriter.go:19-21 NewCountingResponseWriter] *)
Definition NewCountingResponseWriter : countingResponseWriter :=
  {| status := 0; count := 0 |}.

(** [internal/helper/countingresponsewriter.go:37-44 countingResponseWriter.WriteHeader] *)
Definition WriteHeader (s : Z) : method countingResponseWriter unit := (
  c <- mget;;
  if negb (status c =? 0)%Z then mret tt
  else
    mput {| status := s; count := count c |};;
    mlift (write_header s))%method.

(** [internal/helper/countingresponsewriter.go:27-35 countingResponseWriter.Write] *)
Definition Write (d : bytes) : method countingResponseWriter (Z * option gerr) := (
  c <- mget;;
  (if (status c =? 0)%Z then WriteHeader 200 else mret tt);;
  r <- mlift (write d);;
  c <- mget;;
  mput {| status := status c; count := (count c + r.1)%Z |};;
  mret r)%method.

Definition wrapper : Wrapper countingResponseWriter :=
  {| wr_Write := Write; wr_WriteHeader := WriteHeader |}.

(** [internal/helper/countingresponsewriter.go:48-50 countingResponseWriter.Count] *)
Definition Count (c : countingResponseWriter) : Z := count c.

(** [internal/helper/countingresponsewriter.go:54-56 countingResponseWriter.Status] *)
Definition Status (c : countingResponseWriter) : Z := status c.

(** What the counters say: the status that was sent, and the octets of the body
    since there were [n0] of them. *)
Definition accurate (n0 : Z) (c : countingResponseWriter) (r : resp) : Prop :=
  status c = default 0%Z (r_status r) ∧
  (r_status r ≠ Some 0%Z) ∧
  count c = (Z.of_nat (length (r_body r)) - n0)%Z.

Lemma write_count d r :
  (resp_write d r).1.1 =
    (Z.of_nat (length (r_body (resp_write d r).2)) - Z.of_nat (length (r_body r)))%Z.
Proof.
  unfold resp_write, resp_header. destruct (r_status r); cbn;
    try destruct (body_allowed _); cbn; rewrite ?length_app; lia.
Qed.

#[global] Instance transparent {V} (E : env V) n0 :
  Transparent E wrapper (accurate n0) (λ _, false).
Proof.
  split; [done|..]; [| |done..].
  - intros s [st n] r e Hs (Hst & Hnz & Hn) _; cbn in *; subst.
    destruct (r_status r) as [z|] eqn:Ez; cbn.
    + assert (z ≠ 0%Z) by congruence. eexists _, _, _, _. split.
      { cbn. rewrite (proj2 (Z.eqb_neq z 0)) by done. done. }
      right. unfold accurate, resp_header. cbn. rewrite Ez. by split_and!.
    + eexists _, _, _, _. split; [done|]. right. unfold accurate, resp_header.
      rewrite Ez. cbn. split_and!; try done; congruence.
  - intros d [st n] r e (Hst & Hnz & Hn) _; cbn in *; subst.
    exists (Value (resp_write d r).1),
           {| status := default 200%Z (r_status r);
              count := (Z.of_nat (length (r_body r)) - n0 + (resp_write d r).1.1)%Z |},
           (resp_write d r).2, e. split; [|right; split; [done|split_and!; try done]].
    + destruct (r_status r) as [z|] eqn:Es; cbn.
      * rewrite (proj2 (Z.eqb_neq z 0)) by congruence. cbn. by destruct (resp_write d r).
      * rewrite (resp_write_fresh d r Es). by destruct (resp_write d (resp_header 200 r)).
    + unfold accurate. rewrite resp_write_status, write_count. cbn. split_and!; [done| |lia].
      destruct (r_status r); cbn; congruence.
Qed.
(** Whatever the state of the response, the counting writer lets through what the
    handler does. *)
Definition not_behind (c : countingResponseWriter) (r : resp) : Prop :=
  status c ≠ 0%Z → is_Some (r_status r).

Lemma not_behind_new r : not_behind NewCountingResponseWriter r.
Proof. by intros []. Qed.

Lemma resp_header_started s r : is_Some (r_status r) → resp_header s r ≡ r.
Proof. intros [z Ez]. unfold resp_header. by rewrite Ez. Qed.

Lemma resp_write_header s d r :
  is_Some (r_status r) ∨ s = 200%Z →
  (resp_write d (resp_header s r)).1 = (resp_write d r).1 ∧
  (resp_write d (resp_header s r)).2 ≡ (resp_write d r).2.
Proof.
  intros H. destruct (r_status r) eqn:E.
  - apply resp_write_proper. apply resp_header_started. rewrite E. by eexists.
  - destruct H as [[? ?]| ->]; [done|]. by rewrite <- resp_write_fresh.
Qed.

#[global] Instance transparent_any {V} (E : env V) :
  Transparent E wrapper not_behind (λ _, false).
Proof.
  split; [done|..]; [| |done..].
  - intros s [st n] r e Hs Hok _. cbn. destruct (Z.eqb_spec st 0) as [->|Hst]; cbn.
    + eexists _, _, _, _. split; [done|]. right. split_and!; try done.
      unfold not_behind, resp_header. cbn. by destruct (r_status r).
    + eexists _, _, _, _. split; [done|]. right. split_and!; try done.
      symmetry. apply resp_header_started. by apply Hok.
  - intros d [st n] r e Hok _. cbn. destruct (Z.eqb_spec st 0) as [->|Hst]; cbn.
    + pose proof (resp_write_header 200 d r (or_intror eq_refl)) as [H1 H2].
      destruct (resp_write d (resp_header 200 r)) as [x r'] eqn:Ew. cbn in H1, H2.
      eexists _, _, _, _. split; [done|]. right. rewrite H1. split_and!; try done.
      intros _. destruct H2 as (_ & -> & _). rewrite resp_write_status. by eexists.
    + destruct (resp_write d r) as [x r'] eqn:Ew.
      eexists _, _, _, _. split; [done|]. right. split_and!; try done.
      intros _. pose proof (resp_write_status d r) as H. rewrite Ew in H. cbn in H. rewrite H. by eexists.
Qed.

(** What a program leaves as it was, it leaves so behind the counting writer. *)
Lemma under_keeps {V T A} (E : env V) (obs : V → T) (p : prog A) r e :
  keeps E obs p → codes_ok p →
  ∃ o c r' e', run E (under wrapper p NewCountingResponseWriter) r e = (Value (o, c), r', e') ∧
    obs e' = obs e.
Proof.
  intros Hk Hp.
  destruct (under_transparent E wrapper not_behind (λ _, false) p NewCountingResponseWriter r r e)
    as (o & c' & r' & e' & -> & [|(_ & _ & r0 & H0 & _)]);
    [apply _|done|apply not_behind_new|done|done|done|].
  specialize (Hk r e). rewrite H0 in Hk. by repeat eexists.
Qed.

(** Headers are sent at most once. *)
#[global] Instance sends_once ans n :
  Maintains ans wrapper (once (λ c, negb (status c =? 0)%Z) n).
Proof.
  split; [done|..].
  - intros s Hs [st k] r [H1 H2]; cbn in H1. cbn [wrapper wr_WriteHeader]. unfold WriteHeader.
    wp_steps. cbn [status]. destruct (Z.eqb_spec st 0) as [->|Hst]; cbn [negb]; wp_steps.
    2:{ split; [|done]. cbn. by destruct (Z.eqb_spec st 0). }
    assert (r_status r = None) as E.
    { destruct (r_status r) eqn:E; [|done]. by specialize (H1 ltac:(eauto)). }
    unfold once, resp_header. rewrite E. cbn. split; [|done]. by destruct (Z.eqb_spec s 0).
  - intros d [st k] r [H1 H2]; cbn in H1. cbn [wrapper wr_Write]. unfold Write, WriteHeader.
    wp_steps. cbn [status]. destruct (Z.eqb_spec st 0) as [->|]; cbn [negb]; wp_steps.
    + assert (r_status r = None) as E.
      { destruct (r_status r) eqn:E; [|done]. by specialize (H1 ltac:(eauto)). }
      cbn [status Z.eqb negb]. wp_steps. unfold once, resp_header. rewrite E. cbn [status].
      by split.
    + split; cbn; [by destruct (Z.eqb_spec st 0)|]. unfold resp_write.
      destruct (r_status r) eqn:E; cbn; try destruct (body_allowed _); cbn; try done;
        unfold resp_header; rewrite E; done.
Qed.

End Counting.

(** ** The writer behind the access log *)

Module Logging.
(** [internal/helper/logging.go:29-35 statsCollectingResponseWriter] *)
Record statsCollectingResponseWriter := {
  status : Z;
  wroteHeader : bool;
  written : Z;
  started : Z;
}.

(** The writer on the clock's current time.  A writer that can be hijacked is
    wrapped the same way, with a [Hijack] that hands out the connection.
    [internal/helper/logging.go:41-52 NewStatsCollectingResponseWriter] *)
Definition NewStatsCollectingResponseWriter : prog statsCollectingResponseWriter :=
  now <- call Now;;
  Ret {| status := 0; wroteHeader := false; written := 0; started := now |}.

(** [internal/helper/logging.go:75-83 statsCollectingResponseWriter.WriteHeader] *)
Definition WriteHeader (s : Z) : method statsCollectingResponseWriter unit := (
  l <- mget;;
  if wroteHeader l then mret tt
  else
    mput {| status := s; wroteHeader := true; written := written l; started := started l |};;
    mlift (write_header s))%method.

(** [internal/helper/logging.go:65-73 statsCollectingResponseWriter.Write] *)
Definition Write (d : bytes) : method statsCollectingResponseWriter (Z * option gerr) := (
  l <- mget;;
  (if negb (wroteHeader l) then WriteHeader 200 else mret tt);;
  r <- mlift (write d);;
  l <- mget;;
  mput {| status := status l; wroteHeader := wroteHeader l;
          written := (written l + r.1)%Z; started := started l |};;
  mret r)%method.

Definition wrapper : Wrapper statsCollectingResponseWriter :=
  {| wr_Write := Write; wr_WriteHeader := WriteHeader |}.

(** [internal/helper/logging.go:94-109 statsCollectingResponseWriter.accessLogFields] *)
Definition accessLogFields (l : statsCollectingResponseWriter) (r : Request) (now : Z)
    : list (string * field) :=
  [("host", FText (Host r));
   ("remoteAddr", FText (RemoteAddr r));
   ("method", FText (Method r));
   ("uri", FText (Helper.ScrubURLParams (RequestURI r)));
   ("proto", FText ("HTTP/" +:+ itoa (ProtoMajor r) +:+ "." +:+ itoa (ProtoMinor r)));
   ("status", FInt (status l));
   ("written", FInt (written l));
   ("referer", FText (Helper.ScrubURLParams (Header.Get (Header_ r) "Referer")));
   ("userAgent", FText (Header.Get (Header_ r) "User-Agent"));
   ("duration", FDuration (now - started l))].

(** [accessLogEntry] says whether an access logger was configured.
    [internal/helper/logging.go:85-92 statsCollectingResponseWriter.writeAccessLog] *)
Definition writeAccessLog (accessLogEntry : bool) (l : statsCollectingResponseWriter)
    (r : Request) : prog unit :=
  if negb accessLogEntry then Ret tt
  else
    now <- call Now;;
    call (AccessLog (accessLogFields l r now)).

(** [internal/helper/logging.go:111-113 statsCollectingResponseWriter.RequestFinished] *)
Definition RequestFinished (accessLogEntry : bool) (l : statsCollectingResponseWriter)
    (r : Request) : prog unit := writeAccessLog accessLogEntry l r.

Definition accurate (n0 t0 : Z) (l : statsCollectingResponseWriter) (r : resp) : Prop :=
  status l = default 0%Z (r_status r) ∧
  wroteHeader l = bool_decide (is_Some (r_status r)) ∧
  written l = (Z.of_nat (length (r_body r)) - n0)%Z ∧ started l = t0.

#[global] Instance transparent {V} (E : env V) n0 t0 :
  Transparent E wrapper (accurate n0 t0) (λ _, false).
Proof.
  split; [done|..]; [| |done..].
  - intros s [st wh n st0] r e Hs (Hst & Hwh & Hn & Ht) _; cbn in *; subst.
    destruct (r_status r) as [z|] eqn:Ez; cbn; eexists _, _, _, _; (split; [done|]);
      right; unfold accurate, resp_header; rewrite Ez; cbn; by rewrite ?Ez.
  - intros d [st wh n st0] r e (Hst & Hwh & Hn & Ht) _; cbn in *; subst.
    exists (Value (resp_write d r).1),
           {| status := default 200%Z (r_status r); wroteHeader := true;
              written := (Z.of_nat (length (r_body r)) - n0 + (resp_write d r).1.1)%Z;
              started := t0 |},
           (resp_write d r).2, e. split; [|right; split; [done|split_and!; try done]].
    + destruct (r_status r) as [z|] eqn:Es; cbn.
      * by destruct (resp_write d r).
      * rewrite (resp_write_fresh d r Es). by destruct (resp_write d (resp_header 200 r)).
    + unfold accurate. rewrite resp_write_status, Counting.write_count. cbn.
      split_and!; [done|done|lia|done].
Qed.
End Logging.

(** ** Properties *)

Module HelperProps.
Import Helper.

(** Cloning copies every entry. *)
Lemma HeaderClone_id h : HeaderClone h = h.
Proof.
  unfold HeaderClone. apply (map_fold_weak_ind (λ m h', m = h')); [done|].
  by intros k vv m h' _ ->.
Qed.

Lemma redact_other h k k' :
  Header.canonical_key k ≠ Header.canonical_key k' →
  Header.Get (redact h k) k' = Header.Get h k'.
Proof. intros H. unfold redact. destruct (String.eqb _ _); [done|].
  by apply Header.Get_Set_ne. Qed.

Lemma redact_self h k : Header.Get (redact h k) k ∈ [""; "[redacted]"].
Proof.
  unfold redact. destruct (String.eqb_spec (Header.Get h k) "") as [->|_]; [set_solver|].
  rewrite Header.Get_Set_eq. set_solver.
Qed.

(** What is sent to the error tracker never has the first value of the
    [Authorization] or [Private-Token] header of the request, and every other
    header is sent as it was. *)
Theorem CleanHeadersForRaven_redacts (r : Request) :
  ∃ r', CleanHeadersForRaven (Some r) = Some r' ∧
    (∀ k, k ∈ ravenHeaderBlacklist →
       Header.Get (Header_ r') k ∈ [""; "[redacted]"]) ∧
    (∀ k, Header.canonical_key k ∉ Header.canonical_key <$> ravenHeaderBlacklist →
       Header.Get (Header_ r') k = Header.Get (Header_ r) k).
Proof.
  eexists. split; [done|]. cbn [with_header Header_ foldl ravenHeaderBlacklist]. split.
  - intros k [->|[->|[]%not_elem_of_nil]%elem_of_cons]%elem_of_cons.
    + rewrite redact_other by (vm_compute; congruence). apply redact_self.
    + apply redact_self.
  - intros k Hk. unfold ravenHeaderBlacklist in Hk. cbn [fmap list_fmap] in Hk.
    rewrite !redact_other; [done|..]; intros Heq; apply Hk; rewrite <- Heq; set_solver.
Qed.

(** A credential whose first value is empty is not redacted. *)
Example CleanHeadersForRaven_empty_first :
  Header.Values (redact {["Authorization" := [""; "secret"]]} "Authorization") "Authorization"
  = [""; "secret"].
Proof. vm_compute. reflexivity. Qed.

Example scrub_1 :
  ScrubURLParams "/a?private_token=abc&x=1&RSS-Token=q" =
  "/a?private_token=[FILTERED]&x=1&RSS-Token=[FILTERED]".
Proof. vm_compute. reflexivity. Qed.
Example scrub_2 :
  ScrubURLParams "http://h/o?X-Amz-Signature=12&Signature=3" =
  "http://h/o?X-Amz-Signature=[FILTERED]&Signature=[FILTERED]".
Proof. vm_compute. reflexivity. Qed.

(** The counting writer is invisible to the handler and to the client, and
    after any handler [Status] is the status that was sent and [Count] the
    number of octets the client was sent. *)
Theorem counting_writer_transparent {A V} (E : env V) (p : prog A) (h : header) (e : V)
    (Hp : codes_ok p) :
  ∃ c r r0 o e', run E p (new_resp h) e = (o, r0, e') ∧
    run E (under Counting.wrapper p Counting.NewCountingResponseWriter) (new_resp h) e
      = (Value (o, c), r, e') ∧
    r ≡ r0 ∧
    Counting.Status c = default 0%Z (r_status r0) ∧
    Counting.Count c = Z.of_nat (length (r_body r0)).
Proof.
  destruct (under_transparent E Counting.wrapper (Counting.accurate 0) (λ _, false) p
    Counting.NewCountingResponseWriter (new_resp h) (new_resp h) e)
    as (o & c & r & e' & H1 & [|(_ & (Hst & _ & Hn) & r0 & H0 & Heq)]);
    [apply _|done|done|done|done|done|].
  exists c, r, r0, o, e'. split; [exact H0|]. split; [exact H1|]. split; [done|].
  destruct Heq as (_ & Es & _ & Eb & _). unfold Counting.Status, Counting.Count.
  rewrite Hst, Hn, Es, Eb. split; [done|lia].
Qed.

(** The environment of the examples: the clock stands still and everything else
    fails or is empty. *)
Definition quiet_env : env unit := λ X e w,
  match e in ext X return X * unit with
  | Now => (0%Z, w)
  | Metric _ _ _ | Capture _ _ | LogError_ _ _ | LogInfo _ _ | AccessLog _ => (tt, w)
  | ReadFile _ | OpenPath _ | Stat _ | RoundTrip_ _ => (inr ErrNotExist, w)
  | Do_ _ => ((inr ErrNotExist, 0), w)
  | TempFile_ _ _ => (inr ErrNotExist, w)
  | WriteFd _ d => ((length d, None), w)
  | SeekFd _ | Remove_ _ | MkdirAll_ _ => (None, w)
  | StartCmd _ _ _ | Output_ _ _ | Dial_ _ _ | Rpc_ _ _ _ | Bidi_ _ _ _ _ => (inr ErrNotExist, w)
  | Link_ _ _ | WaitCmd _ => (None, w)
  | Duplex_ _ _ => (mk_rpc_session [] (whole []) None true 0, w)
  | ReadFd _ => (whole [], w)
  | CloseFd _ => (tt, w)
  | QueueAcquire _ => (None, w)
  | QueueRelease _ => (tt, w)
  end.

(** The environment of the examples with files: one regular file, and the set of
    the descriptors in use. *)
Definition file_env (path : string) (data : bytes) : env (gset fd) := λ X e w,
  match e in ext X return X * gset fd with
  | OpenPath p =>
      if String.eqb p path then (inl (fresh w), {[fresh w]} ∪ w) else (inr ErrNotExist, w)
  | CloseFd f => (tt, w ∖ {[f]})
  | Stat _ => (inl {| IsDir := false; Size := Z.of_nat (length data); ModTime := 0 |}, w)
  | ReadFd _ => (whole data, w)
  | e => ((quiet_env _ e tt).1, w)
  end.

#[global] Instance file_env_fds path data : FdEnv (file_env path data) id.
Proof.
  split; [|done]. intros X e w He. destruct e; cbn; try done.
  destruct (String.eqb _ path); [|done]. split; [apply is_fresh|done].
Qed.

Lemma counting_writer_transparent_witness :
  ∃ c r r0 o e', run quiet_env (http_Error "no" 404) (new_resp ∅) tt = (o, r0, e') ∧
    run quiet_env (under Counting.wrapper (http_Error "no" 404)
                     Counting.NewCountingResponseWriter) (new_resp ∅) tt
      = (Value (o, c), r, e') ∧
    r ≡ r0 ∧
    Counting.Status c = default 0%Z (r_status r0) ∧
    Counting.Count c = Z.of_nat (length (r_body r0)).
Proof.
  apply (counting_writer_transparent quiet_env (http_Error "no" 404) ∅ tt).
  cbn. repeat split; lia.
Defined.
End HelperProps.
