(* ===== verification/WriteAfterReader.v ===== *)
(** * Temporary files (internal/helper/writeafterreader.go, tempfile.go)

    A reader and a writer coupled so that what is written while the reader is
    still being drained waits in a temporary file.  The underlying reader, the
    file system and the underlying writer answer each call as they like: their
    answers are arguments of the operations.  The coupled writer touches the
    reader's state only through one call of [IsBusy] per write, so the sequences
    of operations below are the interleavings of the two goroutines. *)

From S2P Require Import Prelude.
From stdpp Require Import options.

Module WriteAfterReader.

(** ** Files and writers *)

(** An open temporary file. *)
Record file := mk_file { content : bytes; offset : nat }.

(** How a write call ends: all octets accepted, or only the first ones and an
    error.  An [io.Writer] that accepts fewer octets than it was given reports an
    error. *)
Abbreviation fault := (option (nat * gerr)).

Definition accepted (f : fault) (d : bytes) : bytes :=
  match f with None => d | Some (n, _) => take n d end.
Definition write_result (f : fault) (d : bytes) : Z * option gerr :=
  (Z.of_nat (length (accepted f d)), snd <$> f).

(** Writing at the offset of a file. *)
Definition file_write (h : file) (d : bytes) : file :=
  {| content := take (offset h) (content h) ++ d ++ drop (offset h + length d) (content h);
     offset := offset h + length d |}.

Arguments file_write _ _ : simpl never.

(** What the file system and the underlying writer answer to one operation. *)
Record answers := {
  a_create : option gerr;   (* ioutil.TempFile *)
  a_remove : option gerr;   (* os.Remove *)
  a_write : fault;          (* tempfile.Write *)
  a_seek : option gerr;     (* tempfile.Seek *)
  a_copy : fault;           (* io.Copy to the underlying writer *)
  a_sink : fault;           (* the underlying writer's Write *)
}.
Definition no_fault : answers :=
  {| a_create := None; a_remove := None; a_write := None; a_seek := None;
     a_copy := None; a_sink := None |}.

(** ** The reader *)

(** [internal/helper/writeafterreader.go:25-30 busyReader] *)
Record busyReader := { error : option gerr }.

(** [internal/helper/writeafterreader.go:47-49 busyReader.IsBusy] *)
Definition IsBusy (r : busyReader) : bool := bool_decide (error r = None).

(** [ans]: what the underlying reader answers.
    [internal/helper/writeafterreader.go:32-45 busyReader.Read] *)
Definition Read (r : busyReader) (ans : bytes * option gerr)
    : (bytes * option gerr) * busyReader :=
  match error r with
  | Some e => (([], Some e), r)
  | None =>
      let '(d, err) := ans in
      match err with
      | None => ((d, None), r)
      | Some e =>
          let e := if decide (e = EOF) then e else Wrapf "busyReader" e in
          ((d, Some e), {| error := Some e |})
      end
  end.

(** ** The writer *)

(** The octets the underlying writer has received, the temporary file, the
    sticky error, and how many files the writer holds open.
    [internal/helper/writeafterreader.go:66-74 coupledWriter] *)
Record coupledWriter := mk_cw {
  sink : bytes;
  tempfile : option file;
  writeError : option gerr;
  open_files : nat;
}.

(** [internal/helper/writeafterreader.go:20-23 NewWriteAfterReader] *)
Definition NewWriteAfterReader : busyReader * coupledWriter :=
  ({| error := None |},
   {| sink := []; tempfile := None; writeError := None; open_files := 0 |}).

(** [internal/helper/writeafterreader.go:133-144 newTempfile] *)
Definition newTempfile (a : answers) (w : coupledWriter) : result file * coupledWriter :=
  match a_create a with
  | Some e => (inr e, w)
  | None =>
      let w1 := {| sink := sink w; tempfile := tempfile w; writeError := writeError w;
                   open_files := S (open_files w) |} in
      match a_remove a with
      | Some e => (inr e, w)
      | None => (inl {| content := []; offset := 0 |}, w1)
      end
  end.

(** [internal/helper/writeafterreader.go:118-131 coupledWriter.tempfileWrite] *)
Definition tempfileWrite (a : answers) (d : bytes) (w : coupledWriter)
    : (Z * option gerr) * coupledWriter :=
  let append (h : file) (w : coupledWriter) :=
    (write_result (a_write a) d,
     {| sink := sink w; tempfile := Some (file_write h (accepted (a_write a) d));
        writeError := writeError w; open_files := open_files w |}) in
  match tempfile w with
  | Some h => append h w
  | None =>
      match newTempfile a w with
      | (inr e, w) => ((0%Z, Some e), w)
      | (inl h, w) => append h w
      end
  end.

(** The file is closed and forgotten on every path.
    [internal/helper/writeafterreader.go:97-116 coupledWriter.Flush] *)
Definition Flush (a : answers) (w : coupledWriter) : option gerr * coupledWriter :=
  match tempfile w with
  | None => (None, w)
  | Some h =>
      let close (s : bytes) :=
        {| sink := s; tempfile := None; writeError := writeError w;
           open_files := open_files w - 1 |} in
      match a_seek a with
      | Some e => (Some e, close (sink w))
      | None => (snd <$> a_copy a, close (sink w ++ accepted (a_copy a) (content h)))
      end
  end.

Definition fail_write (e : gerr) (w : coupledWriter) : coupledWriter :=
  {| sink := sink w; tempfile := tempfile w;
     writeError := Some (Wrapf "coupledWriter" e); open_files := open_files w |}.

(** [internal/helper/writeafterreader.go:76-95 coupledWriter.Write] *)
Definition Write (busy : bool) (a : answers) (d : bytes) (w : coupledWriter)
    : (Z * option gerr) * coupledWriter :=
  match writeError w with
  | Some e => ((0%Z, Some e), w)
  | None =>
      if busy then
        let '((n, err), w) := tempfileWrite a d w in
        match err with
        | Some e => ((n, writeError (fail_write e w)), fail_write e w)
        | None => ((n, None), w)
        end
      else
        let '(err, w) := Flush a w in
        match err with
        | Some e => ((0%Z, writeError (fail_write e w)), fail_write e w)
        | None =>
            (write_result (a_sink a) d,
             {| sink := sink w ++ accepted (a_sink a) d; tempfile := tempfile w;
                writeError := writeError w; open_files := open_files w |})
        end
  end.

(** ** Reading everything into a temporary file *)

(** [src]: the octets of the reader and how it ends.  The answer is the file or
    the error, and how many files are left open.
    [internal/helper/tempfile.go:9-35 ReadAllTempfile] *)
Definition ReadAllTempfile (a : answers) (src : bytes * gerr) : result file * nat :=
  match a_create a with
  | Some e => (inr e, 0)
  | None =>
      let opened := 1 in
      let cleanup (e : gerr) : result file * nat := (inr e, opened - 1) in
      match a_remove a with
      | Some e => cleanup e
      | None =>
          match a_write a with
          | Some (_, e) => cleanup e
          | None =>
              if decide (src.2 = EOF) then
                match a_seek a with
                | Some e => cleanup e
                | None =>
                    let h := file_write {| content := []; offset := 0 |} src.1 in
                    (inl {| content := content h; offset := 0 |}, opened)
                end
              else cleanup src.2
          end
      end
  end.

(** ** Executions *)

Inductive op :=
  | ORead (ans : bytes * option gerr)
  | OWrite (d : bytes) (a : answers)
  | OFlush (a : answers).

(** One operation, with the error it reports to its caller. *)
Definition perform (s : busyReader * coupledWriter) (o : op)
    : option gerr * (busyReader * coupledWriter) :=
  match o with
  | ORead ans => let '((_, e), r) := Read s.1 ans in (e, (r, s.2))
  | OWrite d a => let '((_, e), w) := Write (IsBusy s.1) a d s.2 in (e, (s.1, w))
  | OFlush a => let '(e, w) := Flush a s.2 in (e, (s.1, w))
  end.

Fixpoint perform_all (s : busyReader * coupledWriter) (os : list op)
    : list (option gerr) * (busyReader * coupledWriter) :=
  match os with
  | [] => ([], s)
  | o :: os =>
      let '(e, s) := perform s o in
      let '(es, s) := perform_all s os in (e :: es, s)
  end.

(** What the operations wrote, in order. *)
Definition written (os : list op) : bytes :=
  concat ((λ o, match o with OWrite d _ => d | _ => [] end) <$> os).

(** The errors of the writer's operations. *)
Definition writer_errors (os : list op) (es : list (option gerr)) : list gerr :=
  concat (zip_with (λ o e, match o, e with
                           | ORead _, _ | _, None => [] | _, Some e => [e] end) os es).

(** ** Invariants *)

Definition pending (w : coupledWriter) : bytes :=
  match tempfile w with Some h => content h | None => [] end.

(** The file is positioned at its end and is the only file held open. *)
Definition wf (w : coupledWriter) : Prop :=
  match tempfile w with
  | Some h => offset h = length (content h) ∧ open_files w = 1
  | None => open_files w = 0
  end.

Lemma file_write_end h d :
  offset h = length (content h) →
  file_write h d = {| content := content h ++ d; offset := length (content h ++ d) |}.
Proof.
  destruct h as [c n]. cbn. intros ->. unfold file_write. cbn.
  rewrite length_app. f_equal. rewrite firstn_all, drop_ge by lia.
  by rewrite app_nil_r.
Qed.

(** Every operation keeps the invariant; one that reports no error moves its data
    to the end of what is delivered or pending, and one that reports an error
    delivers nothing out of order. *)
Lemma tempfileWrite_ok a d w :
  wf w →
  let '((n, e), w') := tempfileWrite a d w in
  wf w' ∧ sink w' = sink w ∧ writeError w' = writeError w ∧
  (e = None → pending w' = pending w ++ d ∧ n = Z.of_nat (length d)).
Proof.
  destruct w as [s t we n]. unfold tempfileWrite, newTempfile, wf, pending. cbn.
  destruct t as [h|]; cbn.
  - intros [Hh ->]. rewrite file_write_end by done. cbn.
    repeat split; [by destruct (a_write a)|..]; intros; destruct (a_write a); done.
  - intros ->. destruct (a_create a); [done|]. destruct (a_remove a); [done|].
    rewrite file_write_end by done. cbn.
    repeat split; destruct (a_write a); done.
Qed.

Lemma Flush_ok a w :
  wf w →
  let '(e, w') := Flush a w in
  wf w' ∧ tempfile w' = None ∧ writeError w' = writeError w ∧
  (e = None → sink w' = sink w ++ pending w).
Proof.
  destruct w as [s [h|] we n]; unfold Flush, wf, pending; cbn.
  - intros [Hh ->]. destruct (a_seek a); [done|]. cbn.
    repeat split. by destruct (a_copy a).
  - intros ->. repeat split. by rewrite app_nil_r.
Qed.

Lemma Write_ok busy a d w :
  wf w →
  let '((n, e), w') := Write busy a d w in
  wf w' ∧ (busy = true → sink w' = sink w) ∧
  (e = None → sink w' ++ pending w' = sink w ++ pending w ++ d ∧
              n = Z.of_nat (length d)) ∧
  (e ≠ None → writeError w' ≠ None ∨ busy = false).
Proof.
  intros H. unfold Write. destruct (writeError w) eqn:Ew.
  { split_and!; [done..|]. rewrite Ew. by left. }
  destruct busy.
  - pose proof (tempfileWrite_ok a d w H) as Ht.
    destruct (tempfileWrite a d w) as [[n e] w']. destruct Ht as (Hw & Hs & He & Hp).
    destruct e as [e|]; split_and!; try done; [by left|].
    intros _. destruct Hp as [-> ->]; [done|]. by rewrite Hs.
  - pose proof (Flush_ok a w H) as Hf. destruct (Flush a w) as [e w'].
    destruct Hf as (Hw & Ht & He & Hp). destruct e as [e|]; split_and!;
      try done; try (by left); try (by right).
    unfold write_result, accepted. destruct (a_sink a) as [[k e']|]; [done|]. cbn.
    intros _. rewrite Hp by done. unfold pending. cbn. rewrite Ht.
    by rewrite app_nil_r, <- app_assoc.
Qed.

Lemma perform_all_cons s o os :
  perform_all s (o :: os) =
    let '(e, s) := perform s o in
    let '(es, s) := perform_all s os in (e :: es, s).
Proof. done. Qed.

(** An execution that reports no error of the writer neither loses, repeats nor
    reorders data. *)
Lemma perform_all_ok os r w :
  wf w →
  let '(es, s) := perform_all (r, w) os in
  wf s.2 ∧
  (writer_errors os es = [] →
   sink s.2 ++ pending s.2 = sink w ++ pending w ++ written os).
Proof.
  revert r w. induction os as [|o os IH]; intros r w H.
  { split; [done|]. cbn. by rewrite app_nil_r. }
  rewrite perform_all_cons. destruct o as [ans|d a|a]; cbn [perform].
  - cbn [fst snd]. destruct (Read r ans) as [[d e] r'].
    specialize (IH r' w H). destruct (perform_all (r', w) os) as [es s].
    unfold writer_errors, written. by cbn.
  - cbn [fst snd]. pose proof (Write_ok (IsBusy r) a d w H) as Hw.
    destruct (Write (IsBusy r) a d w) as [[n e] w']. destruct Hw as (Hw & _ & He & _).
    specialize (IH r w' Hw). destruct (perform_all (r, w') os) as [es s].
    destruct IH as [IH1 IH2]. split; [done|]. unfold writer_errors, written. cbn.
    destruct e as [e|]; [done|]. cbn. intros Hn. rewrite IH2 by done.
    destruct He as [He _]; [done|].
    rewrite (app_assoc (sink w')), He, <- !app_assoc. done.
  - cbn [fst snd]. pose proof (Flush_ok a w H) as Hw.
    destruct (Flush a w) as [e w']. destruct Hw as (Hw & Ht & _ & He).
    specialize (IH r w' Hw). destruct (perform_all (r, w') os) as [es s].
    destruct IH as [IH1 IH2]. split; [done|]. unfold writer_errors, written. cbn.
    destruct e as [e|]; [done|]. cbn. intros Hn. rewrite IH2 by done.
    rewrite He by done. replace (pending w') with (@nil octet) by (unfold pending; by rewrite Ht).
    by rewrite <- app_assoc.
Qed.

(** A last [Flush] leaves no temporary file. *)
Lemma perform_all_flushed os a s :
  tempfile (perform_all s (os ++ [OFlush a])).2.2 = None.
Proof.
  revert s. induction os as [|o os IH]; intros s.
  - cbn. destruct s as [r [sk [h|] we n]]; cbn; [|done]. unfold Flush. cbn.
    by destruct (a_seek a).
  - cbn [app]. rewrite perform_all_cons. destruct (perform s o) as [e s'].
    specialize (IH s'). by destruct (perform_all s' (os ++ [OFlush a])).
Qed.

(** While the reader has not ended, writing reaches only the temporary file. *)
Lemma perform_all_busy os r w :
  wf w → error r = None →
  Forall (λ o, match o with ORead (_, e) => e = None | OWrite _ _ => True
               | OFlush _ => False end) os →
  sink (perform_all (r, w) os).2.2 = sink w.
Proof.
  intros Hw Hr Hos. revert r w Hr Hw.
  induction Hos as [|o os Ho Hos IH]; intros r w Hr Hw; [done|].
  rewrite perform_all_cons. destruct o as [[d e]|d a|a]; cbn [perform fst snd]; [..|done].
  - subst. unfold Read. rewrite Hr. specialize (IH r w Hr Hw).
    by destruct (perform_all (r, w) os).
  - pose proof (Write_ok (IsBusy r) a d w Hw) as H1.
    destruct (Write (IsBusy r) a d w) as [[n e] w']. destruct H1 as (Hw' & Hb & _).
    specialize (IH r w' Hr Hw'). destruct (perform_all (r, w') os) as [es s].
    cbn in *. rewrite IH. apply Hb. unfold IsBusy. by rewrite Hr.
Qed.

(** ** Properties *)

(** C23: whatever the file system and the underlying writer answer, and however
    reads and writes interleave, when no [Write] and no [Flush] reported an error
    the underlying writer has received, after a last [Flush], exactly what was
    written, in the order it was written, and no temporary file is left open. *)
Theorem coupled_writer_delivers (os : list op) (a : answers)
    (H : writer_errors (os ++ [OFlush a])
           (perform_all NewWriteAfterReader (os ++ [OFlush a])).1 = []) :
  let w := (perform_all NewWriteAfterReader (os ++ [OFlush a])).2.2 in
  sink w = written os ∧ tempfile w = None ∧ open_files w = 0.
Proof.
  revert H. unfold NewWriteAfterReader.
  set (w0 := {| sink := [] |}). set (r0 := {| error := None |}).
  pose proof (perform_all_ok (os ++ [OFlush a]) r0 w0) as H.
  pose proof (perform_all_flushed os a (r0, w0)) as Hlast.
  destruct (perform_all (r0, w0) (os ++ [OFlush a])) as [es s].
  destruct H as [Hwf H]; [done|]. cbn [fst snd] in *. intros He. specialize (H He).
  unfold pending in H. rewrite Hlast in H. cbn in H. rewrite app_nil_r in H.
  unfold wf in Hwf. rewrite Hlast in Hwf. split; [|done]. rewrite H.
  unfold written. rewrite fmap_app, concat_app. cbn. by rewrite app_nil_r.
Qed.

Lemma coupled_writer_delivers_witness :
  let os := [OWrite (to_bytes "a") no_fault; ORead ([], Some EOF);
             OWrite (to_bytes "b") no_fault] in
  let w := (perform_all NewWriteAfterReader (os ++ [OFlush no_fault])).2.2 in
  sink w = to_bytes "ab" ∧ tempfile w = None ∧ open_files w = 0.
Proof. apply (coupled_writer_delivers
  [OWrite (to_bytes "a") no_fault; ORead ([], Some EOF); OWrite (to_bytes "b") no_fault]
  no_fault). reflexivity. Defined.

(** Until the reader has returned an error or [EOF], no operation but a
    [Flush] lets anything reach the underlying writer. *)
Theorem coupled_writer_waits (os : list op)
    (H : Forall (λ o, match o with ORead (_, e) => e = None | OWrite _ _ => True
                      | OFlush _ => False end) os) :
  sink (perform_all NewWriteAfterReader os).2.2 = [].
Proof. unfold NewWriteAfterReader. by rewrite perform_all_busy. Qed.

Lemma coupled_writer_waits_witness :
  sink (perform_all NewWriteAfterReader
    [OWrite (to_bytes "a") no_fault; ORead (to_bytes "x", None);
     OWrite (to_bytes "b") no_fault]).2.2 = [].
Proof. apply coupled_writer_waits. repeat constructor. Defined.

(** Reading everything into a temporary file gives the file with exactly the
    octets of the reader, positioned at its start, or an error with no file left
    open; it succeeds when no call fails and the reader ends with [EOF]. *)
Theorem ReadAllTempfile_spec (a : answers) (src : bytes * gerr) :
  match ReadAllTempfile a src with
  | (inl h, n) => h = {| content := src.1; offset := 0 |} ∧ n = 1 ∧ src.2 = EOF
  | (inr _, n) => n = 0
  end ∧
  (∀ d, (ReadAllTempfile no_fault (d, EOF)).1 = inl {| content := d; offset := 0 |}).
Proof.
  split.
  - unfold ReadAllTempfile. destruct (a_create a); [done|]. destruct (a_remove a); [done|].
    destruct (a_write a) as [[k e]|]; [done|]. case_decide; [|done].
    destruct (a_seek a); [done|]. rewrite file_write_end by done. done.
  - intros d. cbn. by rewrite file_write_end.
Qed.

(** After a failed [Flush] the next one reports success although data was lost. *)
Example flush_after_failed_flush :
  let bad := {| a_create := None; a_remove := None; a_write := None;
                a_seek := None; a_copy := Some (0, Errorf "broken"); a_sink := None |} in
  let '(es, s) := perform_all NewWriteAfterReader
    [OWrite (to_bytes "a") no_fault; OFlush bad; OFlush no_fault] in
  es = [None; Some (Errorf "broken"); None] ∧ sink s.2 = [].
Proof. vm_compute. done. Qed.
End WriteAfterReader.
