(* ===== verification/Hijack.v ===== *)
(** * Middlewares that may take over a response

    The shape the writers of api.Block, SendData, SendFile and ErrorPages share:
    the first [WriteHeader] decides whether the handler's response is passed on or
    replaced, [Write] sends a 200 first when no header was written and discards
    the data of a response that was replaced, and a deferred [Flush] sends the
    header of a handler that wrote nothing.  The lemmas below are proved once,
    from what a component shows of its [WriteHeader]. *)

From S2P Require Import Prelude Http.
From stdpp Require Import options.

Section hijack.
Context {W : Type} (status : W → Z) (hijacked : W → bool) (wh : Z → method W unit).

(** The [Write] method of the shape. *)
Definition lazy_write (d : bytes) : method W (Z * option gerr) := (
  w <- mget;;
  (if (status w =? 0)%Z then wh 200 else mret tt);;
  w <- mget;;
  if hijacked w then mret (0%Z, None) else mlift (write d))%method.

Definition lazy_wrapper : Wrapper W :=
  {| wr_Write := lazy_write; wr_WriteHeader := wh |}.

(** ** Invariants *)

Section maintains.
Context (ans : ∀ X : Type, ext X → X → Prop) (I : W → resp → Prop).

(** The first [WriteHeader] establishes the invariant of a started response. *)
Class Starts : Prop := {
  st_put : ∀ k vs w r, I w r → I w (resp_put k vs r);
  st_again : ∀ s w, status w ≠ 0%Z → wh s w = mret tt w;
  st_first : ∀ s w r, s ≠ 0%Z → status w = 0%Z → I w r →
    wp ans (wh s w) (λ o r', match o with
      | Value (_, w') => I w' r' ∧ status w' ≠ 0%Z | Panic _ => False end) r;
  st_write : ∀ d w r, status w ≠ 0%Z → hijacked w = false → I w r →
    I w (resp_write d r).2;
}.

Lemma wp_started s w r (Q : outcome (outcome unit * W) → resp → Prop) :
  Starts → s ≠ 0%Z → I w r →
  (∀ o w' r', I w' r' → status w' ≠ 0%Z → Q (Value (o, w')) r') →
  wp ans (wh s w) Q r.
Proof.
  intros Hst Hs HI HQ. destruct (decide (status w = 0%Z)) as [E|E].
  - eapply wp_mono; [by apply st_first|].
    intros [[o w']|] r' H; [|done]. destruct H. by apply HQ.
  - rewrite st_again by done. by apply HQ.
Qed.

#[global] Instance lazy_maintains : Starts → Maintains ans lazy_wrapper I.
Proof.
  intros Hst. split.
  - apply st_put.
  - intros s Hs w r H. cbn. by apply wp_started.
  - intros d w r H. cbn [lazy_wrapper wr_Write]. unfold lazy_write. wp_steps.
    assert (∀ w r, I w r → status w ≠ 0%Z →
      wp ans ((if hijacked w then mret (0%Z, None) else mlift (write d)) w)
        (λ o r', match o with Value (_, w') => I w' r' | Panic _ => False end) r) as Hgo.
    { clear w r H. intros w r H Hs. destruct (hijacked w) eqn:E; wp_steps; [done|].
      by apply st_write. }
    destruct (Z.eqb_spec (status w) 0) as [E|E]; [|wp_steps; by apply Hgo].
    eapply wp_mono; [by apply st_first|]. intros [[[[]|m] w']|m] r' H'; [|by destruct H'|done].
    wp_steps. destruct H'. by apply Hgo.
Qed.

(** A handler behind the wrapper, completed by the deferred [Flush]. *)
Lemma lazy_serve {A} w r (p : prog A) :
  Starts → codes_ok p → I w r →
  wp ans (serve_state lazy_wrapper w (wh 200) p)
    (λ o r', match o with
             | Value (_, _, w') => I w' r' ∧ status w' ≠ 0%Z
             | Panic _ => False end) r.
Proof.
  intros Hst Hp HI. apply (serve_state_maintains ans lazy_wrapper I); [apply _|done..|].
  intros w' r' H. by apply wp_started.
Qed.

Lemma lazy_serve_under {A} w r (p : prog A) :
  Starts → codes_ok p → I w r →
  wp ans (serve_under lazy_wrapper w (wh 200) p)
    (λ _ r', ∃ w', I w' r' ∧ status w' ≠ 0%Z) r.
Proof.
  intros Hst Hp HI. apply (serve_maintains ans lazy_wrapper I w (wh 200) p
    (λ w' r', I w' r' ∧ status w' ≠ 0%Z)); [apply _|done..|].
  intros w' r' H. by apply wp_started.
Qed.
End maintains.

(** ** Transparency *)

Section transparent.
Context {V : Type} (E : env V).

Definition taken (w : W) : bool := hijacked w && negb (status w =? 0)%Z.

(** The status recorded is the one sent. *)
Definition in_step (w : W) (r : resp) : Prop :=
  status w = default 0%Z (r_status r) ∧ r_status r ≠ Some 0%Z ∧
  (hijacked w = true → taken w = true).

(** The first [WriteHeader] takes over or passes the header on. *)
Class Decides : Prop := {
  dc_again : ∀ s w, status w ≠ 0%Z → wh s w = mret tt w;
  dc_first : ∀ s w r e, s ≠ 0%Z → status w = 0%Z → r_status r = None → hijacked w = false →
    ∃ o w' r' e', run E (wh s w) r e = (Value (o, w'), r', e') ∧
      (taken w' = true ∨
       hijacked w' = false ∧ status w' = s ∧ o = Value tt ∧ e' = e ∧
       r' ≡ resp_header s r);
}.

Lemma in_step_header s w' r r' :
  r_status r = None → s ≠ 0%Z → hijacked w' = false → status w' = s →
  r' ≡ resp_header s r → in_step w' r' ∧ taken w' = false.
Proof.
  intros Hn Hs Hh Hst (_ & Hr & _). unfold in_step, taken. rewrite Hh, Hr, Hst.
  unfold resp_header. rewrite Hn. cbn. by split_and!; try congruence.
Qed.

Lemma run_decided s w r e :
  Decides → s ≠ 0%Z → in_step w r → taken w = false →
  ∃ o w' r' e', run E (wh s w) r e = (Value (o, w'), r', e') ∧
    (taken w' = true ∨
     taken w' = false ∧ o = Value tt ∧ e' = e ∧ in_step w' r' ∧ r' ≡ resp_header s r).
Proof.
  intros Hd Hs (Hst & Hnz & Hh) Ht.
  assert (hijacked w = false) as Hf by (destruct (hijacked w); naive_solver).
  destruct (r_status r) as [z|] eqn:Ez; cbn in Hst.
  - rewrite dc_again by congruence. eexists _, _, _, _. split; [done|]. right.
    unfold resp_header, in_step. rewrite Ez. by split_and!.
  - destruct (dc_first s w r e Hs Hst Ez Hf) as (o & w' & r' & e' & H & Hov).
    exists o, w', r', e'. split; [done|].
    destruct Hov as [?|(Hh' & Hs' & -> & -> & Hr)]; [by left|right].
    destruct (in_step_header s w' r r' Ez Hs Hh' Hs' Hr). by split_and!.
Qed.

Lemma in_step_started w r :
  in_step w r → (status w = 0%Z ↔ r_status r = None).
Proof.
  intros (H & Hnz & _). rewrite H. destruct (r_status r); cbn; split; congruence.
Qed.

(** Writing on a started response that was not taken over. *)
Lemma run_passed d w r r0 (e : V) :
  in_step w r → status w ≠ 0%Z → taken w = false → r ≡ r0 →
  ∃ o w' r', run E ((if hijacked w then mret (0%Z, None) else mlift (write d)) w) r e
      = (Value (o, w'), r', e) ∧
    taken w' = false ∧ o = Value (resp_write d r0).1 ∧ in_step w' r' ∧
    r' ≡ (resp_write d r0).2.
Proof.
  intros Hin Hs Ht Hr. pose proof Hin as (Hst & Hnz & Hh).
  assert (hijacked w = false) as -> by (destruct (hijacked w); naive_solver).
  run_steps. destruct (resp_write_proper d r r0 Hr) as [Hx Hr'].
  pose proof (resp_write_status d r) as Hws.
  destruct (resp_write d r) as [x r'] eqn:Ew. cbn in *.
  exists (Value x), w, r'. split; [done|]. split_and!; [done|by rewrite Hx| |done].
  unfold in_step. rewrite Hws. destruct (r_status r); cbn in *; [|done].
  by split_and!.
Qed.

#[global] Instance lazy_transparent : Decides → Transparent E lazy_wrapper in_step taken.
Proof.
  intros Hd. split.
  - done.
  - intros s w r e Hs Hok Ht. by apply run_decided.
  - intros d w r e Hok Ht. cbn [lazy_wrapper wr_Write]. unfold lazy_write. run_steps.
    destruct (Z.eqb_spec (status w) 0) as [E0|E0].
    + destruct (run_decided 200 w r e Hd ltac:(done) Hok Ht)
        as (o & w' & r' & e' & -> & Hov). run_steps.
      destruct Hov as [Ht'|(Ht' & -> & -> & Hok' & Hr)].
      { destruct o as [[]|m]; [|repeat eexists; by left].
        assert (hijacked w' = true) as -> by (by apply andb_true_iff in Ht' as [? _]).
        run_steps. repeat eexists. by left. }
      rewrite (resp_write_fresh d r) by (by apply (in_step_started w r)).
      assert (status w' ≠ 0%Z) as Hn.
      { rewrite (in_step_started w' r') by done. destruct Hr as (_ & -> & _).
        unfold resp_header. by destruct (r_status r). }
      destruct (run_passed d w' r' _ e Hok' Hn Ht' Hr)
        as (o & w2 & r2 & -> & ? & -> & ? & ?).
      repeat eexists. right. by split_and!.
    + run_steps. destruct (run_passed d w r r e Hok E0 Ht ltac:(done))
        as (o & w2 & r2 & -> & ? & -> & ? & ?).
      repeat eexists. right. by split_and!.
  - intros s w r e Ht. pose proof Ht as [Hh Hs]%andb_true_iff. cbn.
    rewrite dc_again by (by apply negb_true_iff, Z.eqb_neq in Hs).
    repeat eexists. by apply andb_true_iff.
  - intros d w r e Ht. cbn [lazy_wrapper wr_Write]. unfold lazy_write. run_steps.
    pose proof Ht as [Hh Hs]%andb_true_iff.
    destruct (status w =? 0)%Z; [done|]. run_steps. rewrite Hh. by repeat eexists.
Qed.

(** A whole exchange behind the wrapper. *)
Lemma lazy_exchange {A} (p : prog A) w h e :
  Decides → codes_ok p → status w = 0%Z → hijacked w = false → ∃ o o' w' r' e',
    run E (serve_state lazy_wrapper w (wh 200) p) (new_resp h) e
      = (Value (o, o', w'), r', e') ∧
    (taken w' = true ∨
     taken w' = false ∧ o' = Value tt ∧
     ∃ r0, run E p (new_resp h) e = (o, r0, e') ∧ r' ≡ resp_header 200 r0).
Proof.
  intros Hd Hp Hs Hh. apply (serve_transparent E lazy_wrapper in_step taken); try done.
  - apply _.
  - unfold in_step, taken. by rewrite Hs, Hh.
  - unfold taken. by rewrite Hh.
Qed.

(** Once the response is taken over, the rest of the handler changes nothing of
    what the client gets. *)
Lemma run_taken {A} (p : prog A) w r e :
  (∀ s w, status w ≠ 0%Z → wh s w = mret tt w) → taken w = true →
  ∃ o h e', run E (under lazy_wrapper p w) r e = (Value (o, w), resp_with_hdr h r, e').
Proof.
  intros Hd Ht. pose proof Ht as [Hh Hs]%andb_true_iff.
  apply negb_true_iff, Z.eqb_neq in Hs.
  assert (∀ r, r = resp_with_hdr (r_hdr r) r) as Hid by (by intros []).
  revert r e. induction p as [a|m|k f IH|k vs f IH|s f IH|d f IH|X x f IH];
    intros r e; cbn [under run].
  - eexists _, (r_hdr r), _. by rewrite <- Hid.
  - eexists _, (r_hdr r), _. by rewrite <- Hid.
  - apply IH.
  - destruct (IH (resp_put k vs r) e) as (o & h & e' & ->). by eexists _, h, _.
  - rewrite run_mbind. cbn [lazy_wrapper wr_WriteHeader]. rewrite Hd by done. apply IH.
  - rewrite run_mbind. cbn [lazy_wrapper wr_Write]. unfold lazy_write. run_steps.
    rewrite (proj2 (Z.eqb_neq _ _) Hs). run_steps. rewrite Hh. run_steps. apply IH.
  - destruct (E X x e) as [v e']. apply IH.
Qed.
End transparent.
End hijack.
