(* ===== verification/Block.v ===== *)
(** * Internal API responses stay internal (internal/api/block.go)

    The writer put in front of the upstream: a response with the content type of
    the internal API is replaced by an error before anything of it is sent. *)

From S2P Require Import Prelude GoString Http GoNet Helper Hijack.
From stdpp Require Import options.

Module Block.

(** [internal/api/api.go:23-23 ResponseContentType] *)
Definition ResponseContentType : string := "application/vnd.gitlab-workhorse+json".

(** The request is kept for the error report.
    [internal/api/block.go:20-25 blocker] *)
Record blocker := { hijacked : bool; status : Z }.

Definition forbidden : gerr := Wrapf "api.blocker: forbidden content-type: %q"
  (Errorf ResponseContentType).

Section request.
Context (r : Request).

(** [internal/api/block.go:42-57 blocker.WriteHeader] *)
Definition WriteHeader (s : Z) : method blocker unit := (
  b <- mget;;
  if negb (status b =? 0)%Z then mret tt
  else
    ct <- mlift (header_get "Content-Type");;
    if Helper.IsContentType ResponseContentType ct then
      mlift (header_del "Content-Length");;
      mput {| hijacked := true; status := 500 |};;
      mlift (Helper.Fail500 r (Some forbidden))
    else
      mput {| hijacked := hijacked b; status := s |};;
      mlift (write_header s))%method.

(** [internal/api/block.go:31-40 blocker.Write] *)
Definition Write (d : bytes) : method blocker (Z * option gerr) := (
  b <- mget;;
  (if (status b =? 0)%Z then WriteHeader 200 else mret tt);;
  b <- mget;;
  if hijacked b then mret (0%Z, None) else mlift (write d))%method.

Definition wrapper : Wrapper blocker :=
  {| wr_Write := Write; wr_WriteHeader := WriteHeader |}.

(** [internal/api/block.go:59-61 blocker.Flush] *)
Definition Flush : method blocker unit := WriteHeader 200.

(** [internal/api/block.go:12-18 Block] *)
Definition Block (h : Handler) : prog unit :=
  serve_under wrapper {| hijacked := false; status := 0 |} Flush (h r).
End request.

(** ** Facts *)

Definition internal (h : header) : bool :=
  Helper.IsContentType ResponseContentType (Header.Get h "Content-Type").

Definition error_page : bytes := to_bytes "Internal server error" ++ [newline].

(** What holds between any two calls of the handler. *)
Definition inv (b : blocker) (w : resp) : Prop :=
  once (λ b, negb (status b =? 0)%Z) 0 b w ∧
  (status b ≠ 0%Z → is_Some (r_status w)) ∧
  (is_Some (r_status w) → internal (r_sent w) = false) ∧
  (r_status w = None → r_body w = []) ∧ r_room w = None ∧
  (hijacked b = true → r_status w = Some 500%Z ∧ r_body w = error_page).

(** [Fail500] on a response that was not started. *)
Lemma wp_Fail500 ans r e Q w :
  r_status w = None → r_room w = None →
  (∀ w', r_status w' = Some 500%Z → internal (r_sent w') = false →
         r_superfluous w' = r_superfluous w → r_room w' = None →
         r_body w' = r_body w ++ error_page → Q (Value tt) w') →
  wp ans (Helper.Fail500 r (Some e)) Q w.
Proof.
  intros Hs Hr HQ. unfold Helper.Fail500. cbn. unfold resp_header. cbn. rewrite Hs, Hr.
  intros [] _ [] _. apply HQ; cbn; try done.
  unfold internal, Header.Get, Header.Values.
  change (Header.canonical_key "Content-Type") with "Content-Type".
  rewrite lookup_partial_alter_ne by done. by rewrite lookup_partial_alter_eq.
Qed.

#[global] Instance starts ans r : Starts status hijacked (WriteHeader r) ans inv.
Proof.
  split.
  - done.
  - intros s b Hs. unfold WriteHeader. cbn. by destruct (Z.eqb_spec (status b) 0).
  - intros s [hj st] w Hs Hst ([Hc Hn] & Hl & Hi & Hb & Hr & Hh). cbn in Hst. subst st.
    assert (r_status w = None) as Hnone.
    { destruct (r_status w) eqn:E; [|done]. by specialize (Hc ltac:(eauto)). }
    unfold WriteHeader. wp_steps. simpl (negb _). wp_steps.
    fold (Header.Values (r_hdr w) "Content-Type").
    fold (Header.Get (r_hdr w) "Content-Type"). fold (internal (r_hdr w)).
    destruct (internal (r_hdr w)) eqn:Ei; wp_steps.
    + apply wp_Fail500; [done..|]. intros w' H1 H2 H3 H4 H5. cbn in H3.
      cbn [resp_put r_body] in H5. rewrite Hb in H5 by done.
      unfold inv, once. rewrite H1, H2, H3, H4, H5. split_and!; by eauto.
    + unfold inv, once, resp_header. cbn. rewrite Hnone. cbn.
      destruct (Z.eqb_spec s 0); [done|]. split_and!; try done; try (by eauto).
      cbn in Hh. intros ->. destruct Hh; congruence.
  - intros d b w Hs Hf ([Hc Hn] & Hl & Hi & Hb & Hr & Hh). destruct (Hl Hs) as [s Ez].
    destruct (resp_write_started d w s Ez) as (_ & H1 & H2 & H3 & H4).
    unfold inv, once. rewrite H1, H2, H3, H4, Hf by done.
    split_and!; try done; by eauto.
Qed.

#[global] Instance decides {V} (E : env V) r : Decides status hijacked (WriteHeader r) E.
Proof.
  split.
  - intros s b Hs. unfold WriteHeader. cbn. by destruct (Z.eqb_spec (status b) 0).
  - intros s [hj st] w e Hs Hst Hnone Hh. cbn in Hst, Hh. subst. unfold WriteHeader.
    run_steps. simpl (negb _). run_steps. destruct (Helper.IsContentType _ _); run_steps.
    + unfold Helper.Fail500. cbn. destruct (resp_write _ _) as [y w']. cbn.
      destruct (E _ _ e) as [[] e1]. destruct (E _ _ e1) as [[] e2].
      eexists _, _, _, _. split; [done|]. by left.
    + eexists _, _, _, _. split; [done|]. right. by split_and!.
Qed.

Lemma inv_new h : inv {| hijacked := false; status := 0 |} (new_resp h).
Proof. unfold inv, once. cbn. split_and!; try done; by intros []. Qed.

(** ** Properties *)


(** Either the client gets a 500 whose body is the error page, with nothing of
    what the handler wrote, or it gets exactly the response of the handler. *)
Theorem Block_or_handler {V} (E : env V) (r : Request) (h : Handler) (hdr : header) (e : V)
    (Hcodes : codes_ok (h r)) :
  let '(o, w, e') := run E (Block r h) (new_resp hdr) e in
  (r_status w = Some 500%Z ∧ r_body w = error_page) ∨
  ∃ w0, run E (h r) (new_resp hdr) e = (o, w0, e') ∧ w ≡ resp_header 200 w0.
Proof.
  pose proof (wp_run any_answer E _ _ _ e ltac:(done)
    (lazy_serve status hijacked (WriteHeader r) any_answer inv _ _ (h r)
       (starts _ r) Hcodes (inv_new hdr))) as Hi.
  destruct (lazy_exchange status hijacked (WriteHeader r) E (h r)
    {| hijacked := false; status := 0 |} hdr e (decides E r) Hcodes)
    as (o & o' & b & w & e' & H & Hov); [done..|].
  change (lazy_wrapper status hijacked (WriteHeader r)) with (wrapper r) in *.
  unfold Block, serve_under. rewrite run_bind. unfold Flush. rewrite H in *.
  destruct Hov as [[Ht _]%andb_true_iff|(_ & -> & w0 & H0 & Hw)].
  - destruct Hi as [(_ & _ & _ & _ & _ & Hh) _]. destruct o', o; left; auto.
  - destruct o; right; by exists w0.
Qed.

(** ** Examples *)

Definition request : Request :=
  {| Method := "GET"; URL := {| Scheme := "http"; UHost := "h"; Path_ := "/"; RawQuery := "" |};
     ProtoMajor := 1; ProtoMinor := 1; Header_ := ∅; Body := None; ContentLength := 0;
     Host := "h"; RequestURI := "/"; RemoteAddr := "127.0.0.1:1" |}.
Definition leaky : Handler := λ _,
  header_set "Content-Type" "application/vnd.gitlab-workhorse+json; charset=utf-8";;
  _ <- write (to_bytes "secret");; Ret tt.


Lemma Block_or_handler_witness :
  let '(o, w, e') := run HelperProps.quiet_env (Block request leaky) (new_resp ∅) tt in
  (r_status w = Some 500%Z ∧ r_body w = error_page) ∨
  ∃ w0, run HelperProps.quiet_env (leaky request) (new_resp ∅) tt = (o, w0, e') ∧
        w ≡ resp_header 200 w0.
Proof. apply (Block_or_handler HelperProps.quiet_env request leaky ∅ tt). cbn. done. Defined.

Example Block_leaky :
  let '(_, w, _) := run HelperProps.quiet_env (Block request leaky) (new_resp ∅) tt in
  r_status w = Some 500%Z ∧ r_body w = error_page.
Proof. vm_compute. done. Qed.
End Block.
