(* ===== verification/SendData.v ===== *)
(** * Send-data responses (internal/senddata)

    The upstream can ask, in a response header, for a response that an injecter
    produces: the writer recognises the header, removes it and hands the response
    to the first injecter whose prefix matches.  The injecters are parameters;
    [json.Unmarshal] is one too, since the type it fills is the injecter's. *)

From S2P Require Import Prelude GoString Http GoNet Helper Hijack Block GoBase64.
From stdpp Require Import options.

Module SendData.

(** [internal/senddata/injecter.go:18-18 HeaderKey] *)
Definition HeaderKey : string := "Gitlab-Workhorse-Send-Data".

(** [internal/senddata/injecter.go:16-16 Prefix] *)
Definition Prefix : Type := string.

(** [internal/senddata/injecter.go:20-22 Prefix.Match] *)
Definition Match (p : Prefix) (s : string) : bool := has_prefix s p.

(** [internal/senddata/injecter.go:24-33 Prefix.Unpack] *)
Definition Unpack {T} (json_Unmarshal : bytes → result T) (p : Prefix) (sendData : string)
    : result T :=
  let '(jsonBytes, ok) := URLDecode (to_bytes (trim_prefix sendData p)) in
  if ok then json_Unmarshal jsonBytes else inr (Errorf "illegal base64 data").

(** [internal/senddata/injecter.go:35-37 Prefix.Name] *)
Definition Name (p : Prefix) : string := trim_suffix p ":".

(** [internal/senddata/injecter.go:10-14 Injecter] *)
Record Injecter := {
  inj_Match : string → bool;
  inj_Inject : Request → string → prog unit;
  inj_Name : string;
}.

(** [internal/senddata/senddata.go:33-39 sendDataResponseWriter] *)
Record sendDataResponseWriter := { status : Z; hijacked : bool }.

Section writer.
Context (req : Request) (injecters : list Injecter).

(** The response of one injecter, through the counting writer, with its metrics. *)
Definition inject (i : Injecter) (header : string) : prog unit :=
  Helper.DisableResponseBuffering;;
  '(o, crw) <- under Counting.wrapper (inj_Inject i req header)
                 Counting.NewCountingResponseWriter;;
  reraise o;;
  call (Metric "gitlab_workhorse_senddata_responses" [inj_Name i] 1);;
  call (Metric "gitlab_workhorse_senddata_response_bytes" [inj_Name i]
          (Counting.Count crw)).

(** [internal/senddata/senddata.go:81-101 sendDataResponseWriter.tryInject] *)
Definition tryInject : method sendDataResponseWriter bool := (
  header <- mlift (header_get HeaderKey);;
  mlift (header_del HeaderKey);;
  if String.eqb header "" then mret false
  else
    match find (λ i, inj_Match i header) injecters with
    | Some i =>
        s <- mget;;
        mput {| status := status s; hijacked := true |};;
        mlift (inject i header);;
        mret true
    | None => mret false
    end)%method.

(** [internal/senddata/senddata.go:67-79 sendDataResponseWriter.WriteHeader] *)
Definition WriteHeader (st : Z) : method sendDataResponseWriter unit := (
  s <- mget;;
  if negb (status s =? 0)%Z then mret tt
  else
    mput {| status := st; hijacked := hijacked s |};;
    injected <- (if (st =? 200)%Z then tryInject else mret false);;
    if injected then mret tt
    else
      mlift (header_del HeaderKey);;
      mlift (write_header st))%method.

(** [internal/senddata/senddata.go:57-65 sendDataResponseWriter.Write] *)
Definition Write (d : bytes) : method sendDataResponseWriter (Z * option gerr) := (
  s <- mget;;
  (if (status s =? 0)%Z then WriteHeader 200 else mret tt);;
  s <- mget;;
  if hijacked s then mret (0%Z, None) else mlift (write d))%method.

Definition wrapper : Wrapper sendDataResponseWriter :=
  {| wr_Write := Write; wr_WriteHeader := WriteHeader |}.

(** [internal/senddata/senddata.go:103-105 sendDataResponseWriter.Flush] *)
Definition Flush : method sendDataResponseWriter unit := WriteHeader 200.

(** [internal/senddata/senddata.go:41-51 SendData] *)
Definition SendData (h : Handler) : prog unit :=
  serve_under wrapper {| status := 0; hijacked := false |} Flush (h req).
End writer.

(** ** Facts *)

(** No call of [p] puts a value under the header [k]. *)
Fixpoint never_puts {A} (k : string) (p : prog A) : Prop :=
  match p with
  | Ret _ | Raise _ => True
  | HGet _ c => ∀ vs, never_puts k (c vs)
  | HPut k' vs c => (k' = k → vs = None) ∧ never_puts k c
  | WHeader _ c => never_puts k c
  | WBody _ c => ∀ x, never_puts k (c x)
  | Call _ c => ∀ x, never_puts k (c x)
  end.

(** The header is neither in the live map nor among those sent. *)
Definition unsent (w : resp) : Prop :=
  r_hdr w !! HeaderKey = None ∧ (is_Some (r_status w) → r_sent w !! HeaderKey = None).

Lemma unsent_header s w : unsent w → unsent (resp_header s w).
Proof. intros [H1 H2]. unfold unsent, resp_header. destruct (r_status w) eqn:E; cbn.
  - split; [done|]. intros _. apply H2. eauto.
  - split; auto. Qed.

Lemma unsent_write d w : unsent w → unsent (resp_write d w).2.
Proof.
  intros H. destruct (r_status w) eqn:E.
  - destruct (resp_write_started d w _ E) as (H1 & H2 & H3 & _). destruct H as [Ha Hb].
    unfold unsent. rewrite H1, H2, H3. split; [done|]. intros _. apply Hb. eauto.
  - rewrite resp_write_fresh by done. apply (unsent_header 200) in H. revert H.
    assert (r_status (resp_header 200 w) = Some 200%Z) as E'
      by (unfold resp_header; by rewrite E).
    generalize dependent (resp_header 200 w). intros w' E' [Ha Hb].
    destruct (resp_write_started d w' _ E') as (H1 & H2 & H3 & _).
    unfold unsent. rewrite H1, H2, H3. split; [done|]. intros _. apply Hb. eauto.
Qed.

Lemma superfluous_header s w : r_status w = None → r_superfluous (resp_header s w) = r_superfluous w.
Proof. intros E. unfold resp_header. by rewrite E. Qed.

Lemma superfluous_write d w : r_superfluous (resp_write d w).2 = r_superfluous w.
Proof.
  destruct (r_status w) eqn:E.
  - by destruct (resp_write_started d w _ E) as (_ & _ & _ & H & _).
  - rewrite resp_write_fresh by done. rewrite <- (superfluous_header 200 w E).
    by destruct (resp_write_started d (resp_header 200 w) 200) as (_ & _ & _ & H & _);
      [unfold resp_header; rewrite E|].
Qed.

(** What an injecter's counting writer keeps: the header is not sent, and the
    headers are sent once. *)
Definition crw_inv (n : nat) (c : Counting.countingResponseWriter) (w : resp) : Prop :=
  unsent w ∧ once (λ c, negb (Counting.status c =? 0)%Z) n c w.

Lemma crw_header n s c w :
  s ≠ 0%Z → crw_inv n c w → Counting.status c = 0%Z →
  crw_inv n {| Counting.status := s; Counting.count := Counting.count c |} (resp_header s w).
Proof.
  intros Hs [H [Hc Hn]] E. cbn in Hc. rewrite E in Hc.
  assert (r_status w = None) as Ez.
  { destruct (r_status w) eqn:Ez; [|done]. by specialize (Hc ltac:(eauto)). }
  split; [by apply unsent_header|]. split; cbn.
  - intros _. by destruct (Z.eqb_spec s 0).
  - by rewrite superfluous_header.
Qed.

Lemma crw_write n d c w k :
  Counting.status c ≠ 0%Z → crw_inv n c w →
  crw_inv n {| Counting.status := Counting.status c; Counting.count := k |} (resp_write d w).2.
Proof.
  intros Hs [H [Hc Hn]]. split; [by apply unsent_write|]. split; cbn.
  - intros _. by destruct (Z.eqb_spec (Counting.status c) 0).
  - by rewrite superfluous_write.
Qed.

(** An injecter that does not put the header does not send it either. *)
Lemma wp_never_puts {A} ans (p : prog A) n c w :
  never_puts HeaderKey p → codes_ok p → crw_inv n c w →
  wp ans (under Counting.wrapper p c)
    (λ o w', match o with Value (_, c') => crw_inv n c' w' | Panic _ => False end) w.
Proof.
  revert c w. induction p as [a|m|k f IH|k vs f IH|s f IH|d f IH|X x f IH];
    intros c w Hp Hs H; cbn [never_puts codes_ok] in Hp, Hs; cbn [under wp].
  - done.
  - done.
  - by apply IH.
  - apply IH; [apply Hp|done|]. destruct H as [[H1 H2] H3]. split; [|done]. split; [|done].
    cbn. destruct (decide (k = HeaderKey)) as [->|Hk].
    + rewrite lookup_partial_alter_eq. by apply Hp.
    + by rewrite lookup_partial_alter_ne.
  - apply wp_mbind. cbn [Counting.wrapper wr_WriteHeader]. unfold Counting.WriteHeader.
    wp_steps. destruct (Z.eqb_spec (Counting.status c) 0); cbn [negb]; wp_steps;
      (apply IH; [done|apply Hs|]); [|done]. destruct Hs. by apply crw_header.
  - apply wp_mbind. cbn [Counting.wrapper wr_Write]. unfold Counting.Write. wp_steps.
    unfold Counting.WriteHeader.
    destruct (Z.eqb_spec (Counting.status c) 0) as [E|E]; wp_steps.
    + rewrite E. cbn [Z.eqb negb]. wp_steps. apply IH; [done|apply Hs|].
      apply (crw_write n d {| Counting.status := 200 |}); [done|]. by apply crw_header.
    + apply IH; [done|apply Hs|]. by apply crw_write.
  - intros v _. by apply IH.
Qed.

Section injecters.
Context (req : Request) (injecters : list Injecter).
Context (Hputs : ∀ i v, i ∈ injecters → never_puts HeaderKey (inj_Inject i req v)).
Context (Hcodes : ∀ i v, i ∈ injecters → codes_ok (inj_Inject i req v)).

Definition inv (s : sendDataResponseWriter) (w : resp) : Prop :=
  once (λ s, negb (status s =? 0)%Z) 0 s w ∧
  (status s ≠ 0%Z → hijacked s = false → is_Some (r_status w)) ∧
  (is_Some (r_status w) → r_sent w !! HeaderKey = None).

Lemma wp_inject ans i v s w :
  i ∈ injecters → r_status w = None → r_superfluous w = 0 → status s = 200%Z →
  hijacked s = true → unsent w →
  wp ans (inject req i v) (λ _ w', inv s w') w.
Proof using Hputs Hcodes.
  intros Hi Hn Hsup Hst Hh H. unfold inject. apply wp_bind. cbn [wp Helper.DisableResponseBuffering header_set].
  apply wp_bind. eapply wp_mono.
  { apply (wp_never_puts ans _ 0); [by apply Hputs|by apply Hcodes|].
    split; [|split; cbn; [rewrite Hn; by intros []|done]].
    destruct H as [H1 H2]. split; [|done]. cbn. by rewrite lookup_partial_alter_ne. }
  assert (∀ c w', crw_inv 0 c w' → inv s w') as Hinv.
  { intros c w' [[_ H2] [_ H3]]. unfold inv, once. rewrite Hst, Hh. by split_and!. }
  intros [[o c]|e] w' Hw; [|done]. apply wp_bind.
  destruct o; cbn; [|by eapply Hinv]. intros [] _ [] _. by eapply Hinv.
Qed.

#[global] Instance starts ans : Starts status hijacked (WriteHeader req injecters) ans inv.
Proof using Hputs Hcodes.
  split.
  - done.
  - intros st s Hs. unfold WriteHeader. cbn. by destruct (Z.eqb_spec (status s) 0).
  - intros st [s0 hj] w Hs Hs0 ([Hc Hn] & Hl & Hi). cbn in Hs0. subst s0.
    assert (r_status w = None) as Hnone.
    { destruct (r_status w) eqn:E; [|done]. by specialize (Hc ltac:(eauto)). }
    assert (∀ hj, inv {| status := st; hijacked := hj |}
      (resp_header st (resp_put HeaderKey None w))) as Hplain.
    { intros hj'. unfold inv, once, resp_header. cbn. rewrite Hnone. cbn.
      rewrite lookup_partial_alter_eq. destruct (Z.eqb_spec st 0); [done|].
      split_and!; try done; by eauto. }
    unfold WriteHeader. wp_steps. simpl (negb _). wp_steps.
    destruct (Z.eqb_spec st 200) as [->|Hne]; [|wp_steps; by split].
    unfold tryInject. wp_steps.
    change (Header.canonical_key HeaderKey) with HeaderKey.
    destruct (String.eqb _ ""); wp_steps; [rewrite resp_put_put; by split|].
    destruct (find _ injecters) as [i|] eqn:Ef; wp_steps; [|rewrite resp_put_put; by split].
    eapply wp_mono.
    + apply (wp_inject ans i _ {| status := 200; hijacked := true |}); try done.
      * apply find_some in Ef as [Hin _]. by apply list_elem_of_In.
      * split; cbn; [by rewrite lookup_partial_alter_eq|]. rewrite Hnone. by intros [].
    + intros [[]|e] w' Hw; wp_steps; by split.
  - intros d s w Hs Hf ([Hc Hn] & Hl & Hi). destruct (Hl Hs Hf) as [z Ez].
    destruct (resp_write_started d w z Ez) as (_ & H1 & H2 & H3 & _).
    unfold inv, once. rewrite H1, H2, H3. split_and!; try done; by eauto.
Qed.
End injecters.

Lemma senddata_again req injecters st s :
  status s ≠ 0%Z → WriteHeader req injecters st s = mret tt s.
Proof. intros Hs. unfold WriteHeader. cbn. by destruct (Z.eqb_spec (status s) 0). Qed.

(** The first [WriteHeader] on a response that asks for an injection. *)
Lemma run_injected {V} (E : env V) req injecters i v w e :
  v ≠ "" → r_hdr w !! HeaderKey = Some [v] → find (λ i, inj_Match i v) injecters = Some i →
  run E (WriteHeader req injecters 200 {| status := 0; hijacked := false |}) w e =
    let '(o, w', e') := run E (inject req i v) (resp_put HeaderKey None w) e in
    (Value (o, {| status := 200; hijacked := true |}), w', e').
Proof.
  intros Hv Hw Hf. unfold WriteHeader, tryInject. run_steps. cbn [negb Z.eqb status Pos.eqb].
  change (Header.canonical_key HeaderKey) with HeaderKey. run_steps.
  change (Header.canonical_key HeaderKey) with HeaderKey. rewrite Hw.
  cbn [default from_option id head]. destruct (String.eqb_spec v ""); [done|]. rewrite Hf.
  run_steps. destruct (run E (inject req i v) _ e) as [[[[]|m] w'] e']; by run_steps.
Qed.

(** ** Properties *)

(** Whatever the upstream handler sends and whatever the injecters do, the
    headers of the response are sent at most once and the header that asked for
    the injection is never among them. *)
Theorem SendData_header_private (req : Request) (injecters : list Injecter) (h : Handler)
    (hdr : header)
    (Hputs : ∀ i v, i ∈ injecters → never_puts HeaderKey (inj_Inject i req v))
    (Hinj : ∀ i v, i ∈ injecters → codes_ok (inj_Inject i req v))
    (Hcodes : codes_ok (h req)) :
  wp any_answer (SendData req injecters h)
    (λ _ w, r_superfluous w = 0 ∧
            (is_Some (r_status w) → r_sent w !! HeaderKey = None)) (new_resp hdr).
Proof.
  eapply wp_mono; [apply (lazy_serve_under status hijacked (WriteHeader req injecters)
    any_answer inv _ _ (h req)); [by apply starts|done|]|].
  - unfold inv, once. cbn. split_and!; try done; by intros [].
  - by intros o w (s & ([_ Hn] & _ & Hi) & _).
Qed.

(** C39: when the upstream answers 200 with a header that an injecter matches, the
    client gets the status, the headers and the body the first such injecter
    produces on the response without that header, and nothing of what the
    upstream writes afterwards. *)
Theorem SendData_injects {V} (E : env V) (req : Request) (injecters : list Injecter)
    (i : Injecter) (v : string) (rest : prog unit) (hdr : header) (e : V)
    (Hv : v ≠ "") (Hfind : find (λ i, inj_Match i v) injecters = Some i)
    (Hret : (run E (inject req i v) (new_resp (delete HeaderKey hdr)) e).1.1 = Value tt) :
  let w := (run E (SendData req injecters
    (λ _, header_set HeaderKey v;; write_header 200;; rest)) (new_resp hdr) e).1.2 in
  let wi := (run E (inject req i v) (new_resp (delete HeaderKey hdr)) e).1.2 in
  r_status w = r_status wi ∧ r_sent w = r_sent wi ∧ r_body w = r_body wi.
Proof.
  assert (resp_put HeaderKey None (resp_put HeaderKey (Some [v]) (new_resp hdr))
    = new_resp (delete HeaderKey hdr)) as Hdel.
  { rewrite resp_put_put. done. }
  unfold SendData, serve_under, serve_state. rewrite !run_bind.
  cbn [bind header_set write_header under run].
  change (Header.canonical_key HeaderKey) with HeaderKey. rewrite run_mbind.
  cbn [wrapper wr_WriteHeader].
  rewrite (run_injected E req injecters i v _ _ Hv);
    [|by cbn; rewrite lookup_partial_alter_eq|done].
  rewrite Hdel. destruct (run E (inject req i v) _ e) as [[o wi] ei]. cbn in Hret. subst o.
  destruct (run_taken status hijacked (WriteHeader req injecters) E rest
    {| status := 200; hijacked := true |} wi ei) as (o & h & e' & H);
    [by intros; apply senddata_again|done|].
  change (wrapper req injecters) with (lazy_wrapper status hijacked (WriteHeader req injecters)).
  rewrite H, run_bind. unfold Flush. rewrite senddata_again by done. cbn. by destruct o.
Qed.

(** An injecter reads back the JSON the upstream encoded behind its prefix. *)
Theorem Unpack_encoded {T} (json_Unmarshal : bytes → result T) (p : Prefix) (json : bytes) :
  Match p (p +:+ of_bytes (URLEncode json)) = true ∧
  Unpack json_Unmarshal p (p +:+ of_bytes (URLEncode json)) = json_Unmarshal json.
Proof.
  split.
  - unfold Match. apply has_prefix_spec. eauto.
  - unfold Unpack. by rewrite trim_prefix_app, to_of_bytes, URLDecode_encode.
Qed.

(** ** Examples *)

Definition blob_injecter : Injecter :=
  {| inj_Match := Match "git-blob:"; inj_Inject := λ _ _, _ <- write (to_bytes "blob");; Ret tt;
     inj_Name := Name "git-blob:" |}.

Lemma SendData_header_private_witness :
  wp any_answer (SendData Block.request [blob_injecter]
      (λ _, header_set HeaderKey "git-blob:e30=";; write_header 200))
    (λ _ w, r_superfluous w = 0 ∧
            (is_Some (r_status w) → r_sent w !! HeaderKey = None)) (new_resp ∅).
Proof.
  apply (SendData_header_private Block.request [blob_injecter]).
  - intros i v ->%list_elem_of_singleton. cbn. done.
  - intros i v ->%list_elem_of_singleton. cbn. done.
  - cbn. done.
Defined.

Lemma SendData_injects_witness :
  let w := (run HelperProps.quiet_env (SendData Block.request [blob_injecter]
    (λ _, header_set HeaderKey "git-blob:e30=";; write_header 200;;
          (_ <- write (to_bytes "ignored");; Ret tt))) (new_resp ∅) tt).1.2 in
  let wi := (run HelperProps.quiet_env (inject Block.request blob_injecter "git-blob:e30=")
               (new_resp (delete HeaderKey ∅)) tt).1.2 in
  r_status w = r_status wi ∧ r_sent w = r_sent wi ∧ r_body w = r_body wi.
Proof.
  apply (SendData_injects HelperProps.quiet_env Block.request [blob_injecter]
    blob_injecter "git-blob:e30=" (_ <- write (to_bytes "ignored");; Ret tt) ∅ tt).
  - done.
  - reflexivity.
  - vm_compute. reflexivity.
Defined.
End SendData.
