(* ===== verification/SendFile.v ===== *)
(** * Files sent on behalf of the upstream (internal/sendfile)

    The upstream names a file in the [X-Sendfile] header of a 200 response; the
    writer serves that file instead of the upstream's body.  [http.ServeContent]
    is a parameter: it answers range and conditional requests from the open
    file. *)

From S2P Require Import Prelude GoString GoRegexp Http GoNet Helper Hijack Block.
From stdpp Require Import options.

Module SendFile.

(** [internal/sendfile/sendfile.go:19-19 sendFileResponseHeader] *)
Definition sendFileResponseHeader : string := "X-Sendfile".

(** [internal/sendfile/sendfile.go:38-38 artifactsSendFile] *)
Definition artifactsSendFile : regexp :=
  {| at_start := false; pattern := seqs [lit "builds/"; plus digit; lit "/artifacts"];
     at_end := false |}.

(** [internal/sendfile/sendfile.go:41-46 sendFileResponseWriter] *)
Record sendFileResponseWriter := { status : Z; hijacked : bool }.

(** [internal/sendfile/sendfile.go:124-135 countSendFileMetrics] *)
Definition countSendFileMetrics (size : Z) (r : Request) : prog unit :=
  let requestType :=
    if MatchString artifactsSendFile (RequestURI r) then "artifacts" else "other" in
  call (Metric "gitlab_workhorse_sendfile_requests" [requestType] 1);;
  call (Metric "gitlab_workhorse_sendfile_bytes" [requestType] size).

Section writer.
(** [http.ServeContent(w, r, name, modtime, content)]. *)
Context (ServeContent : Request → string → Z → fd → prog unit).
Context (req : Request).

(** [internal/sendfile/sendfile.go:105-122 sendFileFromDisk] *)
Definition sendFileFromDisk (file : string) : prog unit :=
  call (LogInfo [("file", FText file); ("method", FText (Method req));
                 ("uri", FText (Helper.ScrubURLParams (RequestURI req)))] "Send file");;
  o <- Helper.OpenFile file;;
  match o with
  | inr _ => http_NotFound
  | inl (content, fi) =>
      deferring (call (CloseFd content))
        (countSendFileMetrics (Size fi) req;;
         ServeContent req "" (ModTime fi) content)
  end.

(** [internal/sendfile/sendfile.go:80-103 sendFileResponseWriter.WriteHeader] *)
Definition WriteHeader (st : Z) : method sendFileResponseWriter unit := (
  s <- mget;;
  if negb (status s =? 0)%Z then mret tt
  else
    mput {| status := st; hijacked := hijacked s |};;
    if negb (st =? 200)%Z then mlift (write_header st)
    else
      file <- mlift (header_get sendFileResponseHeader);;
      if negb (String.eqb file "") then
        mlift (header_del sendFileResponseHeader);;
        mput {| status := st; hijacked := true |};;
        mlift Helper.DisableResponseBuffering;;
        mlift (sendFileFromDisk file)
      else mlift (write_header st))%method.

(** [internal/sendfile/sendfile.go:70-78 sendFileResponseWriter.Write] *)
Definition Write (d : bytes) : method sendFileResponseWriter (Z * option gerr) := (
  s <- mget;;
  (if (status s =? 0)%Z then WriteHeader 200 else mret tt);;
  s <- mget;;
  if hijacked s then mret (0%Z, None) else mlift (write d))%method.

Definition wrapper : Wrapper sendFileResponseWriter :=
  {| wr_Write := Write; wr_WriteHeader := WriteHeader |}.

(** [internal/sendfile/sendfile.go:137-139 sendFileResponseWriter.Flush] *)
Definition Flush : method sendFileResponseWriter unit := WriteHeader 200.

(** The request is passed on with the header that says sendfile is supported.
    [internal/sendfile/sendfile.go:53-64 SendFile] *)
Definition SendFile (h : Handler) : prog unit :=
  let req' := with_header req (Header.Set_ (Header_ req) "X-Sendfile-Type" "X-Sendfile") in
  serve_under wrapper {| status := 0; hijacked := false |} Flush (h req').
End writer.

(** ** Facts *)

Section facts.
Context (ServeContent : Request → string → Z → fd → prog unit).

Lemma sendfile_again req st s :
  status s ≠ 0%Z → WriteHeader ServeContent req st s = mret tt s.
Proof. intros Hs. unfold WriteHeader. cbn. by destruct (Z.eqb_spec (status s) 0). Qed.

#[global] Instance decides {V} (E : env V) req :
  Decides status hijacked (WriteHeader ServeContent req) E.
Proof.
  split; [intros; by apply sendfile_again|].
  intros st [s0 hj] w e Hs Hs0 Hn Hh. cbn in Hs0, Hh. subst. unfold WriteHeader.
  run_steps. cbn [negb Z.eqb status hijacked]. run_steps.
  destruct (Z.eqb_spec st 200) as [->|Hne]; cbn [negb]; run_steps.
  - destruct (String.eqb _ ""); cbn [negb]; run_steps.
    + eexists _, _, _, _. split; [done|]. right. by split_and!.
    + destruct (run E Helper.DisableResponseBuffering _ e) as [[[[]|m] w1] e1].
      2:{ eexists _, _, _, _. split; [done|]. by left. }
      run_steps. destruct (run E (sendFileFromDisk _ _ _) w1 e1) as [[o w2] e2].
      eexists _, _, _, _. split; [done|]. by left.
  - eexists _, _, _, _. split; [done|]. right. by split_and!.
Qed.

(** Serving the file without buffering at the proxy in front. *)
Definition serve_file req file : prog unit :=
  Helper.DisableResponseBuffering;; sendFileFromDisk ServeContent req file.

(** The first [WriteHeader] on a response that names a file. *)
Lemma run_sendfile {V} (E : env V) req file w e :
  file ≠ "" → r_hdr w !! sendFileResponseHeader = Some [file] →
  run E (WriteHeader ServeContent req 200 {| status := 0; hijacked := false |}) w e =
    let '(o, w', e') := run E (serve_file req file)
                          (resp_put sendFileResponseHeader None w) e in
    (Value (o, {| status := 200; hijacked := true |}), w', e').
Proof.
  intros Hf Hw. unfold WriteHeader. run_steps. cbn [negb Z.eqb status Pos.eqb]. run_steps.
  change (Header.canonical_key sendFileResponseHeader) with sendFileResponseHeader.
  rewrite Hw. cbn [default from_option id head].
  destruct (String.eqb_spec file ""); [done|]. cbn [negb]. run_steps.
  unfold serve_file. cbn [Helper.DisableResponseBuffering header_set bind run]. run_steps.
  by destruct (run E (sendFileFromDisk ServeContent req file) _ e) as [[o w'] e'].
Qed.
End facts.

(** ** Properties *)

(** When the upstream answers 200 and names a file, the client gets what
    serving that file from disk produces, on a response without the header that
    named it, and nothing the upstream writes afterwards. *)
Theorem SendFile_serves {V} (E : env V) ServeContent (req : Request) (file : string)
    (rest : prog unit) (hdr : header) (e : V)
    (Hfile : file ≠ "")
    (Hret : (run E (serve_file ServeContent req file)
               (new_resp (delete sendFileResponseHeader hdr)) e).1.1 = Value tt) :
  let w := (run E (SendFile ServeContent req
    (λ _, header_set sendFileResponseHeader file;; write_header 200;; rest)) (new_resp hdr) e).1.2 in
  let wf := (run E (serve_file ServeContent req file)
               (new_resp (delete sendFileResponseHeader hdr)) e).1.2 in
  r_status w = r_status wf ∧ r_sent w = r_sent wf ∧ r_body w = r_body wf.
Proof.
  unfold SendFile, serve_under, serve_state. rewrite !run_bind.
  cbn [bind header_set write_header under run].
  change (Header.canonical_key sendFileResponseHeader) with sendFileResponseHeader.
  rewrite run_mbind. cbn [wrapper wr_WriteHeader].
  rewrite (run_sendfile ServeContent E req file _ _ Hfile)
    by (cbn; by rewrite lookup_partial_alter_eq).
  rewrite resp_put_put. change (resp_put sendFileResponseHeader None (new_resp hdr))
    with (new_resp (delete sendFileResponseHeader hdr)).
  destruct (run E (serve_file ServeContent req file) _ e) as [[o wf] ef].
  cbn in Hret. subst o.
  destruct (run_taken status hijacked (WriteHeader ServeContent req) E rest
    {| status := 200; hijacked := true |} wf ef) as (o & h & e' & H);
    [by intros; apply sendfile_again|done|].
  change (wrapper ServeContent req)
    with (lazy_wrapper status hijacked (WriteHeader ServeContent req)).
  rewrite H, run_bind. unfold Flush. rewrite sendfile_again by done. cbn. by destruct o.
Qed.

(** Serving a file leaves no file open: whatever is answered, and also when
    serving the content panics, the files open afterwards are those open before. *)
Theorem sendFileFromDisk_closes {V} (E : env V) (fds : V → gset fd) ServeContent
    (req : Request) (file : string)
    (Henv : FdEnv E fds) (Hserve : ∀ name t f, keeps E fds (ServeContent req name t f)) :
  keeps E fds (sendFileFromDisk ServeContent req file).
Proof.
  intros r e. unfold sendFileFromDisk.
  apply (keeps_bind E fds); [by apply closes_call|]. clear r e. intros _ r e.
  rewrite run_bind. destruct (Helper.OpenFile_fds E fds file r e Henv) as (o & e' & -> & Ho).
  destruct o as [[f fi]|x].
  - destruct Ho as (Hf & Ho & _). rewrite closes_deferring; [..|set_solver]; [set_solver|done|].
    unfold countSendFileMetrics.
    apply (keeps_bind E fds); [|intros _; apply Hserve].
    apply (keeps_bind E fds); [|intros _]; by apply closes_call.
  - rewrite <- Ho. unfold http_NotFound, http_Error. cbn. by destruct (resp_write _ _).
Qed.

(** ** Examples *)

(** Serving the content whole, the way [http.ServeContent] answers a plain GET. *)
Definition serve_whole : Request → string → Z → fd → prog unit := λ _ _ _ f,
  b <- call (ReadFd f);; write_header 200;; _ <- write (b_data b);; Ret tt.

Lemma serve_whole_closes path data req name t f :
  keeps (HelperProps.file_env path data) id (serve_whole req name t f).
Proof. intros r w. cbn. by destruct (resp_write _ _). Qed.

Lemma SendFile_serves_witness :
  let E := HelperProps.file_env "/f" (to_bytes "data") in
  let w := (run E (SendFile serve_whole Block.request
    (λ _, header_set sendFileResponseHeader "/f";; write_header 200;;
          (_ <- write (to_bytes "ignored");; Ret tt))) (new_resp ∅) ∅).1.2 in
  let wf := (run E (serve_file serve_whole Block.request "/f")
               (new_resp (delete sendFileResponseHeader ∅)) ∅).1.2 in
  r_status w = r_status wf ∧ r_sent w = r_sent wf ∧ r_body w = r_body wf.
Proof.
  apply (SendFile_serves (HelperProps.file_env "/f" (to_bytes "data")) serve_whole
    Block.request "/f" (_ <- write (to_bytes "ignored");; Ret tt) ∅ ∅).
  - done.
  - vm_compute. reflexivity.
Defined.

Lemma sendFileFromDisk_closes_witness :
  keeps (HelperProps.file_env "/f" (to_bytes "data")) id
    (sendFileFromDisk serve_whole Block.request "/f").
Proof.
  apply sendFileFromDisk_closes; [apply _|]. intros. apply serve_whole_closes.
Defined.
End SendFile.
