(* ===== verification/StaticPages.v ===== *)
(** * Static files, deploy page and error pages (internal/staticpages)

    Files below the document root served in place of the upstream, the page that
    replaces every response during a deployment, and the pages that replace
    error responses.  [http.ServeContent] is a parameter, as in SendFile. *)

From S2P Require Import Prelude GoString Http GoNet GoTime UrlPrefix Helper Hijack Block.
From stdpp Require Import options.

Module StaticPages.
Import Path.

(** [internal/staticpages/static.go:3-5 Static] *)
Record Static := { DocumentRoot : string }.

(** [internal/staticpages/servefile.go:15-20 CacheMode] *)
Inductive CacheMode := CacheDisabled | CacheExpireMax.

(** ** Serving existing files *)

Section serve.
Context (ServeContent : Request → string → Z → fd → prog unit).
(** Seconds by which the local wall clock is ahead of UTC. *)
Context (local_offset : Z).

Definition wall_clock : prog Z :=
  now <- call Now;; Ret (now / 1000000000 + local_offset)%Z.

Definition gzip_file (r : Request) (file : string) : prog (result (fd * FileInfo)) :=
  if contains (Header.Get (Header_ r) "Accept-Encoding") "gzip" then
    o <- Helper.OpenFile (file +:+ ".gz");;
    match o with
    | inl _ => header_set "Content-Encoding" "gzip";; Ret o
    | inr _ => Ret o
    end
  else Ret (inr ErrNotExist).

(** [internal/staticpages/servefile.go:25-81 Static.ServeExisting] *)
Definition ServeExisting (s : Static) (prefix : UrlPrefix.Prefix) (cache : CacheMode)
    (notFoundHandler : option Handler) : Handler := λ r,
  let file := Join (DocumentRoot s) (UrlPrefix.Strip prefix (Path_ (URL r))) in
  if negb (has_prefix file (DocumentRoot s)) then
    Helper.Fail500 r (Some (Wrapf "open %s" (Errorf file)))
  else
    o <- gzip_file r file;;
    o <- match o with inl _ => Ret o | inr _ => Helper.OpenFile file end;;
    match o with
    | inr _ =>
        match notFoundHandler with
        | Some h => h r
        | None => http_NotFound
        end
    | inl (content, fi) =>
        deferring (call (CloseFd content))
          (match cache with
           | CacheExpireMax =>
               now <- wall_clock;;
               header_set "Cache-Control" "public";;
               header_set "Expires" (Time.http_format (Time.add_years 1 now))
           | CacheDisabled => Ret tt
           end;;
           enc <- header_get "Content-Encoding";;
           call (LogInfo [("file", FText file); ("encoding", FText enc);
                          ("method", FText (Method r));
                          ("uri", FText (Helper.ScrubURLParams (RequestURI r)))]
                   "Send static file");;
           ServeContent r (Base file) (ModTime fi) content)
    end.

(** ** The deploy page *)

(** [internal/staticpages/deploy_page.go:11-26 Static.DeployPage] *)
Definition DeployPage (s : Static) (handler : Handler) : Handler := λ r,
  let deployPage := Join (DocumentRoot s) "index.html" in
  o <- call (ReadFile deployPage);;
  match o with
  | inr _ => handler r
  | inl data =>
      Helper.SetNoCacheHeaders;;
      header_set "Content-Type" "text/html; charset=utf-8";;
      write_header 200;;
      _ <- write data;; Ret tt
  end.
End serve.

(** ** Error pages *)

(** [internal/staticpages/error_pages.go:28-33 errorPageResponseWriter] *)
Record errorPageResponseWriter := { status : Z; hijacked : bool; path : string }.

(** The error page in place of the handler's response. *)
Definition serve_page (st : Z) (data : bytes) : prog unit :=
  call (Metric "gitlab_workhorse_static_error_responses" [itoa st] 1);;
  Helper.SetNoCacheHeaders;;
  header_set "Content-Type" "text/html; charset=utf-8";;
  header_set "Content-Length" (itoa (Z.of_nat (length data)));;
  header_del "Transfer-Encoding";;
  write_header st;;
  _ <- write data;; Ret tt.

(** [internal/staticpages/error_pages.go:49-77 errorPageResponseWriter.WriteHeader] *)
Definition WriteHeader (st : Z) : method errorPageResponseWriter unit := (
  s <- mget;;
  if negb (status s =? 0)%Z then mret tt
  else
    mput {| status := st; hijacked := hijacked s; path := path s |};;
    custom <- mlift (header_get "X-GitLab-Custom-Error");;
    ct <- mlift (header_get "Content-Type");;
    if (400 <=? st)%Z && (st <=? 599)%Z && String.eqb custom ""
       && negb (String.eqb ct "application/json") then
      let errorPageFile := Join (path s) (itoa st +:+ ".html") in
      o <- mlift (call (ReadFile errorPageFile));;
      match o with
      | inl data =>
          mput {| status := st; hijacked := true; path := path s |};;
          mlift (serve_page st data)
      | inr _ => mlift (write_header st)
      end
    else mlift (write_header st))%method.

(** [internal/staticpages/error_pages.go:39-47 errorPageResponseWriter.Write] *)
Definition Write (d : bytes) : method errorPageResponseWriter (Z * option gerr) := (
  s <- mget;;
  (if (status s =? 0)%Z then WriteHeader 200 else mret tt);;
  s <- mget;;
  if hijacked s then mret (0%Z, None) else mlift (write d))%method.

Definition wrapper : Wrapper errorPageResponseWriter :=
  {| wr_Write := Write; wr_WriteHeader := WriteHeader |}.

(** [internal/staticpages/error_pages.go:79-81 errorPageResponseWriter.Flush] *)
Definition Flush : method errorPageResponseWriter unit := WriteHeader 200.

(** [internal/staticpages/error_pages.go:83-95 Static.ErrorPagesUnless] *)
Definition ErrorPagesUnless (st : Static) (disabled : bool) (handler : Handler) : Handler :=
  if disabled then handler
  else λ r,
    serve_under wrapper {| status := 0; hijacked := false; path := DocumentRoot st |} Flush
      (handler r).

(** ** Paths below a root *)

Definition contained (root p : string) : Prop :=
  p = root ∨ ∃ xs, Forall plain xs ∧ xs ≠ [] ∧
    p = root +:+ "/" +:+ of_bytes (join_on slash xs).

(** A document root in the form [path.Clean] gives, below the root of the file
    system and below the current directory. *)
Definition clean_root (root : string) : Prop :=
  Clean root = root ∧ root ∉ [""; "."; "/"].

Lemma clean_segs_skip r xs ys : clean_segs r (xs ++ [] :: ys) = clean_segs r (xs ++ ys).
Proof. unfold clean_segs. rewrite !foldl_app. cbn. by rewrite clean_step_nil. Qed.

Lemma join_plain_nil ys : Forall plain ys → join_on slash ys = [] → ys = [].
Proof. intros H. apply join_on_nil. by apply plain_not_nil. Qed.

(** The elements of a canonical path, after a prefix. *)
Lemma clean_segs_canonical r b p :
  UrlPrefix.canonical p →
  ∃ xs, Forall plain xs ∧
    clean_segs r (split_on slash (b ++ slash :: p)) = clean_segs r (split_on slash b) ++ xs.
Proof.
  intros (xs & Hxs & Hp). exists xs. split; [done|]. rewrite split_on_app.
  assert (split_on slash p = [] :: (if decide (xs = []) then [[]] else xs) ∨
          split_on slash p = [] :: xs ++ [[]]) as Hs.
  { assert (∀ q, split_on slash (slash :: q) = [] :: split_on slash q) as Hc.
    { intros q. cbn [split_on]. by rewrite Ascii.eqb_refl. }
    destruct Hp as [->|[Hne ->]]; rewrite Hc.
    - left. case_decide as E; [by subst|]. by rewrite split_join_on by (try done; by apply plain_no_slash).
    - right. by rewrite split_on_app, split_join_on by (try done; by apply plain_no_slash). }
  destruct Hs as [->| ->]; rewrite clean_segs_skip.
  - case_decide as E; [subst|by apply clean_segs_app_plain].
    by rewrite clean_segs_skip, !app_nil_r.
  - by rewrite app_assoc, clean_segs_skip, app_nil_r, clean_segs_app_plain.
Qed.

Lemma Join_contained root p :
  clean_root root → UrlPrefix.canonical (to_bytes p) → contained root (Join root p).
Proof.
  intros [Hroot Hne] Hp. unfold Join. rewrite decide_False by set_solver.
  unfold Clean in *. assert (clean_bytes (to_bytes root) = to_bytes root) as Hb.
  { apply (inj of_bytes). by rewrite of_to_bytes. }
  assert (to_bytes root ≠ []) as Hb0 by (rewrite to_bytes_nil; set_solver).
  rewrite to_bytes_app. change (to_bytes ("/" +:+ p)) with (slash :: to_bytes p).
  set (b := to_bytes root) in *.
  destruct (clean_segs_canonical (rooted b) b (to_bytes p) Hp) as (xs & Hxs & Hsegs).
  assert (root = of_bytes b) as Hr by (unfold b; by rewrite of_to_bytes).
  assert (clean_bytes (b ++ slash :: to_bytes p) =
    b ++ match xs with [] => [] | _ => slash :: join_on slash xs end) as ->.
  2:{ rewrite of_bytes_app, <- Hr. destruct xs as [|x xs].
      - left. apply (inj to_bytes). by rewrite to_bytes_app, app_nil_r.
      - right. by exists (x :: xs). }
  destruct b as [|c b'] eqn:Eb; [done|]. rewrite <- Eb in *. clear Hb0.
  assert (∀ q, clean_bytes (b ++ q) =
    let out := join_on slash (clean_segs (rooted b) (split_on slash (b ++ q))) in
    if rooted b then slash :: out else match out with [] => dot | _ => out end) as Hcl.
  { intros q. by rewrite Eb. }
  rewrite Hcl, Hsegs. cbn zeta. pose proof (Hcl []) as Hb'. rewrite !app_nil_r, Hb in Hb'.
  set (S := clean_segs (rooted b) (split_on slash b)) in *. cbn zeta in Hb'.
  destruct (rooted b) eqn:Er.
  - assert (S ≠ []) as HS.
    { intros HS. rewrite HS in Hb'. apply Hne. rewrite Hr, Hb'. set_solver. }
    destruct xs as [|x xs]; [rewrite !app_nil_r; congruence|].
    rewrite join_on_app by done. by rewrite Hb' at 1.
  - destruct (join_on slash S) as [|a o] eqn:Ej.
    { exfalso. apply Hne. rewrite Hr, Hb'. set_solver. }
    assert (S ≠ []) as HS by (intros HS; by rewrite HS in Ej).
    destruct xs as [|x xs]; [rewrite !app_nil_r, Ej; congruence|].
    rewrite join_on_app, Ej by done. by rewrite Hb'.
Qed.

Lemma contained_prefix root p : contained root p → has_prefix p root = true.
Proof.
  intros [->|(xs & _ & _ & ->)]; apply has_prefix_spec; [|eauto].
  exists "". apply (inj to_bytes). by rewrite to_bytes_app, app_nil_r.
Qed.

(** Every file [p] opens or reads satisfies [P]. *)
Fixpoint opens {A} (P : string → Prop) (p : prog A) : Prop :=
  match p with
  | Ret _ | Raise _ => True
  | HGet _ c => ∀ vs, opens P (c vs)
  | HPut _ _ c => opens P c
  | WHeader _ c => opens P c
  | WBody _ c => ∀ x, opens P (c x)
  | Call e c =>
      match e with OpenPath q | ReadFile q => P q | _ => True end ∧ ∀ x, opens P (c x)
  end.

Lemma opens_bind {A B} P (p : prog A) (f : A → prog B) :
  opens P p → (∀ a, opens P (f a)) → opens P (bind p f).
Proof. intros Hp Hf. induction p; cbn in *; naive_solver. Qed.

Lemma opens_try {A} P (p : prog A) : opens P p → opens P (try p).
Proof. intros Hp. induction p; cbn in *; naive_solver. Qed.

Lemma opens_OpenFile P path : P path → opens P (Helper.OpenFile path).
Proof.
  intros H. split; [done|]. intros [f|e]; cbn; [|done]. split; [done|].
  intros [fi|e]; cbn; [|done]. destruct (IsDir fi); cbn; auto.
Qed.

(** A file below the root, or its gzipped version. *)
Definition served (root p : string) : Prop :=
  ∃ q, contained root q ∧ (p = q ∨ p = q +:+ ".gz").

(** What an attempt to open a file leaves open. *)
Definition holds {V} (fds : V → gset fd) (e e' : V) (o : result (fd * FileInfo)) : Prop :=
  match o with
  | inl (f, _) => f ∉ fds e ∧ fds e' = {[f]} ∪ fds e
  | inr _ => fds e' = fds e
  end.

Lemma gzip_file_fds {V} (E : env V) fds r file w e :
  FdEnv E fds → ∃ o w' e', run E (gzip_file r file) w e = (Value o, w', e') ∧ holds fds e e' o.
Proof.
  intros HE. unfold gzip_file. destruct (contains _ _); [|by eexists _, _, _].
  rewrite run_bind. destruct (Helper.OpenFile_fds E fds (file +:+ ".gz") w e HE)
    as (o & e' & -> & Ho). destruct o as [[f fi]|x]; cbn; eexists _, _, _; (split; [done|]).
  - by destruct Ho as (? & ? & _).
  - done.
Qed.

(** ** Error pages *)

Lemma errorpage_again st s : status s ≠ 0%Z → WriteHeader st s = mret tt s.
Proof. intros Hs. unfold WriteHeader. cbn. by destruct (Z.eqb_spec (status s) 0). Qed.

(** A response an error page may replace. *)
Definition replaceable (st : Z) (h : header) : bool :=
  (400 <=? st)%Z && (st <=? 599)%Z && String.eqb (Header.Get h "X-GitLab-Custom-Error") ""
  && negb (String.eqb (Header.Get h "Content-Type") "application/json").

(** The first [WriteHeader], on both branches. *)
Lemma run_error_page {V} (E : env V) root st w e :
  run E (WriteHeader st {| status := 0; hijacked := false; path := root |}) w e =
    let pass e' := (Value (Value tt, {| status := st; hijacked := false; path := root |}),
                    resp_header st w, e') in
    if replaceable st (r_hdr w) then
      match E _ (ReadFile (Join root (itoa st +:+ ".html"))) e with
      | (inl data, e') =>
          let '(o, w', e'') := run E (serve_page st data) w e' in
          (Value (o, {| status := st; hijacked := true; path := root |}), w', e'')
      | (inr _, e') => pass e'
      end
    else pass e.
Proof.
  unfold WriteHeader. run_steps. cbn [negb Z.eqb status hijacked path]. run_steps.
  change (Header.canonical_key "X-GitLab-Custom-Error") with "X-Gitlab-Custom-Error".
  unfold replaceable, Header.Get, Header.Values.
  change (Header.canonical_key "X-GitLab-Custom-Error") with "X-Gitlab-Custom-Error".
  cbn zeta. destruct (_ && negb _); [|done]. run_steps.
  destruct (E _ _ e) as [[data|x] e']; [|done]. run_steps.
  by destruct (run E (serve_page st data) w e') as [[o w'] e''].
Qed.

#[global] Instance decides {V} (E : env V) :
  (∀ p e, (E _ (ReadFile p) e).2 = e) → Decides status hijacked WriteHeader E.
Proof.
  intros HE. split; [apply errorpage_again|].
  intros st [s0 hj root] w e Hs Hs0 Hn Hh. cbn in Hs0, Hh. subst.
  rewrite run_error_page. cbn zeta.
  assert (∀ e', e' = e → ∃ o w' r' e0,
    (Value (Value (), {| status := st; hijacked := false; path := root |}),
     resp_header st w, e') = (Value (o, w'), r', e0) ∧
    (taken status hijacked w' = true ∨
     hijacked w' = false ∧ status w' = st ∧ o = Value tt ∧ e0 = e ∧ r' ≡ resp_header st w))
    as Hpass.
  { intros e' ->. eexists _, _, _, _. split; [done|]. right. by split_and!. }
  destruct (replaceable st (r_hdr w)); [|by apply Hpass].
  specialize (HE (Join root (itoa st +:+ ".html")) e).
  destruct (E _ _ e) as [[data|x] e']; [|by apply Hpass].
  destruct (run E (serve_page st data) w e') as [[o w'] e''].
  eexists _, _, _, _. split; [done|]. left. unfold taken. cbn.
  by destruct (Z.eqb_spec st 0).
Qed.

Lemma run_serve_page {V} (E : env V) st data w e :
  r_status w = None → r_room w = None → r_body w = [] → (400 <= st <= 599)%Z →
  ∃ w' e', run E (serve_page st data) w e = (Value tt, w', e') ∧
    r_status w' = Some st ∧ r_body w' = data ∧
    Header.Get (r_sent w') "Content-Type" = "text/html; charset=utf-8" ∧
    Header.Get (r_sent w') "Content-Length" = itoa (Z.of_nat (length data)) ∧
    Header.Get (r_sent w') "Cache-Control"
      = "no-cache, no-store, max-age=0, must-revalidate".
Proof.
  intros Hs Hr Hb Hst. unfold serve_page, Helper.SetNoCacheHeaders.
  cbn -[itoa]. destruct (E _ _ e) as [[] e1].
  unfold resp_header. cbn -[itoa]. rewrite Hs. unfold resp_write. cbn -[itoa body_allowed].
  assert (body_allowed st = true) as ->.
  { unfold body_allowed. apply negb_true_iff. rewrite !orb_false_iff, andb_false_iff. lia. }
  cbn -[itoa]. rewrite Hr, Hb. eexists _, _. split; [done|]. cbn -[itoa].
  unfold Header.Get, Header.Values. cbn -[itoa].
  split_and!; try done; rewrite ?lookup_partial_alter_ne by done;
    by rewrite lookup_partial_alter_eq.
Qed.

(** ** Properties *)


(** A response whose status is an error, that is not JSON and not marked as
    custom is replaced by the page of the document root named after the status,
    with its length and without caching; what the handler writes is dropped. *)
Theorem ErrorPages_replaces {V} (E : env V) (root : string) (st : Z) (rest : prog unit)
    (data : bytes) (r : Request) (hdr : header) (e : V)
    (Hrep : replaceable st hdr = true)
    (Hfile : (E _ (ReadFile (Join root (itoa st +:+ ".html"))) e).1 = inl data) :
  let w := (run E (ErrorPagesUnless {| DocumentRoot := root |} false
    (λ _, write_header st;; rest) r) (new_resp hdr) e).1.2 in
  r_status w = Some st ∧ r_body w = data ∧
  Header.Get (r_sent w) "Content-Type" = "text/html; charset=utf-8" ∧
  Header.Get (r_sent w) "Content-Length" = itoa (Z.of_nat (length data)) ∧
  Header.Get (r_sent w) "Cache-Control" = "no-cache, no-store, max-age=0, must-revalidate".
Proof.
  unfold ErrorPagesUnless, serve_under, serve_state. rewrite !run_bind.
  cbn [bind write_header under DocumentRoot]. rewrite run_mbind.
  cbn [wrapper wr_WriteHeader]. rewrite run_error_page. cbn [r_hdr new_resp].
  rewrite Hrep. destruct (E _ (ReadFile _) e) as [d e1]. cbn in Hfile. subst d.
  assert (400 <= st <= 599)%Z as Hst.
  { unfold replaceable in Hrep. rewrite !andb_true_iff in Hrep. lia. }
  destruct (run_serve_page E st data (new_resp hdr) e1) as (w' & e' & -> & Hw);
    [done..|].
  destruct (run_taken status hijacked WriteHeader E rest
    {| status := st; hijacked := true; path := root |} w' e') as (o & h & e2 & H);
    [by intros; apply errorpage_again|unfold taken; cbn; by destruct (Z.eqb_spec st 0); [lia|]|].
  change wrapper with (lazy_wrapper status hijacked WriteHeader).
  rewrite H, run_bind. unfold Flush. rewrite errorpage_again by (cbn; lia). cbn. by destruct o.
Qed.

(** In every other case the client gets exactly the handler's response. *)
Theorem ErrorPages_or_handler {V} (E : env V) (root : string) (h : Handler) (r : Request)
    (hdr : header) (e : V)
    (HE : ∀ p e, (E _ (ReadFile p) e).2 = e) (Hcodes : codes_ok (h r)) :
  ∃ o o' s w e', run E (serve_state wrapper {| status := 0; hijacked := false; path := root |}
      Flush (h r)) (new_resp hdr) e = (Value (o, o', s), w, e') ∧
    (hijacked s = true ∨
     ∃ w0, run E (h r) (new_resp hdr) e = (o, w0, e') ∧ w ≡ resp_header 200 w0).
Proof.
  destruct (lazy_exchange status hijacked WriteHeader E (h r)
    {| status := 0; hijacked := false; path := root |} hdr e (decides E HE) Hcodes)
    as (o & o' & s & w & e' & H & Hov); [done..|].
  exists o, o', s, w, e'. split; [exact H|].
  destruct Hov as [[Ht _]%andb_true_iff|(_ & _ & w0 & H0 & Hw)]; [by left|].
  right. by exists w0.
Qed.

(** While the deploy page exists every request is answered with it and the
    upstream sees none; otherwise the upstream answers. *)
Theorem DeployPage_decides {V} (E : env V) (root : string) (h : Handler) (r : Request)
    (hdr : header) (e : V) :
  match E _ (ReadFile (Join root "index.html")) e with
  | (inl data, e') =>
      ∃ w, run E (DeployPage {| DocumentRoot := root |} h r) (new_resp hdr) e
        = (Value tt, w, e') ∧ r_status w = Some 200%Z ∧ r_body w = data
  | (inr _, e') =>
      run E (DeployPage {| DocumentRoot := root |} h r) (new_resp hdr) e
        = run E (h r) (new_resp hdr) e'
  end.
Proof.
  unfold DeployPage. cbn [DocumentRoot]. rewrite run_bind. cbn.
  destruct (E _ (ReadFile _) e) as [[data|x] e']; [|done]. cbn. by eexists.
Qed.

(** Serving a static file leaves no file open, however it ends. *)
Theorem ServeExisting_closes {V} (E : env V) (fds : V → gset fd) ServeContent off
    (s : Static) prefix cache (nf : option Handler) (r : Request)
    (Henv : FdEnv E fds)
    (Hserve : ∀ r name t f, keeps E fds (ServeContent r name t f))
    (Hnf : ∀ h, nf = Some h → keeps E fds (h r)) :
  keeps E fds (ServeExisting ServeContent off s prefix cache nf r).
Proof.
  intros w e. unfold ServeExisting. set (file := Join _ _).
  destruct (negb _); [by apply closes_no_files|]. rewrite run_bind.
  destruct (gzip_file_fds E fds r file w e Henv) as (o & w1 & e1 & -> & Ho).
  rewrite run_bind.
  assert (∃ o' e2, run E (match o with inl _ => Ret o | inr _ => Helper.OpenFile file end) w1 e1
      = (Value o', w1, e2) ∧ holds fds e e2 o') as (o' & e2 & -> & Ho').
  { destruct o as [ff|x]; [by eexists _, _|]. cbn in Ho.
    destruct (Helper.OpenFile_fds E fds file w1 e1 Henv) as (o' & e2 & H & Ho').
    exists o', e2. split; [exact H|]. unfold holds. rewrite <- Ho.
    destruct o' as [[f fi]|y]; [|done]. destruct Ho' as (? & ? & _). done. }
  destruct o' as [[f fi]|x]; cbn in Ho'.
  - destruct Ho' as [Hf Ho']. rewrite closes_deferring; [set_solver|done| |set_solver].
    apply (keeps_bind E fds).
    { apply closes_no_files; [done|]. by destruct cache. }
    intros _. apply (keeps_bind E fds); [by apply closes_no_files|]. intros enc.
    apply (keeps_bind E fds); [by apply closes_no_files|]. intros _. apply Hserve.
  - rewrite <- Ho'. destruct nf as [h|]; [by apply Hnf|]. by apply closes_no_files.
Qed.

(** ** Examples *)

Definition serve_none : Request → string → Z → fd → prog unit := λ _ _ _ _, write_header 200.


(** A root with a trailing slash or a leading dot refuses requests it should pass on. *)
Example ServeExisting_trailing_slash :
  has_prefix (Join "/srv/public/" (UrlPrefix.Strip "/" "/")) "/srv/public/" = false ∧
  has_prefix (Join "./public" (UrlPrefix.Strip "/" "/logo.png")) "./public" = false.
Proof. vm_compute. done. Qed.

(** The gzipped version of the root itself lies outside the root. *)
Example ServeExisting_root_gz : served "/srv/public" "/srv/public.gz".
Proof. exists "/srv/public". split; [by left|by right]. Qed.

Lemma ErrorPages_replaces_witness :
  let E : env unit := λ X x w,
    match x in ext X return X * unit with
    | ReadFile _ => (inl (to_bytes "page"), w)
    | x => HelperProps.quiet_env _ x w
    end in
  let w := (run E (ErrorPagesUnless {| DocumentRoot := "/p" |} false
    (λ _, write_header 502;; (_ <- write (to_bytes "oops");; Ret tt)) Block.request)
    (new_resp ∅) tt).1.2 in
  r_status w = Some 502%Z ∧ r_body w = to_bytes "page" ∧
  Header.Get (r_sent w) "Content-Type" = "text/html; charset=utf-8" ∧
  Header.Get (r_sent w) "Content-Length" = itoa (Z.of_nat (length (to_bytes "page"))) ∧
  Header.Get (r_sent w) "Cache-Control" = "no-cache, no-store, max-age=0, must-revalidate".
Proof.
  intros E. apply (ErrorPages_replaces E "/p" 502 (_ <- write (to_bytes "oops");; Ret tt)
    (to_bytes "page") Block.request ∅ tt); vm_compute; reflexivity.
Defined.

Lemma ErrorPages_or_handler_witness :
  ∃ o o' s w e', run HelperProps.quiet_env (serve_state wrapper
      {| status := 0; hijacked := false; path := "/p" |} Flush (http_Error "no" 502))
      (new_resp ∅) tt = (Value (o, o', s), w, e') ∧
    (hijacked s = true ∨
     ∃ w0, run HelperProps.quiet_env (http_Error "no" 502) (new_resp ∅) tt = (o, w0, e') ∧
           w ≡ resp_header 200 w0).
Proof.
  apply (ErrorPages_or_handler HelperProps.quiet_env "/p" (λ _, http_Error "no" 502)
    Block.request ∅ tt); [done|]. cbn. repeat split; lia.
Defined.

Lemma ServeExisting_closes_witness :
  keeps (HelperProps.file_env "/p/f" (to_bytes "data")) id
    (ServeExisting serve_none 0 {| DocumentRoot := "/p" |} "/" CacheExpireMax None Block.request).
Proof. apply ServeExisting_closes; [apply _| |done]. intros r n t f w e. done. Defined.
End StaticPages.
