(* ===== verification/Upstream.v ===== *)
(** * Routing (internal/upstream, the configuration of internal/config)

    The routing table, how a request is matched against it and dispatched, and the
    checks every request passes first.  The handlers of the other packages come as
    a record of services, so the theorems here hold whatever they do; the proxy
    chain, the static pages and the upload prefix are the ones of their own files.
    Third-party code comes as arguments: the remote address behind proxies (xff),
    the websocket upgrade test, the metrics handlers, [gzip.NewReader] and
    [http.ServeContent]. *)

From S2P Require Import Prelude GoString GoRegexp Http GoNet UrlPrefix Helper Hijack.
From S2P Require Import Block SendData SendFile StaticPages.
From stdpp Require Import options.

Module Upstream.
Import Path.

(** ** Configuration *)

(** The fields that routing reads.
    [internal/config/config.go:43-55 Config] *)
Record Config := {
  Backend : option url;
  Version : string;
  DocumentRoot : string;
  DevelopmentMode : bool;
  Socket : string;
  ProxyHeadersTimeout : Z;
  APILimit : nat;
  APIQueueLimit : nat;
  APIQueueTimeout : Z;
  APICILongPollingDuration : Z;
}.

(** ** Services of the other packages *)

Record Services := {
  GetInfoRefsHandler : Handler;
  UploadPack : Handler;
  ReceivePack : Handler;
  PutStore : Handler → Handler;
  UploadArtifacts : Handler → Handler;
  TerminalHandler : Handler;
  BodyUploader : Handler → Handler;
  Accelerate_api : Handler → Handler;
  Accelerate_skip_rails : string → Handler → Handler;
  QueueRequests : string → Handler → nat → nat → Z → Handler;
  RegisterHandler : Handler → Z → Handler;
  NewProxy : Handler;
  SendArchive : SendData.Injecter;
  SendBlob : SendData.Injecter;
  SendDiff : SendData.Injecter;
  SendPatch : SendData.Injecter;
  SendSnapshot : SendData.Injecter;
  SendEntry : SendData.Injecter;
  SendURL : SendData.Injecter;
}.

(** Third-party code. *)
Record Vendor := {
  GetRemoteAddr : Request → string;
  IsWebSocketUpgrade : Request → bool;
  instrument : string → string → Handler → Handler;
  gzip_NewReader : body → result body;
  ServeContent : Request → string → Z → fd → prog unit;
  local_offset : Z;
}.

(** ** Routes *)

(** A regular expression with its source text. *)
Record rx := { text : string; compiled : regexp }.

(** [internal/upstream/routes.go:28-28 matcherFunc] *)
Definition matcherFunc : Type := Request → bool.

(** [internal/upstream/routes.go:30-35 routeEntry] *)
Record routeEntry := {
  method : string;
  regex : option regexp;
  handler : Handler;
  matchers : list matcherFunc;
}.

(** [internal/upstream/routes.go:44-50 compileRegexp] *)
Definition compileRegexp (x : rx) : option regexp :=
  if decide (text x = "") then None else Some (compiled x).

(** [internal/upstream/routes.go:77-95 routeEntry.isMatch] *)
Definition isMatch (ro : routeEntry) (cleanedPath : string) (req : Request) : bool :=
  if negb (String.eqb (method ro) "") && negb (String.eqb (Method req) (method ro)) then false
  else if match regex ro with
          | Some re => negb (MatchString re cleanedPath)
          | None => false
          end then false
  else forallb (λ m, m req) (matchers ro).

(** [internal/upstream/routes.go:71-75 isContentType] *)
Definition isContentType (contentType : string) : matcherFunc := λ r,
  Helper.IsContentType contentType (Header.Get (Header_ r) "Content-Type").

Section vendor.
Context (V : Vendor).

(** [internal/upstream/routes.go:187-196 denyWebsocket] *)
Definition denyWebsocket (next : Handler) : Handler := λ r,
  if IsWebSocketUpgrade V r then
    Helper.HTTPError r "websocket upgrade not allowed" 400
  else next r.

(** The metrics of a route.
    [internal/upstream/metrics.go:113-124 instrumentRoute] *)
Definition instrumentRoute (next : Handler) (m regexpStr : string) : Handler :=
  instrument V m regexpStr next.

(** [internal/upstream/routes.go:52-59 route] *)
Definition route (m : string) (x : rx) (h : Handler) (ms : list matcherFunc) : routeEntry :=
  {| method := m; regex := compileRegexp x;
     handler := instrumentRoute (denyWebsocket h) m (text x); matchers := ms |}.

(** [internal/upstream/routes.go:61-68 wsRoute] *)
Definition wsRoute (x : rx) (h : Handler) (ms : list matcherFunc) : routeEntry :=
  {| method := "GET"; regex := compileRegexp x;
     handler := instrumentRoute h "GET" (text x); matchers := ms ++ [IsWebSocketUpgrade V] |}.

(** [internal/upstream/handlers.go:12-39 contentEncodingHandler] *)
Definition contentEncodingHandler (h : Handler) : Handler := λ r,
  let contentEncoding := Header.Get (Header_ r) "Content-Encoding" in
  let opened :=
    if String.eqb contentEncoding "" then inl (body_of r)
    else if String.eqb contentEncoding "gzip" then gzip_NewReader V (body_of r)
    else inr (Wrapf "unsupported content encoding: %s" (Errorf contentEncoding)) in
  match opened with
  | inr e => Helper.Fail500 r (Some (Wrapf "contentEncodingHandler: %v" e))
  | inl b =>
      h (with_header (with_body r (Some b) (ContentLength r))
           (Header.Del (Header_ r) "Content-Encoding"))
  end.

(** [internal/upstream/notfoundunless.go:5-11 NotFoundUnless] *)
Definition NotFoundUnless (pass : bool) (h : Handler) : Handler :=
  if pass then h else λ _, http_NotFound.

(** ** The routing table *)

(** [internal/upstream/routes.go:37-42 apiPattern] *)
Definition not_slash : re := plus (not_chr slash).
Definition apiPattern : string * re := ("^/api/", lit "/api/").
Definition ciAPIPattern : string * re := ("^/ci/api/", lit "/ci/api/").
Definition segments : re := plus (Seq not_slash (lit "/")).
Definition gitProjectPattern : string * re :=
  ("^/([^/]+/){1,}[^/]+\.git/", seqs [lit "/"; segments; not_slash; lit ".git/"]).
Definition projectPattern : string * re :=
  ("^/([^/]+/){1,}[^/]+/", seqs [lit "/"; segments; not_slash; lit "/"]).

(** A pattern followed by more, to the end of the text. *)
Definition exactly (p : string * re) (suffix : string) (x : re) : rx :=
  {| text := p.1 +:+ suffix +:+ "\z";
     compiled := {| at_start := true; pattern := Seq p.2 x; at_end := true |} |}.
(** A pattern that the text starts with. *)
Definition starting (p : string * re) : rx :=
  {| text := p.1; compiled := {| at_start := true; pattern := p.2; at_end := false |} |}.
Definition anything : rx :=
  {| text := ""; compiled := {| at_start := false; pattern := Eps; at_end := false |} |}.

Definition number : re := plus digit.
Definition hex_digit : re :=
  Chr (λ c, is_digit c || ((97 <=? nat_of_ascii c) && (nat_of_ascii c <=? 102))).
Definition any_chr : re := not_chr "010"%char.

Section routes.
Context (S : Services) (cfg : Config) (URLPrefix : UrlPrefix.Prefix).

(** What the upstream answers, behind the three writers that may replace it. *)
Definition proxy : Handler := λ r,
  SendData.SendData r [SendArchive S; SendBlob S; SendDiff S; SendPatch S; SendSnapshot S;
                       SendEntry S; SendURL S]
    (λ r, SendFile.SendFile (ServeContent V) r (λ r, Block.Block r (NewProxy S))).

Definition static : StaticPages.Static :=
  {| StaticPages.DocumentRoot := DocumentRoot cfg |}.
Definition ServeExisting := StaticPages.ServeExisting (ServeContent V) (local_offset V).

(** [internal/upstream/routes.go:101-185 upstream.configureRoutes] *)
Definition configureRoutes : list routeEntry :=
  let uploadPath := Join (DocumentRoot cfg) "uploads/tmp" in
  let uploadAccelerateProxy := Accelerate_skip_rails S uploadPath proxy in
  let ciAPIProxyQueue := QueueRequests S "ci_api_job_requests" uploadAccelerateProxy
    (APILimit cfg) (APIQueueLimit cfg) (APIQueueTimeout cfg) in
  let ciAPILongPolling := RegisterHandler S ciAPIProxyQueue (APICILongPollingDuration cfg) in
  [ (* Git clone *)
    route "GET" (exactly gitProjectPattern "info/refs" (lit "info/refs"))
      (GetInfoRefsHandler S) [];
    route "POST" (exactly gitProjectPattern "git-upload-pack" (lit "git-upload-pack"))
      (contentEncodingHandler (UploadPack S))
      [isContentType "application/x-git-upload-pack-request"];
    route "POST" (exactly gitProjectPattern "git-receive-pack" (lit "git-receive-pack"))
      (contentEncodingHandler (ReceivePack S))
      [isContentType "application/x-git-receive-pack-request"];
    route "PUT" (exactly gitProjectPattern "gitlab-lfs/objects/([0-9a-f]{64})/([0-9]+)"
        (seqs [lit "gitlab-lfs/objects/"; repeat_re 64 hex_digit; lit "/"; number]))
      (PutStore S proxy) [isContentType "application/octet-stream"];
    (* CI artifacts *)
    route "POST" (exactly apiPattern "v4/jobs/[0-9]+/artifacts"
        (seqs [lit "v4/jobs/"; number; lit "/artifacts"]))
      (contentEncodingHandler (UploadArtifacts S proxy)) [];
    route "POST" (exactly ciAPIPattern "v1/builds/[0-9]+/artifacts"
        (seqs [lit "v1/builds/"; number; lit "/artifacts"]))
      (contentEncodingHandler (UploadArtifacts S proxy)) [];
    (* Terminal websocket *)
    wsRoute (exactly projectPattern "environments/[0-9]+/terminal.ws"
        (seqs [lit "environments/"; number; lit "/terminal"; any_chr; lit "ws"]))
      (TerminalHandler S) [];
    wsRoute (exactly projectPattern "-/jobs/[0-9]+/terminal.ws"
        (seqs [lit "-/jobs/"; number; lit "/terminal"; any_chr; lit "ws"]))
      (TerminalHandler S) [];
    (* Long poll and limit capacity given to jobs/request and builds/register.json *)
    route "" (exactly apiPattern "v4/jobs/request" (lit "v4/jobs/request"))
      ciAPILongPolling [];
    route "" (exactly ciAPIPattern "v1/builds/register.json"
        (seqs [lit "v1/builds/register"; any_chr; lit "json"]))
      ciAPILongPolling [];
    (* Maven artifact repository *)
    route "PUT" {| text := "^/api/v4/projects/[0-9]+/packages/maven/";
                   compiled := {| at_start := true;
                     pattern := seqs [lit "/api/v4/projects/"; number; lit "/packages/maven/"];
                     at_end := false |} |}
      (BodyUploader S proxy) [];
    (* Explicitly proxy API requests *)
    route "" (starting apiPattern) proxy [];
    route "" (starting ciAPIPattern) proxy [];
    (* Serve assets *)
    route "" (starting ("^/assets/", lit "/assets/"))
      (ServeExisting static URLPrefix StaticPages.CacheExpireMax
         (Some (NotFoundUnless (DevelopmentMode cfg) proxy))) [];
    (* Uploads *)
    route "POST" (exactly projectPattern "uploads" (lit "uploads"))
      (Accelerate_api S proxy) [];
    route "" (starting ("^/uploads/", lit "/uploads/"))
      (StaticPages.ErrorPagesUnless static (DevelopmentMode cfg) proxy) [];
    (* Serve static files or forward the requests *)
    route "" anything
      (ServeExisting static URLPrefix StaticPages.CacheDisabled
         (Some (StaticPages.DeployPage static
            (StaticPages.ErrorPagesUnless static (DevelopmentMode cfg)
               uploadAccelerateProxy)))) []
  ].
End routes.

(** ** The handler *)

(** [internal/upstream/upstream.go:30-35 upstream] *)
Record upstream := {
  URLPrefix : UrlPrefix.Prefix;
  Routes : list routeEntry;
  accessLogEntry : bool;
}.

(** [internal/upstream/upstream.go:23-28 DefaultBackend] *)
Definition DefaultBackend : url :=
  {| Scheme := "http"; UHost := "localhost:8080"; Path_ := ""; RawQuery := "" |}.
Definition requestHeaderBlacklist : list string := ["Gitlab-Workhorse-Multipart-Fields"].

(** [internal/upstream/upstream.go:50-56 upstream.configureURLPrefix] *)
Definition configureURLPrefix (backend : url) : UrlPrefix.Prefix :=
  let relativeURLRoot := Path_ backend in
  if has_suffix relativeURLRoot "/" then relativeURLRoot else relativeURLRoot +:+ "/".

(** [internal/upstream/upstream.go:37-48 NewUpstream] *)
Definition NewUpstream (S : Services) (cfg : Config) (logger : bool) : upstream :=
  let backend := default DefaultBackend (Backend cfg) in
  let prefix := configureURLPrefix backend in
  {| URLPrefix := prefix; Routes := configureRoutes S cfg prefix; accessLogEntry := logger |}.

(** The first route that matches, with its place in the table. *)
Definition find_route (u : upstream) (URIPath : string) (r : Request)
    : option (nat * routeEntry) :=
  list_find (λ ro, isMatch ro (UrlPrefix.Strip (URLPrefix u) URIPath) r = true) (Routes u).

Definition remove_blacklisted (r : Request) : Request :=
  with_header r (foldl Header.Del (Header_ r) requestHeaderBlacklist).

Definition with_remote_addr (r : Request) (a : string) : Request :=
  {| Method := Method r; URL := URL r; ProtoMajor := ProtoMajor r;
     ProtoMinor := ProtoMinor r; Header_ := Header_ r; Body := Body r;
     ContentLength := ContentLength r; Host := Host r; RequestURI := RequestURI r;
     RemoteAddr := a |}.

(** What [ServeHTTP] does between wrapping the writer and writing the access log. *)
Definition dispatch (u : upstream) (r : Request) : prog unit :=
  Helper.DisableResponseBuffering;;
  if String.eqb (RequestURI r) "*" then
    Helper.HTTPError r "Connection upgrade not allowed" 400
  else if String.eqb (Method r) "CONNECT" then
    Helper.HTTPError r "CONNECT not allowed" 400
  else
    let URIPath := UrlPrefix.CleanURIPath (Path_ (URL r)) in
    if negb (UrlPrefix.Match (URLPrefix u) URIPath) then
      Helper.HTTPError r ("Not found " +:+ quote URIPath) 404
    else
      match find_route u URIPath r with
      | None => Helper.HTTPError r "Forbidden" 403
      | Some (_, ro) => handler ro (remove_blacklisted r)
      end.

(** [internal/upstream/upstream.go:58-108 upstream.ServeHTTP] *)
Definition ServeHTTP (u : upstream) (r : Request) : prog unit :=
  let r := with_remote_addr r (GetRemoteAddr V r) in
  w <- Logging.NewStatsCollectingResponseWriter;;
  serve_under Logging.wrapper w
    (l <- mget;; mlift (Logging.RequestFinished (accessLogEntry u) l r))%method
    (dispatch u r).
End vendor.

(** ** Facts *)

Section facts.
Context (V : Vendor) (S : Services) (cfg : Config) (logger : bool).
Let u := NewUpstream V S cfg logger.

(** The places of the handlers in the table. *)
Definition terminal_routes : list nat := [6; 7].
Definition static_routes : list nat := [13; 16].

Lemma find_route_Some URIPath r i ro :
  find_route u URIPath r = Some (i, ro) →
  Routes u !! i = Some ro ∧ isMatch ro (UrlPrefix.Strip (URLPrefix u) URIPath) r = true ∧
  ∀ j ro', Routes u !! j = Some ro' → j < i →
    isMatch ro' (UrlPrefix.Strip (URLPrefix u) URIPath) r = false.
Proof.
  intros H. apply list_find_Some in H as (H1 & H2 & H3). split_and!; [done..|].
  intros j ro' Hj Hlt. specialize (H3 j ro' Hj Hlt). by apply not_true_iff_false.
Qed.

Lemma Routes_length : length (Routes u) = 17.
Proof. done. Qed.

(** A route of any method on a literal prefix. *)
Lemma isMatch_prefix t s h path r :
  t ≠ "" → isMatch (route V "" (starting (t, lit s)) h []) path r = has_prefix path s.
Proof.
  intros Ht. unfold isMatch, route, compileRegexp, starting. cbn [method regex matchers text compiled fst snd].
  rewrite decide_False by done. rewrite MatchString_lit. cbn.
  by destruct (has_prefix path s).
Qed.

Lemma uploads_match path r :
  has_prefix path "/uploads/" = true →
  ∃ ro, Routes u !! 15 = Some ro ∧ isMatch ro path r = true.
Proof.
  intros H. eexists. split; [reflexivity|]. by rewrite isMatch_prefix.
Qed.

Lemma assets_match path r ro :
  Routes u !! 13 = Some ro → isMatch ro path r = true → has_prefix path "/assets/" = true.
Proof. intros [= <-]. by rewrite isMatch_prefix. Qed.
End facts.

(** ** Properties *)

(** Every request that passes the first checks is routed: the last route
    accepts whatever the others do not. *)
Theorem find_route_total (V : Vendor) (S : Services) (cfg : Config) (logger : bool)
    (URIPath : string) (r : Request) :
  ∃ i ro, find_route (NewUpstream V S cfg logger) URIPath r = Some (i, ro).
Proof.
  destruct (find_route _ _ _) as [[i ro]|] eqn:E; [by eexists _, _|].
  apply list_find_None in E. rewrite Forall_lookup in E.
  exfalso. eapply (E 16); [reflexivity|]. reflexivity.
Qed.


(** No handler ever sees the header that carries signed upload fields as the
    client sent it: a request is either refused, or passed to the handler of its
    route without that header and otherwise unchanged. *)
Theorem dispatch_drops_header (u : upstream) (r : Request) :
  (∃ msg code, dispatch u r = (Helper.DisableResponseBuffering;; Helper.HTTPError r msg code)) ∨
  ∃ i ro h, find_route u (UrlPrefix.CleanURIPath (Path_ (URL r))) r = Some (i, ro) ∧
    dispatch u r = (Helper.DisableResponseBuffering;; handler ro (with_header r h)) ∧
    Header.Values h "Gitlab-Workhorse-Multipart-Fields" = [] ∧
    ∀ k, k ≠ "Gitlab-Workhorse-Multipart-Fields" → h !! k = Header_ r !! k.
Proof.
  unfold dispatch.
  destruct (String.eqb (RequestURI r) "*"); [left; by eexists _, _|].
  destruct (String.eqb (Method r) "CONNECT"); [left; by eexists _, _|].
  destruct (negb _); [left; by eexists _, _|].
  destruct (find_route u _ r) as [[i ro]|] eqn:E; [|left; by eexists _, _].
  right. eexists i, ro, _. split; [done|]. split; [unfold remove_blacklisted; done|].
  cbn [foldl requestHeaderBlacklist]. unfold Header.Values, Header.Del.
  change (Header.canonical_key "Gitlab-Workhorse-Multipart-Fields")
    with "Gitlab-Workhorse-Multipart-Fields". split.
  - by rewrite lookup_delete_eq.
  - intros k Hk. by rewrite lookup_delete_ne.
Qed.

(** A websocket upgrade reaches only the terminal handlers: on every other
    route the handler behind the metrics answers 400. *)
Theorem websocket_denied (V : Vendor) (S : Services) (cfg : Config) (logger : bool)
    (URIPath : string) (r : Request) (i : nat) (ro : routeEntry)
    (Hroute : find_route (NewUpstream V S cfg logger) URIPath r = Some (i, ro)) :
  (i ∈ terminal_routes ∧ IsWebSocketUpgrade V r = true ∧ Method r = "GET") ∨
  ∃ h m t, handler ro = instrument V m t h ∧
    ∀ r', IsWebSocketUpgrade V r' = true →
      h r' = Helper.HTTPError r' "websocket upgrade not allowed" 400.
Proof.
  apply find_route_Some in Hroute as (Hi & Hm & _).
  assert (∀ h r', IsWebSocketUpgrade V r' = true → denyWebsocket V h r' =
    Helper.HTTPError r' "websocket upgrade not allowed" 400) as Hdeny.
  { intros h r' Hr'. unfold denyWebsocket. by rewrite Hr'. }
  assert (∀ x h ms, ro = wsRoute V x h ms →
    IsWebSocketUpgrade V r = true ∧ Method r = "GET") as Hws.
  { intros x h ms ->. unfold isMatch in Hm. cbn [method wsRoute matchers regex] in Hm.
    destruct (String.eqb_spec (Method r) "GET"); [|done].
    match type of Hm with (if ?a then _ else if ?b then _ else _) = _ =>
      destruct a; [done|]; destruct b; [done|] end.
    rewrite forallb_app in Hm. cbn in Hm. rewrite andb_true_r in Hm.
    by apply andb_true_iff in Hm as [_ ?]. }
  assert (i < 17) as Hlt by (apply lookup_lt_Some in Hi; done).
  repeat (destruct i as [|i]; [injection Hi as Hro;
    first [ right; rewrite <- Hro; eexists _, _, _; split; [done|];
            intros r' Hr'; by apply Hdeny
          | left; split; [unfold terminal_routes; set_solver|]; by eapply Hws ]|]).
  lia.
Qed.

(** The response a client gets is the one [dispatch] produces, and the access
    log records the status and the number of octets it was sent, once the request
    is finished, however it finished. *)
Theorem ServeHTTP_logged (V : Vendor) {W} (E : env W) (u : upstream) (r : Request)
    (hdr : header) (e : W)
    (Hlog : accessLogEntry u = true)
    (Hcodes : codes_ok (dispatch u (with_remote_addr r (GetRemoteAddr V r)))) :
  let r' := with_remote_addr r (GetRemoteAddr V r) in
  let '(started, e1) := E _ Now e in
  let '(o, w0, e2) := run E (dispatch u r') (new_resp hdr) e1 in
  let '(now, e3) := E _ Now e2 in
  let l := {| Logging.status := default 0%Z (r_status w0);
              Logging.wroteHeader := bool_decide (is_Some (r_status w0));
              Logging.written := Z.of_nat (length (r_body w0));
              Logging.started := started |} in
  let '(_, e4) := E _ (AccessLog (Logging.accessLogFields l r' now)) e3 in
  ∃ w, run E (ServeHTTP V u r) (new_resp hdr) e = (o, w, e4) ∧ w ≡ w0.
Proof.
  intros r'. destruct (E Z Now e) as [started e1] eqn:E1.
  destruct (run E (dispatch u r') (new_resp hdr) e1) as [[o w0] e2] eqn:Ed.
  destruct (E Z Now e2) as [now e3] eqn:E3. intros l.
  destruct (E unit (AccessLog (Logging.accessLogFields l r' now)) e3) as [[] e4] eqn:E4.
  set (l0 := {| Logging.status := 0; Logging.wroteHeader := false; Logging.written := 0;
                Logging.started := started |}).
  destruct (under_transparent E Logging.wrapper (Logging.accurate 0 started) (λ _, false)
    (dispatch u r') l0 (new_resp hdr) (new_resp hdr) e1)
    as (o' & l' & w & e' & H & [|(_ & (Hst & Hwh & Hn & Ht) & w0' & H0 & Hw)]);
    [apply _|done|done|done|done|done|].
  rewrite Ed in H0. injection H0 as <- <- <-.
  assert (l' = l) as ->.
  { destruct l' as [s1 h1 n1 t1], Hw as (_ & Es & _ & Eb & _). unfold l. cbn in *.
    rewrite Es in *. rewrite Eb in *. f_equal; [done..|lia|done]. }
  exists w. split; [|done]. unfold ServeHTTP, Logging.NewStatsCollectingResponseWriter.
  fold r'. rewrite run_bind. cbn [bind call run]. rewrite E1.
  unfold serve_under, serve_state. rewrite !run_bind. fold l0. rewrite H.
  rewrite run_bind. run_steps. unfold Logging.RequestFinished, Logging.writeAccessLog.
  rewrite Hlog. cbn [negb]. rewrite run_bind. cbn [call run]. rewrite E3, E4.
  by destruct o.
Qed.

(** ** Examples *)

Definition no_handler : Handler := λ _, write_header 200.
Definition test_services : Services :=
  let i := SendData.blob_injecter in
  {| GetInfoRefsHandler := no_handler; UploadPack := no_handler; ReceivePack := no_handler;
     PutStore := λ h, h; UploadArtifacts := λ h, h; TerminalHandler := no_handler;
     BodyUploader := λ h, h; Accelerate_api := λ h, h; Accelerate_skip_rails := λ _ h, h;
     QueueRequests := λ _ h _ _ _, h; RegisterHandler := λ h _, h; NewProxy := no_handler;
     SendArchive := i; SendBlob := i; SendDiff := i; SendPatch := i; SendSnapshot := i;
     SendEntry := i; SendURL := i |}.
Definition test_vendor : Vendor :=
  {| GetRemoteAddr := RemoteAddr;
     IsWebSocketUpgrade := λ r, String.eqb (Header.Get (Header_ r) "Upgrade") "websocket";
     instrument := λ _ _ h, h; gzip_NewReader := λ _, inr (Errorf "gzip: invalid header");
     ServeContent := λ _ _ _ _, write_header 200; local_offset := 0 |}.
Definition test_config : Config :=
  {| Backend := None; Version := "test"; DocumentRoot := "/srv/public";
     DevelopmentMode := false; Socket := ""; ProxyHeadersTimeout := 0; APILimit := 0;
     APIQueueLimit := 0; APIQueueTimeout := 0; APICILongPollingDuration := 0 |}.
Definition test_upstream : upstream := NewUpstream test_vendor test_services test_config true.
Definition get (m p : string) : Request :=
  {| Method := m; URL := {| Scheme := "http"; UHost := "h"; Path_ := p; RawQuery := "" |};
     ProtoMajor := 1; ProtoMinor := 1; Header_ := ∅; Body := None; ContentLength := 0;
     Host := "h"; RequestURI := p; RemoteAddr := "127.0.0.1:1" |}.
Definition routed (m p : string) : option nat :=
  fst <$> find_route test_upstream (UrlPrefix.CleanURIPath p) (get m p).

Lemma routed_Some m p i :
  routed m p = Some i →
  ∃ ro, find_route test_upstream (UrlPrefix.CleanURIPath p) (get m p) = Some (i, ro).
Proof. unfold routed. destruct (find_route _ _ _) as [[j ro]|]; [|done].
  intros [= <-]. by exists ro. Qed.

Example routed_clone : routed "GET" "/group/sub/project.git/info/refs" = Some 0.
Proof. vm_compute. reflexivity. Qed.
Example routed_api : routed "POST" "/api/v4/jobs/request" = Some 8.
Proof. vm_compute. reflexivity. Qed.
Example routed_artifacts : routed "POST" "/api/v4/jobs/12/artifacts" = Some 4.
Proof. vm_compute. reflexivity. Qed.
Example routed_uploads : routed "GET" "/x/..//uploads/secret" = Some 15.
Proof. vm_compute. reflexivity. Qed.
Example routed_default : routed "GET" "/users/sign_in" = Some 16.
Proof. vm_compute. reflexivity. Qed.


Lemma websocket_denied_witness :
  ∃ ro, (16 ∈ terminal_routes ∧ IsWebSocketUpgrade test_vendor (get "GET" "/a") = true ∧
     Method (get "GET" "/a") = "GET") ∨
  ∃ h m t, handler ro = instrument test_vendor m t h ∧
    ∀ r', IsWebSocketUpgrade test_vendor r' = true →
      h r' = Helper.HTTPError r' "websocket upgrade not allowed" 400.
Proof.
  destruct (routed_Some "GET" "/a" 16 ltac:(vm_compute; reflexivity)) as [ro Hro].
  exists ro. apply (websocket_denied test_vendor test_services test_config true
    (UrlPrefix.CleanURIPath "/a") (get "GET" "/a") 16 ro Hro).
Defined.

Lemma ServeHTTP_logged_witness :
  let r' := with_remote_addr (get "CONNECT" "/") (GetRemoteAddr test_vendor (get "CONNECT" "/")) in
  let E := HelperProps.quiet_env in
  let '(started, e1) := E _ Now tt in
  let '(o, w0, e2) := run E (dispatch test_upstream r') (new_resp ∅) e1 in
  let '(now, e3) := E _ Now e2 in
  let l := {| Logging.status := default 0%Z (r_status w0);
              Logging.wroteHeader := bool_decide (is_Some (r_status w0));
              Logging.written := Z.of_nat (length (r_body w0));
              Logging.started := started |} in
  let '(_, e4) := E _ (AccessLog (Logging.accessLogFields l r' now)) e3 in
  ∃ w, run E (ServeHTTP test_vendor test_upstream (get "CONNECT" "/")) (new_resp ∅) tt
         = (o, w, e4) ∧ w ≡ w0.
Proof.
  apply (ServeHTTP_logged test_vendor HelperProps.quiet_env test_upstream (get "CONNECT" "/") ∅ tt).
  - reflexivity.
  - cbn. repeat split; lia.
Defined.
End Upstream.
