(* ===== verification/Queueing.v ===== *)
(** * The request queue (internal/queueing)

    Two bounded channels limit how many requests run and how many wait.  A
    request is a process that goes through the statements of [Acquire], runs its
    handler, and goes through those of [Release]; the processes interleave at the
    channel operations.  A metric is updated together with the channel operation
    it follows.  [QueueRequests] is the handler around them. *)

From S2P Require Import Prelude GoString Http GoNet Helper.
From stdpp Require Import options.

Module Queueing.

(** ** The queue *)

(** The capacities of a queue.
    [internal/queueing/queue.go:135-149 newQueue] *)
Record limits := { limit : nat; queueLimit : nat; timeout : Z }.
Definition busy_cap (l : limits) : nat := limit l.
Definition waiting_cap (l : limits) : nat := limit l + queueLimit l.

(** The channels ([busyCh] holds only unit values), and the metrics.
    [internal/queueing/queue.go:119-126 Queue] *)
Record Queue := {
  busyCh : nat;
  waitingCh : list Z;
  queueingBusy : Z;
  queueingWaiting : Z;
  queueingWaitingTime : list Z;
  too_many_requests : Z;
  queueing_timedout : Z;
}.

Definition empty_queue : Queue :=
  {| busyCh := 0; waitingCh := []; queueingBusy := 0; queueingWaiting := 0;
     queueingWaitingTime := []; too_many_requests := 0; queueing_timedout := 0 |}.

(** A non-blocking send on [waitingCh], with its gauge. *)
Definition send_waiting (l : limits) (now : Z) (q : Queue) : option Queue :=
  if length (waitingCh q) <? waiting_cap l then
    Some {| busyCh := busyCh q; waitingCh := waitingCh q ++ [now];
            queueingBusy := queueingBusy q; queueingWaiting := queueingWaiting q + 1;
            queueingWaitingTime := queueingWaitingTime q;
            too_many_requests := too_many_requests q;
            queueing_timedout := queueing_timedout q |}
  else None.

(** A receive from [waitingCh], which blocks when it is empty. *)
Definition recv_waiting (now : Z) (q : Queue) : option Queue :=
  match waitingCh q with
  | [] => None
  | waitStarted :: rest =>
      Some {| busyCh := busyCh q; waitingCh := rest; queueingBusy := queueingBusy q;
              queueingWaiting := queueingWaiting q - 1;
              queueingWaitingTime := queueingWaitingTime q ++ [(now - waitStarted)%Z];
              too_many_requests := too_many_requests q;
              queueing_timedout := queueing_timedout q |}
  end.

Definition send_busy (l : limits) (q : Queue) : option Queue :=
  if busyCh q <? busy_cap l then
    Some {| busyCh := S (busyCh q); waitingCh := waitingCh q;
            queueingBusy := queueingBusy q + 1; queueingWaiting := queueingWaiting q;
            queueingWaitingTime := queueingWaitingTime q;
            too_many_requests := too_many_requests q;
            queueing_timedout := queueing_timedout q |}
  else None.

Definition recv_busy (q : Queue) : option Queue :=
  match busyCh q with
  | O => None
  | S n => Some {| busyCh := n; waitingCh := waitingCh q;
                   queueingBusy := queueingBusy q - 1; queueingWaiting := queueingWaiting q;
                   queueingWaitingTime := queueingWaitingTime q;
                   too_many_requests := too_many_requests q;
                   queueing_timedout := queueing_timedout q |}
  end.

Definition count_error (e : gerr) (q : Queue) : Queue :=
  {| busyCh := busyCh q; waitingCh := waitingCh q; queueingBusy := queueingBusy q;
     queueingWaiting := queueingWaiting q; queueingWaitingTime := queueingWaitingTime q;
     too_many_requests := too_many_requests q + (if decide (e = ErrTooManyRequests) then 1 else 0);
     queueing_timedout := queueing_timedout q + (if decide (e = ErrQueueingTimedout) then 1 else 0) |}.

(** ** Processes *)

(** Where a request is: before [Acquire]; after claiming a waiting slot; blocked on
    [busyCh]; timed out, before giving its slot back; running its handler; inside
    [Release]; finished, with the error [Acquire] returned. *)
Inductive phase :=
  | Idle
  | Claimed
  | Blocked
  | TimedOut
  | Running
  | Releasing
  | Done (err : option gerr).

(** The next channel operation of [Acquire]; [timer] says that the timer fired
    before the blocked send succeeded.
    [internal/queueing/queue.go:155-196 Queue.Acquire] *)
Definition Acquire (l : limits) (now : Z) (timer : bool) (p : phase) (q : Queue)
    : option (phase * Queue) :=
  match p with
  | Idle =>
      match send_waiting l now q with
      | Some q => Some (Claimed, q)
      | None => Some (Done (Some ErrTooManyRequests), count_error ErrTooManyRequests q)
      end
  | Claimed =>
      match send_busy l q with
      | Some q => Some (Running, q)
      | None => Some (Blocked, q)
      end
  | Blocked =>
      if timer then Some (TimedOut, count_error ErrQueueingTimedout q)
      else q ← send_busy l q; Some (Running, q)
  | TimedOut => q ← recv_waiting now q; Some (Done (Some ErrQueueingTimedout), q)
  | Running | Releasing | Done _ => None
  end.

(** The next channel operation of [Release].
    [internal/queueing/queue.go:200-208 Queue.Release] *)
Definition Release (now : Z) (p : phase) (q : Queue) : option (phase * Queue) :=
  match p with
  | Running => q ← recv_waiting now q; Some (Releasing, q)
  | Releasing => q ← recv_busy q; Some (Done None, q)
  | _ => None
  end.

Record system := { queue : Queue; procs : list phase }.

(** One process makes its next move. *)
Inductive step (l : limits) : system → system → Prop :=
  | step_acquire i p now timer q p' q' ps :
      ps !! i = Some p → Acquire l now timer p q = Some (p', q') →
      step l {| queue := q; procs := ps |} {| queue := q'; procs := <[i := p']> ps |}
  | step_release i p now q p' q' ps :
      ps !! i = Some p → Release now p q = Some (p', q') →
      step l {| queue := q; procs := ps |} {| queue := q'; procs := <[i := p']> ps |}.

Definition initial (s : system) : Prop :=
  queue s = empty_queue ∧ Forall (λ p, p = Idle) (procs s).

(** ** Counting *)

Definition holds_waiting (p : phase) : bool :=
  match p with Claimed | Blocked | TimedOut | Running => true | _ => false end.
Definition holds_busy (p : phase) : bool :=
  match p with Running | Releasing => true | _ => false end.
Definition is_running (p : phase) : bool := match p with Running => true | _ => false end.
Definition is_queued (p : phase) : bool :=
  match p with Claimed | Blocked | TimedOut => true | _ => false end.

(** The channels hold exactly the slots of the processes, within their capacity,
    and the gauges say how many. *)
Definition inv (l : limits) (s : system) : Prop :=
  length (waitingCh (queue s)) = countb holds_waiting (procs s) ∧
  busyCh (queue s) = countb holds_busy (procs s) ∧
  length (waitingCh (queue s)) ≤ waiting_cap l ∧
  busyCh (queue s) ≤ busy_cap l ∧
  queueingWaiting (queue s) = Z.of_nat (length (waitingCh (queue s))) ∧
  queueingBusy (queue s) = Z.of_nat (busyCh (queue s)).

Lemma queue_inv_initial l s : initial s → inv l s.
Proof.
  intros [Hq Hp]. destruct s as [q ps]. cbn in *. subst q.
  assert (∀ f, f Idle = false → countb f ps = 0) as Hc.
  { intros f Hf. induction Hp as [|p ps -> _ IH]; [done|].
    by rewrite countb_cons, Hf, IH. }
  unfold inv. cbn. rewrite !Hc by done. split_and!; lia.
Qed.

(** The effect of a move on the counts and the channels. *)
Lemma Acquire_inv l now timer p q p' q' ps i :
  ps !! i = Some p → Acquire l now timer p q = Some (p', q') →
  inv l {| queue := q; procs := ps |} → inv l {| queue := q'; procs := <[i := p']> ps |}.
Proof.
  intros Hi Ha (H1 & H2 & H3 & H4 & H5 & H6).
  pose proof (countb_insert holds_waiting ps i p p' Hi) as Cw.
  pose proof (countb_insert holds_busy ps i p p' Hi) as Cb.
  unfold inv in *. cbn in *. unfold Acquire in Ha.
  destruct p; try done; cbn in Ha.
  - unfold send_waiting in Ha. destruct (Nat.ltb_spec (length (waitingCh q)) (waiting_cap l));
      simplify_eq; cbn in *; rewrite ?length_app; cbn; split_and!; lia.
  - unfold send_busy in Ha. destruct (Nat.ltb_spec (busyCh q) (busy_cap l));
      simplify_eq; cbn in *; split_and!; lia.
  - destruct timer; [simplify_eq; cbn in *; split_and!; lia|].
    unfold send_busy in Ha. destruct (Nat.ltb_spec (busyCh q) (busy_cap l));
      simplify_eq/=; split_and!; lia.
  - unfold recv_waiting in Ha. destruct (waitingCh q) as [|t ts] eqn:E; simplify_eq/=.
    split_and!; lia.
Qed.

Lemma Release_inv l now p q p' q' ps i :
  ps !! i = Some p → Release now p q = Some (p', q') →
  inv l {| queue := q; procs := ps |} → inv l {| queue := q'; procs := <[i := p']> ps |}.
Proof.
  intros Hi Ha (H1 & H2 & H3 & H4 & H5 & H6).
  pose proof (countb_insert holds_waiting ps i p p' Hi) as Cw.
  pose proof (countb_insert holds_busy ps i p p' Hi) as Cb.
  unfold inv in *. cbn in *. unfold Release in Ha. destruct p; try done; cbn in Ha.
  - unfold recv_waiting in Ha. destruct (waitingCh q) as [|t ts] eqn:E; simplify_eq/=.
    split_and!; lia.
  - unfold recv_busy in Ha. destruct (busyCh q) as [|n] eqn:E; simplify_eq/=.
    split_and!; lia.
Qed.

Lemma queue_inv_reachable l s : reachable initial (step l) s → inv l s.
Proof.
  apply reachable_invariant; [apply queue_inv_initial|].
  intros s1 s2 H Hs. destruct Hs; [by eapply Acquire_inv|by eapply Release_inv].
Qed.

(** ** The handler *)

(** [internal/queueing/requests.go:10-13 DefaultTimeout] *)
Definition DefaultTimeout : Z := 30 * 1000000000.

(** The limits of the queue a handler gets.
    [internal/queueing/requests.go:22-31 QueueRequests] *)
Definition queue_limits (limit queueLimit : nat) (queueTimeout : Z) : limits :=
  {| limit := limit; queueLimit := queueLimit;
     timeout := if (queueTimeout =? 0)%Z then DefaultTimeout else queueTimeout |}.

(** [internal/queueing/requests.go:22-51 QueueRequests] *)
Definition QueueRequests (name : string) (h : Handler) (limit queueLimit : nat)
    (queueTimeout : Z) : Handler :=
  if limit =? 0 then h
  else λ r,
    err <- call (QueueAcquire name);;
    match err with
    | None => deferring (call (QueueRelease name)) (h r)
    | Some e =>
        if decide (e = ErrTooManyRequests) then http_Error "Too Many Requests" 429
        else if decide (e = ErrQueueingTimedout) then http_Error "Service Unavailable" 503
        else Helper.Fail500 r (Some e)
    end.

(** ** Progress *)

(** How many moves a process still has at most. *)
Definition rank (p : phase) : nat :=
  match p with
  | Idle => 6 | Claimed => 5 | Blocked => 4 | TimedOut => 1 | Running => 3 | Releasing => 2
  | Done _ => 0
  end.
Definition total_rank (ps : list phase) : nat := sum_list_with rank ps.
Arguments total_rank _ : simpl never.

Lemma total_rank_insert ps i p p' :
  ps !! i = Some p → total_rank (<[i := p']> ps) + rank p = total_rank ps + rank p'.
Proof. apply sum_list_with_insert. Qed.

Lemma step_rank l s s' : step l s s' → total_rank (procs s') < total_rank (procs s).
Proof.
  intros H. destruct H as [i p now timer q p' q' ps Hi Ha|i p now q p' q' ps Hi Ha]; cbn;
    pose proof (total_rank_insert ps i p p' Hi).
  - assert (rank p' < rank p); [|lia].
    destruct p; cbn in Ha; repeat case_match; simplify_option_eq; cbn; lia.
  - assert (rank p' < rank p); [|lia].
    destruct p; cbn in Ha; simplify_option_eq; cbn; lia.
Qed.

(** A process that is not finished can move: in particular giving a slot back never
    blocks. *)
Lemma can_move l s i p :
  inv l s → procs s !! i = Some p → (∀ e, p ≠ Done e) →
  ∃ s', step l s s' ∧ ∃ p', procs s' !! i = Some p' ∧ p' ≠ p.
Proof.
  intros (H1 & H2 & _) Hi Hnd. destruct s as [q ps]. cbn in *.
  assert (∀ p', <[i := p']> ps !! i = Some p') as Hl.
  { intros p'. apply list_lookup_insert_eq. by eapply lookup_lt_Some. }
  assert (holds_waiting p = true → ∃ t ts, waitingCh q = t :: ts) as Hw.
  { intros Hp. pose proof (countb_lookup _ _ _ _ Hi Hp).
    destruct (waitingCh q) as [|t ts]; [cbn in H1; lia|eauto]. }
  assert (holds_busy p = true → ∃ n, busyCh q = S n) as Hb.
  { intros Hp. pose proof (countb_lookup _ _ _ _ Hi Hp).
    destruct (busyCh q) as [|n]; [lia|eauto]. }
  destruct p.
  - destruct (send_waiting l 0 q) as [q'|] eqn:E; eexists; (split;
      [eapply (step_acquire _ i Idle 0%Z false); [done|cbn; by rewrite E]|eexists; split; [apply Hl|done]]).
  - destruct (send_busy l q) as [q'|] eqn:E; eexists; (split;
      [eapply (step_acquire _ i Claimed 0%Z false); [done|cbn; by rewrite E]|eexists; split; [apply Hl|done]]).
  - eexists; split; [by eapply (step_acquire _ i Blocked 0%Z true)|eexists; split; [apply Hl|done]].
  - destruct Hw as (t & ts & E); [done|]. eexists; split;
      [eapply (step_acquire _ i TimedOut 0%Z false); [done|]; cbn; unfold recv_waiting; by rewrite E
      |eexists; split; [apply Hl|done]].
  - destruct Hw as (t & ts & E); [done|]. eexists; split;
      [eapply (step_release _ i Running 0%Z); [done|]; cbn; unfold recv_waiting; by rewrite E
      |eexists; split; [apply Hl|done]].
  - destruct Hb as (n & E); [done|]. eexists; split;
      [eapply (step_release _ i Releasing 0%Z); [done|]; cbn; unfold recv_busy; by rewrite E
      |eexists; split; [apply Hl|done]].
  - by destruct (Hnd err).
Qed.

(** ** Properties *)

(** C17: in every state the processes can reach, at most [limit] requests run, at
    most [limit + queueLimit] have been let in, and the gauges are the numbers of
    slots taken. *)
Theorem queue_bounds (l : limits) (s : system) (H : reachable initial (step l) s) :
  countb is_running (procs s) ≤ limit l ∧
  countb is_running (procs s) + countb is_queued (procs s) ≤ limit l + queueLimit l ∧
  queueingBusy (queue s) = Z.of_nat (countb holds_busy (procs s)) ∧
  queueingWaiting (queue s) =
    Z.of_nat (countb is_running (procs s) + countb is_queued (procs s)).
Proof.
  apply queue_inv_reachable in H as (H1 & H2 & H3 & H4 & H5 & H6).
  assert (∀ ps, countb holds_waiting ps = countb is_running ps + countb is_queued ps) as Hc.
  { induction ps as [|p ps IH]; [done|]. rewrite !countb_cons, IH. destruct p; cbn; lia. }
  assert (countb is_running (procs s) ≤ countb holds_busy (procs s)) as Hr.
  { apply countb_le. by intros []. }
  rewrite Hc in H1. unfold busy_cap, waiting_cap in *. rewrite H5, H6, H1, H2.
  split_and!; lia.
Qed.

(** A request is refused for lack of room only when all the slots are taken. *)
Theorem queue_refuses_when_full (l : limits) (s : system) (now : Z) (timer : bool) (q : Queue)
    (H : reachable initial (step l) s)
    (Hrefused : Acquire l now timer Idle (queue s) = Some (Done (Some ErrTooManyRequests), q)) :
  countb is_running (procs s) + countb is_queued (procs s) = limit l + queueLimit l.
Proof.
  apply queue_inv_reachable in H as (H1 & _ & H3 & _). cbn in Hrefused. unfold send_waiting in Hrefused.
  destruct (Nat.ltb_spec (length (waitingCh (queue s))) (waiting_cap l)) as [|Hge]; [done|].
  assert (∀ ps, countb holds_waiting ps = countb is_running ps + countb is_queued ps) as Hc.
  { induction ps as [|p ps IH]; [done|]. rewrite !countb_cons, IH. destruct p; cbn; lia. }
  rewrite <- Hc, <- H1. unfold waiting_cap in *. lia.
Qed.

(** C18: every execution comes to an end, and it ends with every request finished
    and every slot given back: no request is stuck, however the processes
    interleave and whenever the timers fire. *)
Theorem queue_drains (l : limits) (s : system) (H : reachable initial (step l) s) :
  sn (step l) s ∧
  ∀ s', rtc (step l) s s' → nf (step l) s' →
    Forall (λ p, ∃ e, p = Done e) (procs s') ∧ waitingCh (queue s') = [] ∧ busyCh (queue s') = 0.
Proof.
  split.
  - apply (sn_measure _ (λ _, True) (λ s, total_rank (procs s))); [|done].
    intros s1 s2 _ Hs. split; [done|]. by eapply step_rank.
  - intros s' Hs Hnf.
    assert (inv l s') as Hinv.
    { apply queue_inv_reachable. by eapply reachable_rtc. }
    assert (Forall (λ p, ∃ e, p = Done e) (procs s')) as Hall.
    { apply Forall_lookup. intros i p Hi. destruct p; try (by eexists); exfalso;
        destruct (can_move l s' i _ Hinv Hi) as (s'' & Hst & _); try done;
        apply Hnf; by exists s''. }
    split; [done|]. destruct Hinv as (H1 & H2 & _).
    assert (∀ f, (∀ e, f (Done e) = false) → countb f (procs s') = 0) as Hc.
    { intros f Hf. clear -Hall Hf. induction Hall as [|p ps [e ->] _ IH]; [done|].
      by rewrite countb_cons, Hf, IH. }
    rewrite Hc in H1, H2 by done. split; [by apply nil_length_inv|done].
Qed.

(** The handler takes a slot and gives it back exactly once when it is let in,
    also when the handler it protects panics, and answers 429 or 503 without calling
    it when it is not. *)
Theorem QueueRequests_balanced {V} (E : env V) (held : V → Z) (name : string) (h : Handler)
    (lim qlim : nat) (timeout : Z) (r : Request) (w : resp) (e : V)
    (Hacquire : ∀ e, held (E _ (QueueAcquire name) e).2 =
       (held e + if decide ((E _ (QueueAcquire name) e).1 = None) then 1 else 0)%Z)
    (Hrelease : ∀ e, held (E _ (QueueRelease name) e).2 = (held e - 1)%Z)
    (Hreport : ∀ e hs x rq, held (E _ (Capture hs x) e).2 = held e ∧
                            held (E _ (LogError_ rq (Some x)) e).2 = held e)
    (Hh : ∀ w e, held (run E (h r) w e).2 = held e) :
  held (run E (QueueRequests name h lim qlim timeout r) w e).2 = held e ∧
  (lim ≠ 0 → (E _ (QueueAcquire name) e).1 = Some ErrTooManyRequests →
   (run E (QueueRequests name h lim qlim timeout r) w e).1 =
     (run E (http_Error "Too Many Requests" 429) w e).1) ∧
  (lim ≠ 0 → (E _ (QueueAcquire name) e).1 = Some ErrQueueingTimedout →
   (run E (QueueRequests name h lim qlim timeout r) w e).1 =
     (run E (http_Error "Service Unavailable" 503) w e).1).
Proof.
  assert (∀ msg code w e e', (run E (http_Error msg code) w e).1 =
    (run E (http_Error msg code) w e').1 ∧ (run E (http_Error msg code) w e).2 = e) as Hpage.
  { intros msg code w' e1 e2. unfold http_Error. cbn. by destruct (resp_write _ _). }
  unfold QueueRequests. destruct (Nat.eqb_spec lim 0) as [->|Hl]; [by split_and!|].
  rewrite !run_bind. cbn [call run]. specialize (Hacquire e).
  destruct (E _ (QueueAcquire name) e) as [err e1]. cbn [fst snd] in *.
  destruct err as [x|]; [rewrite decide_False in Hacquire by done|rewrite decide_True in Hacquire by done].
  - destruct (decide (x = ErrTooManyRequests)) as [->|Hx].
    { destruct (Hpage "Too Many Requests" 429%Z w e1 e) as [-> ->]. split_and!; [lia|done|done]. }
    destruct (decide (x = ErrQueueingTimedout)) as [->|Hx'].
    { destruct (Hpage "Service Unavailable" 503%Z w e1 e) as [-> ->]. split_and!; [lia|done|done]. }
    split_and!; [|congruence|congruence].
    unfold Helper.Fail500. rewrite run_bind.
    destruct (Hpage "Internal server error" 500%Z w e1 e) as [_ Hp].
    destruct (run E (http_Error "Internal server error" 500) w e1) as [[[u|m] w1] e2];
      cbn in Hp; subst e2; [|cbn; lia].
    unfold Helper.captureRavenError, Helper.printError. cbn [bind call run].
    destruct (Hreport e1 (Header_ <$> Helper.CleanHeadersForRaven (Some r)) x
      (Some (Method r, Helper.ScrubURLParams (RequestURI r)))) as [Hr1 _].
    destruct (E _ (Capture _ x) e1) as [[] e2].
    destruct (Hreport e2 (Header_ <$> Helper.CleanHeadersForRaven (Some r)) x
      (Some (Method r, Helper.ScrubURLParams (RequestURI r)))) as [_ Hr2].
    destruct (E _ (LogError_ _ (Some x)) e2) as [[] e3]. cbn in *. lia.
  - split_and!; [|done|done]. rewrite run_deferring. specialize (Hh w e1).
    destruct (run E (h r) w e1) as [[o w1] e2]. cbn. specialize (Hrelease e2).
    destruct (E _ (QueueRelease name) e2) as [[] e3]. cbn in *. lia.
Qed.

(** ** Examples *)

Definition one_slot : limits := {| limit := 1; queueLimit := 0; timeout := 1000 |}.
Definition two_requests : system := {| queue := empty_queue; procs := [Idle; Idle] |}.
Definition one_claimed : system :=
  {| queue := default empty_queue (send_waiting one_slot 0 empty_queue); procs := [Claimed; Idle] |}.

Lemma one_claimed_reachable : reachable initial (step one_slot) one_claimed.
Proof.
  exists two_requests. split; [split; [done|by repeat constructor]|].
  apply rtc_once. by eapply (step_acquire one_slot 0 Idle 0 false empty_queue Claimed _ [Idle; Idle]).
Qed.

Lemma queue_bounds_witness :
  countb is_running (procs one_claimed) ≤ limit one_slot ∧
  countb is_running (procs one_claimed) + countb is_queued (procs one_claimed)
    ≤ limit one_slot + queueLimit one_slot ∧
  queueingBusy (queue one_claimed) = Z.of_nat (countb holds_busy (procs one_claimed)) ∧
  queueingWaiting (queue one_claimed) =
    Z.of_nat (countb is_running (procs one_claimed) + countb is_queued (procs one_claimed)).
Proof. apply (queue_bounds one_slot one_claimed), one_claimed_reachable. Defined.

Lemma queue_refuses_when_full_witness :
  countb is_running (procs one_claimed) + countb is_queued (procs one_claimed)
  = limit one_slot + queueLimit one_slot.
Proof.
  eapply (queue_refuses_when_full one_slot one_claimed 0 false);
    [apply one_claimed_reachable|reflexivity].
Defined.

Lemma queue_drains_witness :
  sn (step one_slot) one_claimed ∧
  ∀ s', rtc (step one_slot) one_claimed s' → nf (step one_slot) s' →
    Forall (λ p, ∃ e, p = Done e) (procs s') ∧ waitingCh (queue s') = [] ∧ busyCh (queue s') = 0.
Proof. apply (queue_drains one_slot one_claimed), one_claimed_reachable. Defined.

(** An environment that refuses every request. *)
Definition full_env : env Z := λ X x n,
  match x in ext X return X * Z with
  | QueueAcquire _ => (Some ErrTooManyRequests, n)
  | QueueRelease _ => (tt, n - 1)%Z
  | x => ((HelperProps.quiet_env _ x tt).1, n)
  end.

Definition panicking : Handler := λ _, Raise "handler".
Definition some_request : Request :=
  {| Method := "GET"; URL := {| Scheme := ""; UHost := ""; Path_ := "/"; RawQuery := "" |};
     ProtoMajor := 1; ProtoMinor := 1; Header_ := ∅; Body := None; ContentLength := 0;
     Host := ""; RequestURI := "/"; RemoteAddr := "" |}.

Lemma QueueRequests_balanced_witness :
  let run_it := run full_env (QueueRequests "q" panicking 1 0 0 some_request) (new_resp ∅) 0%Z in
  id run_it.2 = 0%Z ∧
  (1 ≠ 0 → Some ErrTooManyRequests = Some ErrTooManyRequests →
   run_it.1 = (run full_env (http_Error "Too Many Requests" 429) (new_resp ∅) 0%Z).1) ∧
  (1 ≠ 0 → Some ErrTooManyRequests = Some ErrQueueingTimedout →
   run_it.1 = (run full_env (http_Error "Service Unavailable" 503) (new_resp ∅) 0%Z).1).
Proof.
  apply (QueueRequests_balanced full_env id "q" panicking 1 0 0 some_request (new_resp ∅) 0%Z).
  - intros e. destruct (decide _) as [Hd|_]; [done|]. unfold id. cbn. lia.
  - done.
  - done.
  - done.
Defined.
End Queueing.
