(* ===== verification/KeyWatcher.v ===== *)
(** * Watching keys (internal/redis/keywatcher.go)

    Long-polling requests wait for a key of Redis to change.  A watcher registers
    a channel of capacity one under its key, reads the current value, and waits;
    the process that receives the notifications sends the new value to the
    channels of the key and forgets them.  The registry is shared: its operations
    run under one mutex and are the atomic steps of the interleaving.  What Redis
    answers is an argument of the steps. *)

From S2P Require Import Prelude GoString.
From stdpp Require Import options.

Module KeyWatcher.

(** ** The registry *)

(** A channel, by its identity. *)
Abbreviation chan := nat.

(** [internal/redis/keywatcher.go:53-56 KeyChan] *)
Record KeyChan := { Key : string; Chan : chan }.

(** The map of the watchers' channels, the buffers of the channels (of capacity
    one), the two metrics, and the next unused channel.
    [internal/redis/keywatcher.go:17-39 keyWatcher] *)
Record registry := {
  keyWatcher : gmap string (list chan);
  buffers : gmap chan (option string);
  keyWatchers : Z;
  totalMessages : Z;
  next : chan;
}.

Definition empty_registry : registry :=
  {| keyWatcher := ∅; buffers := ∅; keyWatchers := 0; totalMessages := 0; next := 0 |}.

(** [make(chan string, 1)]. *)
Definition make_chan (g : registry) : chan * registry :=
  (next g, {| keyWatcher := keyWatcher g; buffers := <[next g := None]> (buffers g);
              keyWatchers := keyWatchers g; totalMessages := totalMessages g;
              next := S (next g) |}).

(** Sending blocks ([None]) when the buffer is full. *)
Definition send (c : chan) (v : string) (g : registry) : option registry :=
  match buffers g !! c with
  | Some None =>
      Some {| keyWatcher := keyWatcher g; buffers := <[c := Some v]> (buffers g);
              keyWatchers := keyWatchers g; totalMessages := totalMessages g; next := next g |}
  | _ => None
  end.

(** Receiving blocks when it is empty. *)
Definition recv (c : chan) (g : registry) : option (string * registry) :=
  match buffers g !! c with
  | Some (Some v) =>
      Some (v, {| keyWatcher := keyWatcher g; buffers := <[c := None]> (buffers g);
                  keyWatchers := keyWatchers g; totalMessages := totalMessages g; next := next g |})
  | _ => None
  end.

Definition gauge (d : Z) (g : registry) : registry :=
  {| keyWatcher := keyWatcher g; buffers := buffers g; keyWatchers := (keyWatchers g + d)%Z;
     totalMessages := totalMessages g; next := next g |}.

Definition set_watchers (m : gmap string (list chan)) (g : registry) : registry :=
  {| keyWatcher := m; buffers := buffers g; keyWatchers := keyWatchers g;
     totalMessages := totalMessages g; next := next g |}.

Fixpoint send_all (l : list chan) (v : string) (g : registry) : option registry :=
  match l with
  | [] => Some g
  | c :: l => g ← send c v g; send_all l v (gauge (-1) g)
  end.

(** [internal/redis/keywatcher.go:122-132 notifyChanWatchers] *)
Definition notifyChanWatchers (key value : string) (g : registry) : option registry :=
  match keyWatcher g !! key with
  | Some chanList =>
      g ← send_all chanList value g;
      Some (set_watchers (delete key (keyWatcher g)) g)
  | None => Some g
  end.

(** [internal/redis/keywatcher.go:134-139 addKeyChan] *)
Definition addKeyChan (kc : KeyChan) (g : registry) : registry :=
  gauge 1 (set_watchers
    (<[Key kc := default [] (keyWatcher g !! Key kc) ++ [Chan kc]]> (keyWatcher g)) g).

(** The list without the first occurrence of a channel, if there is one. *)
Fixpoint remove_first (c : chan) (l : list chan) : option (list chan) :=
  match l with
  | [] => None
  | d :: l => if decide (c = d) then Some l else (d ::.) <$> remove_first c l
  end.

(** [internal/redis/keywatcher.go:141-156 delKeyChan] *)
Definition delKeyChan (kc : KeyChan) (g : registry) : registry :=
  match keyWatcher g !! Key kc with
  | None => g
  | Some chans =>
      let g := match remove_first (Chan kc) chans with
               | Some chans' => gauge (-1) (set_watchers (<[Key kc := chans']> (keyWatcher g)) g)
               | None => g
               end in
      if decide (default [] (keyWatcher g !! Key kc) = [])
      then set_watchers (delete (Key kc) (keyWatcher g)) g else g
  end.

(** ** The process that receives notifications *)

(** What [Receive] returns: the data of a message, or an error. *)
Inductive received := Message (data : string) | Error_ (e : gerr).

(** One message of the loop.
    [internal/redis/keywatcher.go:66-83 processInner] *)
Definition process_message (data : string) (g : registry) : option registry :=
  let g := {| keyWatcher := keyWatcher g; buffers := buffers g; keyWatchers := keyWatchers g;
              totalMessages := totalMessages g + 1; next := next g |} in
  match split_n2 data "="%char with
  | [key; value] => notifyChanWatchers key value g
  | _ => Some g
  end.

Definition invalid_notification (data : string) : list gerr :=
  match split_n2 data "="%char with
  | [_; _] => []
  | _ => [Wrapf "keywatcher: invalid notification: %q" (Errorf data)]
  end.

(** The loop, on what [Receive] returns: the errors logged and the registry; it goes
    on ([None] as the result) until an error is received.  [subscribe] is the answer
    to the subscription.
    [internal/redis/keywatcher.go:58-84 processInner] *)
Fixpoint receive_loop (events : list received) (g : registry)
    : option (list gerr * option (option gerr) * registry) :=
  match events with
  | [] => Some ([], None, g)
  | Error_ e :: _ => Some ([Wrapf "keywatcher: pubsub receive: %v" e], Some None, g)
  | Message data :: events =>
      g ← process_message data g;
      '(logged, r, g) ← receive_loop events g;
      Some (invalid_notification data ++ logged, r, g)
  end.
Definition processInner (subscribe : option gerr) (events : list received) (g : registry)
    : option (list gerr * option (option gerr) * registry) :=
  match subscribe with
  | Some e => Some ([], Some (Some e), g)
  | None => receive_loop events g
  end.

(** [dial] and [ping]: what the dialer answers and the state of the connection after
    a PING.  The result, and whether the connection was closed.
    [internal/redis/keywatcher.go:86-100 dialPubSub] *)
Definition dialPubSub (dial : result nat) (ping : option gerr) : result nat * bool :=
  match dial with
  | inr e => (inr e, false)
  | inl conn =>
      match ping with
      | Some e => (inr e, true)
      | None => (inl conn, false)
      end
  end.

(** ** Watchers *)

(** [internal/redis/keywatcher.go:158-171 WatchKeyStatus] *)
Inductive WatchKeyStatus :=
  | WatchKeyStatusTimeout
  | WatchKeyStatusAlreadyChanged
  | WatchKeyStatusSeenChange
  | WatchKeyStatusNoChange.

(** Where a call of [WatchKey] is: before it registers; registered, before it
    knows the current value; waiting; returning, before the deferred removal; gone. *)
Inductive phase :=
  | Start
  | Added (c : chan)
  | Waiting (c : chan)
  | Leaving (c : chan) (r : WatchKeyStatus * option gerr)
  | Returned (r : WatchKeyStatus * option gerr).

Record watcher := { key : string; value : string; at_ : phase }.

Definition moved (w : watcher) (p : phase) : watcher :=
  {| key := key w; value := value w; at_ := p |}.

(** How a received value ends the wait. *)
Definition watch_result (value currentValue : string) : WatchKeyStatus * option gerr :=
  if decide (currentValue = "")
  then (WatchKeyStatusNoChange, Some (Errorf "keywatcher: redis GET failed"))
  else if decide (currentValue = value) then (WatchKeyStatusNoChange, None)
  else (WatchKeyStatusSeenChange, None).

(** The next step of [WatchKey].  [get] is what Redis answers to the GET, [timer]
    says that the time-out is chosen.
    [internal/redis/keywatcher.go:174-204 WatchKey] *)
Definition WatchKey (get : result string) (timer : bool) (w : watcher) (g : registry)
    : option (watcher * registry) :=
  match at_ w with
  | Start =>
      let '(c, g) := make_chan g in
      Some (moved w (Added c), addKeyChan {| Key := key w; Chan := c |} g)
  | Added c =>
      match get with
      | inr e => Some (moved w (Leaving c (WatchKeyStatusNoChange,
                                           Some (Wrapf "keywatcher: redis GET: %v" e))), g)
      | inl currentValue =>
          if decide (currentValue = value w)
          then Some (moved w (Waiting c), g)
          else Some (moved w (Leaving c (WatchKeyStatusAlreadyChanged, None)), g)
      end
  | Waiting c =>
      if timer then Some (moved w (Leaving c (WatchKeyStatusTimeout, None)), g)
      else
        '(currentValue, g) ← recv c g;
        Some (moved w (Leaving c (watch_result (value w) currentValue)), g)
  | Leaving c r =>
      Some (moved w (Returned r), delKeyChan {| Key := key w; Chan := c |} g)
  | Returned _ => None
  end.

Record system := { reg : registry; watchers : list watcher }.

(** A watcher moves, or a message arrives. *)
Inductive step : system → system → Prop :=
  | step_watch i w get timer g w' g' ws :
      ws !! i = Some w → WatchKey get timer w g = Some (w', g') →
      step {| reg := g; watchers := ws |} {| reg := g'; watchers := <[i := w']> ws |}
  | step_notify data g g' ws :
      process_message data g = Some g' →
      step {| reg := g; watchers := ws |} {| reg := g'; watchers := ws |}.

Definition initial (s : system) : Prop :=
  reg s = empty_registry ∧ Forall (λ w, at_ w = Start) (watchers s).

(** ** The invariant *)

Definition chan_of (w : watcher) : option chan :=
  match at_ w with
  | Added c | Waiting c | Leaving c _ => Some c
  | Start | Returned _ => None
  end.

Definition in_line (w : watcher) : bool :=
  match at_ w with Added _ | Waiting _ => true | _ => false end.

(** The channels registered under a key. *)
Definition registered (g : registry) (k : string) : list chan :=
  default [] (keyWatcher g !! k).

Definition total (m : gmap string (list chan)) : nat :=
  map_fold (λ _ l n, length l + n) 0 m.

(** The part of the invariant about the map alone. *)
Record wf (g : registry) : Prop := {
  wf_nodup : ∀ k, NoDup (registered g k);
  wf_nonempty : ∀ k l, keyWatcher g !! k = Some l → l ≠ [];
  wf_gauge : keyWatchers g = Z.of_nat (total (keyWatcher g));
}.

Record inv (s : system) : Prop := {
  inv_wf : wf (reg s);
  inv_fresh : ∀ c, next (reg s) ≤ c → buffers (reg s) !! c = None;
  inv_owner : ∀ i w c, watchers s !! i = Some w → chan_of w = Some c → c < next (reg s);
  inv_unique : ∀ i j w w' c, watchers s !! i = Some w → watchers s !! j = Some w' →
    chan_of w = Some c → chan_of w' = Some c → i = j;
  inv_registered : ∀ k c, c ∈ registered (reg s) k →
    buffers (reg s) !! c = Some None ∧
    ∃ i w, watchers s !! i = Some w ∧ chan_of w = Some c ∧ key w = k;
  inv_told : ∀ i w c, watchers s !! i = Some w → chan_of w = Some c → in_line w = true →
    c ∉ registered (reg s) (key w) → ∃ v, buffers (reg s) !! c = Some (Some v);
}.

(** *** Registered channels after each operation *)

Lemma total_insert m k l :
  m !! k = None → total (<[k := l]> m) = length l + total m.
Proof. intros H. unfold total. rewrite map_fold_insert_L; [done|lia|done]. Qed.

Lemma total_delete m k l :
  m !! k = Some l → total m = length l + total (delete k m).
Proof. intros H. unfold total. rewrite (map_fold_delete_L _ _ k l); [done|lia|done]. Qed.

Lemma total_replace m k l l' :
  m !! k = Some l → total (<[k := l']> m) + length l = total m + length l'.
Proof.
  intros H. rewrite (total_delete m k l H), <- insert_delete_eq.
  rewrite total_insert by apply lookup_delete_eq. lia.
Qed.

Lemma remove_first_Some c l l' :
  remove_first c l = Some l' → ∃ a b, l = a ++ c :: b ∧ l' = a ++ b.
Proof.
  revert l'. induction l as [|d l IH]; intros l' H; [done|]. cbn in H.
  case_decide; simplify_eq; [by exists [], l'|].
  destruct (remove_first c l) as [l''|]; simplify_eq/=.
  destruct (IH l'' eq_refl) as (a & b & -> & ->). by exists (d :: a), b.
Qed.

Lemma remove_first_None c l : remove_first c l = None → c ∉ l.
Proof.
  induction l as [|d l IH]; intros H; [apply not_elem_of_nil|]. cbn in H.
  case_decide; [done|]. destruct (remove_first c l); [done|].
  rewrite elem_of_cons. intros [->|Hc]; [done|]. by apply IH.
Qed.

Lemma registered_lookup g k l : keyWatcher g !! k = Some l → registered g k = l.
Proof. unfold registered. by intros ->. Qed.

Lemma addKeyChan_spec kc g :
  wf g → Chan kc ∉ registered g (Key kc) →
  let g' := addKeyChan kc g in
  wf g' ∧ buffers g' = buffers g ∧ next g' = next g ∧
  ∀ k c, c ∈ registered g' k ↔ c ∈ registered g k ∨ (k = Key kc ∧ c = Chan kc).
Proof.
  intros [Hn He Hg] Hc g'.
  assert (∀ k, registered g' k =
    if decide (k = Key kc) then registered g k ++ [Chan kc] else registered g k) as Hr.
  { intros k. unfold registered, g'. cbn. case_decide as E; [subst|].
    - by rewrite lookup_insert_eq.
    - by rewrite lookup_insert_ne. }
  split_and!; [split| | |]; try done.
  - intros k. rewrite Hr. case_decide; [|done]. subst. apply NoDup_app.
    split_and!; [done| |apply NoDup_singleton]. intros x Hx ->%list_elem_of_singleton. done.
  - intros k l. unfold g'. cbn. rewrite lookup_insert_Some. intros [[_ <-]|[_ H]]; [|by eapply He].
    by destruct (default [] _).
  - unfold g'. cbn. rewrite Hg. unfold registered in *.
    destruct (keyWatcher g !! Key kc) as [l|] eqn:E; cbn.
    + pose proof (total_replace (keyWatcher g) (Key kc) l (l ++ [Chan kc]) E) as Ht.
      rewrite length_app in Ht. cbn in Ht. lia.
    + rewrite (total_insert _ _ _ E). cbn. lia.
  - intros k c. rewrite Hr. case_decide as E; [|naive_solver].
    rewrite elem_of_app, list_elem_of_singleton. naive_solver.
Qed.

Lemma delKeyChan_spec kc g g' :
  wf g → delKeyChan kc g = g' →
  wf g' ∧ buffers g' = buffers g ∧ next g' = next g ∧
  ∀ k c, c ∈ registered g' k ↔ c ∈ registered g k ∧ ¬ (k = Key kc ∧ c = Chan kc).
Proof.
  intros Hwf. pose proof Hwf as [Hn He Hg]. unfold delKeyChan.
  destruct (keyWatcher g !! Key kc) as [l|] eqn:El.
  2:{ intros <-. split_and!; try done. intros k c. split; [|naive_solver]. intros Hc. split; [done|].
      intros [-> ->]. unfold registered in Hc. rewrite El in Hc. by apply not_elem_of_nil in Hc. }
  pose proof (registered_lookup _ _ _ El) as Hl.
  destruct (remove_first (Chan kc) l) as [l'|] eqn:Er; cbn.
  - apply remove_first_Some in Er as (a & b & -> & ->).
    rewrite lookup_insert_eq. cbn. intros Hg'.
    specialize (Hn (Key kc)) as Hnd. rewrite Hl in Hnd.
    assert (∀ k, registered g' k =
      if decide (k = Key kc) then a ++ b else registered g k) as Hr.
    { intros k. rewrite <- Hg'. destruct (decide (a ++ b = [])) as [E|E]; unfold registered; cbn;
        case_decide; subst; rewrite ?lookup_delete_eq, ?lookup_delete_ne by done;
        rewrite ?lookup_insert_eq, ?lookup_insert_ne by done; by rewrite ?E. }
    assert (NoDup (a ++ b) ∧ Chan kc ∉ a ++ b) as [Hab Hc].
    { rewrite NoDup_app in Hnd. destruct Hnd as (Ha & Hd & Hb).
      apply NoDup_cons in Hb as [Hb1 Hb2]. rewrite NoDup_app, elem_of_app. split.
      - split_and!; [done| |done]. intros x Hx Hx'. apply (Hd x Hx). by right.
      - intros [H|H]; [|done]. apply (Hd _ H). by left. }
    split_and!; [split| | |].
    + intros k. rewrite Hr. destruct (decide (k = Key kc)); [done|apply Hn].
    + intros k x. rewrite <- Hg'. destruct (decide (a ++ b = [])) as [E|E]; cbn.
      * rewrite lookup_delete_Some, lookup_insert_Some. intros [Hk [[? _]|[_ H]]]; [done|].
        by eapply He.
      * rewrite lookup_insert_Some. intros [[_ <-]|[_ H]]; [done|by eapply He].
    + rewrite <- Hg'. pose proof (total_replace _ _ _ (a ++ b) El) as Ht.
      rewrite !length_app in Ht. cbn in Ht.
      destruct (decide (a ++ b = [])) as [E|E]; cbn; rewrite Hg; [|lia].
      assert (total (<[Key kc:=a ++ b]> (keyWatcher g)) =
        length (a ++ b) + total (delete (Key kc) (<[Key kc:=a ++ b]> (keyWatcher g)))) as Hd.
      { apply total_delete, lookup_insert_eq. }
      rewrite length_app in Hd. apply (f_equal length) in E. rewrite length_app in E.
      cbn in E. lia.
    + rewrite <- Hg'. by destruct (decide (a ++ b = [])).
    + rewrite <- Hg'. by destruct (decide (a ++ b = [])).
    + intros k c. rewrite Hr. destruct (decide (k = Key kc)) as [->|]; [|naive_solver].
      rewrite Hl, !elem_of_app, elem_of_cons. split; [|naive_solver].
      intros H. split; [naive_solver|]. intros [_ ->]. by apply Hc, elem_of_app.
  - rewrite El. cbn. rewrite decide_False by (by eapply He). intros <-.
    split_and!; try done. intros k c. split; [|naive_solver]. intros Hc. split; [done|].
    intros [-> ->]. rewrite Hl in Hc. by apply remove_first_None in Er.
Qed.

(** Sending to free channels succeeds. *)
Lemma send_all_spec l v g :
  NoDup l → (∀ c, c ∈ l → buffers g !! c = Some None) →
  ∃ g', send_all l v g = Some g' ∧ keyWatcher g' = keyWatcher g ∧ next g' = next g ∧
    keyWatchers g' = (keyWatchers g - Z.of_nat (length l))%Z ∧
    ∀ c, buffers g' !! c = if decide (c ∈ l) then Some (Some v) else buffers g !! c.
Proof.
  intros Hl. revert g. induction Hl as [|c l Hc Hl IH]; intros g Hb.
  - exists g. cbn. split_and!; [done..|lia|]. intros c. by rewrite decide_False by apply not_elem_of_nil.
  - cbn [send_all]. unfold send. rewrite Hb by set_solver. cbn.
    destruct (IH (gauge (-1) {| keyWatcher := keyWatcher g; buffers := <[c:=Some v]> (buffers g);
        keyWatchers := keyWatchers g; totalMessages := totalMessages g; next := next g |}))
      as (g' & -> & Hk & Hx & Hg & Hbs).
    { intros d Hd. cbn. rewrite lookup_insert_ne by set_solver. apply Hb. set_solver. }
    exists g'. split_and!; [done|done|done|cbn in *; lia|]. intros d. rewrite Hbs. cbn.
    destruct (decide (d = c)) as [->|Hne].
    + rewrite decide_False by done. rewrite decide_True by set_solver. by rewrite lookup_insert_eq.
    + rewrite lookup_insert_ne by done. destruct (decide (d ∈ l)).
      * by rewrite decide_True by set_solver.
      * by rewrite decide_False by set_solver.
Qed.

Lemma notify_spec k v g :
  wf g → (∀ c, c ∈ registered g k → buffers g !! c = Some None) →
  ∃ g', notifyChanWatchers k v g = Some g' ∧ wf g' ∧ next g' = next g ∧
    (∀ k' c, c ∈ registered g' k' ↔ c ∈ registered g k' ∧ k' ≠ k) ∧
    ∀ c, buffers g' !! c = if decide (c ∈ registered g k) then Some (Some v) else buffers g !! c.
Proof.
  intros Hwf Hb. pose proof Hwf as [Hn He Hg]. unfold notifyChanWatchers.
  destruct (keyWatcher g !! k) as [l|] eqn:El.
  2:{ assert (registered g k = []) as Hr by (unfold registered; by rewrite El).
      exists g. split_and!; try done; rewrite ?Hr.
      - intros k' c. split; [|naive_solver]. intros Hc. split; [done|]. intros ->.
        rewrite Hr in Hc. by apply not_elem_of_nil in Hc.
      - intros c. by rewrite decide_False by apply not_elem_of_nil. }
  pose proof (registered_lookup _ _ _ El) as Hl. rewrite Hl in Hb.
  destruct (send_all_spec l v g) as (g' & -> & Hk & Hx & Hgg & Hbs);
    [by rewrite <- Hl|done|]. cbn.
  eexists. split; [done|]. rewrite Hk.
  assert (∀ k', registered (set_watchers (delete k (keyWatcher g)) g') k' =
    if decide (k' = k) then [] else registered g k') as Hr.
  { intros k'. unfold registered. cbn. case_decide; subst;
      by rewrite ?lookup_delete_eq, ?lookup_delete_ne. }
  split_and!; [split| | |].
  - intros k'. rewrite Hr. case_decide; [apply NoDup_nil_2|done].
  - intros k' x. cbn. rewrite lookup_delete_Some. intros [_ H]. by eapply He.
  - cbn. rewrite Hgg, Hg, (total_delete _ _ _ El). lia.
  - done.
  - intros k' c. rewrite Hr. case_decide; [|naive_solver]. split; [|naive_solver].
    by intros ?%not_elem_of_nil.
  - intros c. cbn. by rewrite Hbs, Hl.
Qed.

(** ** Every step keeps the invariant *)

Lemma watch_inv_initial s : initial s → inv s.
Proof.
  intros [Hg Hw]. destruct s as [g ws]. cbn in *. subst g.
  assert (∀ i w, ws !! i = Some w → chan_of w = None) as Hc.
  { intros i w Hi. eapply Forall_lookup in Hw; [|exact Hi]. unfold chan_of. by rewrite Hw. }
  assert (∀ k, registered empty_registry k = []) as Hr.
  { intros k. unfold registered. cbn. by rewrite lookup_empty. }
  split; cbn [reg watchers].
  - split; [|by intros k l; cbn; rewrite lookup_empty|done].
    intros k. rewrite Hr. apply NoDup_nil_2.
  - intros c _. apply lookup_empty.
  - intros i w c Hi Hch. by rewrite (Hc i w Hi) in Hch.
  - intros i j w w' c Hi _ Hch. by rewrite (Hc i w Hi) in Hch.
  - intros k c. rewrite Hr. by intros ?%not_elem_of_nil.
  - intros i w c Hi Hch. by rewrite (Hc i w Hi) in Hch.
Qed.

(** A watcher that keeps its channel moves. *)
Lemma inv_moved g ws i w p c :
  inv {| reg := g; watchers := ws |} → ws !! i = Some w → chan_of w = Some c →
  chan_of (moved w p) = Some c → (in_line (moved w p) = true → in_line w = true) →
  inv {| reg := g; watchers := <[i := moved w p]> ws |}.
Proof.
  intros [Hwf Hf Ho Hu Hr Ht] Hi Hc Hc' Hl. cbn [reg watchers] in *.
  assert (∀ j x, <[i:=moved w p]> ws !! j = Some x →
    ∃ y, ws !! j = Some y ∧ chan_of x = chan_of y ∧ key x = key y ∧
         (in_line x = true → in_line y = true)) as Hlook.
  { intros j x. rewrite list_lookup_insert_Some. intros [(<- & <- & _)|[_ H]].
    - exists w. rewrite Hc, Hc'. by split_and!.
    - by exists x. }
  split; cbn [reg watchers]; try done.
  - intros j x d (y & Hy & -> & _)%Hlook. by apply (Ho j y).
  - intros j j' x x' d (y & Hy & -> & _)%Hlook (y' & Hy' & -> & _)%Hlook. by apply (Hu j j' y y').
  - intros k d Hd. destruct (Hr k d Hd) as (Hb & j & x & Hj & Hx & Hk). split; [done|].
    destruct (decide (j = i)) as [->|Hne].
    + exists i, (moved w p). rewrite list_lookup_insert_eq by (by eapply lookup_lt_Some).
      split; [done|]. assert (x = w) as -> by congruence. split; [congruence|done].
    + exists j, x. by rewrite list_lookup_insert_ne.
  - intros j x d (y & Hy & -> & -> & Hyl)%Hlook Hd Hx. apply (Ht j y); auto.
Qed.

Lemma inv_start g ws i w :
  inv {| reg := g; watchers := ws |} → ws !! i = Some w → at_ w = Start →
  inv {| reg := addKeyChan {| Key := key w; Chan := next g |} (make_chan g).2;
         watchers := <[i := moved w (Added (next g))]> ws |}.
Proof.
  intros [Hwf Hf Ho Hu Hr Ht] Hi Hs. cbn [reg watchers] in *.
  set (g1 := (make_chan g).2). set (kc := {| Key := key w; Chan := next g |}).
  assert (∀ k c, c ∈ registered g k → c < next g) as Hlt.
  { intros k c Hc. destruct (Hr k c Hc) as (_ & j & x & Hj & Hx & _). by eapply Ho. }
  assert (wf g1) as Hwf1 by (destruct Hwf; by split).
  destruct (addKeyChan_spec kc g1) as (Hwf' & Hb & Hn & Hreg); [done| |].
  { intros H. apply (Hlt (key w)) in H. cbn in H. lia. }
  assert (∀ c, buffers (addKeyChan kc g1) !! c =
    if decide (c = next g) then Some None else buffers g !! c) as Hbuf.
  { intros c. rewrite Hb. cbn. case_decide; subst;
      by rewrite ?lookup_insert_eq, ?lookup_insert_ne. }
  assert (∀ j x, <[i:=moved w (Added (next g))]> ws !! j = Some x →
    (j = i ∧ x = moved w (Added (next g))) ∨ (j ≠ i ∧ ws !! j = Some x)) as Hlook.
  { intros j x. rewrite list_lookup_insert_Some. naive_solver. }
  split; cbn [reg watchers].
  - done.
  - intros c. rewrite Hn. cbn. intros Hc. rewrite Hbuf, decide_False by lia. apply Hf. lia.
  - intros j x c Hj Hc. rewrite Hn. cbn. destruct (Hlook j x Hj) as [[-> ->]|[_ Hx]].
    + cbn in Hc. simplify_eq. lia.
    + specialize (Ho j x c Hx Hc). lia.
  - intros j j' x x' c Hj Hj' Hc Hc'.
    destruct (Hlook j x Hj) as [[-> ->]|[_ Hx]], (Hlook j' x' Hj') as [[-> ->]|[_ Hx']];
      [done|..|by eapply Hu]; cbn in Hc, Hc'; simplify_eq.
    + specialize (Ho j' x' _ Hx' Hc'). lia.
    + specialize (Ho j x _ Hx Hc). lia.
  - intros k c [Hc|[-> ->]]%Hreg.
    + destruct (Hr k c Hc) as (Hbc & j & x & Hj & Hx & Hk). specialize (Hlt k c Hc).
      rewrite Hbuf, decide_False by lia. split; [done|]. exists j, x.
      rewrite list_lookup_insert_ne; [done|]. intros ->.
      assert (x = w) as -> by congruence. unfold chan_of in Hx. by rewrite Hs in Hx.
    + cbn. rewrite Hbuf, decide_True by done. split; [done|].
      exists i, (moved w (Added (next g))).
      rewrite list_lookup_insert_eq by (by eapply lookup_lt_Some). done.
  - intros j x c Hj Hc Hl Hnr. destruct (Hlook j x Hj) as [[-> ->]|[_ Hx]].
    + cbn in Hc. simplify_eq. destruct Hnr. apply Hreg. by right.
    + specialize (Ho j x c Hx Hc) as Hlt'. rewrite Hbuf, decide_False by lia.
      apply (Ht j x); auto. intros H. apply Hnr, Hreg. by left.
Qed.

Lemma inv_recv g g' ws i w c v r :
  inv {| reg := g; watchers := ws |} → ws !! i = Some w → chan_of w = Some c →
  recv c g = Some (v, g') →
  inv {| reg := g'; watchers := <[i := moved w (Leaving c r)]> ws |}.
Proof.
  intros Hinv Hi Hc Hrecv. pose proof Hinv as [Hwf Hf Ho Hu Hr Ht]. cbn [reg watchers] in *.
  unfold recv in Hrecv. destruct (buffers g !! c) as [[v'|]|] eqn:Ebuf; simplify_eq.
  assert (∀ k, c ∉ registered g k) as Hnreg.
  { intros k H. destruct (Hr k c H) as [Hb _]. congruence. }
  pose proof (inv_moved g ws i w (Leaving c r) c Hinv Hi Hc eq_refl (ltac:(done))) as Hm.
  destruct Hm as [_ Hf' Ho' Hu' Hr' Ht']. cbn [reg watchers] in *.
  split; cbn [reg watchers buffers next keyWatcher]; try done.
  - destruct Hwf. by split.
  - intros d Hd. rewrite lookup_insert_ne; [by apply Hf|]. intros ->.
    specialize (Ho i w d Hi Hc). cbn in Hd. lia.
  - intros k d Hd. destruct (Hr' k d Hd) as [Hb Hx]. split; [|done].
    rewrite lookup_insert_ne; [done|]. intros ->. by apply (Hnreg k).
  - intros j x d Hj Hd Hl Hnr. destruct (decide (d = c)) as [->|Hne].
    + assert (j = i) as ->.
      { apply (Hu' j i x (moved w (Leaving c r)) c Hj); [|done|done].
        apply list_lookup_insert_eq. by eapply lookup_lt_Some. }
      rewrite list_lookup_insert_eq in Hj by (by eapply lookup_lt_Some). by simplify_eq.
    + rewrite lookup_insert_ne by done. by apply (Ht' j x).
Qed.

Lemma inv_leave g ws i w c r :
  inv {| reg := g; watchers := ws |} → ws !! i = Some w → at_ w = Leaving c r →
  inv {| reg := delKeyChan {| Key := key w; Chan := c |} g;
         watchers := <[i := moved w (Returned r)]> ws |}.
Proof.
  intros [Hwf Hf Ho Hu Hr Ht] Hi Hs. cbn [reg watchers] in *.
  assert (chan_of w = Some c) as Hc by (unfold chan_of; by rewrite Hs).
  destruct (delKeyChan_spec {| Key := key w; Chan := c |} g _ Hwf eq_refl)
    as (Hwf' & Hb & Hn & Hreg). cbn in Hreg.
  set (g' := delKeyChan _ g) in *.
  assert (∀ j x d, <[i:=moved w (Returned r)]> ws !! j = Some x → chan_of x = Some d →
    ws !! j = Some x ∧ j ≠ i) as Hlook.
  { intros j x d. rewrite list_lookup_insert_Some. intros [(<- & <- & _)|[Hne H]] Hd; [done|].
    naive_solver. }
  split; cbn [reg watchers]; rewrite ?Hb, ?Hn; try done.
  - intros j x d Hj Hd. destruct (Hlook j x d Hj Hd) as [Hj' _]. by eapply Ho.
  - intros j j' x x' d Hj Hj' Hd Hd'. destruct (Hlook j x d Hj Hd) as [? _].
    destruct (Hlook j' x' d Hj' Hd') as [? _]. by eapply Hu.
  - intros k d [Hd Hne]%Hreg. destruct (Hr k d Hd) as (Hbd & j & x & Hj & Hx & Hk).
    split; [done|]. exists j, x. split; [|done]. rewrite list_lookup_insert_ne; [done|].
    intros ->. assert (x = w) as -> by congruence. apply Hne. split; congruence.
  - intros j x d Hj Hd Hl Hnr. destruct (Hlook j x d Hj Hd) as [Hj' Hne].
    apply (Ht j x); auto. intros H. apply Hnr, Hreg. split; [done|]. intros [_ ->].
    apply Hne. by eapply Hu.
Qed.

(** A message never blocks, and leaves a value for every watcher of its key. *)
Lemma inv_message g ws data :
  inv {| reg := g; watchers := ws |} →
  ∃ g', process_message data g = Some g' ∧ inv {| reg := g'; watchers := ws |}.
Proof.
  intros [Hwf Hf Ho Hu Hr Ht]. cbn [reg watchers] in *. unfold process_message.
  set (g0 := {| keyWatcher := keyWatcher g |}).
  assert (wf g0) as Hwf0 by (destruct Hwf; by split).
  assert (inv {| reg := g0; watchers := ws |}) as Hinv0 by (by split).
  destruct (split_n2 data "="%char) as [|k [|v [|]]]; try by exists g0.
  destruct (notify_spec k v g0 Hwf0) as (g' & -> & Hwf' & Hn & Hreg & Hb).
  { intros c Hc. by apply (Hr k). }
  exists g'. split; [done|]. split; cbn [reg watchers]; rewrite ?Hn; try done.
  - intros c Hc. rewrite Hb, decide_False; [by apply Hf|]. intros H.
    destruct (Hr k c H) as (_ & j & x & Hj & Hx & _). specialize (Ho j x c Hj Hx). cbn in Hc. lia.
  - intros k' c [Hc Hne]%Hreg. destruct (Hr k' c Hc) as (Hbc & j & x & Hj & Hx & Hk).
    split; [|by exists j, x]. rewrite Hb, decide_False; [done|]. intros H.
    destruct (Hr k c H) as (_ & j' & x' & Hj' & Hx' & Hk').
    assert (j = j') as <- by (by eapply Hu). congruence.
  - intros j x c Hj Hc Hl Hnr. rewrite Hb. case_decide as H; [by eexists|].
    apply (Ht j x); auto. intros Hin. apply Hnr, Hreg. split; [done|]. intros Hk.
    apply H. by rewrite <- Hk.
Qed.

Lemma watch_inv_step s s' : inv s → step s s' → inv s'.
Proof.
  intros H Hs. destruct Hs as [i w get timer g w' g' ws Hi Hw|data g g' ws Hm].
  - unfold WatchKey in Hw. destruct (at_ w) as [|c|c|c r|r] eqn:Ea; simplify_eq/=.
    + by apply inv_start.
    + assert (chan_of w = Some c) as Hc by (unfold chan_of; by rewrite Ea).
      destruct get as [cur|e]; [destruct (decide (cur = value w))|]; simplify_eq;
        eapply inv_moved; eauto; unfold in_line; by rewrite Ea.
    + assert (chan_of w = Some c) as Hc by (unfold chan_of; by rewrite Ea).
      destruct timer; [simplify_eq; by eapply inv_moved|].
      destruct (recv c g) as [[v g1]|] eqn:Er; simplify_eq/=. by eapply inv_recv.
    + by apply inv_leave.
  - destruct (inv_message g ws data H) as (g1 & Hg1 & Hinv). by simplify_eq.
Qed.

Lemma watch_inv_reachable s : reachable initial step s → inv s.
Proof. apply reachable_invariant; [apply watch_inv_initial|apply watch_inv_step]. Qed.

(** ** Properties *)

(** C20: in every reachable state every sequence of messages is processed without
    blocking: the sends of a notification never wait for a watcher, so the mutex is
    always released and the registry stays available. *)
Theorem notifications_never_block (s : system) (events : list received)
    (H : reachable initial step s) :
  ∃ logged r g', processInner None events (reg s) = Some (logged, r, g') ∧
    inv {| reg := g'; watchers := watchers s |}.
Proof.
  apply watch_inv_reachable in H. destruct s as [g ws]. cbn [reg watchers processInner] in *.
  revert g H. induction events as [|[data|e] events IH]; intros g H.
  - by exists [], None, g.
  - destruct (inv_message g ws data H) as (g1 & Hm & H1).
    destruct (IH g1 H1) as (logged & r & g2 & Hl & H2).
    eexists _, _, _. split; [|exact H2]. cbn. rewrite Hm. cbn. by rewrite Hl.
  - by eexists _, _, g.
Qed.

(** C19: no change is missed: once a watcher has registered, a notification of its key
    leaves a value in its channel, so it is told even if the notification comes
    before it starts to wait; the first notification is the one it gets. *)
Theorem no_missed_change (s : system) (k v : string) (g' : registry)
    (i : nat) (w : watcher) (c : chan)
    (H : reachable initial step s)
    (Hm : notifyChanWatchers k v (reg s) = Some g')
    (Hi : watchers s !! i = Some w) (Hc : chan_of w = Some c)
    (Hl : in_line w = true) (Hk : key w = k) :
  ∃ v', buffers g' !! c = Some (Some v') ∧
    (buffers (reg s) !! c = Some None → v' = v).
Proof.
  apply watch_inv_reachable in H as [Hwf _ _ _ Hr Ht].
  destruct (notify_spec k v (reg s) Hwf) as (g1 & Hg1 & _ & _ & _ & Hb).
  { intros d Hd. by apply (Hr k). }
  assert (g1 = g') as -> by congruence. rewrite Hb. case_decide as Hin.
  - exists v. done.
  - destruct (Ht i w c Hi Hc Hl) as [v' Hv]; [by rewrite Hk|]. exists v'.
    split; [done|]. intros Hn. congruence.
Qed.

(** Nothing is left behind: when every watcher has returned, whatever it returned
    and however it was interleaved with notifications, no key is registered and the
    gauge is back to zero. *)
Theorem no_leaked_watchers (s : system) (H : reachable initial step s)
    (Hret : Forall (λ w, at_ w = Start ∨ ∃ r, at_ w = Returned r) (watchers s)) :
  keyWatcher (reg s) = ∅ ∧ keyWatchers (reg s) = 0%Z.
Proof.
  apply watch_inv_reachable in H as [[_ He Hg] _ _ _ Hr _].
  assert (keyWatcher (reg s) = ∅) as Hempty.
  { apply map_empty. intros k. destruct (keyWatcher (reg s) !! k) as [l|] eqn:El; [|done].
    destruct l as [|c l]; [by destruct (He k [])|]. exfalso.
    destruct (Hr k c) as (_ & j & x & Hj & Hx & _).
    { unfold registered. rewrite El. cbn. by left. }
    eapply Forall_lookup in Hret; [|exact Hj]. unfold chan_of in Hx.
    by destruct Hret as [Hs|[r Hs]]; rewrite Hs in Hx. }
  split; [done|]. by rewrite Hg, Hempty.
Qed.

(** ** Examples *)

Definition one_watcher : system :=
  {| reg := empty_registry; watchers := [{| key := "k"; value := "1"; at_ := Start |}] |}.
Definition registered_watcher : system :=
  {| reg := addKeyChan {| Key := "k"; Chan := 0 |} (make_chan empty_registry).2;
     watchers := [{| key := "k"; value := "1"; at_ := Added 0 |}] |}.

Lemma registered_watcher_reachable : reachable initial step registered_watcher.
Proof.
  exists one_watcher. split; [split; [done|by repeat constructor]|]. apply rtc_once.
  pose (w := {| key := "k"; value := "1"; at_ := Start |}).
  exact (step_watch 0 w (inr EOF) false empty_registry (moved w (Added 0)) _ [w]
    eq_refl eq_refl).
Qed.

Lemma notifications_never_block_witness :
  ∃ logged r g', processInner None [Message "k=2"; Message "nonsense"; Error_ EOF]
    (reg registered_watcher) = Some (logged, r, g') ∧
    inv {| reg := g'; watchers := watchers registered_watcher |}.
Proof.
  apply (notifications_never_block registered_watcher), registered_watcher_reachable.
Defined.

Lemma no_missed_change_witness :
  ∃ g' v', buffers g' !! 0 = Some (Some v') ∧
    (buffers (reg registered_watcher) !! 0 = Some None → v' = "2").
Proof.
  eexists. eapply (no_missed_change registered_watcher "k" "2" _ 0);
    [apply registered_watcher_reachable|vm_compute; reflexivity|reflexivity..].
Defined.

Lemma no_leaked_watchers_witness :
  keyWatcher (reg one_watcher) = ∅ ∧ keyWatchers (reg one_watcher) = 0%Z.
Proof.
  apply (no_leaked_watchers one_watcher).
  - apply reachable_init. split; [done|by repeat constructor].
  - repeat constructor.
Defined.
End KeyWatcher.
