(* ===== verification/Reconnect.v ===== *)
(** * Reconnecting to Redis (the loop of internal/redis/keywatcher.go, and its back-off)

    The goroutine that receives notifications dials, subscribes and receives until an
    error, for ever; after a failed dial it waits, longer and longer.  The waiting times are
    those of the vendored package backoff, with its floating-point numbers taken as exact:
    doubling is, and the random factor is a fraction of 2^53. *)

From S2P Require Import Prelude GoString Http KeyWatcher.
From stdpp Require Import options.
Open Scope Z_scope.

Module Reconnect.

(** ** The back-off *)

(** [vendor/github.com/jpillora/backoff/backoff.go:16-23 Backoff] *)
Record Backoff := {
  attempt : nat;
  Factor : Z;
  Jitter : bool;
  Min : Z;
  Max : Z;
}.

Definition millisecond : Z := 1000000.
Definition maxInt64 : Z := 2 ^ 63 - 1 - 512.
(** [rand.Float64] is one of the multiples of 2^-53 below 1. *)
Definition float_range : Z := 2 ^ 53.

(** [vendor/github.com/jpillora/backoff/backoff.go:41-78 Backoff.ForAttempt] *)
Definition ForAttempt (b : Backoff) (random : Z) (n : nat) : Z :=
  let min := if Min b <=? 0 then 100 * millisecond else Min b in
  let max := if Max b <=? 0 then 10000 * millisecond else Max b in
  if max <=? min then max
  else
    let factor := if Factor b <=? 0 then 2 else Factor b in
    let dur := min * factor ^ Z.of_nat n in
    let dur := if Jitter b then min + random * (dur - min) / float_range else dur in
    if maxInt64 <? dur then max
    else if dur <? min then min else if max <? dur then max else dur.

(** [vendor/github.com/jpillora/backoff/backoff.go:27-31 Backoff.Duration] *)
Definition Duration (random : Z) (b : Backoff) : Z * Backoff :=
  (ForAttempt b random (attempt b),
   {| attempt := S (attempt b); Factor := Factor b; Jitter := Jitter b; Min := Min b; Max := Max b |}).

(** [vendor/github.com/jpillora/backoff/backoff.go:81-83 Backoff.Reset] *)
Definition Reset (b : Backoff) : Backoff :=
  {| attempt := 0; Factor := Factor b; Jitter := Jitter b; Min := Min b; Max := Max b |}.

(** [internal/redis/keywatcher.go:20-26 redisReconnectTimeout] *)
Definition redisReconnectTimeout : Backoff :=
  {| attempt := 0; Factor := 2; Jitter := true; Min := 100 * millisecond; Max := 60000 * millisecond |}.

(** ** The loop *)

(** What happens in one iteration: the dial, the state of the connection after the PING,
    the subscription, what is received, and the random number of the back-off. *)
Record iteration := {
  i_dial : result nat;
  i_ping : option gerr;
  i_subscribe : option gerr;
  i_events : list KeyWatcher.received;
  i_random : Z;
}.

Record loop := {
  timeout : Backoff;
  slept : list Z;
  opened : list nat;
  closed : list nat;
  logged : list gerr;
  reg : KeyWatcher.registry;
}.

(** One iteration; [None] when a notification blocks for ever.  The boolean says whether the
    iteration is over: it is not while more can be received.
    [internal/redis/keywatcher.go:105-119 Process] *)
Definition iterate (x : iteration) (s : loop) : option (loop * bool) :=
  let opened := match i_dial x with inl conn => opened s ++ [conn] | inr _ => opened s end in
  match KeyWatcher.dialPubSub (i_dial x) (i_ping x) with
  | (inr err, was_closed) =>
      let '(d, b) := Duration (i_random x) (timeout s) in
      Some ({| timeout := b; slept := slept s ++ [d]; opened := opened;
               closed := closed s ++ (match i_dial x with
                                      | inl conn => if was_closed then [conn] else []
                                      | inr _ => [] end);
               logged := logged s ++ [Wrapf "keywatcher: %v" err]; reg := reg s |}, true)
  | (inl conn, _) =>
      match KeyWatcher.processInner (i_subscribe x) (i_events x) (reg s) with
      | None => None
      | Some (errs, res, g) =>
          let over := match res with Some _ => true | None => false end in
          Some ({| timeout := Reset (timeout s); slept := slept s; opened := opened;
                   closed := closed s ++ (if over then [conn] else []);
                   logged := logged s ++ errs ++
                     (match res with Some (Some err) => [Wrapf "keywatcher: process loop: %v" err]
                                   | _ => [] end);
                   reg := g |}, over)
      end
  end.

(** The iterations so far.
    [internal/redis/keywatcher.go:105-120 Process] *)
Fixpoint Process (xs : list iteration) (s : loop) : option loop :=
  match xs with
  | [] => Some s
  | x :: xs =>
      match iterate x s with
      | None => None
      | Some (s, true) => Process xs s
      | Some (s, false) => Some s
      end
  end.

Definition start (g : KeyWatcher.registry) : loop :=
  {| timeout := redisReconnectTimeout; slept := []; opened := []; closed := []; logged := [];
     reg := g |}.

(** ** Facts *)

(** The dial of an iteration succeeds. *)
Definition connects (x : iteration) : bool :=
  match KeyWatcher.dialPubSub (i_dial x) (i_ping x) with (inl _, _) => true | (inr _, _) => false end.

Definition standard (b : Backoff) : Prop :=
  Factor b = 2 ∧ Jitter b = true ∧ Min b = 100 * millisecond ∧ Max b = 60000 * millisecond.

(** The waiting time after [n] failed attempts. *)
Lemma ForAttempt_bounds b random n :
  standard b → 0 ≤ random < float_range →
  100 * millisecond ≤ ForAttempt b random n ≤
    Z.min (60000 * millisecond) (100 * millisecond * 2 ^ Z.of_nat n).
Proof.
  intros (Hf & Hj & Hmin & Hmax) Hr. unfold ForAttempt. rewrite Hf, Hj, Hmin, Hmax.
  unfold float_range, millisecond, maxInt64 in *.
  change (60000 * 1000000 <=? 0) with false. change (100 * 1000000 <=? 0) with false.
  change (2 <=? 0) with false. cbv iota zeta.
  change (60000 * 1000000 <=? 100 * 1000000) with false. cbv iota.
  set (p := 2 ^ Z.of_nat n). assert (1 ≤ p) as Hp.
  { subst p. pose proof (Z.pow_pos_nonneg 2 (Z.of_nat n)). lia. }
  set (e := random * (100 * 1000000 * p - 100 * 1000000) / 2 ^ 53).
  assert (0 ≤ e ≤ 100 * 1000000 * p - 100 * 1000000) as He.
  { subst e. split; [apply Z.div_pos; nia|]. apply Z.div_le_upper_bound; nia. }
  change (2 ^ 63 - 1 - 512) with 9223372036854775295.
  destruct (Z.ltb_spec 9223372036854775295 (100 * 1000000 + e)); [lia|].
  destruct (Z.ltb_spec (100 * 1000000 + e) (100 * 1000000)); [lia|].
  destruct (Z.ltb_spec (60000 * 1000000) (100 * 1000000 + e)); lia.
Qed.

(** The waits of the loop: each after the failed dials since the last success. *)
Fixpoint waits (n : nat) (xs : list iteration) (ds : list Z) : Prop :=
  match xs with
  | [] => ds = []
  | x :: xs =>
      if connects x then waits 0 xs ds
      else
        match ds with
        | d :: ds => 100 * millisecond ≤ d ≤ Z.min (60000 * millisecond)
                       (100 * millisecond * 2 ^ Z.of_nat n) ∧ waits (S n) xs ds
        | [] => False
        end
  end.

Lemma iterate_spec x s s' over :
  iterate x s = Some (s', over) →
  if connects x then
    timeout s' = Reset (timeout s) ∧ slept s' = slept s ∧
    ∃ conn, opened s' = opened s ++ [conn] ∧ closed s' = closed s ++ (if over then [conn] else [])
  else
    over = true ∧ timeout s' = (Duration (i_random x) (timeout s)).2 ∧
    slept s' = slept s ++ [ForAttempt (timeout s) (i_random x) (attempt (timeout s))] ∧
    reg s' = reg s ∧ ∃ l, opened s' = opened s ++ l ∧ closed s' = closed s ++ l.
Proof.
  unfold iterate, connects, KeyWatcher.dialPubSub.
  destruct (i_dial x) as [conn|e]; [destruct (i_ping x) as [e|]|].
  - cbn. intros [= <- <-]. cbn. split_and!; [done..|]. by exists [conn].
  - destruct (KeyWatcher.processInner _ _ _) as [[[errs res] g]|]; [|done].
    intros [= <- <-]. cbn. split_and!; [done..|]. exists conn. by destruct res.
  - cbn. intros [= <- <-]. cbn. split_and!; [done..|]. exists []. by rewrite app_nil_r.
Qed.

(** ** Properties *)

(** C35: every connection is closed before the next dial, so that at most the one in use is open.
    The loop waits after each failed dial and at no other time: at least 100 milliseconds, at
    most a minute, and at most twice as long as it could have waited the time before; a
    connection makes the next wait short again.  The watchers that are registered stay so
    while the connection is lost. *)
Theorem Process_spec (xs : list iteration) (s s' : loop)
    (Hb : standard (timeout s)) (Hopen : opened s = closed s)
    (Hrandom : Forall (λ x, 0 ≤ i_random x < float_range) xs)
    (H : Process xs s = Some s') :
  (∃ ds done_, slept s' = slept s ++ ds ∧ done_ `prefix_of` xs ∧
     (done_ = xs ∨ opened s' ≠ closed s') ∧ waits (attempt (timeout s)) done_ ds) ∧
  (opened s' = closed s' ∨ ∃ conn, opened s' = closed s' ++ [conn]) ∧
  (Forall (λ x, connects x = false) xs → reg s' = reg s).
Proof.
  revert s Hb Hopen H. induction Hrandom as [|x xs Hx Hxs IH]; intros s Hb Hopen H; cbn in H.
  { simplify_eq. split_and!; [|by left|done]. exists [], []. rewrite app_nil_r. split_and!; [done..|by left|done]. }
  destruct (iterate x s) as [[s1 over]|] eqn:Hi; [|done]. apply iterate_spec in Hi.
  destruct (connects x) eqn:Hc.
  - destruct Hi as (Ht & Hs & conn & Ho & Hcl). destruct over.
    + destruct (IH s1) as ((ds & d & Hds & Hpre & Hd & Hw) & Hop & Hr); [by rewrite Ht|congruence|done|].
      split_and!; [|done|intros Hall; apply Forall_cons in Hall as [? ?]; congruence].
      exists ds, (x :: d). rewrite Hds, Hs. split_and!; [done|by apply prefix_cons|destruct Hd as [->|?]; [by left|by right]|].
      cbn. rewrite Hc. by rewrite Ht in Hw.
    + simplify_eq. split_and!; [|right; exists conn; rewrite Ho, Hcl, app_nil_r; congruence|
        intros Hall; apply Forall_cons in Hall as [? ?]; congruence].
      exists [], [x]. rewrite Hs, app_nil_r. split_and!; [done|by exists xs| |cbn; by rewrite Hc].
      right. rewrite Ho, Hcl, app_nil_r, Hopen. intros E. apply (f_equal length) in E.
      rewrite length_app in E. cbn in E. lia.
  - destruct Hi as (-> & Ht & Hs & Hreg & l & Ho & Hcl).
    destruct (IH s1) as ((ds & d & Hds & Hpre & Hd & Hw) & Hop & Hr);
      [by rewrite Ht|by rewrite Ho, Hcl, Hopen|done|].
    split_and!; [|done|intros Hall; apply Forall_cons in Hall as [_ ?]; rewrite <- Hreg; auto].
    eexists (_ :: ds), (x :: d). rewrite Hds, Hs, <- app_assoc.
    split_and!; [reflexivity|by apply prefix_cons|destruct Hd as [->|?]; [by left|by right]|].
    cbn. rewrite Hc. rewrite Ht in Hw.
    split; [by apply ForAttempt_bounds|exact Hw].
Qed.

(** ** Examples *)

Definition failing (r : Z) : iteration :=
  {| i_dial := inr (Errorf "refused"); i_ping := None; i_subscribe := None; i_events := [];
     i_random := r |}.
Definition unsubscribed (conn : nat) : iteration :=
  {| i_dial := inl conn; i_ping := None; i_subscribe := Some (Errorf "NOAUTH"); i_events := [];
     i_random := 0 |}.

(** Waiting longer and longer, with the largest random numbers. *)
Example back_off :
  (λ s, Z.div (slept s !!! 2%nat) millisecond) <$>
    Process (replicate 3 (failing (float_range - 1))) (start KeyWatcher.empty_registry) = Some 399.
Proof. vm_compute. reflexivity. Qed.

(** A server that accepts connections but no subscription is asked again at once, for ever:
    the error of [processInner], which its comment says is for waiting, is only logged. *)
Example no_wait_without_subscription :
  (λ s, (slept s, length (opened s))) <$>
    Process (unsubscribed <$> seq 0 100) (start KeyWatcher.empty_registry) = Some ([], 100%nat).
Proof. vm_compute. reflexivity. Qed.

Lemma Process_spec_witness :
  let xs := [failing 5; unsubscribed 0; failing 7] in
  ∃ s', Process xs (start KeyWatcher.empty_registry) = Some s' ∧
    (∃ ds done_, slept s' = [] ++ ds ∧ done_ `prefix_of` xs ∧
      (done_ = xs ∨ opened s' ≠ closed s') ∧ waits 0 done_ ds) ∧
    (opened s' = closed s' ∨ ∃ conn, opened s' = closed s' ++ [conn]) ∧
    (Forall (λ x, connects x = false) xs → reg s' = KeyWatcher.empty_registry).
Proof.
  intros xs. eexists. split; [reflexivity|].
  apply (Process_spec xs (start KeyWatcher.empty_registry)).
  - by split_and!.
  - reflexivity.
  - unfold xs, float_range. repeat constructor; cbn; lia.
  - reflexivity.
Defined.
End Reconnect.
