(* ===== verification/Redis.v ===== *)
(** * Connections to Redis (internal/redis/redis.go, RedisConfig of internal/config)

    The dialers: which options they collect, what [redis.Dial] of redigo makes of them,
    where they connect to, what is counted, and which connections are left open.  A
    dialer is a closure over a slice of options that it appends to on every call: the
    slices lie in a store, so that the closures of the pool and of the key watcher keep
    their own.  The network answers through a record of functions of the time. *)

From S2P Require Import Prelude GoString Http.
From stdpp Require Import options.

Module Redis.

(** ** Configuration *)

(** Durations are in nanoseconds.
    [internal/config/config.go:30-41 RedisConfig] *)
Record RedisConfig := {
  URL : url;
  Sentinel : list url;
  SentinelMaster : string;
  Password : string;
  DB : option Z;
  ReadTimeout : option Z;
  WriteTimeout : option Z;
  KeepAlivePeriod : option Z;
  MaxIdle : option Z;
  MaxActive : option Z;
}.

Definition second : Z := 1000000000.
Definition minute : Z := 60 * second.

(** [internal/redis/redis.go:25-25 defaultMaxIdle] *)
Definition defaultMaxIdle : Z := 1.
(** [internal/redis/redis.go:27-27 defaultMaxActive] *)
Definition defaultMaxActive : Z := 1.
(** [internal/redis/redis.go:30-30 defaultReadTimeout] *)
Definition defaultReadTimeout : Z := second.
(** [internal/redis/redis.go:33-33 defaultWriteTimeout] *)
Definition defaultWriteTimeout : Z := second.
(** [internal/redis/redis.go:37-37 defaultIdleTimeout] *)
Definition defaultIdleTimeout : Z := 3 * minute.
(** [internal/redis/redis.go:43-43 defaultKeepAlivePeriod] *)
Definition defaultKeepAlivePeriod : Z := 5 * minute.

(** ** Options of redigo *)

(** The functions that open the connection: [net.Dial], the one of a [net.Dialer] with a
    timeout, and [keepAliveDialer]. *)
Inductive netDialer := NetDial | DialerTimeout (d : Z) | KeepAliveDialer (timeout : Z).

(** The closures [redis.DialOption] holds.
    [vendor/github.com/garyburd/redigo/redis/conn.go:69-71 DialOption] *)
Inductive DialOption :=
  | DialReadTimeout (d : Z)
  | DialWriteTimeout (d : Z)
  | DialConnectTimeout (d : Z)
  | DialNetDial (dial : netDialer)
  | DialDatabase (db : Z)
  | DialPassword (password : string).

(** [vendor/github.com/garyburd/redigo/redis/conn.go:73-82 dialOptions] *)
Record dialOptions := {
  readTimeout : Z;
  writeTimeout : Z;
  dial : netDialer;
  db : Z;
  password : string;
}.

(** [vendor/github.com/garyburd/redigo/redis/conn.go:85-128 DialReadTimeout] *)
Definition apply_option (d : dialOptions) (o : DialOption) : dialOptions :=
  match o with
  | DialReadTimeout t =>
      {| readTimeout := t; writeTimeout := writeTimeout d; dial := dial d; db := db d;
         password := password d |}
  | DialWriteTimeout t =>
      {| readTimeout := readTimeout d; writeTimeout := t; dial := dial d; db := db d;
         password := password d |}
  | DialConnectTimeout t =>
      {| readTimeout := readTimeout d; writeTimeout := writeTimeout d; dial := DialerTimeout t;
         db := db d; password := password d |}
  | DialNetDial f =>
      {| readTimeout := readTimeout d; writeTimeout := writeTimeout d; dial := f; db := db d;
         password := password d |}
  | DialDatabase n =>
      {| readTimeout := readTimeout d; writeTimeout := writeTimeout d; dial := dial d; db := n;
         password := password d |}
  | DialPassword p =>
      {| readTimeout := readTimeout d; writeTimeout := writeTimeout d; dial := dial d;
         db := db d; password := p |}
  end.

(** [vendor/github.com/garyburd/redigo/redis/conn.go:148-154 Dial] *)
Definition collect (options : list DialOption) : dialOptions :=
  foldl apply_option
    {| readTimeout := 0; writeTimeout := 0; dial := NetDial; db := 0; password := "" |} options.

(** [internal/redis/redis.go:104-121 timeoutDialOptions] *)
Definition timeoutDialOptions (cfg : option RedisConfig) : list DialOption :=
  let read := match cfg with Some cfg => default defaultReadTimeout (ReadTimeout cfg)
                           | None => defaultReadTimeout end in
  let write := match cfg with Some cfg => default defaultWriteTimeout (WriteTimeout cfg)
                            | None => defaultWriteTimeout end in
  [DialReadTimeout read; DialWriteTimeout write].

(** [internal/redis/redis.go:123-138 dialOptionsBuilder] *)
Definition dialOptionsBuilder (cfg : option RedisConfig) (setTimeouts : bool) : list DialOption :=
  let dopts := if setTimeouts then timeoutDialOptions cfg else [] in
  match cfg with
  | None => dopts
  | Some cfg =>
      let dopts := if String.eqb (Password cfg) "" then dopts
                   else dopts ++ [DialPassword (Password cfg)] in
      match DB cfg with None => dopts | Some n => dopts ++ [DialDatabase n] end
  end.

(** ** The network *)

(** A state monad. *)
Definition St (S A : Type) : Type := S → A * S.
Definition ret {S A} (a : A) : St S A := λ s, (a, s).
#[global] Instance St_bind S : MBind (St S) := λ A B f m s, let '(a, s) := m s in f a s.

Lemma St_bind_run {S A B} (m : St S A) (f : A → St S B) s :
  (m ≫= f) s = let '(a, s') := m s in f a s'.
Proof. done. Qed.

(** A connection, by its number. *)
Abbreviation conn := nat.

(** What Redis replies. *)
Inductive reply :=
  | RNil
  | RString (s : string)
  | RBulk (b : bytes)
  | RInt (n : Z)
  | RArray (l : list reply)
  | RError (msg : string).

(** [internal/redis/redis.go:82-84 sentinelConn] *)
Record SentinelClient := { Addrs : list string; MasterName : string }.

(** What the network answers, at a time: name resolution, connecting with an optional
    timeout, socket options, commands, and the master a sentinel names. *)
Record Network := {
  ResolveTCPAddr : nat → string → string → result string;
  Connect : nat → option Z → string → string → option gerr;
  SetKeepAlive : nat → conn → option gerr;
  SetKeepAlivePeriod : nat → conn → Z → option gerr;
  Do : nat → conn → list string → result reply;
  MasterAddr : nat → SentinelClient → result string;
}.

(** The number of network operations so far, the open connections with their read and
    write timeouts, the commands sent and the replies, the destinations logged, and the
    counters. *)
Record world := {
  time : nat;
  conns : nat;
  open_conns : gmap conn (Z * Z);
  commands : list (conn * list string * result reply);
  dialed : list (string * string);
  totalConnections : Z;
  errorCounter : gmap (string * string) Z;
}.

Definition ask {A} (f : nat → A) : St world A := λ w,
  (f (time w),
   {| time := S (time w); conns := conns w; open_conns := open_conns w; commands := commands w;
      dialed := dialed w; totalConnections := totalConnections w;
      errorCounter := errorCounter w |}).

Definition open_fresh : St world conn := λ w,
  (conns w,
   {| time := time w; conns := S (conns w); open_conns := <[conns w := (0, 0)%Z]> (open_conns w);
      commands := commands w; dialed := dialed w; totalConnections := totalConnections w;
      errorCounter := errorCounter w |}).

Definition set_conns (f : gmap conn (Z * Z) → gmap conn (Z * Z)) : St world unit := λ w,
  (tt,
   {| time := time w; conns := conns w; open_conns := f (open_conns w); commands := commands w;
      dialed := dialed w; totalConnections := totalConnections w;
      errorCounter := errorCounter w |}).

Definition close_conn (c : conn) : St world unit := set_conns (delete c).

Definition log_command (c : conn) (args : list string) (r : result reply) : St world unit := λ w,
  (tt,
   {| time := time w; conns := conns w; open_conns := open_conns w;
      commands := commands w ++ [(c, args, r)]; dialed := dialed w;
      totalConnections := totalConnections w; errorCounter := errorCounter w |}).

Definition log_dialing (network address : string) : St world unit := λ w,
  (tt,
   {| time := time w; conns := conns w; open_conns := open_conns w; commands := commands w;
      dialed := dialed w ++ [(network, address)]; totalConnections := totalConnections w;
      errorCounter := errorCounter w |}).

Definition count_connection : St world unit := λ w,
  (tt,
   {| time := time w; conns := conns w; open_conns := open_conns w; commands := commands w;
      dialed := dialed w; totalConnections := totalConnections w + 1;
      errorCounter := errorCounter w |}).

Definition errors (w : world) (typ dst : string) : Z := default 0%Z (errorCounter w !! (typ, dst)).
Definition count_error (typ dst : string) : St world unit := λ w,
  (tt,
   {| time := time w; conns := conns w; open_conns := open_conns w; commands := commands w;
      dialed := dialed w; totalConnections := totalConnections w;
      errorCounter := <[(typ, dst) := (errors w typ dst + 1)%Z]> (errorCounter w) |}).

Section network.
Context (N : Network).

Definition connect (timeout : option Z) (network address : string) : St world (result conn) :=
  err ← ask (λ t, Connect N t timeout network address);
  match err with
  | Some err => ret (inr err)
  | None => c ← open_fresh; ret (inl c)
  end.

Definition command (c : conn) (args : list string) : St world (result reply) :=
  r ← ask (λ t, Do N t c args); _ ← log_command c args r; ret r.

(** [internal/redis/redis.go:140-158 keepAliveDialer] *)
Definition keepAliveDialer (timeout : Z) (network address : string) : St world (result conn) :=
  addr ← ask (λ t, ResolveTCPAddr N t network address);
  match addr with
  | inr err => ret (inr err)
  | inl addr =>
      tc ← connect None network addr;
      match tc with
      | inr err => ret (inr err)
      | inl tc =>
          err ← ask (λ t, SetKeepAlive N t tc);
          match err with
          | Some err => ret (inr err)
          | None =>
              err ← ask (λ t, SetKeepAlivePeriod N t tc timeout);
              match err with
              | Some err => ret (inr err)
              | None => ret (inl tc)
              end
          end
      end
  end.

Definition run_netDialer (d : netDialer) : string → string → St world (result conn) :=
  match d with
  | NetDial => connect None
  | DialerTimeout t => connect (Some t)
  | KeepAliveDialer t => keepAliveDialer t
  end.

(** A command whose failure closes the new connection. *)
Definition setup (c : conn) (args : list string) (k : St world (result conn))
    : St world (result conn) :=
  r ← command c args;
  match r with
  | inr err => _ ← close_conn c; ret (inr err)
  | inl _ => k
  end.

(** [redis.Dial], the options being collected; no option of the program asks for TLS.
    [vendor/github.com/garyburd/redigo/redis/conn.go:156-202 Dial] *)
Definition Dial_with (network address : string) (o : dialOptions) : St world (result conn) :=
  netConn ← run_netDialer (dial o) network address;
  match netConn with
  | inr err => ret (inr err)
  | inl c =>
      _ ← set_conns (insert c (readTimeout o, writeTimeout o));
      let select := if (db o =? 0)%Z then ret (inl c)
                    else setup c ["SELECT"; itoa (db o)] (ret (inl c)) in
      if String.eqb (password o) "" then select else setup c ["AUTH"; password o] select
  end.

Definition Dial (network address : string) (options : list DialOption) : St world (result conn) :=
  Dial_with network address (collect options).

(** [internal/redis/redis.go:184-191 redisDial] *)
Definition redisDial (network address : string) (options : list DialOption)
    : St world (result conn) :=
  _ ← log_dialing network address; Dial network address options.

(** ** Dialers *)

(** The slices that closures captured, the sentinel client, and the network. *)
Record net := { cells : list (list DialOption); sntnl : option SentinelClient; net_world : world }.

Definition on_world {A} (m : St world A) : St net A := λ n,
  let '(a, w) := m (net_world n) in
  (a, {| cells := cells n; sntnl := sntnl n; net_world := w |}).

(** [dopts = append(dopts, o)] on a captured slice, and its value then. *)
Definition capture (dopts : list DialOption) : St net nat := λ n,
  (length (cells n), {| cells := cells n ++ [dopts]; sntnl := sntnl n; net_world := net_world n |}).
Definition captured (cell : nat) : St net (list DialOption) := λ n,
  (default [] (cells n !! cell), n).
Definition append_option (cell : nat) (o : DialOption) : St net (list DialOption) := λ n,
  let l := default [] (cells n !! cell) ++ [o] in
  (l, {| cells := <[cell := l]> (cells n); sntnl := sntnl n; net_world := net_world n |}).

(** [internal/redis/redis.go:160-160 redisDialerFunc] *)
Definition redisDialerFunc : Type := St net (outcome (result conn)).

(** [internal/redis/redis.go:162-172 sentinelDialer] *)
Definition sentinelDialer (dopts : list DialOption) (keepAlivePeriod : Z) : St net redisDialerFunc :=
  cell ← capture dopts;
  ret (λ n, match sntnl n with
    | None => (Panic "nil pointer dereference", n)
    | Some s =>
        (address ← on_world (ask (λ t, MasterAddr N t s));
         match address with
         | inr err =>
             _ ← on_world (count_error "master" "sentinel"); ret (Value (inr err))
         | inl address =>
             dopts ← append_option cell (DialNetDial (KeepAliveDialer keepAlivePeriod));
             c ← on_world (redisDial "tcp" address dopts);
             ret (Value c)
         end) n
    end).

(** [internal/redis/redis.go:174-182 defaultDialer] *)
Definition defaultDialer (dopts : list DialOption) (keepAlivePeriod : Z) (u : url)
    : St net redisDialerFunc :=
  cell ← capture dopts;
  ret (if String.eqb (Scheme u) "unix" then
          dopts ← captured cell;
          c ← on_world (redisDial (Scheme u) (Path_ u) dopts);
          ret (Value c)
        else
          dopts ← append_option cell (DialNetDial (KeepAliveDialer keepAlivePeriod));
          c ← on_world (redisDial (Scheme u) (UHost u) dopts);
          ret (Value c)).

(** [internal/redis/redis.go:193-203 countDialer] *)
Definition countDialer (dialer : redisDialerFunc) : redisDialerFunc :=
  c ← dialer;
  match c with
  | Panic m => ret (Panic m)
  | Value (inr err) => _ ← on_world (count_error "dial" "redis"); ret (Value (inr err))
  | Value (inl c) => _ ← on_world count_connection; ret (Value (inl c))
  end.

(** [internal/redis/redis.go:206-216 DefaultDialFunc] *)
Definition DefaultDialFunc (cfg : option RedisConfig) (setReadTimeout : bool)
    : St net (outcome redisDialerFunc) :=
  match cfg with
  | None => ret (Panic "nil pointer dereference")
  | Some c => λ n,
      let keepAlivePeriod := default defaultKeepAlivePeriod (KeepAlivePeriod c) in
      let dopts := dialOptionsBuilder cfg setReadTimeout in
      match sntnl n with
      | Some _ => (d ← sentinelDialer dopts keepAlivePeriod; ret (Value (countDialer d))) n
      | None => (d ← defaultDialer dopts keepAlivePeriod (URL c); ret (Value (countDialer d))) n
      end
  end.

(** ** Configuring *)

(** What the loop over the URLs collects, [None] for no URL.
    [internal/redis/redis.go:70-84 sentinelConn] *)
Definition sentinelConn (master : string) (urls : list url) : option SentinelClient :=
  match urls with
  | [] => None
  | _ => Some {| Addrs := UHost <$> urls; MasterName := master |}
  end.

Definition millisecond : Z := 1000000.

(** [internal/redis/redis.go:85-97 sentinelConn] *)
Definition sentinelDial (addr : string) : St world (result conn) :=
  let timeout := (500 * millisecond)%Z in
  c ← Dial "tcp" addr [DialConnectTimeout timeout; DialReadTimeout timeout; DialWriteTimeout timeout];
  match c with
  | inr err => _ ← count_error "dial" "sentinel"; ret (inr err)
  | inl c => ret (inl c)
  end.

(** [redis.String].
    [vendor/github.com/garyburd/redigo/redis/reply.go:149-164 String] *)
Definition String_ (r : result reply) : result string :=
  match r with
  | inr err => inr err
  | inl (RBulk b) => inl (of_bytes b)
  | inl (RString s) => inl s
  | inl RNil => inr (Errorf "redigo: nil returned")
  | inl (RError e) => inr (Errorf e)
  | inl (RInt _ | RArray _) => inr (Errorf "redigo: unexpected type for String")
  end.

(** [vendor/github.com/FZambia/go-sentinel/sentinel.go:318-328 getRole] *)
Definition getRole (c : conn) : St world (outcome (result string)) :=
  res ← command c ["ROLE"];
  match res with
  | inr err => ret (Value (inr err))
  | inl (RArray []) => ret (Panic "index out of range")
  | inl (RArray (r :: _)) => ret (Value (String_ (inl r)))
  | inl _ => ret (Value (inr (Errorf "redigo: can not transform ROLE reply to string")))
  end.

(** [vendor/github.com/FZambia/go-sentinel/sentinel.go:307-313 TestRole] *)
Definition TestRole (c : conn) (expectedRole : string) : St world (outcome bool) :=
  o ← getRole c;
  ret match o with
      | Panic m => Panic m
      | Value (inr _) => Value false
      | Value (inl role) => Value (String.eqb role expectedRole)
      end.

(** The test of connections that lay in the pool.
    [internal/redis/redis.go:242-247 Configure] *)
Definition testMaster (c : conn) : St world (outcome (option gerr)) :=
  o ← TestRole c "master";
  ret match o with
      | Panic m => Panic m
      | Value true => Value None
      | Value false => Value (Some (Errorf "Role check failed"))
      end.

(** The fields of [redis.Pool] that are set.
    [vendor/github.com/garyburd/redigo/redis/pool.go:117-157 Pool] *)
Record Pool := {
  p_MaxIdle : Z;
  p_MaxActive : Z;
  p_IdleTimeout : Z;
  p_Wait : bool;
  p_Dial : redisDialerFunc;
  p_TestOnBorrow : option (conn → St world (outcome (option gerr)));
}.

(** The variables of the package.
    [internal/redis/redis.go:101-102 poolDialFunc] *)
Record configuration := { poolDialFunc : redisDialerFunc; workerDialFunc : redisDialerFunc;
                          pool : Pool }.

Definition set_sntnl (s : option SentinelClient) : St net unit := λ n,
  (tt, {| cells := cells n; sntnl := s; net_world := net_world n |}).

(** [internal/redis/redis.go:219-249 Configure] *)
Definition Configure (cfg : option RedisConfig)
    (dialFunc : option RedisConfig → bool → St net (outcome redisDialerFunc))
    : St net (option (outcome configuration)) :=
  match cfg with
  | None => ret None
  | Some c =>
      let maxIdle := default defaultMaxIdle (MaxIdle c) in
      let maxActive := default defaultMaxActive (MaxActive c) in
      let s := sentinelConn (SentinelMaster c) (Sentinel c) in
      _ ← set_sntnl s;
      worker ← dialFunc cfg false;
      match worker with
      | Panic m => ret (Some (Panic m))
      | Value worker =>
          forPool ← dialFunc cfg true;
          match forPool with
          | Panic m => ret (Some (Panic m))
          | Value forPool =>
              ret (Some (Value
                {| poolDialFunc := forPool; workerDialFunc := worker;
                   pool := {| p_MaxIdle := maxIdle; p_MaxActive := maxActive;
                              p_IdleTimeout := defaultIdleTimeout; p_Wait := true;
                              p_Dial := forPool;
                              p_TestOnBorrow := match s with Some _ => Some testMaster
                                                           | None => None end |} |}))
          end
      end
  end.
End network.

(** ** The settings of a connection *)

(** What a dialer of this configuration asks for, however often it was called before. *)
Definition effective (cfg : RedisConfig) (setTimeouts keepAlive : bool) : dialOptions :=
  {| readTimeout := if setTimeouts then default defaultReadTimeout (ReadTimeout cfg) else 0;
     writeTimeout := if setTimeouts then default defaultWriteTimeout (WriteTimeout cfg) else 0;
     dial := if keepAlive
             then KeepAliveDialer (default defaultKeepAlivePeriod (KeepAlivePeriod cfg))
             else NetDial;
     db := default 0%Z (DB cfg);
     password := Password cfg |}.

Lemma collect_app l k : collect (l ++ k) = foldl apply_option (collect l) k.
Proof. apply foldl_app. Qed.

Lemma collect_base cfg b : collect (dialOptionsBuilder (Some cfg) b) = effective cfg b false.
Proof.
  unfold dialOptionsBuilder, effective. destruct (String.eqb_spec (Password cfg) "") as [->|];
    destruct b, (DB cfg); reflexivity.
Qed.

(** The options for keeping alive pile up in the slice; all but one change nothing. *)
Lemma collect_captured cfg b k :
  collect (dialOptionsBuilder (Some cfg) b ++ replicate (S k)
    (DialNetDial (KeepAliveDialer (default defaultKeepAlivePeriod (KeepAlivePeriod cfg)))))
  = effective cfg b true.
Proof.
  rewrite collect_app, collect_base. induction k as [|k IH]; [reflexivity|].
  rewrite replicate_S_end, foldl_app, IH. reflexivity.
Qed.

Section facts.
Context (N : Network).

(** A dialer without memory. *)
Definition reference (cfg : RedisConfig) (setTimeouts : bool) (s : option SentinelClient)
    : St world (result conn) :=
  c ← match s with
      | Some s =>
          address ← ask (λ t, MasterAddr N t s);
          match address with
          | inr err => _ ← count_error "master" "sentinel"; ret (inr err)
          | inl address =>
              _ ← log_dialing "tcp" address;
              Dial_with N "tcp" address (effective cfg setTimeouts true)
          end
      | None =>
          let u := URL cfg in
          let unix := String.eqb (Scheme u) "unix" in
          let address := if unix then Path_ u else UHost u in
          _ ← log_dialing (Scheme u) address;
          Dial_with N (Scheme u) address (effective cfg setTimeouts (negb unix))
      end;
  match c with
  | inr err => _ ← count_error "dial" "redis"; ret (inr err)
  | inl c => _ ← count_connection; ret (inl c)
  end.

Definition piled (cfg : RedisConfig) (b : bool) (k : nat) : list DialOption :=
  dialOptionsBuilder (Some cfg) b ++ replicate k
    (DialNetDial (KeepAliveDialer (default defaultKeepAlivePeriod (KeepAlivePeriod cfg)))).

Lemma piled_S cfg b k :
  piled cfg b k ++ [DialNetDial (KeepAliveDialer (default defaultKeepAlivePeriod (KeepAlivePeriod cfg)))]
  = piled cfg b (S k).
Proof. unfold piled. by rewrite <- (assoc_L (++)), <- replicate_S_end. Qed.

Lemma collect_piled cfg b k : collect (piled cfg b (S k)) = effective cfg b true.
Proof. apply collect_captured. Qed.

Lemma collect_piled_0 cfg b : collect (piled cfg b 0) = effective cfg b false.
Proof. unfold piled. cbn [replicate]. by rewrite app_nil_r, collect_base. Qed.

(** A dialer of a Unix socket appends nothing. *)
Definition static (cfg : RedisConfig) (s : option SentinelClient) : bool :=
  match s with None => String.eqb (Scheme (URL cfg)) "unix" | Some _ => false end.

(** [d], whose slice is in [cell], does what the dialer without memory does. *)
Definition behaves (cfg : RedisConfig) (b : bool) (s : option SentinelClient) (d : redisDialerFunc)
    (cell : nat) : Prop :=
  ∀ n k, (static cfg s = true → k = 0) → cells n !! cell = Some (piled cfg b k) → sntnl n = s →
    let '(r, w) := reference cfg b s (net_world n) in
    ∃ k', (static cfg s = true → k' = 0) ∧
      d n = (Value r, {| cells := <[cell := piled cfg b k']> (cells n); sntnl := s;
                         net_world := w |}).

Ltac run_dialer := unfold base.mbind, St_bind, ret, on_world; cbn [cells sntnl net_world default].

Lemma sentinelDialer_behaves cfg b s cell :
  behaves cfg b (Some s) (countDialer (λ n, match sntnl n with
    | None => (Panic "nil pointer dereference", n)
    | Some s =>
        (address ← on_world (ask (λ t, MasterAddr N t s));
         match address with
         | inr err =>
             _ ← on_world (count_error "master" "sentinel"); ret (Value (inr err))
         | inl address =>
             dopts ← append_option cell (DialNetDial
               (KeepAliveDialer (default defaultKeepAlivePeriod (KeepAlivePeriod cfg))));
             c ← on_world (redisDial N "tcp" address dopts);
             ret (Value c)
         end) n
    end)) cell.
Proof.
  intros n k _ Hcell Hs. unfold reference, countDialer. run_dialer. rewrite Hs.
  destruct (ask _ (net_world n)) as [[a|err] w].
  - unfold append_option, redisDial, Dial. run_dialer. rewrite Hcell. cbn [default]. unfold id.
    rewrite piled_S. rewrite collect_piled.
    destruct (log_dialing "tcp" a w) as [[] w1].
    destruct (Dial_with N "tcp" a (effective cfg b true) w1) as [[c|e] w2];
      exists (S k); by rewrite ?Hs.
  - exists k. rewrite list_insert_id by done. by rewrite ?Hs.
Qed.

Lemma defaultDialer_behaves cfg b cell :
  behaves cfg b None (countDialer (if String.eqb (Scheme (URL cfg)) "unix" then
      dopts ← captured cell;
      c ← on_world (redisDial N (Scheme (URL cfg)) (Path_ (URL cfg)) dopts);
      ret (Value c)
    else
      dopts ← append_option cell (DialNetDial
        (KeepAliveDialer (default defaultKeepAlivePeriod (KeepAlivePeriod cfg))));
      c ← on_world (redisDial N (Scheme (URL cfg)) (UHost (URL cfg)) dopts);
      ret (Value c))) cell.
Proof.
  intros n k Hk Hcell Hs. unfold reference, countDialer, static in *.
  destruct (String.eqb (Scheme (URL cfg)) "unix"); cbn [negb].
  - rewrite Hk in * by done. unfold captured, redisDial, Dial. run_dialer. rewrite Hcell.
    cbn [default]. unfold id. rewrite collect_piled_0.
    destruct (log_dialing _ _ _) as [[] w1].
    destruct (Dial_with N _ _ _ w1) as [[c|e] w2]; exists 0;
      rewrite list_insert_id by done; by rewrite ?Hs.
  - unfold append_option, redisDial, Dial. run_dialer. rewrite Hcell. cbn [default]. unfold id.
    rewrite piled_S. rewrite collect_piled.
    destruct (log_dialing _ _ _) as [[] w1].
    destruct (Dial_with N _ _ _ w1) as [[c|e] w2]; exists (S k); by rewrite ?Hs.
Qed.

Lemma DefaultDialFunc_behaves cfg b s n :
  sntnl n = s →
  ∃ d, DefaultDialFunc N (Some cfg) b n =
         (Value d, {| cells := cells n ++ [piled cfg b 0]; sntnl := s; net_world := net_world n |}) ∧
       behaves cfg b s d (length (cells n)).
Proof.
  intros Hs. unfold DefaultDialFunc, piled. cbn [replicate]. rewrite app_nil_r. rewrite Hs.
  destruct s as [s|]; eexists; (split; [unfold sentinelDialer, defaultDialer, capture;
    unfold base.mbind, St_bind, ret; rewrite Hs; reflexivity|]).
  - apply sentinelDialer_behaves.
  - apply defaultDialer_behaves.
Qed.

(** Calls of the two dialers in any order ([true] is the pool's). *)
Definition dialer_of (c : configuration) (b : bool) : redisDialerFunc :=
  if b then poolDialFunc c else workerDialFunc c.
Fixpoint calls (c : configuration) (l : list bool) : St net (list (outcome (result conn))) :=
  match l with
  | [] => ret []
  | b :: l =>
      r ← dialer_of c b;
      rs ← calls c l;
      ret (r :: rs)
  end.
Fixpoint reference_calls (cfg : RedisConfig) (s : option SentinelClient) (l : list bool)
    : St world (list (outcome (result conn))) :=
  match l with
  | [] => ret []
  | b :: l => r ← reference cfg b s; rs ← reference_calls cfg s l; ret (Value r :: rs)
  end.

Lemma calls_reference cfg s c cw cp l n kw kp :
  behaves cfg false s (workerDialFunc c) cw → behaves cfg true s (poolDialFunc c) cp → cw ≠ cp →
  (static cfg s = true → kw = 0) → (static cfg s = true → kp = 0) →
  cells n !! cw = Some (piled cfg false kw) → cells n !! cp = Some (piled cfg true kp) →
  sntnl n = s →
  let '(rs, n') := calls c l n in (rs, net_world n') = reference_calls cfg s l (net_world n).
Proof.
  intros Hw Hp Hne. revert n kw kp. induction l as [|b l IH]; intros n kw kp Hkw Hkp Hcw Hcp Hs;
    [done|].
  assert (∃ n1 kw' kp', dialer_of c b n =
      (Value (reference cfg b s (net_world n)).1, n1) ∧
    net_world n1 = (reference cfg b s (net_world n)).2 ∧
    (static cfg s = true → kw' = 0) ∧ (static cfg s = true → kp' = 0) ∧
    cells n1 !! cw = Some (piled cfg false kw') ∧ cells n1 !! cp = Some (piled cfg true kp') ∧
    sntnl n1 = s) as (n1 & kw' & kp' & E & Ew & Hk1 & Hk2 & Hc1 & Hc2 & Hs1).
  { unfold dialer_of. destruct b.
    - specialize (Hp n kp Hkp Hcp Hs). destruct (reference cfg true s (net_world n)) as [r w].
      destruct Hp as (k' & Hk' & ->). eexists _, kw, k'. split; [reflexivity|]. cbn.
      rewrite list_lookup_insert_ne, list_lookup_insert_eq; [done|by eapply lookup_lt_Some|done].
    - specialize (Hw n kw Hkw Hcw Hs). destruct (reference cfg false s (net_world n)) as [r w].
      destruct Hw as (k' & Hk' & ->). eexists _, k', kp. split; [reflexivity|]. cbn.
      rewrite list_lookup_insert_eq, list_lookup_insert_ne; [done|done|by eapply lookup_lt_Some]. }
  cbn [calls reference_calls]. unfold base.mbind, St_bind, ret. rewrite E.
  destruct (reference cfg b s (net_world n)) as [r w]. cbn in Ew |- *. subst w.
  specialize (IH n1 kw' kp' Hk1 Hk2 Hc1 Hc2 Hs1).
  destruct (calls c l n1) as [rs n'], (reference_calls cfg s l (net_world n1)) as [rs' w'].
  by injection IH as -> ->.
Qed.

(** ** What a dialer leaves behind *)

(** The numbers of connections not made yet are not in use. *)
Definition fresh (w : world) : Prop := ∀ c, is_Some (open_conns w !! c) → c < conns w.

(** The sockets of [keepAliveDialer] when setting their options fails. *)
Definition leaks (d : netDialer) (c : conn) (e : gerr) : Prop :=
  ∃ k t, d = KeepAliveDialer k ∧
    (SetKeepAlive N t c = Some e ∨ SetKeepAlivePeriod N t c k = Some e).

Lemma run_netDialer_spec d network address w :
  let '(r, w') := run_netDialer N d network address w in
  commands w' = commands w ∧ dialed w' = dialed w ∧
  totalConnections w' = totalConnections w ∧ errorCounter w' = errorCounter w ∧
  match r with
  | inl c => c = conns w ∧ open_conns w' = <[c := (0, 0)%Z]> (open_conns w)
  | inr e => open_conns w' = open_conns w ∨
      leaks d (conns w) e ∧ open_conns w' = <[conns w := (0, 0)%Z]> (open_conns w)
  end.
Proof.
  assert (∀ timeout a w, let '(r, w') := connect N timeout network a w in
    commands w' = commands w ∧ dialed w' = dialed w ∧
    totalConnections w' = totalConnections w ∧ errorCounter w' = errorCounter w ∧
    match r with
    | inl c => c = conns w ∧ open_conns w' = <[c := (0, 0)%Z]> (open_conns w)
    | inr e => open_conns w' = open_conns w
    end) as Hc.
  { intros timeout a v. unfold connect, base.mbind, St_bind, ret, ask, open_fresh.
    by destruct (Connect N _ _ _ _). }
  destruct d as [|t|k]; cbn [run_netDialer].
  1,2: match goal with |- let '(_, _) := connect N ?t _ _ _ in _ => specialize (Hc t address w) end;
       destruct (connect N _ _ _ w) as [[c|e] w']; unpack; split_and!; auto.
  unfold keepAliveDialer, base.mbind, St_bind, ret. unfold ask at 1.
  destruct (ResolveTCPAddr N _ _ _) as [a|e]; [|by split_and!; auto].
  match goal with |- context [connect N None network a ?v] => specialize (Hc None a v) end.
  destruct (connect N _ _ _ _) as [[c|e] w']; cbn in Hc; [|unpack; split_and!; auto].
  destruct Hc as (H1 & H2 & H3 & H4 & -> & H5). unfold ask.
  destruct (SetKeepAlive N _ _) as [e|] eqn:E1.
  { split_and!; [done..|]. right. split; [|done]. exists k, (time w'). by split; auto. }
  cbn [time]. destruct (SetKeepAlivePeriod N _ _ _) as [e|] eqn:E2; [|by split_and!; auto].
  split_and!; [done..|]. right. split; [|done]. exists k, (S (time w')). by split; auto.
Qed.

(** The commands that prepare a new connection. *)
Definition preparation (c : conn) (o : dialOptions) : list (conn * list string) :=
  (if String.eqb (password o) "" then [] else [(c, ["AUTH"; password o])]) ++
  (if (db o =? 0)%Z then [] else [(c, ["SELECT"; itoa (db o)])]).
Definition accepted (x : conn * list string * result reply) : Prop := ∃ r, x.2 = inl r.

Lemma Dial_with_spec network address o w :
  fresh w →
  let '(r, w') := Dial_with N network address o w in
  dialed w' = dialed w ∧ totalConnections w' = totalConnections w ∧
  errorCounter w' = errorCounter w ∧
  match r with
  | inl c => open_conns w !! c = None ∧
      open_conns w' = <[c := (readTimeout o, writeTimeout o)]> (open_conns w) ∧
      ∃ l, commands w' = commands w ++ l ∧ l.*1 = preparation c o ∧ Forall accepted l
  | inr e => open_conns w' = open_conns w ∨
      leaks (dial o) (conns w) e ∧ open_conns w' = <[conns w := (0, 0)%Z]> (open_conns w)
  end.
Proof.
  intros Hf. unfold Dial_with, base.mbind at 1, St_bind at 1.
  pose proof (run_netDialer_spec (dial o) network address w) as Hd.
  destruct (run_netDialer N _ _ _ w) as [[c|e] w1]; destruct Hd as (H1 & H2 & H3 & H4 & H5); [|by split_and!; auto].
  destruct H5 as (-> & H5).
  assert (open_conns w !! conns w = None) as Hnone.
  { destruct (open_conns w !! conns w) eqn:E; [|done]. specialize (Hf (conns w)). rewrite E in Hf.
    specialize (Hf ltac:(eauto)). lia. }
  assert (∀ v, delete (conns w) (<[conns w := v]> (<[conns w := (0, 0)%Z]> (open_conns w)))
    = open_conns w) as Hdel.
  { intros v. rewrite insert_insert_eq, delete_insert_id; done. }
  unfold preparation, setup, command, base.mbind, St_bind, ret, set_conns, close_conn, ask, log_command.
  destruct (String.eqb (password o) ""), (db o =? 0)%Z; cbn;
    repeat (match goal with |- context [Do N ?t ?c ?a] => destruct (Do N t c a) as [?|?] end; cbn);
    rewrite ?H1, ?H2, ?H3, ?H4, ?H5, ?Hdel, ?insert_insert_eq; (do 3 (split; [done|])); try (by left).
  all: split; [done|split; [done|]].
  - exists []. by rewrite app_nil_r.
  - eexists [_]. split_and!; [done..|]. repeat constructor; by eexists.
  - eexists [_]. split_and!; [done..|]. repeat constructor; by eexists.
  - eexists [_; _]. rewrite <- (assoc_L (++)). split_and!; [done..|].
    repeat constructor; by eexists.
Qed.

(** What is the same in two worlds but the counters. *)
Lemma reference_spec cfg b s w :
  fresh w →
  let '(r, w') := reference cfg b s w in
  match r with
  | inl c => open_conns w !! c = None ∧
      open_conns w' = <[c := (readTimeout (effective cfg b true),
                              writeTimeout (effective cfg b true))]> (open_conns w) ∧
      (∃ l, commands w' = commands w ++ l ∧ l.*1 = preparation c (effective cfg b true) ∧
            Forall accepted l) ∧
      totalConnections w' = (totalConnections w + 1)%Z ∧ errorCounter w' = errorCounter w
  | inr e =>
      totalConnections w' = totalConnections w ∧
      errors w' "dial" "redis" = (errors w "dial" "redis" + 1)%Z ∧
      (open_conns w' = open_conns w ∨
       leaks (dial (effective cfg b true)) (conns w) e ∧
       open_conns w' = <[conns w := (0, 0)%Z]> (open_conns w))
  end.
Proof.
  intros Hf.
  (* what follows naming the address *)
  assert (∀ network address ka w, fresh w →
    let '(r, w') := (_ ← log_dialing network address;
                     Dial_with N network address (effective cfg b ka)) w in
    totalConnections w' = totalConnections w ∧ errorCounter w' = errorCounter w ∧
    match r with
    | inl c => open_conns w !! c = None ∧
        open_conns w' = <[c := (readTimeout (effective cfg b true),
                                writeTimeout (effective cfg b true))]> (open_conns w) ∧
        ∃ l, commands w' = commands w ++ l ∧ l.*1 = preparation c (effective cfg b true) ∧
             Forall accepted l
    | inr e => open_conns w' = open_conns w ∨
        leaks (dial (effective cfg b true)) (conns w) e ∧
        open_conns w' = <[conns w := (0, 0)%Z]> (open_conns w)
    end) as Hdial.
  { intros network address ka v Hv. unfold base.mbind, St_bind.
    pose proof (Dial_with_spec network address (effective cfg b ka)
      (log_dialing network address v).2 Hv) as H.
    destruct (log_dialing network address v) as [[] v1] eqn:E.
    assert (open_conns v1 = open_conns v ∧ commands v1 = commands v ∧ conns v1 = conns v ∧
      totalConnections v1 = totalConnections v ∧ errorCounter v1 = errorCounter v)
      as (E1 & E2 & E3 & E4 & E5) by (by injection E as <-).
    cbn [snd] in H. rewrite E1, E2, E3, E4, E5 in H.
    destruct (Dial_with N network address (effective cfg b ka) v1) as [[c|e] v2];
      destruct H as (_ & -> & -> & H); (split; [done|split; [done|]]); [exact H|].
    destruct H as [H|[[k [t [Hk Ht]]] H]]; [by left|right].
    split; [|done]. destruct ka; [|done]. by exists k, t. }
  unfold reference. destruct s as [s|].
  - rewrite 2!St_bind_run. unfold ask at 1.
    destruct (MasterAddr N (time w) s) as [address|err].
    + match goal with |- context [(log_dialing "tcp" address ≫= ?f) ?v] =>
        specialize (Hdial "tcp" address true v Hf);
        destruct ((log_dialing "tcp" address ≫= f) v) as [[c|e] w'] end;
        destruct Hdial as (H1 & H2 & H3); unfold base.mbind, St_bind, ret;
        cbn -[effective errors Z.add].
      * destruct H3 as (H3 & H4 & H5). by rewrite H1, H2.
      * unfold errors at 1. cbn. rewrite H1, lookup_insert_eq. unfold errors at 1. by rewrite H2.
    + unfold base.mbind, St_bind, ret. cbn -[effective errors Z.add].
      split_and!; [done| |by left]. unfold errors at 1. cbn. rewrite lookup_insert_eq.
      cbn. unfold errors at 1. cbn. by rewrite lookup_insert_ne.
  - cbv zeta. set (a := if String.eqb (Scheme (URL cfg)) "unix" then Path_ (URL cfg) else UHost (URL cfg)).
    specialize (Hdial (Scheme (URL cfg)) a (negb (String.eqb (Scheme (URL cfg)) "unix")) w Hf).
    rewrite St_bind_run.
    match goal with |- context [(log_dialing (Scheme (URL cfg)) a ≫= ?f) w] =>
      destruct ((log_dialing (Scheme (URL cfg)) a ≫= f) w) as [[c|e] w'] end;
      destruct Hdial as (H1 & H2 & H3); unfold base.mbind, St_bind, ret;
        cbn -[effective errors Z.add].
    + destruct H3 as (H3 & H4 & H5). by rewrite H1, H2.
    + unfold errors at 1. cbn. rewrite H1, lookup_insert_eq. unfold errors at 1. by rewrite H2.
Qed.
End facts.

(** ** Properties *)

(** The dialers of the pool and of the key watcher have no memory, although each
    appends to the slice it captured: called in any order, they do what dialers made anew
    for every call would.  Each connects to the master the sentinels name, or else to the
    configured address, with the configured password, database and keep-alive period;
    only the pool's connections have timeouts. *)
Theorem dialers_stateless (N : Network) (cfg : RedisConfig) (n : net) (l : list bool) :
  match Configure N (Some cfg) (DefaultDialFunc N) n with
  | (Some (Value c), n') =>
      let '(rs, n'') := calls c l n' in
      (rs, net_world n'') =
        reference_calls N cfg (sentinelConn (SentinelMaster cfg) (Sentinel cfg)) l (net_world n)
  | _ => False
  end.
Proof.
  unfold Configure. rewrite !St_bind_run. cbn [set_sntnl].
  set (s := sentinelConn _ _).
  set (n0 := {| cells := cells n; sntnl := s; net_world := net_world n |}).
  destruct (DefaultDialFunc_behaves N cfg false s n0 eq_refl) as (dw & Ew & Hw).
  unfold base.mbind, St_bind. rewrite Ew.
  match type of Ew with _ = (_, ?m) =>
    destruct (DefaultDialFunc_behaves N cfg true s m eq_refl) as (dp & Ep & Hp) end.
  cbv beta iota. rewrite Ep. unfold ret. cbv beta iota.
  match goal with |- let '(_, _) := calls ?c l ?m in _ =>
    apply (calls_reference N cfg s c (length (cells n)) (S (length (cells n))) l m 0 0) end;
    try done.
  - cbn in Hp. by rewrite length_app, Nat.add_comm in Hp.
  - cbn. rewrite <- (assoc_L (++)). by apply list_lookup_middle.
  - cbn. apply list_lookup_middle. rewrite length_app. cbn. lia.
Qed.

(** A connection that a dialer returns is new, open, with the configured timeouts, and
    Redis has accepted the password and the database; it is counted.  When a dialer fails,
    the failure is counted and no connection is left open, except one case: a socket whose
    keep-alive options could not be set is never closed. *)
Theorem DefaultDialFunc_accounts (N : Network) (cfg : RedisConfig) (b : bool) (n n1 : net)
    (d : redisDialerFunc)
    (Hd : DefaultDialFunc N (Some cfg) b n = (Value d, n1)) (Hfresh : fresh (net_world n)) :
  let w := net_world n1 in
  let w' := net_world (d n1).2 in
  match (d n1).1 with
  | Value (inl c) =>
      open_conns w !! c = None ∧
      open_conns w' = <[c := (readTimeout (effective cfg b true),
                              writeTimeout (effective cfg b true))]> (open_conns w) ∧
      (∃ l, commands w' = commands w ++ l ∧ l.*1 = preparation c (effective cfg b true) ∧
            Forall accepted l) ∧
      totalConnections w' = (totalConnections w + 1)%Z ∧ errorCounter w' = errorCounter w
  | Value (inr e) =>
      totalConnections w' = totalConnections w ∧
      errors w' "dial" "redis" = (errors w "dial" "redis" + 1)%Z ∧
      (open_conns w' = open_conns w ∨
       leaks N (dial (effective cfg b true)) (conns w) e ∧
       open_conns w' = <[conns w := (0, 0)%Z]> (open_conns w))
  | Panic _ => False
  end.
Proof.
  destruct (DefaultDialFunc_behaves N cfg b (sntnl n) n eq_refl) as (d' & E & H).
  rewrite E in Hd. injection Hd as -> <-. cbn [net_world].
  match goal with |- context [d ?m] => specialize (H m 0 ltac:(done)) end.
  specialize (H (list_lookup_middle _ [] _ _ eq_refl) eq_refl). cbn [net_world] in H.
  pose proof (reference_spec N cfg b (sntnl n) (net_world n) Hfresh) as Hr.
  destruct (reference N cfg b (sntnl n) (net_world n)) as [r w]. destruct H as (k' & _ & ->).
  cbn [fst snd net_world]. by destruct r.
Qed.

(** Without configuration nothing happens.  Otherwise the pool keeps at most the
    configured numbers of connections (one by default), waits when they are in use, and
    tests that a connection it lends leads to the master exactly if there are sentinels. *)
Theorem Configure_spec (N : Network) (cfg : RedisConfig) (n : net) :
  Configure N None (DefaultDialFunc N) n = (None, n) ∧
  ∃ c n', Configure N (Some cfg) (DefaultDialFunc N) n = (Some (Value c), n') ∧
    p_MaxIdle (pool c) = default 1%Z (MaxIdle cfg) ∧
    p_MaxActive (pool c) = default 1%Z (MaxActive cfg) ∧
    p_Wait (pool c) = true ∧ p_Dial (pool c) = poolDialFunc c ∧
    p_TestOnBorrow (pool c) =
      (if decide (Sentinel cfg = []) then None else Some (testMaster N)) ∧
    Addrs <$> sntnl n' = (if decide (Sentinel cfg = []) then None else Some (UHost <$> Sentinel cfg)).
Proof.
  split; [done|]. unfold Configure. rewrite St_bind_run. cbn [set_sntnl].
  set (s := sentinelConn _ _).
  set (n0 := {| cells := cells n; sntnl := s; net_world := net_world n |}).
  destruct (DefaultDialFunc_behaves N cfg false s n0 eq_refl) as (dw & Ew & _).
  unfold base.mbind, St_bind. rewrite Ew.
  match type of Ew with _ = (_, ?m) =>
    destruct (DefaultDialFunc_behaves N cfg true s m eq_refl) as (dp & Ep & _) end.
  cbv beta iota. rewrite Ep. eexists _, _. split; [reflexivity|]. subst s. unfold sentinelConn. cbn.
  by destruct (Sentinel cfg).
Qed.

(** ** Examples *)

(** A network on which everything succeeds. *)
Definition fine_network : Network :=
  {| ResolveTCPAddr := λ _ _ a, inl a; Connect := λ _ _ _ _, None; SetKeepAlive := λ _ _, None;
     SetKeepAlivePeriod := λ _ _ _, None; Do := λ _ _ _, inl (RString "OK");
     MasterAddr := λ _ _, inl "10.0.0.1:6379" |}.
(** One that refuses the keep-alive option. *)
Definition no_keepalive : Network :=
  {| ResolveTCPAddr := λ _ _ a, inl a; Connect := λ _ _ _ _, None;
     SetKeepAlive := λ _ _, Some (Errorf "setsockopt"); SetKeepAlivePeriod := λ _ _ _, None;
     Do := λ _ _ _, inl (RString "OK"); MasterAddr := λ _ _, inl "10.0.0.1:6379" |}.
Definition test_cfg : RedisConfig :=
  {| URL := {| Scheme := "tcp"; UHost := "localhost:6379"; Path_ := ""; RawQuery := "" |};
     Sentinel := []; SentinelMaster := ""; Password := "secret"; DB := Some 2%Z;
     ReadTimeout := None; WriteTimeout := Some 5%Z; KeepAlivePeriod := None; MaxIdle := None;
     MaxActive := None |}.
Definition start : net :=
  {| cells := []; sntnl := None;
     net_world := {| time := 0; conns := 0; open_conns := ∅; commands := []; dialed := [];
                     totalConnections := 0; errorCounter := ∅ |} |}.
Definition some_dialer (N : Network) (b : bool) : redisDialerFunc :=
  match (DefaultDialFunc N (Some test_cfg) b start).1 with Value d => d | Panic m => ret (Panic m) end.
Definition with_cell (N : Network) (b : bool) : net := (DefaultDialFunc N (Some test_cfg) b start).2.

Example dial_prepares :
  map fst (commands (net_world (some_dialer fine_network true (with_cell fine_network true)).2))
  = [(0, ["AUTH"; "secret"]); (0, ["SELECT"; "2"])].
Proof. vm_compute. reflexivity. Qed.

(** The slice of options grows with every connection. *)
Example options_pile_up :
  match Configure fine_network (Some test_cfg) (DefaultDialFunc fine_network) start with
  | (Some (Value c), n) => length <$> cells (calls c [true; true; true; false] n).2
  | _ => []
  end = [3; 7].
Proof. vm_compute. reflexivity. Qed.

Example keepAliveDialer_leaks :
  let '(r, n) := some_dialer no_keepalive false (with_cell no_keepalive false) in
  r = Value (inr (Errorf "setsockopt")) ∧ open_conns (net_world n) = {[0 := (0, 0)%Z]}.
Proof. vm_compute. done. Qed.

(** [timeoutDialOptions] and [dialOptionsBuilder] accept a nil configuration, the dialer
    does not. *)
Example DefaultDialFunc_nil :
  (DefaultDialFunc fine_network None true start).1 = Panic "nil pointer dereference" ∧
  dialOptionsBuilder None true = [DialReadTimeout second; DialWriteTimeout second].
Proof. done. Qed.

Lemma fresh_start : fresh (net_world start).
Proof. intros c [x Hx]. done. Qed.

Lemma DefaultDialFunc_accounts_witness :
  let d := some_dialer fine_network true in
  let w := net_world (with_cell fine_network true) in
  let w' := net_world (d (with_cell fine_network true)).2 in
  match (d (with_cell fine_network true)).1 with
  | Value (inl c) =>
      open_conns w !! c = None ∧
      open_conns w' = <[c := (readTimeout (effective test_cfg true true),
                              writeTimeout (effective test_cfg true true))]> (open_conns w) ∧
      (∃ l, commands w' = commands w ++ l ∧ l.*1 = preparation c (effective test_cfg true true) ∧
            Forall accepted l) ∧
      totalConnections w' = (totalConnections w + 1)%Z ∧ errorCounter w' = errorCounter w
  | Value (inr e) =>
      totalConnections w' = totalConnections w ∧
      errors w' "dial" "redis" = (errors w "dial" "redis" + 1)%Z ∧
      (open_conns w' = open_conns w ∨
       leaks fine_network (dial (effective test_cfg true true)) (conns w) e ∧
       open_conns w' = <[conns w := (0, 0)%Z]> (open_conns w))
  | Panic _ => False
  end.
Proof.
  apply (DefaultDialFunc_accounts fine_network test_cfg true start).
  - reflexivity.
  - exact fresh_start.
Defined.
End Redis.
