(* ===== verification/RedisPool.v ===== *)
(** * The pool of connections to Redis (Get and GetString of internal/redis/redis.go)

    Requests fetch keys through the pool that [Configure] sets up: redigo's [Pool], with a
    bound on the connections and a condition variable to wait on.  A goroutine in
    [GetString] goes through the critical sections of [Pool.get] and [Pool.put]; the
    goroutines interleave between them.  What the clock, the test of a connection, dialling
    and Redis answer are arguments of the steps.  The program never closes the pool. *)

From S2P Require Import Prelude GoString Http Redis.
From stdpp Require Import options.

Module RedisPool.
Abbreviation conn := Redis.conn.

(** The configured fields of the pool that bound it, and whether connections are tested. *)
Record limits := { MaxIdle : Z; MaxActive : Z; IdleTimeout : Z; tests : bool }.
Definition limits_of (p : Redis.Pool) : limits :=
  {| MaxIdle := Redis.p_MaxIdle p; MaxActive := Redis.p_MaxActive p;
     IdleTimeout := Redis.p_IdleTimeout p;
     tests := match Redis.p_TestOnBorrow p with Some _ => true | None => false end |}.

(** The number of connections handed out or idle, the idle ones with the time they came
    back, the last first, and all connections that were ever made.
    [vendor/github.com/garyburd/redigo/redis/pool.go:146-157 Pool] *)
Record pool := { active : Z; idle : list (conn * Z); made : gset conn }.

Definition empty_pool : pool := {| active := 0; idle := []; made := ∅ |}.

(** Where a goroutine is: before [get]; in the loop that prunes, with the number of turns
    left; woken from [cond.Wait]; in it; testing a connection, with the number of idle
    connections it may still try; dialling; with a connection, before [GET]; before the
    deferred [Close]; returned. *)
Inductive phase :=
  | Begin
  | Pruning (k : nat)
  | Woken
  | Sleeping
  | Testing (c : conn) (k : nat)
  | Dialing
  | Using (c : conn)
  | Closing (c : conn) (res : result string)
  | Returned (res : result string).

#[global] Instance phase_eq_dec : EqDecision phase.
Proof. solve_decision. Defined.

(** What the environment answers to a step. *)
Record answers := {
  now : Z;
  tested : bool;
  dialed : result conn;
  got : result Redis.reply;
  broken : option gerr;
}.

Section pool.
Context (l : limits).

(** [vendor/github.com/garyburd/redigo/redis/pool.go:211-216 Pool.release] *)
Definition release (p : pool) : pool :=
  {| active := active p - 1; idle := idle p; made := made p |}.

(** The body of the loop that finds a connection, with [k] turns of the inner loop left.
    [vendor/github.com/garyburd/redigo/redis/pool.go:246-294 Pool.get] *)
Definition look (k : nat) (p : pool) : phase * pool :=
  match k, idle p with
  | S k, (c, _) :: rest =>
      (if tests l then Testing c k else Using c,
       {| active := active p; idle := rest; made := made p |})
  | _, _ =>
      if ((MaxActive l =? 0) || (active p <? MaxActive l))%Z then
        (Dialing, {| active := active p + 1; idle := idle p; made := made p |})
      else (Sleeping, p)
  end.

Definition look_all (p : pool) : phase * pool := look (length (idle p)) p.

(** The loop that prunes, up to where it lets go of the lock; also whether a waiter is
    signalled.
    [vendor/github.com/garyburd/redigo/redis/pool.go:225-242 Pool.get] *)
Definition prune (k : nat) (now : Z) (p : pool) : phase * pool * bool :=
  match k, last (idle p) with
  | S k, Some (_, t) =>
      if (t + IdleTimeout l >? now)%Z then (look_all p, false)
      else (Pruning k, release {| active := active p; idle := take (length (idle p) - 1) (idle p);
                                  made := made p |}, true)
  | _, _ => (look_all p, false)
  end.

(** A connection comes back; [err] is its [Err].
    [vendor/github.com/garyburd/redigo/redis/pool.go:299-322 Pool.put] *)
Definition put (c : conn) (err : option gerr) (now : Z) (p : pool) : pool :=
  match err with
  | Some _ => release p
  | None =>
      let q := (c, now) :: idle p in
      if (Z.of_nat (length q) >? MaxIdle l)%Z
      then release {| active := active p; idle := take (length q - 1) q; made := made p |}
      else {| active := active p; idle := q; made := made p |}
  end.

(** The next critical section or external call of [GetString]: the phase after it, the
    pool, and whether a waiter is signalled.
    [internal/redis/redis.go:260-268 GetString] *)
Definition GetString (a : answers) (ph : phase) (p : pool) : option (phase * pool * bool) :=
  match ph with
  | Begin =>
      if (IdleTimeout l >? 0)%Z then Some (prune (length (idle p)) (now a) p)
      else Some (look_all p, false)
  | Pruning k => Some (prune k (now a) p)
  | Woken => Some (look_all p, false)
  | Sleeping => None
  | Testing c k =>
      if tested a then Some (Using c, p, false) else Some (look k (release p), true)
  | Dialing =>
      match dialed a with
      | inr e => Some (Returned (inr e), release p, true)
      | inl c => Some (Using c, {| active := active p; idle := idle p; made := {[c]} ∪ made p |}, false)
      end
  | Using c => Some (Closing c (Redis.String_ (got a)), p, false)
  | Closing c res => Some (Returned res, put c (broken a) (now a) p, true)
  | Returned _ => None
  end.

(** [cond.Signal]: some goroutine that waits is woken, if there is one. *)
Inductive signalled : bool → list phase → list phase → Prop :=
  | signalled_not ps : signalled false ps ps
  | signalled_nobody ps : Sleeping ∉ ps → signalled true ps ps
  | signalled_one ps j : ps !! j = Some Sleeping → signalled true ps (<[j := Woken]> ps).

Record system := { the_pool : pool; procs : list phase }.

(** Dialling gives connections that are not in use. *)
Inductive step : system → system → Prop :=
  | step_proc i ph a p ph' p' sig ps ps' :
      ps !! i = Some ph → GetString a ph p = Some (ph', p', sig) →
      (∀ c, dialed a = inl c → c ∉ made p) →
      signalled sig (<[i := ph']> ps) ps' →
      step {| the_pool := p; procs := ps |} {| the_pool := p'; procs := ps' |}.

Definition initial (s : system) : Prop :=
  the_pool s = empty_pool ∧ Forall (λ ph, ph = Begin) (procs s).
End pool.

(** Without a pool there is no connection to get.
    [internal/redis/redis.go:252-257 Get] *)
Definition Get (configured : option Redis.Pool) : option limits := limits_of <$> configured.
Definition GetString_begins (configured : option Redis.Pool) : phase :=
  match Get configured with
  | Some _ => Begin
  | None => Returned (inr (Errorf "redis: could not get connection from pool"))
  end.

(** ** Counting *)

Definition holder (ph : phase) : bool :=
  match ph with Testing _ _ | Dialing | Using _ | Closing _ _ => true | _ => false end.
Definition seeking (ph : phase) : bool :=
  match ph with Begin | Pruning _ | Woken => true | _ => false end.
Definition sleeping (ph : phase) : bool := match ph with Sleeping => true | _ => false end.

(** The connection a goroutine holds. *)
Definition holds (ph : phase) : option conn :=
  match ph with Testing c _ | Using c | Closing c _ => Some c | _ => None end.

(** The connections that could be had at once: idle, or still to be made. *)
Definition available (l : limits) (p : pool) : Z := Z.of_nat (length (idle p)) + MaxActive l - active p.

(** How much a goroutine has to do; an idle connection may make it test once more. *)
Definition weight (ph : phase) : nat :=
  match ph with
  | Begin | Pruning _ => 9
  | Woken => 8
  | Sleeping => 7
  | Testing _ _ => 10
  | Dialing => 7
  | Using _ => 6
  | Closing _ _ => 5
  | Returned _ => 0
  end.

Section facts.
Context (l : limits) (Hl : (0 ≤ MaxActive l)%Z).

Definition bounded (p : pool) : Prop := (MaxActive l ≠ 0 → active p ≤ MaxActive l)%Z.

(** What one move of a goroutine does to the counts. *)
Record effect (ph ph' : phase) (p p' : pool) (sig : bool) : Prop := {
  eff_active : (active p' - Z.of_nat (length (idle p')) - Z.b2z (holder ph') =
                active p - Z.of_nat (length (idle p)) - Z.b2z (holder ph))%Z;
  eff_bounded : bounded p';
  eff_idle : length (idle p') ≤ length (idle p) ∨
             (Z.of_nat (length (idle p')) ≤ Z.max 0 (MaxIdle l))%Z;
  eff_sleeps : ph' = Sleeping → (MaxActive l ≠ 0 ∧ available l p' ≤ 0)%Z;
  eff_available : ph' ≠ Sleeping →
                  (available l p' - Z.b2z (seeking ph') ≤
                   available l p - Z.b2z (seeking ph) + Z.b2z sig)%Z;
  eff_weight : 3 * length (idle p') + weight ph' + Nat.b2n sig < 3 * length (idle p) + weight ph;
}.

Lemma look_effect k p ph' p' :
  look l k p = (ph', p') → bounded p →
  k = length (idle p) ∨ (MaxActive l = 0 ∨ active p < MaxActive l)%Z →
  (active p' - Z.of_nat (length (idle p')) - Z.b2z (holder ph') =
   active p - Z.of_nat (length (idle p)))%Z ∧ bounded p' ∧
  length (idle p') ≤ length (idle p) ∧
  (ph' = Sleeping → MaxActive l ≠ 0 ∧ available l p' ≤ 0)%Z ∧
  seeking ph' = false ∧
  (ph' ≠ Sleeping → available l p' + 1 ≤ available l p)%Z ∧
  3 * length (idle p') + weight ph' < 3 * length (idle p) + 8.
Proof using Hl.
  intros H Hb Hk. unfold look in H. unfold bounded, available in *.
  assert (∀ q, (if ((MaxActive l =? 0) || (active p <? MaxActive l))%Z
     then (Dialing, {| active := active p + 1; idle := idle p; made := made p |})
     else (Sleeping, p)) = (ph', q) → q = p' →
     (MaxActive l = 0 ∨ active p < MaxActive l ∨ length (idle p) = 0%nat)%Z →
     (active p' - Z.of_nat (length (idle p')) - Z.b2z (holder ph') =
      active p - Z.of_nat (length (idle p)))%Z ∧ (MaxActive l ≠ 0 → active p' ≤ MaxActive l)%Z ∧
     length (idle p') ≤ length (idle p) ∧
     (ph' = Sleeping → MaxActive l ≠ 0 ∧
        Z.of_nat (length (idle p')) + MaxActive l - active p' ≤ 0)%Z ∧
     seeking ph' = false ∧
     (ph' ≠ Sleeping → Z.of_nat (length (idle p')) + MaxActive l - active p' + 1 ≤
        Z.of_nat (length (idle p)) + MaxActive l - active p)%Z ∧
     3 * length (idle p') + weight ph' < 3 * length (idle p) + 8) as Hdial.
  { intros q Hq -> Hor.
    destruct (Z.eqb_spec (MaxActive l) 0), (Z.ltb_spec (active p) (MaxActive l)); cbn in Hq;
      injection Hq as <- <-; cbn; split_and!; try done; intros; lia. }
  destruct k as [|k]; [|destruct (idle p) as [|[c t] rest] eqn:Ei].
  - apply (Hdial p'); [done..|]. destruct Hk; lia.
  - apply (Hdial p'); [done..|]. cbn. lia.
  - injection H as <- <-. cbn. destruct (tests l); cbn; split_and!; try done; intros; lia.
Qed.

Lemma look_all_effect ph p ph' p' :
  seeking ph = true → 8 ≤ weight ph → look_all l p = (ph', p') → bounded p →
  effect ph ph' p p' false.
Proof using Hl.
  intros Hs Hw H Hb. destruct (look_effect _ _ _ _ H Hb (or_introl eq_refl))
    as (H1 & H2 & H3 & H4 & H5 & H6 & H7).
  assert (holder ph = false) as Hh by (by destruct ph).
  split; [..|cbn; lia]; rewrite ?Hh, ?Hs, ?H5; cbn; auto; [lia|].
  intros H'. specialize (H6 H'). lia.
Qed.

Lemma prune_effect k now ph p ph' p' sig :
  seeking ph = true → 9 ≤ weight ph → prune l k now p = (ph', p', sig) → bounded p →
  effect ph ph' p p' sig.
Proof using Hl.
  intros Hs Hw H Hb. unfold prune in H.
  assert (∀ sig', (look_all l p, false) = (ph', p', sig') → effect ph ph' p p' sig') as Hlook.
  { intros sig' E. injection E as E <-. apply look_all_effect; [done|lia|done|done]. }
  destruct k as [|k]; [by apply Hlook|].
  destruct (last (idle p)) as [[c t]|] eqn:Elast; [|by apply Hlook].
  destruct (t + IdleTimeout l >? now)%Z; [by apply Hlook|]. injection H as <- <- <-.
  assert (1 ≤ length (idle p)) as Hn by (destruct (idle p); [done|cbn; lia]).
  assert (holder ph = false) as Hh by (by destruct ph).
  unfold bounded, available in *.
  split; unfold bounded, available; cbn; rewrite ?Hh, ?Hs, ?length_take; cbn; try done; lia.
Qed.

Lemma put_effect c res err now p :
  bounded p →
  effect (Closing c res) (Returned res) p (put l c err now p) true.
Proof using Hl.
  intros Hb. unfold put, bounded, available in *.
  destruct err as [e|]; [split; unfold bounded, available; cbn; try done; lia|].
  destruct (Z.gtb_spec (Z.of_nat (length ((c, now) :: idle p))) (MaxIdle l)) as [H|H];
    (split; unfold bounded, available; cbn; try done; rewrite ?length_take; cbn in *; lia).
Qed.

(** Every move of a goroutine. *)
Lemma GetString_effect a ph p ph' p' sig :
  GetString l a ph p = Some (ph', p', sig) → bounded p →
  effect ph ph' p p' sig.
Proof using Hl.
  intros H Hb. destruct ph as [|k| | |c k| |c|c res|res]; cbn in H; try done.
  - destruct (IdleTimeout l >? 0)%Z; injection H as H.
    + by eapply prune_effect.
    + intros. subst sig. apply look_all_effect; [done|cbn; lia|done|done].
  - injection H as H. by eapply prune_effect.
  - injection H as H <-. apply look_all_effect; [done|cbn; lia|done|done].
  - destruct (tested a).
    + injection H as <- <- <-. unfold bounded, available in *. split; unfold bounded, available; cbn; try done; lia.
    + injection H as H <-. destruct (look_effect k (release p) ph' p' H) as (H1 & H2 & H3 & H4 & H5 & H6 & H7).
      * unfold bounded in *. cbn. lia.
      * right. unfold bounded in Hb. cbn. lia.
      * split; [..|cbn in *; lia]; rewrite ?H5; cbn in *; auto; [lia|].
        intros H'. specialize (H6 H'). unfold available in *. cbn in *. lia.
  - destruct (dialed a); injection H as <- <- <-; unfold bounded, available in *; split; unfold bounded, available; cbn; try done; lia.
  - injection H as <- <- <-. unfold bounded, available in *. split; unfold bounded, available; cbn; try done; lia.
  - injection H as <- <- <-. by apply put_effect.
Qed.

(** A signal turns a goroutine that waits into one that looks. *)
Lemma signalled_counts sig ps ps' :
  signalled sig ps ps' →
  countb holder ps' = countb holder ps ∧
  ((sig = false ∨ countb sleeping ps = 0) ∧ ps' = ps ∨
   sig = true ∧ countb sleeping ps' + 1 = countb sleeping ps ∧
   countb seeking ps' = countb seeking ps + 1).
Proof.
  intros [ps0|ps0 Hn|ps0 j Hj].
  - split; [done|]. left. split; [by left|done].
  - split; [done|]. left. split; [|done]. right.
    destruct (decide (1 ≤ countb sleeping ps0)) as [H|]; [|lia].
    apply countb_pos in H as (i & x & Hi & Hx). destruct x; try done.
    exfalso. apply Hn. by eapply list_elem_of_lookup_2.
  - pose proof (countb_insert holder ps0 j Sleeping Woken Hj).
    pose proof (countb_insert sleeping ps0 j Sleeping Woken Hj).
    pose proof (countb_insert seeking ps0 j Sleeping Woken Hj). cbn in *.
    split; [lia|]. right. lia.
Qed.

Record inv (s : system) : Prop := {
  inv_active : active (the_pool s) =
    (Z.of_nat (length (idle (the_pool s))) + Z.of_nat (countb holder (procs s)))%Z;
  inv_bounded : bounded (the_pool s);
  inv_idle : (Z.of_nat (length (idle (the_pool s))) ≤ Z.max 0 (MaxIdle l))%Z;
  inv_wait : 1 ≤ countb sleeping (procs s) →
    (MaxActive l ≠ 0)%Z ∧ (available l (the_pool s) ≤ Z.of_nat (countb seeking (procs s)))%Z;
}.

Lemma pool_inv_initial s : initial s → inv s.
Proof using Hl.
  destruct s as [p ps]. intros [Hp Hps]. cbn in *. subst p.
  assert (∀ f, f Begin = false → countb f ps = 0) as Hc.
  { intros f Hf. induction Hps as [|x ps -> _ IH]; [done|]. by rewrite countb_cons, Hf, IH. }
  split; cbn; unfold bounded; cbn; rewrite ?Hc by done; lia.
Qed.

Lemma pool_inv_step s s' : inv s → step l s s' → inv s'.
Proof using Hl.
  intros Hinv Hst. destruct Hst as [i ph a p ph' p' sig ps ps' Hi Hg _ Hs].
  destruct Hinv as [H1 H2 H3 H4]. cbn in *.
  destruct (GetString_effect a ph p ph' p' sig Hg H2) as [E1 E2 E3 E4 E5 _].
  pose proof (countb_insert holder ps i ph ph' Hi) as Ch.
  pose proof (countb_insert sleeping ps i ph ph' Hi) as Cs.
  pose proof (countb_insert seeking ps i ph ph' Hi) as Ck.
  apply signalled_counts in Hs as (S1 & S2).
  assert (sleeping ph = false) as Hph by (by destruct ph).
  assert (Z.of_nat (countb holder ps') =
    (Z.of_nat (countb holder ps) + Z.b2z (holder ph') - Z.b2z (holder ph))%Z) as Ch'.
  { rewrite S1. destruct (holder ph), (holder ph'); cbn in *; lia. }
  split; cbn; [lia|done|lia|]. intros Hsl.
  destruct (sleeping ph') eqn:Eph'.
  - destruct ph'; try done. destruct (E4 eq_refl). split; [done|]. lia.
  - assert (ph' ≠ Sleeping) as Hne by (by intros ->). specialize (E5 Hne).
    rewrite Hph in Cs. cbn in Cs.
    destruct S2 as [[[->|S2] ->]|(-> & S2 & S3)]; [| lia |].
    + destruct (H4 ltac:(lia)) as [H4a H4b]. split; [done|].
      destruct (seeking ph), (seeking ph'); cbn in *; lia.
    + destruct (H4 ltac:(lia)) as [H4a H4b]. split; [done|].
      destruct (seeking ph), (seeking ph'); cbn in *; lia.
Qed.

Lemma pool_inv_reachable s : reachable initial (step l) s → inv s.
Proof using Hl. apply reachable_invariant; [apply pool_inv_initial|apply pool_inv_step]. Qed.
End facts.

(** ** Who holds which connection *)

Definition owned (s : system) : list conn := omap holds (procs s) ++ (idle (the_pool s)).*1.

Lemma omap_holds_insert ps i ph :
  ps !! i = Some ph →
  ∃ rest, ∀ ph', omap holds (<[i:=ph']> ps) ≡ₚ option_list (holds ph') ++ rest.
Proof.
  intros Hi. pose proof (lookup_lt_Some _ _ _ Hi) as Hlt.
  exists (omap holds (take i ps) ++ omap holds (drop (S i) ps)). intros ph'.
  rewrite insert_take_drop by done. rewrite omap_app. cbn.
  destruct (holds ph'); cbn; [|done]. by rewrite Permutation_middle.
Qed.

Lemma signalled_holds sig ps ps' : signalled sig ps ps' → omap holds ps' ≡ₚ omap holds ps.
Proof.
  intros [ps0|ps0 _|ps0 j Hj]; [done..|].
  destruct (omap_holds_insert ps0 j Sleeping Hj) as [rest Hr].
  rewrite (Hr Woken), <- (Hr Sleeping). by rewrite list_insert_id.
Qed.

(** A move makes no second owner of a connection: it drops some, or it has just made one. *)
Lemma GetString_owned l a ph p ph' p' sig :
  GetString l a ph p = Some (ph', p', sig) →
  (made p' = made p ∧ option_list (holds ph') ++ (idle p').*1 ⊆+ option_list (holds ph) ++ (idle p).*1) ∨
  ∃ c, dialed a = inl c ∧ ph = Dialing ∧ ph' = Using c ∧ made p' = {[c]} ∪ made p ∧ idle p' = idle p.
Proof.
  assert (∀ k p, let '(ph', p') := look l k p in
    made p' = made p ∧ option_list (holds ph') ++ (idle p').*1 ⊆+ (idle p).*1) as Hlook.
  { intros k q. unfold look. destruct k as [|k]; [|destruct (idle q) as [|[c t] rest] eqn:E].
    - by destruct (_ || _).
    - destruct (_ || _); cbn; rewrite ?E; done.
    - cbn. by destruct (tests l). }
  assert (∀ k now p, let '(ph', p', _) := prune l k now p in
    made p' = made p ∧ option_list (holds ph') ++ (idle p').*1 ⊆+ (idle p).*1) as Hprune.
  { intros k now q. unfold prune, look_all. pose proof (Hlook (length (idle q)) q) as H.
    destruct (look l _ q) as [ph1 q1]. destruct k as [|k]; [done|].
    destruct (last (idle q)) as [[c t]|]; [|done]. destruct (_ >? _)%Z; [done|]. cbn.
    split; [done|]. rewrite fmap_take. apply sublist_submseteq, sublist_take. }
  intros H. destruct ph as [|k| | |c k| |c|c res|res]; cbn in H; try done.
  - left. destruct (IdleTimeout l >? 0)%Z; injection H as H.
    + specialize (Hprune (length (idle p)) (now a) p). by rewrite H in Hprune.
    + intros. specialize (Hlook (length (idle p)) p). unfold look_all in H. by rewrite H in Hlook.
  - left. injection H as H. specialize (Hprune k (now a) p). by rewrite H in Hprune.
  - left. injection H as H _. specialize (Hlook (length (idle p)) p). unfold look_all in H.
    by rewrite H in Hlook.
  - left. destruct (tested a); injection H as H; [by simplify_eq/=|].
    intros. specialize (Hlook k (release p)). rewrite H in Hlook. destruct Hlook as [H1 H2].
    split; [done|]. cbn. by apply submseteq_cons.
  - destruct (dialed a) as [c|e]; injection H as <- <- <-; [right; by eexists|by left].
  - injection H as <- <- <-. by left.
  - injection H as <- <- <-. left. unfold put. destruct (broken a); cbn.
    + split; [done|]. by apply submseteq_cons.
    + destruct (_ >? _)%Z; cbn; [|done]. split; [done|].
      rewrite fmap_take. apply sublist_submseteq, sublist_take.
Qed.

Definition exclusive (s : system) : Prop :=
  NoDup (owned s) ∧ ∀ c, c ∈ owned s → c ∈ made (the_pool s).

Lemma exclusive_step l s s' : exclusive s → step l s s' → exclusive s'.
Proof.
  intros He Hst. destruct Hst as [i ph a p ph' p' sig ps ps' Hi Hg Hfresh Hs].
  destruct He as [Hnd Hm]. unfold exclusive, owned in *. cbn in *.
  destruct (omap_holds_insert ps i ph Hi) as [rest Hr].
  assert (omap holds ps ≡ₚ option_list (holds ph) ++ rest) as Hold.
  { rewrite <- (Hr ph). by rewrite list_insert_id. }
  rewrite Hold in Hnd. setoid_rewrite Hold in Hm. pose proof (signalled_holds _ _ _ Hs) as Hnew. rewrite (Hr ph') in Hnew.
  rewrite Hnew. setoid_rewrite Hnew. apply GetString_owned in Hg as [[-> Hg]|(c & Hc & -> & -> & -> & Hidle)].
  - assert ((option_list (holds ph') ++ rest) ++ (idle p').*1 ⊆+
            (option_list (holds ph) ++ rest) ++ (idle p).*1) as Hsub.
    { rewrite !(comm _ (option_list _) rest), <- !(assoc_L (++)). by apply submseteq_app. }
    split.
    + apply submseteq_Permutation in Hsub as [k Hk]. rewrite Hk in Hnd. by apply NoDup_app in Hnd as [? _].
    + intros c Hc. apply Hm. by eapply elem_of_submseteq.
  - rewrite Hidle. cbn in *. specialize (Hfresh c Hc). split.
    + apply NoDup_cons. split; [|done]. intros H. by apply Hfresh, Hm.
    + intros d Hd. apply elem_of_cons in Hd as [->|Hd]; [set_solver|]. apply elem_of_union. right. by apply Hm.
Qed.

Lemma exclusive_reachable l s : reachable initial (step l) s → exclusive s.
Proof.
  apply reachable_invariant; [|apply exclusive_step].
  intros [p ps] [Hp Hps]. cbn in *. subst p. unfold exclusive, owned. cbn. rewrite app_nil_r.
  assert (omap holds ps = []) as ->.
  { induction Hps as [|x ps -> _ IH]; [done|]. exact IH. }
  split; [constructor|]. intros c Hc. by apply not_elem_of_nil in Hc.
Qed.

Lemma omap_NoDup_inj {A B} (f : A → option B) xs i j x y b :
  NoDup (omap f xs) → xs !! i = Some x → xs !! j = Some y → f x = Some b → f y = Some b → i = j.
Proof.
  revert i j. induction xs as [|z xs IH]; intros i j Hnd Hi Hj Hx Hy; [done|].
  assert (∀ k w, xs !! k = Some w → f w = Some b → b ∈ omap f xs) as Hin.
  { intros k w Hk Hw. apply list_elem_of_omap. exists w. split; [by eapply list_elem_of_lookup_2|done]. }
  assert (∀ k w, xs !! k = Some w → f w = Some b → f z = Some b → False) as Hno.
  { intros k w Hk Hw Hz. cbn in Hnd. rewrite Hz in Hnd. apply NoDup_cons in Hnd as [Hnd _].
    by eapply Hnd, Hin. }
  destruct i as [|i], j as [|j]; simplify_eq/=; [done|exfalso; by eapply Hno..|].
  f_equal. eapply IH; [|done..]. destruct (f z); [by apply NoDup_cons in Hnd as [_ ?]|done].
Qed.

Lemma pool_can_move l s i ph :
  procs s !! i = Some ph → ph ≠ Sleeping → (∀ r, ph ≠ Returned r) → ∃ s', step l s s'.
Proof.
  destruct s as [p ps]. cbn. intros Hi Hs Hr.
  set (a := {| now := 0; tested := true; dialed := inr EOF; got := inr EOF; broken := None |}).
  assert (∃ ph' p' sig, GetString l a ph p = Some (ph', p', sig)) as (ph' & p' & sig & Hg).
  { destruct ph; cbn; try done; try (by destruct (Hr res));
      repeat case_match; repeat match goal with
        | |- context [prune l ?k ?n ?q] => destruct (prune l k n q) as [[? ?] ?]
        | |- context [look_all l ?q] => destruct (look_all l q) as [? ?]
        end; by eexists _, _, _. }
  assert (∃ ps', signalled sig (<[i := ph']> ps) ps') as [ps' Hs'].
  { destruct sig; [|eexists; constructor].
    destruct (decide (Sleeping ∈ <[i:=ph']> ps)) as [H|H]; [|eexists; by constructor].
    apply list_elem_of_lookup in H as [j Hj]. eexists. by econstructor. }
  eexists. by eapply step_proc.
Qed.

Definition measure (s : system) : nat :=
  3 * length (idle (the_pool s)) + sum_list_with weight (procs s).

Lemma signalled_weight sig ps ps' :
  signalled sig ps ps' → sum_list_with weight ps' ≤ sum_list_with weight ps + Nat.b2n sig.
Proof.
  intros [ps0|ps0 _|ps0 j Hj]; [cbn; lia..|].
  pose proof (sum_list_with_insert weight ps0 j Sleeping Woken Hj). cbn in *. lia.
Qed.

Lemma pool_measure l s s' :
  (0 ≤ MaxActive l)%Z → inv l s → step l s s' → measure s' < measure s.
Proof.
  intros Hl Hinv Hst. destruct Hst as [i ph a p ph' p' sig ps ps' Hi Hg _ Hs].
  pose proof (eff_weight l _ _ _ _ _ (GetString_effect l Hl a ph p ph' p' sig Hg (inv_bounded l _ Hinv))).
  pose proof (sum_list_with_insert weight ps i ph ph' Hi).
  pose proof (signalled_weight _ _ _ Hs). unfold measure. cbn [the_pool procs]. lia.
Qed.

(** ** Properties *)

(** C21: however the requests that read from Redis interleave, there are never more
    connections than configured, no more idle ones than configured, and no two requests use
    one connection. *)
Theorem pool_bounds (l : limits) (s : system) (Hl : (0 ≤ MaxActive l)%Z)
    (H : reachable initial (step l) s) :
  (MaxActive l ≠ 0%Z →
   Z.of_nat (countb holder (procs s)) + Z.of_nat (length (idle (the_pool s))) ≤ MaxActive l)%Z ∧
  (Z.of_nat (length (idle (the_pool s))) ≤ Z.max 0 (MaxIdle l))%Z ∧
  (∀ i j c, procs s !! i = Some (Using c) → procs s !! j = Some (Using c) → i = j) ∧
  (∀ i c, procs s !! i = Some (Using c) → c ∉ (idle (the_pool s)).*1).
Proof.
  destruct (pool_inv_reachable l Hl s H) as [H1 H2 H3 _].
  destruct (exclusive_reachable l s H) as [Hnd _]. unfold owned in Hnd.
  apply NoDup_app in Hnd as (Hnd & Hdis & _). unfold bounded in H2. split_and!; [lia|done|..].
  - intros i j c Hi Hj. by eapply (omap_NoDup_inj holds).
  - intros i c Hi. apply Hdis. apply list_elem_of_omap. exists (Using c).
    split; [by eapply list_elem_of_lookup_2|done].
Qed.

(** C22: every request that reads from Redis gets an answer, whatever fails: no execution
    goes on for ever, and none stops with a request waiting for a connection (no wake-up is
    lost); in the end all connections are idle in the pool or closed. *)
Theorem pool_drains (l : limits) (s : system) (Hl : (0 ≤ MaxActive l)%Z)
    (H : reachable initial (step l) s) :
  sn (step l) s ∧
  ∀ s', rtc (step l) s s' → nf (step l) s' →
    Forall (λ ph, ∃ r, ph = Returned r) (procs s') ∧
    active (the_pool s') = Z.of_nat (length (idle (the_pool s'))).
Proof.
  split.
  - apply (sn_measure _ (inv l) measure); [|by apply pool_inv_reachable].
    intros s1 s2 Hi Hs. split; [by eapply pool_inv_step|by eapply pool_measure].
  - intros s' Hs Hnf.
    destruct (pool_inv_reachable l Hl s' (reachable_rtc _ _ _ _ H Hs)) as [H1 _ _ H4].
    assert (∀ i ph, procs s' !! i = Some ph → ph = Sleeping ∨ ∃ r, ph = Returned r) as Hph.
    { intros i ph Hi. destruct ph; try (by eauto); exfalso; apply Hnf;
        by eapply (pool_can_move l s' i). }
    assert (∀ f, f Sleeping = false → (∀ r, f (Returned r) = false) → countb f (procs s') = 0) as Hc.
    { intros f Hf Hr. destruct (decide (1 ≤ countb f (procs s'))) as [Hp|]; [|lia].
      apply countb_pos in Hp as (i & ph & Hi & Hx).
      destruct (Hph i ph Hi) as [->|[r ->]]; by rewrite ?Hf, ?Hr in Hx. }
    rewrite (Hc holder) in H1 by done. rewrite (Hc seeking) in H4 by done.
    split; [|lia]. apply Forall_lookup. intros i ph Hi. destruct (Hph i ph Hi) as [->|]; [|done].
    exfalso. destruct H4 as [Hne Hav]; [by eapply countb_lookup|].
    unfold available in Hav. lia.
Qed.

(** ** Examples *)

Definition one : limits := {| MaxIdle := 1; MaxActive := 1; IdleTimeout := 100; tests := false |}.
Definition good (c : conn) : answers :=
  {| now := 0; tested := true; dialed := inl c; got := inl (Redis.RString "v"); broken := None |}.
Definition two_requests : system := {| the_pool := empty_pool; procs := [Begin; Begin] |}.
(** One request has the connection, the other one waits for it. *)
Definition waiting : system :=
  {| the_pool := {| active := 1; idle := []; made := {[7]} ∪ ∅ |}; procs := [Using 7; Sleeping] |}.

Lemma waiting_reachable : reachable initial (step one) waiting.
Proof.
  exists two_requests. split; [split; [done|by repeat constructor]|].
  eapply rtc_l; [eapply (step_proc one 0 Begin (good 7)); [done|done|set_solver|constructor]|].
  eapply rtc_l; [eapply (step_proc one 1 Begin (good 7)); [done|done|set_solver|constructor]|].
  eapply rtc_l; [eapply (step_proc one 0 Dialing (good 7)); [done|done|set_solver|constructor]|].
  apply rtc_refl.
Qed.

(** Giving the connection back wakes the one that waits. *)
Example waiting_wakes :
  ∃ s, rtc (step one) waiting s ∧ procs s = [Returned (inl "v"); Woken] ∧ idle (the_pool s) = [(7, 0%Z)].
Proof.
  eexists. split; [|split]; cycle 1.
  - shelve.
  - shelve.
  - eapply rtc_l; [eapply (step_proc one 0 (Using 7) (good 8)); [done|done|set_solver|constructor]|].
    eapply rtc_l; [eapply (step_proc one 0 (Closing 7 (inl "v")) (good 8));
      [done|done|set_solver|by apply (signalled_one _ 1)]|]. apply rtc_refl.
  Unshelve. all: reflexivity.
Qed.

(** A negative number of connections is not refused: nobody ever gets one. *)
Example negative_waits_for_ever :
  look_all {| MaxIdle := 1; MaxActive := -1; IdleTimeout := 100; tests := false |} empty_pool
  = (Sleeping, empty_pool).
Proof. done. Qed.

Lemma pool_bounds_witness :
  (MaxActive one ≠ 0%Z →
   Z.of_nat (countb holder (procs waiting)) + Z.of_nat (length (idle (the_pool waiting)))
     ≤ MaxActive one)%Z ∧
  (Z.of_nat (length (idle (the_pool waiting))) ≤ Z.max 0 (MaxIdle one))%Z ∧
  (∀ i j c, procs waiting !! i = Some (Using c) → procs waiting !! j = Some (Using c) → i = j) ∧
  (∀ i c, procs waiting !! i = Some (Using c) → c ∉ (idle (the_pool waiting)).*1).
Proof. apply (pool_bounds one waiting); [done|apply waiting_reachable]. Defined.

Lemma pool_drains_witness :
  sn (step one) waiting ∧
  ∀ s', rtc (step one) waiting s' → nf (step one) s' →
    Forall (λ ph, ∃ r, ph = Returned r) (procs s') ∧
    active (the_pool s') = Z.of_nat (length (idle (the_pool s'))).
Proof. apply (pool_drains one waiting); [done|apply waiting_reachable]. Defined.
End RedisPool.
