(* ===== verification/Builds.v ===== *)
(** * Long polling for jobs (internal/builds)

    A runner asks for a job: the handler reads the request, waits for the runner's
    queue key to change when the runner knows the current value, and either passes
    the request on or answers that there is nothing new.  [json.Unmarshal] on the
    request and the watch are parameters; the watch the program uses is the one of
    KeyWatcher. *)

From S2P Require Import Prelude GoString Http GoNet Helper KeyWatcher.
From stdpp Require Import options.

Module Builds.
Import KeyWatcher.

(** [internal/builds/register.go:15-20 maxRegisterBodySize] *)
Definition maxRegisterBodySize : Z := 32 * 1024.
Definition runnerBuildQueue : string := "runner:build_queue:".
Definition runnerBuildQueueHeaderKey : string := "Gitlab-Ci-Builds-Polling".
Definition runnerBuildQueueHeaderValue : string := "yes".

(** [internal/builds/register.go:63-66 runnerRequest] *)
Record runnerRequest := { Token : string; LastUpdate : string }.

(** [internal/builds/register.go:54-54 WatchKeyHandler] *)
Definition WatchKeyHandler : Type :=
  string → string → Z → prog (WatchKeyStatus * option gerr).

(** The gauges and the counters of the handler.
    [internal/builds/register.go:22-50 registerHandlerRequests] *)
Definition count (status : string) : prog unit :=
  call (Metric "gitlab_workhorse_builds_register_handler_requests" [status] 1).
Definition open (state : string) (d : Z) : prog unit :=
  call (Metric "gitlab_workhorse_builds_register_handler_open" [state] d).

(** [p] while the gauge of [state] is one higher. *)
Definition while_open {A} (state : string) (p : prog A) : prog A :=
  open state 1;; deferring (open state (-1)) p.

Section handler.
Context (json_Unmarshal : bytes → result runnerRequest).
Context (h : Handler) (watchHandler : WatchKeyHandler).

(** [internal/builds/register.go:68-73 readRunnerBody] *)
Definition readRunnerBody (r : Request) : prog (bytes * option gerr) :=
  while_open "reading" (Ret (Helper.ReadRequestBody r maxRegisterBodySize)).

(** [internal/builds/register.go:75-87 readRunnerRequest] *)
Definition readRunnerRequest (r : Request) (body : bytes) : result runnerRequest :=
  if negb (Helper.IsApplicationJson r) then inr (Errorf "invalid content-type received")
  else json_Unmarshal body.

(** [internal/builds/register.go:89-94 proxyRegisterRequest] *)
Definition proxyRegisterRequest (r : Request) : prog unit := while_open "proxying" (h r).

(** [internal/builds/register.go:96-101 watchForRunnerChange] *)
Definition watchForRunnerChange (token lastUpdate : string) (duration : Z)
    : prog (WatchKeyStatus * option gerr) :=
  while_open "watching" (watchHandler (runnerBuildQueue +:+ token) lastUpdate duration).

(** [internal/builds/register.go:103-169 RegisterHandler] *)
Definition RegisterHandler (pollingDuration : Z) : Handler :=
  if (pollingDuration =? 0)%Z then h
  else λ r,
    header_set runnerBuildQueueHeaderKey runnerBuildQueueHeaderValue;;
    '(requestBody, err) <- readRunnerBody r;;
    match err with
    | Some e =>
        count "body-read-error";;
        Helper.RequestEntityTooLarge r (Wrapf "largeBodyError" e)
    | None =>
        let newRequest := Helper.CloneRequestWithNewBody r requestBody in
        match readRunnerRequest r requestBody with
        | inr _ => count "body-parse-error";; proxyRegisterRequest newRequest
        | inl rr =>
            if String.eqb (Token rr) "" || String.eqb (LastUpdate rr) "" then
              count "missing-values";; proxyRegisterRequest newRequest
            else
              '(result, err) <- watchForRunnerChange (Token rr) (LastUpdate rr) pollingDuration;;
              match err with
              | Some _ => count "watch-error";; proxyRegisterRequest newRequest
              | None =>
                  match result with
                  | WatchKeyStatusAlreadyChanged =>
                      count "already-changed";; proxyRegisterRequest newRequest
                  | WatchKeyStatusSeenChange => count "seen-change";; write_header 204
                  | WatchKeyStatusTimeout => count "timeout";; write_header 204
                  | WatchKeyStatusNoChange => count "no-change";; write_header 204
                  end
              end
        end
    end.
End handler.

(** ** What the handler promises

    The decision, apart from the metrics: the watch is asked only when it is
    needed. *)
Inductive decision := TooLarge (e : gerr) | ProxyIt | NothingNew.

Definition after_watch (o : WatchKeyStatus * option gerr) : decision :=
  match o with
  | (WatchKeyStatusAlreadyChanged, None) | (_, Some _) => ProxyIt
  | (_, None) => NothingNew
  end.

Definition decision_of json_Unmarshal (r : Request)
    : decision + (string * string) :=
  match Helper.ReadRequestBody r maxRegisterBodySize with
  | (_, Some e) => inl (TooLarge e)
  | (body, None) =>
      match readRunnerRequest json_Unmarshal r body with
      | inr _ => inl ProxyIt
      | inl rr =>
          if String.eqb (Token rr) "" || String.eqb (LastUpdate rr) "" then inl ProxyIt
          else inr (runnerBuildQueue +:+ Token rr, LastUpdate rr)
      end
  end.

(** What is sent for a decision. *)
Definition respond (h : Handler) (r : Request) (d : decision) : prog unit :=
  match d with
  | TooLarge e => Helper.RequestEntityTooLarge r (Wrapf "largeBodyError" e)
  | ProxyIt =>
      h (Helper.CloneRequestWithNewBody r (Helper.ReadRequestBody r maxRegisterBodySize).1)
  | NothingNew => write_header 204
  end.

(** The specification: no metrics. *)
Definition register_spec json_Unmarshal (h : Handler) (watch : WatchKeyHandler)
    (pollingDuration : Z) (r : Request) : prog unit :=
  header_set runnerBuildQueueHeaderKey runnerBuildQueueHeaderValue;;
  match decision_of json_Unmarshal r with
  | inl d => respond h r d
  | inr (key, value) =>
      o <- watch key value pollingDuration;;
      respond h r (after_watch o)
  end.

(** The gauge of open requests. *)
Definition is_open_gauge {X} (x : ext X) (st : string) (d : Z) : Prop :=
  match x with
  | Metric n l d' => n = "gitlab_workhorse_builds_register_handler_open" ∧ l = [st] ∧ d' = d
  | _ => False
  end.

(** ** Erasing metrics *)

Section erase.
Context {V : Type} (E : env V).

(** An environment in which metrics change nothing. *)
Definition ignores_metrics : Prop := ∀ n l d e, (E _ (Metric n l d) e).2 = e.

Context (HE : ignores_metrics).

Lemma run_count s w e : run E (count s) w e = (Value tt, w, e).
Proof using HE.
  unfold count. cbn. pose proof (HE "gitlab_workhorse_builds_register_handler_requests" [s] 1%Z e).
  destruct (E _ _ e) as [[] e']. cbn in *. by subst.
Qed.

Lemma run_open s d w e : run E (open s d) w e = (Value tt, w, e).
Proof using HE.
  unfold open. cbn. pose proof (HE "gitlab_workhorse_builds_register_handler_open" [s] d e).
  destruct (E _ _ e) as [[] e']. cbn in *. by subst.
Qed.

Lemma run_while_open {A} s (p : prog A) w e : run E (while_open s p) w e = run E p w e.
Proof using HE.
  unfold while_open. rewrite run_bind, run_open, run_deferring.
  destruct (run E p w e) as [[o w'] e']. by rewrite run_open.
Qed.
End erase.

(** ** Properties *)

(** Whatever the metrics, the handler sends what its specification sends: a body
    that is too large or cannot be read is refused with 413; a request without
    both values, one that is not JSON, one whose watch fails and one whose key had
    already changed is passed on with its body intact; otherwise the answer is 204. *)
Theorem RegisterHandler_spec {V} (E : env V) json_Unmarshal (h : Handler)
    (watch : WatchKeyHandler) (pollingDuration : Z) (r : Request) (w : resp) (e : V)
    (Hpoll : pollingDuration ≠ 0%Z) (HE : ignores_metrics E) :
  run E (RegisterHandler json_Unmarshal h watch pollingDuration r) w e =
  run E (register_spec json_Unmarshal h watch pollingDuration r) w e.
Proof.
  unfold RegisterHandler, register_spec, decision_of, respond.
  rewrite (proj2 (Z.eqb_neq _ _) Hpoll). rewrite !run_bind.
  cbn [header_set run]. rewrite run_bind. unfold readRunnerBody.
  rewrite run_while_open by done. cbn [run].
  destruct (Helper.ReadRequestBody r maxRegisterBodySize) as [body [x|]] eqn:Eb.
  { by rewrite run_bind, run_count. }
  destruct (readRunnerRequest json_Unmarshal r body) as [rr|x].
  2:{ rewrite run_bind, run_count by done. by apply run_while_open. }
  destruct (_ || _).
  { rewrite run_bind, run_count by done. by apply run_while_open. }
  rewrite !run_bind. unfold watchForRunnerChange. rewrite run_while_open by done.
  destruct (run E (watch _ _ _) _ e) as [[[[res err]|m] w1] e1]; [|done].
  destruct err as [x|].
  { rewrite run_bind, run_count by done. unfold proxyRegisterRequest.
    rewrite run_while_open by done. by destruct res. }
  destruct res; rewrite run_bind, run_count by done; try done. by apply run_while_open.
Qed.

(** The gauges of open requests come back to where they were, also when the
    handler or the watch panics. *)
Theorem RegisterHandler_gauges {V} (E : env V) (gauge : V → string → Z) json_Unmarshal
    (h : Handler) (watch : WatchKeyHandler) (pollingDuration : Z) (r : Request)
    (s : string)
    (Hopen : ∀ st d e, gauge (E _ (Metric "gitlab_workhorse_builds_register_handler_open" [st] d) e).2 s
       = (gauge e s + if decide (st = s) then d else 0)%Z)
    (Hother : ∀ X (x : ext X) e,
       (∀ st d, ¬ is_open_gauge x st d) → gauge (E _ x e).2 s = gauge e s)
    (Hh : ∀ r, keeps E (λ v, gauge v s) (h r))
    (Hw : ∀ k v t, keeps E (λ v, gauge v s) (watch k v t)) :
  keeps E (λ v, gauge v s) (RegisterHandler json_Unmarshal h watch pollingDuration r).
Proof.
  assert (∀ A st (p : prog A), keeps E (λ v, gauge v s) p →
    keeps E (λ v, gauge v s) (while_open st p)) as Hwhile.
  { intros A st p Hp w e. unfold while_open, open. cbn [bind call run].
    pose proof (Hopen st 1%Z e) as H1. destruct (E _ _ e) as [[] e1]. cbn in H1.
    rewrite run_deferring. specialize (Hp w e1). cbn in Hp.
    destruct (run E p w e1) as [[o w1] e2]. cbn in Hp. cbn.
    pose proof (Hopen st (-1)%Z e2) as H2. destruct (E _ _ e2) as [[] e3]. cbn in *.
    destruct (decide (st = s)); lia. }
  assert (∀ st, keeps E (λ v, gauge v s) (count st)) as Hcount.
  { intros st. apply (keeps_harmless E _ (λ X x, ∀ st d, ¬ is_open_gauge x st d)).
    - intros X x e. apply Hother.
    - cbn. split; [|done]. by intros ? ? [? _]. }
  unfold RegisterHandler. destruct (pollingDuration =? 0)%Z; [apply Hh|].
  apply keeps_bind; [done|]. intros _. apply keeps_bind; [by apply Hwhile|].
  intros [body [x|]].
  { apply keeps_bind; [done|]. intros _.
    apply (keeps_harmless E _ (λ X x, ∀ st d, ¬ is_open_gauge x st d)).
    - intros X y e. apply Hother.
    - cbn. repeat split; try done; by intros ? ? []. }
  assert (∀ st r, keeps E (λ v, gauge v s) (count st;; proxyRegisterRequest h r)) as Hproxy.
  { intros st r'. apply keeps_bind; [done|]. intros _. by apply Hwhile. }
  destruct (readRunnerRequest json_Unmarshal r body) as [rr|x]; [|apply Hproxy].
  destruct (_ || _); [apply Hproxy|]. apply keeps_bind; [by apply Hwhile|].
  intros [res [x|]]; [apply Hproxy|]. destruct res; [|apply Hproxy|..];
    (apply keeps_bind; [done|]; by intros _).
Qed.

(** ** Examples *)

Definition no_json : bytes → result runnerRequest := λ _, inr (Errorf "unexpected end of JSON input").
Definition no_watch : WatchKeyHandler := λ _ _ _, Ret (WatchKeyStatusTimeout, None).
Definition job_request : Request :=
  {| Method := "POST"; URL := {| Scheme := ""; UHost := ""; Path_ := "/"; RawQuery := "" |};
     ProtoMajor := 1; ProtoMinor := 1; Header_ := {["Content-Type" := ["application/json"]]};
     Body := None; ContentLength := 0; Host := ""; RequestURI := "/"; RemoteAddr := "" |}.

Lemma RegisterHandler_spec_witness :
  run HelperProps.quiet_env (RegisterHandler no_json (λ _, write_header 201) no_watch 5 job_request)
    (new_resp ∅) tt =
  run HelperProps.quiet_env (register_spec no_json (λ _, write_header 201) no_watch 5 job_request)
    (new_resp ∅) tt.
Proof. apply RegisterHandler_spec; [done|]. by intros n l d []. Defined.

(** The environment that keeps the gauges. *)
Definition gauge_env : env (string → Z) := λ X x g,
  match x in ext X return X * (string → Z) with
  | Metric n l d =>
      (tt, λ s, (g s + if bool_decide (n = "gitlab_workhorse_builds_register_handler_open" ∧ l = [s])
                       then d else 0)%Z)
  | x => ((HelperProps.quiet_env _ x tt).1, g)
  end.

Lemma RegisterHandler_gauges_witness :
  keeps gauge_env (λ v, v "proxying")
    (RegisterHandler no_json (λ _, Raise "handler") no_watch 5 job_request).
Proof.
  apply (RegisterHandler_gauges gauge_env (λ v s, v s)).
  - intros st d e. cbn. f_equal. case_bool_decide as H; destruct (decide (st = "proxying")); naive_solver.
  - intros X x e Hx. destruct x; try done. cbn. case_bool_decide as H; [|lia].
    destruct H as [-> ->]. by destruct (Hx "proxying" delta).
  - done.
  - done.
Defined.
End Builds.
