(* ===== verification/Terminal.v ===== *)
(** * Web terminals (internal/terminal, internal/api/terminal_settings.go)

    A browser's websocket is joined to the websocket of a terminal provider.  Each
    side speaks one of four subprotocols, which wrap the raw octets; two loops copy
    messages; a checker renews the authorization; whichever stops first ends the
    session.  Dialling, upgrading and parsing URLs are parameters. *)

From S2P Require Import Prelude GoString GoBase64 Http GoNet Helper Block.
From stdpp Require Import options.

Module Terminal.

(** ** Settings *)

(** [internal/api/terminal_settings.go:15-33 TerminalSettings] *)
Record TerminalSettings := {
  Subprotocols : list string;
  Url : string;
  Header : header;
  CAPem : string;
  MaxSessionTime : Z;
}.

(** [internal/api/terminal_settings.go:53-58 TerminalSettings.Clone] *)
Definition Clone (t : TerminalSettings) : TerminalSettings :=
  {| Subprotocols := Subprotocols t; Url := Url t; Header := Helper.HeaderClone (Header t);
     CAPem := CAPem t; MaxSessionTime := MaxSessionTime t |}.

(** [internal/api/terminal_settings.go:64-83 TerminalSettings.Validate] *)
Definition Validate (url_Parse : string → result url) (t : option TerminalSettings)
    : option gerr :=
  match t with
  | None => Some (Errorf "Terminal details not specified")
  | Some t =>
      if length (Subprotocols t) =? 0 then Some (Errorf "No subprotocol specified")
      else match url_Parse (Url t) with
           | inr _ => Some (Errorf "Invalid URL")
           | inl parsedURL =>
               if negb (String.eqb (Scheme parsedURL) "ws") &&
                  negb (String.eqb (Scheme parsedURL) "wss")
               then Some (Wrapf "Invalid websocket scheme: %q" (Errorf (Scheme parsedURL)))
               else None
           end
  end.

(** The loops that compare two lists of the same length by index. *)
Definition same_strings (a b : list string) : bool :=
  (length a =? length b) && forallb (λ '(x, y), String.eqb x y) (zip a b).

(** [internal/api/terminal_settings.go:85-122 TerminalSettings.IsEqual] *)
Definition IsEqual (t other : option TerminalSettings) : bool :=
  match t, other with
  | None, None => true
  | None, Some _ | Some _, None => false
  | Some t, Some other =>
      if negb (same_strings (Subprotocols t) (Subprotocols other)) then false
      else if negb (size (Header t) =? size (Header other)) then false
      else if negb (forallb (λ '(header, values),
                       same_strings values (default [] (Header other !! header)))
                    (map_to_list (Header t))) then false
      else String.eqb (Url t) (Url other) && String.eqb (CAPem t) (CAPem other) &&
           (MaxSessionTime t =? MaxSessionTime other)%Z
  end.

(** ** Subprotocols *)

Definition TextMessage : Z := 1.
Definition BinaryMessage : Z := 2.
Definition PingMessage : Z := 9.

(** The connection's own codec.
    [internal/terminal/wrappers.go:26-34 kubeWrapper] *)
Inductive codec := Plain | KubeWrapper (base64 : bool) | GitlabWrapper (base64 : bool).

(** [internal/terminal/wrappers.go:11-24 Wrap] *)
Definition Wrap (subprotocol : string) : codec :=
  if String.eqb subprotocol "channel.k8s.io" then KubeWrapper false
  else if String.eqb subprotocol "base64.channel.k8s.io" then KubeWrapper true
  else if String.eqb subprotocol "terminal.gitlab.com" then GitlabWrapper false
  else if String.eqb subprotocol "base64.terminal.gitlab.com" then GitlabWrapper true
  else Plain.

(** [internal/terminal/wrappers.go:119-121 isData] *)
Definition isData (mt : Z) : bool := (mt =? BinaryMessage)%Z || (mt =? TextMessage)%Z.

(** [internal/terminal/wrappers.go:123-128 encodeBase64] *)
Definition encodeBase64 (data : bytes) : bytes := StdEncode data.

(** [internal/terminal/wrappers.go:130-134 decodeBase64] *)
Definition decodeBase64 (data : bytes) : bytes * option gerr :=
  let '(d, ok) := StdDecode data in
  (d, if ok then None else Some (Errorf "illegal base64 data")).

Definition message : Type := Z * bytes * option gerr.

(** What [gitlabWrapper.ReadMessage] makes of a message of its connection.
    [internal/terminal/wrappers.go:36-50 gitlabWrapper.ReadMessage] *)
Definition gitlab_ReadMessage (base64 : bool) (m : message) : message :=
  let '(mt, data, err) := m in
  match err with
  | Some e => m
  | None =>
      if isData mt then
        let '(data, err) := if base64 then decodeBase64 data else (data, None) in
        (BinaryMessage, data, err)
      else m
  end.

(** What [gitlabWrapper.WriteMessage] gives its connection.
    [internal/terminal/wrappers.go:52-63 gitlabWrapper.WriteMessage] *)
Definition gitlab_WriteMessage (base64 : bool) (mt : Z) (data : bytes) : Z * bytes :=
  if isData mt then
    if base64 then (TextMessage, encodeBase64 data) else (BinaryMessage, data)
  else (mt, data).

(** [internal/terminal/wrappers.go:75-94 kubeWrapper.ReadMessage] *)
Definition kube_ReadMessage (base64 : bool) (m : message) : message :=
  let '(mt, data, err) := m in
  match err with
  | Some e => m
  | None =>
      if isData mt then
        let '(data, err) :=
          match data with
          | [] => ([], None)
          | _ :: data => if base64 then decodeBase64 data else (data, None)
          end in
        (BinaryMessage, data, err)
      else m
  end.

(** [internal/terminal/wrappers.go:97-109 kubeWrapper.WriteMessage] *)
Definition kube_WriteMessage (base64 : bool) (mt : Z) (data : bytes) : Z * bytes :=
  if isData mt then
    if base64 then (TextMessage, "0"%char :: encodeBase64 data)
    else (BinaryMessage, zero :: data)
  else (mt, data).

(** The [Connection] interface, for every codec.
    [internal/terminal/proxy.go:15-20 Connection] *)
Definition ReadMessage (c : codec) (m : message) : message :=
  match c with
  | Plain => m
  | KubeWrapper b => kube_ReadMessage b m
  | GitlabWrapper b => gitlab_ReadMessage b m
  end.
Definition WriteMessage (c : codec) (mt : Z) (data : bytes) : Z * bytes :=
  match c with
  | Plain => (mt, data)
  | KubeWrapper b => kube_WriteMessage b mt data
  | GitlabWrapper b => gitlab_WriteMessage b mt data
  end.

(** ** Copying *)

(** The loop, on the messages that [from] delivers and the answers of [to]'s writes:
    the messages written to [to]'s connection, and the error that ends the loop if
    one does.
    [internal/terminal/proxy.go:43-56 Proxy.proxy] *)
Fixpoint proxy (to from : codec) (toAddr fromAddr : string) (incoming : list message)
    (answers : list (option gerr)) : list (Z * bytes) * option gerr :=
  match incoming, answers with
  | m :: incoming, a :: answers =>
      let '(messageType, data, err) := ReadMessage from m in
      match err with
      | Some e => ([], Some (Wrapf ("reading from " +:+ fromAddr) e))
      | None =>
          let sent := WriteMessage to messageType data in
          match a with
          | Some e => ([sent], Some (Wrapf ("writing to " +:+ toAddr) e))
          | None =>
              let '(out, stop) := proxy to from toAddr fromAddr incoming answers in
              (sent :: out, stop)
          end
      end
  | _, _ => ([], None)
  end.

(** ** Stopping *)

(** ANSI "end of terminal".
    [internal/terminal/proxy.go:12-12 eot] *)
Definition eot : bytes := ["004"%char].

(** The capacity of [StopCh].
    [internal/terminal/proxy.go:27-31 NewProxy] *)
Definition NewProxy (stoppers : nat) : nat := stoppers + 2.

(** A goroutine that may send on [StopCh], once: it runs, has an error to send, or is
    over. *)
Inductive stopper := Running | Stopping (e : gerr) | Stopped.

(** The buffer of [StopCh], the goroutines, what [Serve] received, and what was
    written upstream by its deferred call. *)
Record session := {
  StopCh : list gerr;
  stoppers : list stopper;
  served : option gerr;
  sent_upstream : list (Z * bytes);
}.

(** The moves of a session whose channel holds [cap] errors.
    [internal/terminal/proxy.go:33-41 Proxy.Serve] *)
Inductive step (cap : nat) : session → session → Prop :=
  | step_fail i e ch ps sv out :
      ps !! i = Some Running →
      step cap {| StopCh := ch; stoppers := ps; served := sv; sent_upstream := out |}
        {| StopCh := ch; stoppers := <[i := Stopping e]> ps; served := sv; sent_upstream := out |}
  | step_quit i ch ps sv out :
      ps !! i = Some Running →
      step cap {| StopCh := ch; stoppers := ps; served := sv; sent_upstream := out |}
        {| StopCh := ch; stoppers := <[i := Stopped]> ps; served := sv; sent_upstream := out |}
  | step_send i e ch ps sv out :
      ps !! i = Some (Stopping e) → length ch < cap →
      step cap {| StopCh := ch; stoppers := ps; served := sv; sent_upstream := out |}
        {| StopCh := ch ++ [e]; stoppers := <[i := Stopped]> ps; served := sv; sent_upstream := out |}
  | step_serve e ch ps out :
      step cap {| StopCh := e :: ch; stoppers := ps; served := None; sent_upstream := out |}
        {| StopCh := ch; stoppers := ps; served := Some e;
           sent_upstream := out ++ [(BinaryMessage, eot)] |}.

Definition initial (n : nat) (s : session) : Prop :=
  s = {| StopCh := []; stoppers := replicate (n + 2) Running; served := None;
         sent_upstream := [] |}.

(** ** Renewing the authorization *)

(** An event of the loop: the interval is over and the check gives these settings,
    or [Done] is closed. *)
Inductive auth_event := Tick (settings : option TerminalSettings) | Closed.

(** The error sent on [StopCh], if one is, and the number of successful checks; a
    loop that is still waiting has not stopped.
    [internal/terminal/auth_checker.go:33-47 AuthChecker.Loop] *)
Fixpoint Loop (template : option TerminalSettings) (events : list auth_event) (count : Z)
    : option gerr * bool * Z :=
  match events with
  | [] => (None, false, count)
  | Closed :: _ => (None, true, count)
  | Tick settings :: events =>
      if negb (IsEqual template settings) then (Some ErrAuthChanged, true, count)
      else Loop template events (count + 1)
  end.

(** What a pre-authorization answers: the status and the settings, if any.
    [internal/terminal/auth_checker.go:55-69 authCheckFunc] *)
Definition authCheckFunc (preAuthorize : result (Z * option (option TerminalSettings)))
    : option TerminalSettings :=
  match preAuthorize with
  | inr _ => None
  | inl (status, authResponse) =>
      if negb (status =? 200)%Z then None
      else match authResponse with None => None | Some terminal => terminal end
  end.

(** The error sent after the maximal session time, if there is one.
    [internal/terminal/terminal.go:121-131 closeAfterMaxTime] *)
Definition closeAfterMaxTime (maxSessionTime : Z) : option gerr :=
  if (maxSessionTime =? 0)%Z then None
  else Some (Wrapf "connection closed: session time greater than maximum time allowed - %v seconds"
               (Errorf (itoa maxSessionTime))).

(** ** The handler *)

Section handler.
Context (url_Parse : string → result url).
(** Dialling the provider and upgrading the client: the connection and its
    subprotocol. *)
Context (Dial : TerminalSettings → prog (result (fd * string))).
Context (Upgrade : Request → prog (result (fd * string))).
(** Copying until something stops the session. *)
Context (Serve : codec → codec → prog (option gerr)).

(** [internal/terminal/terminal.go:108-119 connectToServer] *)
Definition connectToServer (terminal : TerminalSettings) (r : Request)
    : prog (result (fd * codec)) :=
  let terminal := Clone terminal in
  let terminal :=
    {| Subprotocols := Subprotocols terminal; Url := Url terminal;
       Header := Helper.SetForwardedFor (Header terminal) r; CAPem := CAPem terminal;
       MaxSessionTime := MaxSessionTime terminal |} in
  o <- Dial terminal;;
  match o with
  | inr e => Ret (inr e)
  | inl (conn, subprotocol) => Ret (inl (conn, Wrap subprotocol))
  end.

(** [internal/terminal/terminal.go:86-93 upgradeClient] *)
Definition upgradeClient (r : Request) : prog (result (fd * codec)) :=
  o <- Upgrade r;;
  match o with
  | inr e => Ret (inr e)
  | inl (conn, subprotocol) => Ret (inl (conn, Wrap subprotocol))
  end.

(** [internal/terminal/terminal.go:44-79 ProxyTerminal] *)
Definition ProxyTerminal (r : Request) (terminal : TerminalSettings) : prog unit :=
  o <- connectToServer terminal r;;
  match o with
  | inr e =>
      Helper.Fail500 r (Some e);;
      call (LogInfo [] "Terminal: connecting to server failed")
  | inl (server, server_codec) =>
      deferring (call (CloseFd server))
        (o <- upgradeClient r;;
         match o with
         | inr e => call (LogInfo [] "Terminal: upgrading client to websocket failed")
         | inl (client, client_codec) =>
             deferring (call (CloseFd client))
               (call (LogInfo [("clientAddr", FText (RemoteAddr r))] "Terminal: started proxying");;
                deferring (call (LogInfo [] "Terminal: finished proxying"))
                  (err <- Serve server_codec client_codec;;
                   match err with
                   | Some _ => call (LogInfo [] "Terminal: error proxying")
                   | None => Ret tt
                   end))
         end)
  end.

(** What the handler does with an authorization; the checker and the timer run
    beside it.
    [internal/terminal/terminal.go:23-42 Handler] *)
Definition handle (r : Request) (terminal : option TerminalSettings) : prog unit :=
  match Validate url_Parse terminal with
  | Some e => Helper.Fail500 r (Some e)
  | None => match terminal with
            | Some t => ProxyTerminal r t
            | None => Raise "invalid memory address or nil pointer dereference"
            end
  end.
End handler.

(** ** Facts *)

Lemma same_strings_eq a b : same_strings a b = true ↔ a = b.
Proof.
  unfold same_strings. revert b. induction a as [|x a IH]; intros [|y b]; cbn; try done.
  specialize (IH b). rewrite andb_true_iff in *. destruct (String.eqb_spec x y) as [->|Hne]; cbn.
  - rewrite IH. naive_solver.
  - split; [intros [_ ?]; done|]. intros [= -> _]. done.
Qed.

(** No header is present without a value. *)
Definition no_empty_header (h : header) : Prop := ∀ k vs, h !! k = Some vs → vs ≠ [].

Lemma header_loop_eq (h h' : header) :
  no_empty_header h → size h = size h' →
  forallb (λ '(header, values), same_strings values (default [] (h' !! header)))
    (map_to_list h) = true → h = h'.
Proof.
  intros Hne Hs Hl. rewrite forallb_forall in Hl.
  apply map_subseteq_size_eq; [|lia]. apply map_subseteq_spec. intros k vs Hk.
  specialize (Hl (k, vs)). rewrite <- list_elem_of_In, elem_of_map_to_list in Hl.
  specialize (Hl Hk). cbn in Hl. apply same_strings_eq in Hl.
  specialize (Hne k vs Hk). destruct (h' !! k); cbn in Hl; congruence.
Qed.

Lemma header_loop_refl (h : header) :
  forallb (λ '(header, values), same_strings values (default [] (h !! header)))
    (map_to_list h) = true.
Proof.
  apply forallb_forall. intros [k vs]. rewrite <- list_elem_of_In, elem_of_map_to_list.
  intros ->. cbn. by apply same_strings_eq.
Qed.

Lemma read_write_data c mt d :
  isData mt = true →
  ∃ mt', ReadMessage c (WriteMessage c mt d, None) = (mt', d, None) ∧ isData mt' = true.
Proof.
  intros Hmt. destruct c as [|b|b]; cbn.
  - by exists mt.
  - unfold kube_WriteMessage. rewrite Hmt. destruct b; cbn.
    + unfold decodeBase64, encodeBase64. rewrite StdDecode_encode. by eexists.
    + by eexists.
  - unfold gitlab_WriteMessage. rewrite Hmt. destruct b; cbn.
    + unfold decodeBase64, encodeBase64. rewrite StdDecode_encode. by eexists.
    + by eexists.
Qed.

(** *** Stopping *)

Definition unsent (p : stopper) : bool := match p with Stopped => false | _ => true end.

Definition inv (cap : nat) (s : session) : Prop :=
  length (StopCh s) + countb unsent (stoppers s) ≤ cap ∧
  match served s with
  | None => sent_upstream s = []
  | Some _ => sent_upstream s = [(BinaryMessage, eot)]
  end.

Lemma session_inv_initial n s : initial n s → inv (NewProxy n) s.
Proof.
  intros ->. unfold inv, NewProxy. cbn. split; [|done].
  rewrite countb_replicate. cbn. lia.
Qed.

Lemma session_inv_step cap s s' : inv cap s → step cap s s' → inv cap s'.
Proof.
  intros [H1 H2] Hs. unfold inv in *.
  destruct Hs as [i e ch ps sv out Hi|i ch ps sv out Hi|i e ch ps sv out Hi Hl|e ch ps out];
    cbn in *.
  - pose proof (countb_insert unsent ps i _ (Stopping e) Hi) as Hc. cbn in Hc.
    split; [lia|done].
  - pose proof (countb_insert unsent ps i _ Stopped Hi) as Hc. cbn in Hc.
    split; [lia|done].
  - pose proof (countb_insert unsent ps i _ Stopped Hi) as Hc. cbn in Hc.
    rewrite length_app. cbn. split; [lia|done].
  - split; [lia|]. by rewrite H2.
Qed.

Lemma session_inv_reachable n s : reachable (initial n) (step (NewProxy n)) s → inv (NewProxy n) s.
Proof. apply reachable_invariant; [apply session_inv_initial|apply session_inv_step]. Qed.

Lemma connectToServer_opens {V} (E : env V) (fds : V → gset fd) Dial t r :
  (∀ t, opens_one E fds (Dial t)) → opens_one E fds (connectToServer Dial t r).
Proof.
  intros HD r0 w. unfold connectToServer. rewrite run_bind.
  match goal with |- context [run E (Dial ?t) _ _] => specialize (HD t r0 w) end.
  by destruct (run E (Dial _) r0 w) as [[[[[f x]|e]|m] r'] w'].
Qed.

Lemma upgradeClient_opens {V} (E : env V) (fds : V → gset fd) Upgrade r :
  opens_one E fds (Upgrade r) → opens_one E fds (upgradeClient Upgrade r).
Proof.
  intros HU r0 w. unfold upgradeClient. rewrite run_bind. specialize (HU r0 w).
  by destruct (run E (Upgrade _) r0 w) as [[[[[f x]|e]|m] r'] w'].
Qed.

(** ** Properties *)

(** C24: what one end sends reaches the other end octet for octet and in order,
    whichever subprotocols the two speak. *)
Theorem proxy_preserves_data (to from : codec) (a b : string) (mt : Z) (ds : list bytes)
    (Hmt : isData mt = true) :
  ∃ out, proxy to from a b ((λ d, (WriteMessage from mt d, None)) <$> ds)
      (replicate (length ds) None) = (out, None) ∧
    (λ m : Z * bytes, let '(_, d, err) := ReadMessage to (m, None) in (d, err)) <$> out
      = (λ d, (d, None)) <$> ds.
Proof.
  induction ds as [|d ds (out & IH1 & IH2)]; [by exists []|]. cbn.
  destruct (read_write_data from mt d Hmt) as (mt' & Hr & Hmt').
  change (length ds) with (length ds) in *. cbn in Hr. rewrite Hr, IH1.
  eexists. split; [done|]. cbn. rewrite IH2.
  by destruct (read_write_data to mt' d Hmt') as (mt2 & -> & _).
Qed.

(** A goroutine that has an error to report never waits for room in the channel,
    so none outlives its session, and the terminal is told to end exactly when the
    session has ended, once. *)
Theorem stoppers_never_block (n : nat) (s : session)
    (Hs : reachable (initial n) (step (NewProxy n)) s) :
  (∀ i e, stoppers s !! i = Some (Stopping e) →
    ∃ s', step (NewProxy n) s s' ∧ stoppers s' !! i = Some Stopped) ∧
  sent_upstream s = match served s with None => [] | Some _ => [(BinaryMessage, eot)] end ∧
  (served s = None → StopCh s ≠ [] → ∃ s', step (NewProxy n) s s' ∧ is_Some (served s')).
Proof.
  destruct (session_inv_reachable n s Hs) as [H1 H2]. destruct s as [ch ps sv out]. cbn in *.
  split_and!.
  - intros i e Hi. eexists. split.
    + apply (step_send _ i e); [done|]. pose proof (countb_lookup unsent ps i _ Hi eq_refl). lia.
    + cbn. apply list_lookup_insert_eq. by eapply lookup_lt_Some.
  - by destruct sv.
  - intros -> Hch. destruct ch as [|e ch]; [done|]. eexists. split; [apply step_serve|]. by eexists.
Qed.

(** Two settings without empty headers are equal for the checker exactly when all
    their fields are. *)
Theorem IsEqual_spec (t u : option TerminalSettings)
    (Ht : match t with Some t => no_empty_header (Header t) | None => True end) :
  IsEqual t u = true ↔ t = u.
Proof.
  destruct t as [t|], u as [u|]; cbn; try naive_solver.
  destruct (same_strings (Subprotocols t) (Subprotocols u)) eqn:E1; cbn.
  2:{ split; [done|]. intros [= ->]. rewrite (proj2 (same_strings_eq _ _) eq_refl) in E1. done. }
  apply same_strings_eq in E1.
  destruct (size (Header t) =? size (Header u)) eqn:E2; cbn.
  2:{ split; [done|]. intros [= ->]. by rewrite Nat.eqb_refl in E2. }
  apply Nat.eqb_eq in E2.
  destruct (forallb _ _) eqn:E3; cbn.
  2:{ split; [done|]. intros [= ->]. rewrite header_loop_refl in E3. done. }
  apply header_loop_eq in E3; [|done..].
  rewrite !andb_true_iff, !String.eqb_eq, Z.eqb_eq. destruct t, u; cbn in *.
  split; [intros [[-> ->] ->]; congruence|naive_solver].
Qed.

(** The checker ends the session exactly when a check that came before the end of
    the session gave other settings, and has counted the checks before that one. *)
Theorem Loop_spec (t : option TerminalSettings) (events : list auth_event) (n count : Z) :
  Loop t events n = (Some ErrAuthChanged, true, count) ↔
  ∃ good bad later, events = (Tick <$> good) ++ Tick bad :: later ∧
    Forall (λ u, IsEqual t u = true) good ∧ IsEqual t bad = false ∧
    count = (n + Z.of_nat (length good))%Z.
Proof.
  revert n. induction events as [|[u|] events IH]; intros n; cbn.
  - split; [done|]. intros ([|??] & ? & ? & ? & _); done.
  - destruct (IsEqual t u) eqn:Eu; cbn.
    + rewrite IH. split.
      * intros (good & bad & later & -> & Hg & Hb & ->). exists (u :: good), bad, later.
        split_and!; [done|by constructor|done|cbn; lia].
      * intros ([|v good] & bad & later & [= -> ->] & Hg & Hb & ->); [congruence|].
        inv Hg. exists good, bad, later. split_and!; [done..|cbn; lia].
    + split.
      * intros [= <-]. exists [], u, events. split_and!; [done|constructor|done|cbn; lia].
      * intros ([|v good] & bad & later & [= -> ->] & Hg & Hb & ->); [|inv Hg; congruence].
        cbn. by rewrite Z.add_0_r.
  - split; [done|]. intros ([|??] & ? & ? & ? & _); done.
Qed.

(** Whatever happens to the session, also when it panics, both its connections are
    closed when the handler returns. *)
Theorem handle_closes {V} (E : env V) (fds : V → gset fd) url_Parse Dial Upgrade Serve
    (r : Request) (terminal : option TerminalSettings) (Henv : FdEnv E fds)
    (HDial : ∀ t, opens_one E fds (Dial t)) (HUp : opens_one E fds (Upgrade r))
    (HServe : ∀ c1 c2, keeps E fds (Serve c1 c2)) :
  keeps E fds (handle url_Parse Dial Upgrade Serve r terminal).
Proof.
  assert (Hf : ∀ e, keeps E fds (Helper.Fail500 r e)).
  { intros e. by apply Helper.Fail500_closes. }
  unfold handle. destruct (Validate url_Parse terminal); [apply Hf|].
  destruct terminal as [t|]; [|done]. unfold ProxyTerminal.
  eapply closes_opening; [done|by apply connectToServer_opens| |reflexivity|].
  { intros e. apply keeps_bind; [apply Hf|intros _; by apply closes_call]. }
  intros server c. eapply closes_opening; [done|by apply upgradeClient_opens| |reflexivity|].
  { intros e. by apply closes_call. }
  intros client c'. apply keeps_bind; [by apply closes_call|intros _].
  apply keeps_deferring; [by apply closes_call|].
  apply keeps_bind; [apply HServe|]. intros [e|]; [by apply closes_call|done].
Qed.

(** ** Examples *)

Definition settings (u : string) : TerminalSettings :=
  {| Subprotocols := ["foo"; "bar"]; Url := u; Header := {["X-Auth" := ["token"]]};
     CAPem := ""; MaxSessionTime := 600 |}.

Lemma settings_no_empty u : no_empty_header (Header (settings u)).
Proof.
  intros k vs. cbn. rewrite lookup_singleton. by destruct (decide _); [intros [= <-]|].
Qed.

Definition dial_ws (name : string) : prog (result (fd * string)) :=
  o <- call (OpenPath name);;
  Ret match o with inl f => inl (f, "terminal.gitlab.com") | inr e => inr e end.

Lemma dial_ws_opens path data name : opens_one (HelperProps.file_env path data) id (dial_ws name).
Proof.
  intros r w. cbn. destruct (String.eqb name path); cbn; [|done].
  split; [apply is_fresh|done].
Qed.

Lemma proxy_preserves_data_witness :
  isData TextMessage = true ∧
  ∃ out, proxy (GitlabWrapper false) (KubeWrapper true) "a" "b"
      ((λ d, (WriteMessage (KubeWrapper true) TextMessage d, None)) <$>
        [to_bytes "ls"; to_bytes "-la"]) (replicate 2 None) = (out, None) ∧
    (λ m : Z * bytes, let '(_, d, err) := ReadMessage (GitlabWrapper false) (m, None) in (d, err))
      <$> out = (λ d, (d, None)) <$> [to_bytes "ls"; to_bytes "-la"].
Proof.
  split; [reflexivity|].
  apply (proxy_preserves_data (GitlabWrapper false) (KubeWrapper true) "a" "b" TextMessage
    [to_bytes "ls"; to_bytes "-la"]). reflexivity.
Defined.

Lemma stoppers_never_block_witness :
  ∃ s, (∀ i e, stoppers s !! i = Some (Stopping e) →
    ∃ s', step (NewProxy 2) s s' ∧ stoppers s' !! i = Some Stopped) ∧
  sent_upstream s = match served s with None => [] | Some _ => [(BinaryMessage, eot)] end ∧
  (served s = None → StopCh s ≠ [] → ∃ s', step (NewProxy 2) s s' ∧ is_Some (served s')).
Proof.
  exists {| StopCh := []; stoppers := [Stopping EOF; Running; Running; Running];
            served := None; sent_upstream := [] |}.
  apply (stoppers_never_block 2). eexists. split; [reflexivity|].
  eapply rtc_l; [|apply rtc_refl]. apply (step_fail _ 0 EOF). reflexivity.
Defined.

Lemma IsEqual_spec_witness :
  IsEqual (Some (settings "wss://a")) (Some (settings "wss://b")) = true ↔
  Some (settings "wss://a") = Some (settings "wss://b").
Proof. apply IsEqual_spec. apply settings_no_empty. Defined.

(** A header without values is as good as an absent one, also under another name. *)
Example IsEqual_empty_headers :
  let t k := {| Subprotocols := ["foo"]; Url := "wss://a"; Header := {[k := []]};
                CAPem := ""; MaxSessionTime := 0 |} in
  IsEqual (Some (t "A")) (Some (t "B")) = true ∧ t "A" ≠ t "B".
Proof.
  split; [reflexivity|]. intros H. apply (f_equal (λ t, Header t !! "A")) in H.
  vm_compute in H. discriminate H.
Qed.

Lemma handle_closes_witness :
  let parse := λ _ : string, inl (mk_url "wss" "host" "/" "") : result url in
  keeps (HelperProps.file_env "ws" []) id
    (handle parse (λ _, dial_ws "ws") (λ _, dial_ws "browser") (λ _ _, Ret (Some EOF))
       Block.request (Some (settings "wss://host/"))).
Proof.
  intros parse. apply handle_closes; [apply _|intros; apply dial_ws_opens|apply dial_ws_opens|].
  intros c1 c2 r w. reflexivity.
Defined.
End Terminal.
