(* ===== verification/Log.v ===== *)
(** * Correlation ids (internal/log)

    Every request gets an identifier, which all its log entries carry.  It is a random
    number in base 62, least significant digit first. *)

From S2P Require Import Prelude GoString Http.
From stdpp Require Import options.

Module Log.

(** [internal/log/handler.go:20-20 base62Chars] *)
Definition base62Chars : string :=
  "0123456789abcdefghijklmnopqrstuvwxyzABCDEFGHIJKLMNOPQRSTUVWXYZ".

Definition digit62 (i : Z) : octet := nth (Z.to_nat i) (to_bytes base62Chars) zero.

(** The loop: [q] is divided by 62 until it is zero.
    [internal/log/handler.go:61-64 encodeReverseBase62] *)
Fixpoint base62_loop (fuel : nat) (q : Z) : bytes :=
  match fuel with
  | O => []
  | S fuel => if (0 <? q)%Z then digit62 (q mod 62) :: base62_loop fuel (q / 62) else []
  end.

(** An [int64] has at most 11 digits.
    [internal/log/handler.go:56-67 encodeReverseBase62] *)
Definition encodeReverseBase62 (num : Z) : string :=
  if (num =? 0)%Z then "0" else of_bytes (base62_loop 11 num).

(** ** Contexts and entries

    A context carries an id or none; an entry is the map of its fields. *)

(** [internal/log/handler.go:17-18 KeyCorrelationID] *)
Definition ctx : Type := option string.

Definition fields : Type := gmap string field.

(** [internal/log/logrus.go:21-35 getCorrelationID] *)
Definition getCorrelationID (c : ctx) : string := default "[MISSING]" c.

(** [internal/log/logrus.go:12-19 toLogrusFields] *)
Definition toLogrusFields (f : fields) : fields :=
  map_fold (λ k v lFields, <[k := v]> lFields) (∅ : fields) f.

(** [internal/log/logrus.go:40-42 WithContext] *)
Definition WithContext (c : ctx) : fields :=
  {["correlation-id" := FText (getCorrelationID c)]}.

(** [internal/log/logrus.go:50-52 WrapEntry] *)
Definition WrapEntry (c : ctx) (e : fields) : fields :=
  <["correlation-id" := FText (getCorrelationID c)]> e.

(** The fields given last win.
    [internal/log/logrus.go:55-57 WithFields] *)
Definition WithFields (c : ctx) (f : fields) : fields := toLogrusFields f ∪ WithContext c.

(** [internal/log/logrus.go:60-62 WithField] *)
Definition WithField (c : ctx) (key : string) (value : field) : fields :=
  <[key := value]> (WithContext c).

(** ** The handler *)
Section handler.
(** [rand.Int] on the random source. *)
Context (rand_Int : Z → prog (result Z)).

(** [internal/log/handler.go:23-26 randMax] *)
Definition randMax : Z := 2 ^ 63 - 1.

(** [internal/log/handler.go:42-50 generateRandomCorrelationID] *)
Definition generateRandomCorrelationID : prog (result string) :=
  id <- rand_Int randMax;;
  match id with
  | inr e => Ret (inr e)
  | inl id => Ret (inl (encodeReverseBase62 id))
  end.

(** [internal/log/handler.go:28-40 InjectCorrelationID] *)
Definition InjectCorrelationID (h : ctx → Handler) : Handler := λ r,
  id <- generateRandomCorrelationID;;
  match id with
  | inl correlationID => h (Some correlationID) r
  | inr e =>
      now <- call Now;;
      call (LogInfo [] "Can't generate random correlation-id");;
      h (Some ("E:" +:+ RemoteAddr r +:+ ":" +:+ encodeReverseBase62 now)) r
  end.
End handler.

(** ** Facts *)

(** The number that digits stand for. *)
Definition index62 (c : octet) : option Z :=
  (λ p : nat * octet, Z.of_nat p.1) <$> list_find (λ d, Ascii.eqb d c = true) (to_bytes base62Chars).

Fixpoint decode62 (l : bytes) : option Z :=
  match l with
  | [] => Some 0%Z
  | c :: l => i ← index62 c; n ← decode62 l; Some (i + 62 * n)%Z
  end.

Lemma index62_digit62 i : (0 ≤ i < 62)%Z → index62 (digit62 i) = Some i.
Proof.
  intros Hi.
  assert (∀ n, n < 62 → index62 (digit62 (Z.of_nat n)) = Some (Z.of_nat n)) as H.
  { intros n Hn. do 62 (destruct n as [|n]; [reflexivity|]). lia. }
  rewrite <- (Z2Nat.id i) by lia. apply H. lia.
Qed.

Lemma decode62_loop fuel q :
  (0 ≤ q < 62 ^ Z.of_nat fuel)%Z → decode62 (base62_loop fuel q) = Some q.
Proof.
  revert q. induction fuel as [|fuel IH]; intros q Hq; [cbn; f_equal; cbn in Hq; lia|].
  cbn [base62_loop]. destruct (Z.ltb_spec 0 q); [|cbn; f_equal; lia].
  cbn [decode62]. rewrite index62_digit62 by (apply Z.mod_pos_bound; lia). cbn.
  rewrite IH.
  - cbn. f_equal. pose proof (Z.div_mod q 62). lia.
  - rewrite Nat2Z.inj_succ, Z.pow_succ_r in Hq by lia.
    split; [apply Z.div_pos; lia|]. apply Z.div_lt_upper_bound; lia.
Qed.

(** The loop ends by itself: more fuel changes nothing. *)
Lemma base62_loop_fuel fuel q :
  (q < 62 ^ Z.of_nat fuel)%Z → base62_loop (S fuel) q = base62_loop fuel q.
Proof.
  revert q. induction fuel as [|fuel IH]; intros q Hq.
  - cbn in *. destruct (Z.ltb_spec 0 q); [lia|done].
  - cbn [base62_loop] in *. destruct (Z.ltb_spec 0 q); [|done]. f_equal. apply IH.
    rewrite Nat2Z.inj_succ, Z.pow_succ_r in Hq by lia. apply Z.div_lt_upper_bound; lia.
Qed.

Lemma toLogrusFields_id f : toLogrusFields f = f.
Proof.
  unfold toLogrusFields. apply (map_fold_weak_ind (λ h2 h, h2 = h)); [done|].
  by intros k v m r Hk ->.
Qed.

(** ** Properties *)

(** An identifier determines the number it was made of: two requests with different
    random numbers have different identifiers, and none is empty. *)
Theorem encodeReverseBase62_decodes (num : Z) (H : (0 ≤ num < 2 ^ 63)%Z) :
  decode62 (to_bytes (encodeReverseBase62 num)) = Some num ∧ encodeReverseBase62 num ≠ "".
Proof.
  unfold encodeReverseBase62. destruct (Z.eqb_spec num 0) as [->|Hn]; [done|].
  rewrite to_of_bytes. split.
  - apply decode62_loop. cbn. lia.
  - cbn [base62_loop]. destruct (Z.ltb_spec 0 num); [done|lia].
Qed.

(** An entry made for a request carries the request's identifier, and the fields given
    are all kept. *)
Theorem WithFields_spec (c : ctx) (f : fields) :
  (∀ k v, f !! k = Some v → WithFields c f !! k = Some v) ∧
  (f !! "correlation-id" = None →
   WithFields c f !! "correlation-id" = Some (FText (getCorrelationID c))).
Proof.
  unfold WithFields. rewrite toLogrusFields_id. split.
  - intros k v Hk. by apply lookup_union_Some_l.
  - intros Hn. etrans; [by apply lookup_union_r|]. apply lookup_singleton_eq.
Qed.

Example encodeReverseBase62_test :
  encodeReverseBase62 <$> [0; 5; 10; 62; 620; 6200]%Z = ["0"; "5"; "a"; "01"; "0a"; "0C1"].
Proof. reflexivity. Qed.

Lemma encodeReverseBase62_decodes_witness :
  (0 ≤ 6200 < 2 ^ 63)%Z ∧
  decode62 (to_bytes (encodeReverseBase62 6200)) = Some 6200%Z ∧ encodeReverseBase62 6200 ≠ "".
Proof. split; [lia|]. apply encodeReverseBase62_decodes. lia. Defined.
End Log.
