(* ===== verification/Secret.v ===== *)
(** * The shared secret (internal/secret)

    The key that signs the requests to Rails.  It is read from a file on first use and
    kept in a slice; slices are shared memory, so the model has a store of them, and a
    reader must not get the slice that is kept.  Signing (jwt-go) is a parameter. *)

From S2P Require Import Prelude GoString GoBase64 Http.
From stdpp Require Import options.

Module Secret.

(** [internal/secret/secret.go:10-10 numSecretBytes] *)
Definition numSecretBytes : nat := 32.

(** A slice is a name in the store. *)
Definition slice : Type := nat.

(** [internal/secret/secret.go:12-16 sec] *)
Record sec := { path : string; bytes_ : option slice }.

(** The kept secret and the slices of the process. *)
Record state := { theSecret : sec; slices : gmap slice bytes }.

(** [make([]byte, len(d))] filled with [d]. *)
Definition make (d : bytes) (st : state) : slice * state :=
  let s := fresh (dom (slices st)) in
  (s, {| theSecret := theSecret st; slices := <[s := d]> (slices st) |}).

(** [internal/secret/secret.go:22-27 SetPath] *)
Definition SetPath (p : string) (st : state) : state :=
  {| theSecret := {| path := p; bytes_ := None |}; slices := slices st |}.

(** [internal/secret/secret.go:40-44 getBytes] *)
Definition getBytes (st : state) : option slice := bytes_ (theSecret st).

(** [internal/secret/secret.go:46-50 copyBytes] *)
Definition copyBytes (s : slice) (st : state) : slice * state :=
  make (default [] (slices st !! s)) st.

(** [n] octets are decoded, and kept if there are 32 of them: the slice also has the room
    [DecodedLen] reserved, which a padded text leaves unused at its end.
    [internal/secret/secret.go:52-77 setBytes] *)
Definition setBytes (ReadFile : string → result bytes) (st : state) : result slice * state :=
  match bytes_ (theSecret st) with
  | Some s => (inl s, st)
  | None =>
      match ReadFile (path (theSecret st)) with
      | inr e => (inr (Wrapf "secret.setBytes: read" e), st)
      | inl base64Bytes =>
          let '(decoded, ok) := StdDecode base64Bytes in
          let secretBytes :=
            decoded ++ replicate (length base64Bytes / 4 * 3 - length decoded) zero in
          if negb ok then (inr (Errorf "secret.setBytes: decode secret"), st)
          else if negb (length decoded =? numSecretBytes) then
            (inr (Errorf "secret.setBytes: expected 32 secretBytes"), st)
          else
            let '(s, st) := make secretBytes st in
            let st := {| theSecret := {| path := path (theSecret st); bytes_ := Some s |};
                         slices := slices st |} in
            let '(s', st) := copyBytes s st in
            (inl s', st)
      end
  end.

(** Between the two critical sections other goroutines run: [others].
    [internal/secret/secret.go:32-38 Bytes] *)
Definition Bytes (ReadFile : string → result bytes) (others : state → state) (st : state)
    : result slice * state :=
  match getBytes st with
  | Some s => let '(s', st) := copyBytes s (others st) in (inl s', st)
  | None => setBytes ReadFile (others st)
  end.

(** [internal/secret/jwt.go:13-25 JWTTokenString] *)
Definition JWTTokenString {C} (ReadFile : string → result bytes) (others : state → state)
    (SignedString : C → bytes → result string) (claims : C) (st : state)
    : result string * state :=
  let '(b, st) := Bytes ReadFile others st in
  match b with
  | inr e => (inr (Wrapf "secret.JWTTokenString" e), st)
  | inl s =>
      match SignedString claims (default [] (slices st !! s)) with
      | inr e => (inr (Wrapf "secret.JWTTokenString: sign JWT" e), st)
      | inl token => (inl token, st)
      end
  end.

(** ** Properties *)

(** The kept slice is a slice of the process. *)
Definition wf (st : state) : Prop :=
  ∀ s, getBytes st = Some s → is_Some (slices st !! s).

Lemma make_spec d st s st' :
  make d st = (s, st') →
  slices st !! s = None ∧ slices st' !! s = Some d ∧ theSecret st' = theSecret st ∧
  ∀ k, is_Some (slices st !! k) → slices st' !! k = slices st !! k.
Proof.
  intros [= <- <-]. cbn. pose proof (is_fresh (dom (slices st))) as Hf.
  apply not_elem_of_dom in Hf. split_and!; [done|by rewrite lookup_insert_eq|done|].
  intros k [v Hk]. rewrite lookup_insert_ne; [done|]. intros <-. congruence.
Qed.


(** A goroutine that comes second to the file gets the kept slice itself. *)
Lemma Bytes_race ReadFile others st s :
  getBytes st = None → getBytes (others st) = Some s →
  Bytes ReadFile others st = (inl s, others st).
Proof.
  intros H1 H2. unfold Bytes, setBytes. rewrite H1. unfold getBytes in H2. by rewrite H2.
Qed.

(** A failure keeps nothing: the file is read again the next time. *)
Lemma setBytes_error ReadFile st e st' : setBytes ReadFile st = (inr e, st') → st' = st.
Proof.
  unfold setBytes. destruct (bytes_ _); [done|]. destruct (ReadFile _); [|naive_solver].
  destruct (StdDecode _) as [d ok]. destruct (negb ok); [naive_solver|].
  destruct (negb _); [naive_solver|]. by destruct (make _ _).
Qed.

(** ** Examples *)

Definition empty : state := {| theSecret := {| path := ""; bytes_ := None |}; slices := ∅ |}.
Definition key : bytes := replicate 32 "k"%char.
Definition file : string → result bytes := λ _, inl (StdEncode key).

(** 32 octets are encoded with padding, so the slice has a 33rd one. *)
Example Bytes_length :
  let '(s, st) := Bytes file id empty in
  match s with inl s => slices st !! s = Some (key ++ [zero]) | inr _ => False end.
Proof. vm_compute. reflexivity. Qed.

End Secret.
