(* ===== verification/Gitaly.v ===== *)
(** * Connections to Gitaly (internal/gitaly/gitaly.go)

    One connection is kept per server and shared by all requests.  The lookup takes a
    read lock; a miss takes the write lock and looks again before it dials.  Goroutines
    interleave between the two critical sections.  Dialling is a parameter: a step may
    get any connection that is not in use yet, or an error. *)

From S2P Require Import Prelude GoString Http.
From stdpp Require Import options.

Module Gitaly.

(** [internal/gitaly/gitaly.go:13-16 Server] *)
Record Server := { Address : string; Token : string }.

#[global] Instance Server_eq_dec : EqDecision Server.
Proof. solve_decision. Defined.

#[global] Instance Server_countable : Countable Server.
Proof.
  refine (inj_countable' (λ s, (Address s, Token s)) (λ p, {| Address := p.1; Token := p.2 |}) _).
  by intros [].
Defined.

(** A repository, as the messages of Gitaly carry it. *)
Record Repository := {
  StorageName : string;
  RelativePath : string;
  GitObjectDirectory : string;
  GitAlternateObjectDirectories : list string;
  GlRepository : string;
}.

(** A [grpc.ClientConn]. *)
Definition conn : Type := nat.

(** The connections, those that have been opened, and those closed by
    [CloseConnections].
    [internal/gitaly/gitaly.go:18-21 connectionsCache] *)
Record connectionsCache := {
  connections : gmap Server conn;
  dialed : gset conn;
  closed : gset conn;
}.

Definition cache : connectionsCache := {| connections := ∅; dialed := ∅; closed := ∅ |}.

(** The first critical section.
    [internal/gitaly/gitaly.go:74-80 getOrCreateConnection] *)
Definition getConnection (server : Server) (c : connectionsCache) : option conn :=
  connections c !! server.

(** The second one, with the answer of [newConnection] should it be called.
    [internal/gitaly/gitaly.go:82-96 getOrCreateConnection] *)
Definition createConnection (server : Server) (newConnection : result conn)
    (c : connectionsCache) : result conn * connectionsCache :=
  match connections c !! server with
  | Some cn => (inl cn, c)
  | None =>
      match newConnection with
      | inr e => (inr e, c)
      | inl cn =>
          (inl cn, {| connections := <[server := cn]> (connections c);
                      dialed := {[cn]} ∪ dialed c; closed := closed c |})
      end
  end.

(** [internal/gitaly/gitaly.go:99-106 CloseConnections] *)
Definition CloseConnections (c : connectionsCache) : connectionsCache :=
  {| connections := connections c; dialed := dialed c;
     closed := map_fold (λ _ cn cl, {[cn]} ∪ cl) (closed c) (connections c) |}.

(** ** Interleaving

    A goroutine in [getOrCreateConnection]: before the first section, between the two,
    and after the call. *)
Inductive goroutine :=
  | Begin (server : Server)
  | Missed (server : Server)
  | End_ (server : Server) (r : result conn).

Record system := { shared : connectionsCache; goroutines : list goroutine }.

Definition initial (s : system) : Prop :=
  shared s = cache ∧ Forall (λ g, ∃ srv, g = Begin srv) (goroutines s).

(** [internal/gitaly/gitaly.go:73-97 getOrCreateConnection] *)
Inductive step : system → system → Prop :=
  | step_hit i srv cn c gs :
      gs !! i = Some (Begin srv) → getConnection srv c = Some cn →
      step {| shared := c; goroutines := gs |}
        {| shared := c; goroutines := <[i := End_ srv (inl cn)]> gs |}
  | step_miss i srv c gs :
      gs !! i = Some (Begin srv) → getConnection srv c = None →
      step {| shared := c; goroutines := gs |}
        {| shared := c; goroutines := <[i := Missed srv]> gs |}
  | step_create i srv d r c c' gs :
      gs !! i = Some (Missed srv) →
      match d with inl cn => cn ∉ dialed c | inr _ => True end →
      createConnection srv d c = (r, c') →
      step {| shared := c; goroutines := gs |}
        {| shared := c'; goroutines := <[i := End_ srv r]> gs |}.

Record inv (s : system) : Prop := {
  inv_dialed : ∀ cn, cn ∈ dialed (shared s) ↔
    ∃ srv, connections (shared s) !! srv = Some cn;
  inv_inj : ∀ a b cn, connections (shared s) !! a = Some cn →
    connections (shared s) !! b = Some cn → a = b;
  inv_end : ∀ i srv cn, goroutines s !! i = Some (End_ srv (inl cn)) →
    connections (shared s) !! srv = Some cn;
}.

Lemma cache_inv_initial s : initial s → inv s.
Proof.
  destruct s as [c gs]. intros [Hc Hg]. cbn in *. subst. split; cbn.
  - intros cn. split; [set_solver|]. by intros [srv Hs].
  - done.
  - intros i srv cn Hi. eapply Forall_lookup in Hg; [|exact Hi]. by destruct Hg.
Qed.

(** A goroutine that ends with what the cache holds keeps the invariant. *)
Lemma inv_end_with c gs i srv r :
  inv {| shared := c; goroutines := gs |} →
  (∀ cn, r = inl cn → connections c !! srv = Some cn) →
  inv {| shared := c; goroutines := <[i := End_ srv r]> gs |}.
Proof.
  intros [H1 H2 H3] Hr. split; cbn in *; [done..|].
  intros j srv' cn Hj. apply list_lookup_insert_Some in Hj as [(-> & Hg & _)|[_ Hj]];
    [|by eapply H3]. injection Hg as -> ->. by apply Hr.
Qed.

Lemma cache_inv_step s s' : inv s → step s s' → inv s'.
Proof.
  intros Hi Hs. destruct Hs as [i srv cn c gs Hg Hc|i srv c gs Hg Hc|i srv d r c c' gs Hg Hd Hc].
  - apply inv_end_with; [done|]. by intros cn' [= ->].
  - destruct Hi as [H1 H2 H3]. split; cbn in *; [done..|].
    intros j srv' cn Hj. apply list_lookup_insert_Some in Hj as [(_ & Hg' & _)|[_ Hj]];
      [done|by eapply H3].
  - unfold createConnection in Hc.
    destruct (connections c !! srv) as [cn|] eqn:Es; [injection Hc as <- <-|].
    { apply inv_end_with; [done|]. by intros cn' [= <-]. }
    destruct d as [cn|x]; injection Hc as <- <-; [|by apply inv_end_with].
    destruct Hi as [H1 H2 H3]. apply inv_end_with; [|intros cn' [= <-]; apply lookup_insert_eq].
    assert (∀ a, connections c !! a ≠ Some cn) as Hfresh.
    { intros a Ha. apply Hd. apply H1. by exists a. }
    split; cbn in *.
    + intros cn'. rewrite elem_of_union, elem_of_singleton, H1. split.
      * intros [->|[a Ha]]; [exists srv; apply lookup_insert_eq|]. exists a.
        rewrite lookup_insert_ne; [done|congruence].
      * intros [a Ha]. apply lookup_insert_Some in Ha as [[_ ->]|[_ Ha]]; [by left|].
        right. by exists a.
    + intros a b cn' Ha Hb.
      apply lookup_insert_Some in Ha as [[<- <-]|[Ha' Ha]];
        apply lookup_insert_Some in Hb as [[<- Hb]|[Hb' Hb]]; try done.
      * by apply Hfresh in Hb.
      * subst. by apply Hfresh in Ha.
      * by eapply H2.
    + intros j a cn' Hj. rewrite lookup_insert_ne; [by eapply H3|].
      intros <-. apply H3 in Hj. congruence.
Qed.

Lemma cache_inv_reachable s : reachable initial step s → inv s.
Proof. apply reachable_invariant; [apply cache_inv_initial|apply cache_inv_step]. Qed.

Lemma CloseConnections_closed c cn srv :
  connections c !! srv = Some cn → cn ∈ closed (CloseConnections c).
Proof.
  cbn. generalize (closed c). intros cl.
  refine (map_fold_weak_ind (λ r m, m !! srv = Some cn → cn ∈ r) _ _ _ _ (connections c)).
  - intros H. by rewrite lookup_empty in H.
  - intros k v m r Hk IH H. apply lookup_insert_Some in H as [[_ ->]|[_ H]]; set_solver.
Qed.

(** C16: however the requests interleave, all requests to a server share one connection,
    different servers never do, no connection that was opened is lost, and shutting down
    closes them all. *)
Theorem connections_shared (s : system) (H : reachable initial step s) :
  (∀ i j a b c d, goroutines s !! i = Some (End_ a (inl c)) →
    goroutines s !! j = Some (End_ b (inl d)) → (a = b ↔ c = d)) ∧
  (∀ cn, cn ∈ dialed (shared s) → cn ∈ closed (CloseConnections (shared s))).
Proof.
  apply cache_inv_reachable in H as [H1 H2 H3]. split.
  - intros i j a b c d Hi Hj. apply H3 in Hi, Hj. split; [congruence|].
    intros <-. by eapply H2.
  - intros cn Hcn. apply H1 in Hcn as [srv Hs]. by eapply CloseConnections_closed.
Qed.

(** ** Example *)

Definition server : Server := {| Address := "unix:gitaly.socket"; Token := "" |}.

(** Two goroutines miss at the same time; one of them dials. *)
Lemma connections_shared_witness :
  ∃ s, goroutines s = [End_ server (inl 7); End_ server (inl 7)] ∧
  (∀ i j a b c d, goroutines s !! i = Some (End_ a (inl c)) →
    goroutines s !! j = Some (End_ b (inl d)) → (a = b ↔ c = d)) ∧
  (∀ cn, cn ∈ dialed (shared s) → cn ∈ closed (CloseConnections (shared s))).
Proof.
  eexists. split; cycle 1.
  - apply connections_shared. exists {| shared := cache; goroutines := [Begin server; Begin server] |}.
    split; [split; [reflexivity|repeat constructor; by eexists]|].
    eapply rtc_l; [apply (step_miss 0 server); reflexivity|].
    eapply rtc_l; [apply (step_miss 1 server); reflexivity|].
    eapply rtc_l; [apply (step_create 1 server (inl 7)); [reflexivity|set_solver|reflexivity]|].
    eapply rtc_l; [apply (step_create 0 server (inr EOF)); [reflexivity|done|reflexivity]|].
    apply rtc_refl.
  - reflexivity.
Defined.
End Gitaly.
