(* ===== verification/Backend.v ===== *)
(** * The way to Rails (internal/badgateway, internal/proxy, backend.go)

    Where the backend is, the round tripper that turns every transport failure into a 502,
    and the reverse proxy's preparation of a request.  The transport is the environment's
    [RoundTrip_]; [httputil.ReverseProxy] is a parameter. *)

From S2P Require Import Prelude GoString Http GoNet Helper Block.
From stdpp Require Import options.

Module Backend.

(** [backend.go:8-30 parseAuthBackend] *)
Definition parseAuthBackend (url_Parse : string → result url) (authBackend : string)
    : result url :=
  match url_Parse authBackend with
  | inr err => inr err
  | inl backendURL =>
      let backendURL :=
        if String.eqb (UHost backendURL) "" then url_Parse ("http://" +:+ authBackend)
        else inl backendURL in
      match backendURL with
      | inr err => inr err
      | inl backendURL =>
          if negb (String.eqb (Scheme backendURL) "http") then
            inr (Errorf "invalid scheme, only 'http' is allowed: %q")
          else if String.eqb (UHost backendURL) "" then inr (Errorf "missing host in %q")
          else inl backendURL
      end
  end.

(** ** internal/badgateway *)

(** The loop: [suffixes] are those not tried yet.
    [internal/badgateway/roundtripper.go:70-77 mustParseAddress] *)
Fixpoint parse_suffixes (suffixes : list string) (address : string) : outcome string :=
  match suffixes with
  | [] => Panic "could not parse host:port from address %q and scheme %q"
  | suffix :: suffixes =>
      let address := address +:+ suffix in
      match Net.SplitHostPort address with
      | Some (host, port) =>
          if negb (String.eqb host "") && negb (String.eqb port "")
          then Value (host +:+ ":" +:+ port) else parse_suffixes suffixes address
      | None => parse_suffixes suffixes address
      end
  end.

(** [internal/badgateway/roundtripper.go:65-78 mustParseAddress] *)
Definition mustParseAddress (address scheme : string) : outcome string :=
  if String.eqb scheme "https" then Panic "TLS is not supported for backend connections"
  else parse_suffixes [""; ":" +:+ scheme] address.

(** What the transport dials, whatever the host of the request is. *)
Inductive target := Tcp (address : string) | Unix (socket : string).

(** [internal/badgateway/roundtripper.go:26-29 RoundTripper] *)
Record RoundTripper := { Transport : target; developmentMode : bool }.

(** [internal/badgateway/roundtripper.go:36-63 NewRoundTripper] *)
Definition NewRoundTripper (backend : option url) (socket : string) (development : bool)
    : outcome RoundTripper :=
  match backend, String.eqb socket "" with
  | Some backend, true =>
      match mustParseAddress (UHost backend) (Scheme backend) with
      | Value address => Value {| Transport := Tcp address; developmentMode := development |}
      | Panic m => Panic m
      end
  | _, false => Value {| Transport := Unix socket; developmentMode := development |}
  | None, true => Panic "backend is nil and socket is empty"
  end.

(** The answer in place of an error.
    [internal/badgateway/roundtripper.go:98-114 RoundTripper.RoundTrip] *)
Definition bad_gateway (message : string) : Response :=
  {| StatusCode := 502; RHeader := Header.Set_ ∅ "Content-Type" "text/plain";
     RBody := whole (to_bytes message); RConn := None |}.

(** [Error] is the text of an error.
    [internal/badgateway/roundtripper.go:80-117 RoundTripper.RoundTrip] *)
Definition RoundTrip (Error : gerr → string) (t : RoundTripper) (r : Request)
    : prog (result Response) :=
  start <- call Now;;
  o <- call (RoundTrip_ r);;
  match o with
  | inl res => Ret (inl res)
  | inr err =>
      now <- call Now;;
      Helper.LogError (Some r)
        (Some (Wrapf ("badgateway: failed after " +:+ itoa ((now - start) / 1000000000) +:+ "s") err));;
      Ret (inl (bad_gateway
        (if developmentMode t then Error err else "GitLab is not responding")))
  end.

(** ** internal/proxy *)

(** [internal/proxy/proxy.go:18-22 Proxy] *)
Record Proxy := { Version : string; AllowResponseBuffering : bool }.

(** The URL the reverse proxy is built on.
    [internal/proxy/proxy.go:24-36 NewProxy] *)
Definition NewProxy (myURL : option url) (version : string) : Proxy * url :=
  let myURL := default (mk_url "http" "localhost" "" "") myURL in
  ({| Version := version; AllowResponseBuffering := true |},
   mk_url (Scheme myURL) (UHost myURL) "" (RawQuery myURL)).

(** [internal/proxy/proxy.go:38-52 Proxy.ServeHTTP] *)
Definition ServeHTTP (p : Proxy) (reverseProxy : Handler) : Handler := λ r,
  now <- call Now;;
  let h := Helper.HeaderClone (Header_ r) in
  let h := Header.Set_ h "Gitlab-Workhorse" (Version p) in
  let h := Header.Set_ h "Gitlab-Workhorse-Proxy-Start" (itoa now) in
  (if AllowResponseBuffering p then Helper.AllowResponseBuffering else Ret tt);;
  reverseProxy (with_header r h).

(** ** Properties *)

(** Whoever asks Rails gets an answer: a transport failure becomes a 502 whose text
    says nothing of the failure outside of development mode, and an answer is passed
    through. *)
Theorem RoundTrip_answers {V} (E : env V) (Error : gerr → string) (t : RoundTripper)
    (r : Request) (w : resp) (e : V) :
  ∃ res e', run E (RoundTrip Error t r) w e = (Value (inl res), w, e') ∧
    match (E _ (RoundTrip_ r) (E _ Now e).2).1 with
    | inl answer => res = answer
    | inr err =>
        StatusCode res = 502%Z ∧ RConn res = None ∧
        RBody res = whole (to_bytes
          (if developmentMode t then Error err else "GitLab is not responding"))
    end.
Proof.
  unfold RoundTrip. cbn. destruct (E _ Now e) as [start e1]. cbn.
  destruct (E _ (RoundTrip_ r) e1) as [[res|err] e2]; cbn; [by exists res, e2|].
  destruct (E _ Now e2) as [now e3]. cbn.
  destruct (E _ (Capture _ _) e3) as [[] e4]. cbn.
  destruct (E _ (LogError_ _ _) e4) as [[] e5]. cbn. by eexists _, e5.
Qed.

(** An authorization backend that is accepted is a plain HTTP one with a host. *)
Theorem parseAuthBackend_valid (url_Parse : string → result url) (s : string) (u : url)
    (H : parseAuthBackend url_Parse s = inl u) :
  Scheme u = "http" ∧ UHost u ≠ "" ∧
  (url_Parse s = inl u ∨ url_Parse ("http://" +:+ s) = inl u).
Proof.
  unfold parseAuthBackend in H. destruct (url_Parse s) as [v|] eqn:E1; [|done].
  assert (∀ x : url, (if negb (String.eqb (Scheme x) "http") then
       inr (Errorf "invalid scheme, only 'http' is allowed: %q") : result url
     else if String.eqb (UHost x) "" then inr (Errorf "missing host in %q") else inl x) = inl u →
     x = u ∧ Scheme u = "http" ∧ UHost u ≠ "") as Hx.
  { intros x. destruct (String.eqb_spec (Scheme x) "http"); [|done]. cbn.
    destruct (String.eqb_spec (UHost x) ""); [done|]. by intros [= <-]. }
  destruct (String.eqb (UHost v) "").
  - destruct (url_Parse ("http://" +:+ s)) as [x|] eqn:E2; [|done].
    apply Hx in H as (-> & ? & ?). auto.
  - apply Hx in H as (-> & ? & ?). auto.
Qed.

(** The request that goes to Rails carries this program's version and the time it
    was passed on, whatever the client sent under those names, and is otherwise the
    client's; the response may be buffered by the server in front. *)
Theorem Proxy_ServeHTTP_spec {V} (E : env V) (p : Proxy) (reverseProxy : Handler)
    (r : Request) (w : resp) (e : V) (Hp : AllowResponseBuffering p = true) :
  ∃ h, run E (ServeHTTP p reverseProxy r) w e =
    run E (reverseProxy (with_header r h))
      (resp_put "X-Accel-Buffering" None w) (E _ Now e).2 ∧
    Header.Get h "Gitlab-Workhorse" = Version p ∧
    Header.Get h "Gitlab-Workhorse-Proxy-Start" = itoa (E _ Now e).1 ∧
    ∀ k, k ≠ "Gitlab-Workhorse" → k ≠ "Gitlab-Workhorse-Proxy-Start" →
      h !! k = Header_ r !! k.
Proof.
  unfold ServeHTTP. rewrite Hp. cbn. destruct (E _ Now e) as [now e1]. cbn.
  eexists. split; [reflexivity|]. split_and!.
  - rewrite Header.Get_Set_ne by done. apply Header.Get_Set_eq.
  - apply Header.Get_Set_eq.
  - intros k H1 H2. unfold Header.Set_.
    change (Header.canonical_key "Gitlab-Workhorse-Proxy-Start") with "Gitlab-Workhorse-Proxy-Start".
    change (Header.canonical_key "Gitlab-Workhorse") with "Gitlab-Workhorse".
    rewrite !lookup_insert_ne by done. by rewrite HelperProps.HeaderClone_id.
Qed.

(** ** Examples *)

Example mustParseAddress_1 : mustParseAddress "localhost:8080" "http" = Value "localhost:8080".
Proof. reflexivity. Qed.
Example mustParseAddress_2 : mustParseAddress "localhost" "http" = Value "localhost:http".
Proof. reflexivity. Qed.

(** The brackets of an IPv6 address get lost, and the result names no port any more. *)
Example mustParseAddress_ipv6 :
  mustParseAddress "[::1]:8080" "http" = Value "::1:8080" ∧ Net.SplitHostPort "::1:8080" = None.
Proof. split; reflexivity. Qed.
End Backend.
