(* ===== verification/Api.v ===== *)
(** * Authorization by Rails (internal/api/api.go)

    Before a handler touches a repository or a file it asks Rails whether the client may:
    [PreAuthorizeHandler] sends the client's request without its body, and either passes
    Rails' answer back or calls the handler with what Rails said.  The transport is
    Backend's round tripper; signing the token and decoding JSON are parameters. *)

From S2P Require Import Prelude GoString Http GoNet Helper Gitaly Terminal Block.
From stdpp Require Import options.

Module Api.

(** [internal/api/api.go:23-31 ResponseContentType] *)
Definition ResponseContentType : string := "application/vnd.gitlab-workhorse+json".
Definition RequestHeader : string := "Gitlab-Workhorse-Api-Request".
Definition failureResponseLimit : Z := 32768.

(** [internal/api/api.go:70-79 MultipartUploadParams] *)
Record MultipartUploadParams := {
  PartSize : Z;
  PartURLs : list string;
  CompleteURL : string;
  AbortURL : string;
}.

(** [internal/api/api.go:81-98 RemoteObject] *)
Record RemoteObject_ := {
  GetURL : string;
  DeleteURL : string;
  StoreURL : string;
  CustomPutHeaders : bool;
  PutHeaders : gmap string string;
  ID : string;
  Timeout : Z;
  MultipartUpload : option MultipartUploadParams;
}.

(** [internal/api/api.go:100-142 Response] *)
Record Response := {
  GL_ID : string;
  GL_USERNAME : string;
  GL_REPOSITORY : string;
  RepoPath : string;
  GitConfigOptions : list string;
  StoreLFSPath : string;
  LfsOid : string;
  LfsSize : Z;
  TempPath : string;
  RemoteObject : RemoteObject_;
  Archive : string;
  Entry : string;
  Terminal : option Terminal.TerminalSettings;
  GitalyServer : Gitaly.Server;
  Repository : Gitaly.Repository;
  ShowAllRefs : bool;
}.

(** An answer with nothing but a temporary path. *)
Definition only_TempPath (path : string) : Response :=
  {| GL_ID := ""; GL_USERNAME := ""; GL_REPOSITORY := ""; RepoPath := ""; GitConfigOptions := [];
     StoreLFSPath := ""; LfsOid := ""; LfsSize := 0; TempPath := path;
     RemoteObject := {| GetURL := ""; DeleteURL := ""; StoreURL := ""; CustomPutHeaders := false;
                        PutHeaders := ∅; ID := ""; Timeout := 0; MultipartUpload := None |};
     Archive := ""; Entry := ""; Terminal := None;
     GitalyServer := {| Gitaly.Address := ""; Gitaly.Token := "" |};
     Repository := {| Gitaly.StorageName := ""; Gitaly.RelativePath := "";
                      Gitaly.GitObjectDirectory := ""; Gitaly.GitAlternateObjectDirectories := [];
                      Gitaly.GlRepository := "" |};
     ShowAllRefs := false |}.

(** [internal/api/api.go:33-37 API] *)
Record API := { URL_ : url; Version : string }.

(** [internal/api/api.go:68-68 HandleFunc] *)
Definition HandleFunc : Type := Request → Response → prog unit.

(** [internal/api/api.go:145-155 singleJoiningSlash] *)
Definition singleJoiningSlash (a b : string) : string :=
  let aslash := has_suffix a "/" in
  let bslash := has_prefix b "/" in
  if aslash && bslash then a +:+ of_bytes (drop 1 (to_bytes b))
  else if negb aslash && negb bslash then a +:+ "/" +:+ b
  else a +:+ b.

(** [internal/api/api.go:158-171 rebaseUrl] *)
Definition rebaseUrl (url onto : url) (suffix : string) : Http.url :=
  {| Scheme := Scheme onto; UHost := UHost onto;
     Path_ := if String.eqb suffix "" then Path_ url else singleJoiningSlash (Path_ url) suffix;
     RawQuery :=
       if String.eqb (RawQuery onto) "" || String.eqb (RawQuery url) ""
       then RawQuery onto +:+ RawQuery url
       else RawQuery onto +:+ "&" +:+ RawQuery url |}.

(** [internal/api/api.go:182-200 API.newRequest] *)
Definition dropped_headers : list string :=
  ["Content-Type"; "Content-Encoding"; "Content-Length"; "Content-Disposition";
   "Accept-Encoding"; "Transfer-Encoding"; "Connection"; "Keep-Alive"; "Proxy-Authenticate";
   "Proxy-Authorization"; "Te"; "Trailers"; "Upgrade"].

(** [internal/api/api.go:347-349 validResponseContentType] *)
Definition validResponseContentType (resp : Http.Response) : bool :=
  Helper.IsContentType ResponseContentType (Header.Get (RHeader resp) "Content-Type").

(** Each header of a map is put in the response's.  *)
Definition put_headers (name : string → string) (h : header) : prog unit :=
  foldr (λ '(k, v) p, header_put (name k) v;; p) (Ret tt) (map_to_list h).

(** [internal/api/api.go:295-304 copyAuthHeader] *)
Definition copyAuthHeader (httpResponse : Http.Response) : prog unit :=
  foldr (λ '(k, v) p,
      (if equal_fold k "WWW-Authenticate" then header_put k v else Ret tt);; p)
    (Ret tt) (map_to_list (RHeader httpResponse)).

(** [internal/api/api.go:333-345 bufferResponse] *)
Definition bufferResponse (b : body) : result bytes :=
  let '(d, err) := read_all (limit_reader b failureResponseLimit) in
  match err with
  | Some e => inr e
  | None =>
      if (Z.of_nat (length d) =? failureResponseLimit)%Z
      then inr (Errorf "response body exceeded maximum buffer size (%d bytes)") else inl d
  end.

(** [internal/api/api.go:306-331 passResponseBack] *)
Definition passResponseBack (httpResponse : Http.Response) (r : Request) : prog unit :=
  match bufferResponse (RBody httpResponse) with
  | inr err => Helper.Fail500 r (Some err)
  | inl responseBody =>
      close_body httpResponse;;
      call (Metric "gitlab_workhorse_internal_api_failure_response_bytes" []
              (Z.of_nat (length responseBody)));;
      put_headers (λ k, if String.eqb k "Www-Authenticate" then "WWW-Authenticate" else k)
        (RHeader httpResponse);;
      write_header (StatusCode httpResponse);;
      '(_, err) <- match responseBody with [] => Ret (0%Z, None) | _ => write responseBody end;;
      match err with
      | Some e => Helper.LogError (Some r) (Some e)
      | None => Ret tt
      end
  end.

Section client.
Context (api : API).
(** [secret.JWTTokenString] for the default claims. *)
Context (JWTTokenString : prog (result string)).
(** The round tripper of the client. *)
Context (RoundTrip : Request → prog (result Http.Response)).
(** [json.Decoder] on a body, for a [Response]. *)
Context (json_Decode : body → result Response).

(** [internal/api/api.go:173-219 API.newRequest] *)
Definition newRequest (r : Request) (body : option body) (suffix : string)
    : prog (result Request) :=
  let h := Helper.HeaderClone (Header_ r) in
  let h := match body with Some _ => h | None => foldl Header.Del h dropped_headers end in
  let h := Header.Set_ h "Gitlab-Workhorse" (Version api) in
  let h := Helper.SetForwardedFor h r in
  token <- JWTTokenString;;
  match token with
  | inr err => Ret (inr (Wrapf "newRequest: sign JWT" err))
  | inl tokenString =>
      Ret (inl {| Method := Method r; URL := rebaseUrl (URL r) (URL_ api) suffix;
                  ProtoMajor := 0; ProtoMinor := 0;
                  Header_ := Header.Set_ h RequestHeader tokenString;
                  Body := body; ContentLength := 0; Host := Host r;
                  RequestURI := ""; RemoteAddr := "" |})
  end.

(** [internal/api/api.go:291-293 API.doRequestWithoutRedirects] *)
Definition doRequestWithoutRedirects (authReq : Request) : prog (result Http.Response) :=
  RoundTrip authReq.

(** [internal/api/api.go:229-262 API.PreAuthorize] *)
Definition PreAuthorize (suffix : string) (r : Request)
    : prog (result (Http.Response * option Response)) :=
  authReq <- newRequest r None suffix;;
  match authReq with
  | inr err => Ret (inr (Wrapf "preAuthorizeHandler newUpstreamRequest" err))
  | inl authReq =>
      o <- doRequestWithoutRedirects authReq;;
      match o with
      | inr err => Ret (inr (Wrapf "preAuthorizeHandler: do request" err))
      | inl httpResponse =>
          call (Metric "gitlab_workhorse_internal_api_requests"
                  [itoa (StatusCode httpResponse); Method authReq] 1);;
          if negb (StatusCode httpResponse =? 200)%Z || negb (validResponseContentType httpResponse)
          then Ret (inl (httpResponse, None))
          else
            match json_Decode (RBody httpResponse) with
            | inr err =>
                close_body httpResponse;;
                Ret (inr (Wrapf "preAuthorizeHandler: decode authorization response" err))
            | inl authResponse => Ret (inl (httpResponse, Some authResponse))
            end
      end
  end.

(** [internal/api/api.go:264-289 API.PreAuthorizeHandler] *)
Definition PreAuthorizeHandler (next : HandleFunc) (suffix : string) : Handler := λ r,
  o <- PreAuthorize suffix r;;
  match o with
  | inr err => Helper.Fail500 r (Some err)
  | inl (httpResponse, authResponse) =>
      deferring (close_body httpResponse)
        match authResponse with
        | None => passResponseBack httpResponse r
        | Some authResponse =>
            close_body httpResponse;;
            copyAuthHeader httpResponse;;
            next r authResponse
        end
  end.
End client.

(** ** Facts *)

Section facts.
Context {V : Type} (E : env V) (fds : V → gset fd) {HE : FdEnv E fds}.
Context (api : API) (JWTTokenString : prog (result string)).
Context (RoundTrip : Request → prog (result Http.Response)).
Context (json_Decode : body → result Response).
Context (Htoken : keeps E fds JWTTokenString).
Context (Htrip : ∀ r, opens_response E fds (RoundTrip r)).

#[local] Set Default Proof Using "Type*".

Lemma newRequest_keeps r b suffix : keeps E fds (newRequest api JWTTokenString r b suffix).
Proof using Htoken. apply keeps_bind; [done|]. by intros [tok|x]. Qed.

(** What a pre-authorization leaves open, and when it grants. *)
Lemma PreAuthorize_run suffix r w e :
  let '(o, w', e') :=
    run E (PreAuthorize api JWTTokenString RoundTrip json_Decode suffix r) w e in
  match o with
  | Value (inl (resp, a)) =>
      holds_response fds (fds e) resp e' ∧
      match a with
      | Some a => StatusCode resp = 200%Z ∧ validResponseContentType resp = true ∧
                  json_Decode (RBody resp) = inl a
      | None => True
      end
  | _ => fds e' = fds e
  end.
Proof.
  unfold PreAuthorize. rewrite run_bind.
  pose proof (newRequest_keeps r None suffix w e) as Hk.
  destruct (run E (newRequest _ _ _ _ _) w e) as [[[[authReq|x]|m] w1] e1]; cbn in Hk; [|done..].
  rewrite run_bind. pose proof (Htrip authReq w1 e1) as Ht. unfold doRequestWithoutRedirects.
  destruct (run E (RoundTrip authReq) w1 e1) as [[[[resp|x]|m] w2] e2]; [|cbn; congruence..].
  cbn [run bind call].
  match goal with |- context [E unit (Metric ?n ?l ?d) e2] =>
    pose proof (fd_other E fds (Metric n l d) e2 HE eq_refl) as Hm;
    destruct (E unit (Metric n l d) e2) as [[] e3] end.
  cbn in Hm. rewrite Hk, <- Hm in Ht. fold (holds_response fds (fds e) resp e3) in Ht.
  destruct (StatusCode resp =? 200)%Z eqn:Es; [|by cbn].
  destruct (validResponseContentType resp) eqn:Ev; [|by cbn]. cbn [negb orb].
  destruct (json_Decode (RBody resp)) as [a|x] eqn:Ej.
  - cbn. apply Z.eqb_eq in Es. done.
  - rewrite run_bind. destruct (close_body_run E fds (fds e) resp w2 e3 HE Ht) as (e4 & -> & H4).
    done.
Qed.

Lemma copyAuthHeader_run resp w e :
  ∃ w', run E (copyAuthHeader resp) w e = (Value tt, w', e) ∧
    r_status w' = r_status w ∧ r_body w' = r_body w.
Proof using Type.
  unfold copyAuthHeader. revert w. induction (map_to_list (RHeader resp)) as [|[k v] l IH];
    intros w; [by exists w|]. cbn [foldr]. rewrite run_bind.
  destruct (equal_fold k "WWW-Authenticate").
  - destruct (IH (resp_put k (Some v) w)) as (w' & H & ?). by exists w'.
  - destruct (IH w) as (w' & H & ?). by exists w'.
Qed.

Lemma passResponseBack_closes resp r w e before :
  holds_response fds before resp e →
  let e' := (run E (passResponseBack resp r) w e).2 in
  holds_response fds before resp e' ∨ fds e' = before.
Proof using HE.
  intros H. unfold passResponseBack. destruct (bufferResponse _) as [d|x]; cbn zeta.
  - right. rewrite run_bind.
    destruct (close_body_run E fds before resp w e HE H) as (e1 & -> & H1).
    match goal with |- fds (run E ?p w e1).2 = _ =>
      assert (keeps E fds p) as Hk; [|by rewrite (Hk w e1)] end.
    apply closes_no_files; [done|]. cbn [harmless bind call]. split; [done|]. intros _.
    apply harmless_bind.
    { unfold put_headers. by induction (map_to_list (RHeader resp)) as [|[k v] l IH]. }
    intros _. cbn. apply harmless_bind; [by destruct d|]. intros [n [y|]]; by repeat split.
  - left. pose proof (Helper.Fail500_closes E fds r (Some x) HE w e) as Hk.
    unfold holds_response in *. by rewrite Hk.
Qed.

(** C2: a handler behind the authorization runs only if Rails answered 200 with the
    content type of authorizations and a body that decodes; it is given what was decoded,
    and Rails' connection has been released by then.  In every other case nothing of the
    handler runs. *)
Theorem PreAuthorizeHandler_guards (next : HandleFunc) (suffix : string) (r : Request)
    (w : resp) (e : V) :
  let handler h := PreAuthorizeHandler api JWTTokenString RoundTrip json_Decode h suffix r in
  match run E (PreAuthorize api JWTTokenString RoundTrip json_Decode suffix r) w e with
  | (Value (inl (resp, Some a)), w', e') =>
      StatusCode resp = 200%Z ∧ validResponseContentType resp = true ∧
      json_Decode (RBody resp) = inl a ∧
      ∃ w1 e1, fds e1 = fds e ∧ r_status w1 = r_status w' ∧ r_body w1 = r_body w' ∧
        run E (handler next) w e = run E (deferring (close_body resp) (next r a)) w1 e1
  | _ => ∀ next', run E (handler next) w e = run E (handler next') w e
  end.
Proof.
  cbv zeta. pose proof (PreAuthorize_run suffix r w e) as H.
  assert (∀ h, run E (PreAuthorizeHandler api JWTTokenString RoundTrip json_Decode h suffix r) w e
    = match run E (PreAuthorize api JWTTokenString RoundTrip json_Decode suffix r) w e with
      | (Value o, w', e') => run E match o with
          | inr err => Helper.Fail500 r (Some err)
          | inl (httpResponse, a) => deferring (close_body httpResponse)
              match a with
              | None => passResponseBack httpResponse r
              | Some a => close_body httpResponse;; copyAuthHeader httpResponse;; h r a
              end
          end w' e'
      | (Panic m, w', e') => (Panic m, w', e')
      end) as Hrun.
  { intros h. unfold PreAuthorizeHandler. rewrite run_bind.
    by destruct (run E (PreAuthorize _ _ _ _ _ _) w e) as [[[o|m] w'] e']. }
  destruct (run E (PreAuthorize _ _ _ _ _ _) w e) as [[[[[resp [a|]]|x]|m] w'] e'];
    try (intros next'; by rewrite !Hrun).
  destruct H as (Hh & Hs & Hv & Hj). split_and!; [done..|].
  destruct (close_body_run E fds (fds e) resp w' e' HE Hh) as (e1 & Hc & H1).
  destruct (copyAuthHeader_run resp w' e1) as (w1 & Hcopy & ? & ?).
  exists w1, e1. split_and!; [done..|]. rewrite Hrun, !run_deferring, run_bind, Hc, run_bind, Hcopy.
  done.
Qed.

(** Whatever Rails answers and whatever the handler does, panics included, the
    connection to Rails is released. *)
Theorem PreAuthorizeHandler_closes (next : HandleFunc) (suffix : string) (r : Request)
    (Hnext : ∀ a, keeps E fds (next r a)) :
  keeps E fds (PreAuthorizeHandler api JWTTokenString RoundTrip json_Decode next suffix r).
Proof.
  intros w e. unfold PreAuthorizeHandler. rewrite run_bind.
  pose proof (PreAuthorize_run suffix r w e) as H.
  destruct (run E (PreAuthorize _ _ _ _ _ _) w e) as [[[[[resp a]|x]|m] w'] e']; [..|done].
  - destruct H as [Hh _]. rewrite run_deferring.
    pose proof (λ f, holds_response_fresh fds (fds e) resp e' f Hh) as Hfresh.
    destruct a as [a|].
    + rewrite run_bind. destruct (close_body_run E fds (fds e) resp w' e' HE Hh) as (e1 & -> & H1).
      rewrite run_bind. destruct (copyAuthHeader_run resp w' e1) as (w1 & -> & _).
      pose proof (Hnext a w1 e1) as Hn. destruct (run E (next r a) w1 e1) as [[o w2] e2].
      cbn in Hn. destruct (close_body_again E fds (fds e) resp w2 e2 HE) as (e3 & -> & H3);
        [congruence|done..].
    + pose proof (passResponseBack_closes resp r w' e' (fds e) Hh) as Hp. cbv zeta in Hp.
      destruct (run E (passResponseBack resp r) w' e') as [[o w2] e2]. cbn in Hp.
      destruct Hp as [Hp|Hp].
      * by destruct (close_body_run E fds (fds e) resp w2 e2 HE Hp) as (e3 & -> & H3).
      * by destruct (close_body_again E fds (fds e) resp w2 e2 HE Hp Hfresh) as (e3 & -> & H3).
  - by rewrite (Helper.Fail500_closes E fds r (Some x) HE w' e').
Qed.
End facts.

(** *** Requests and responses *)

Lemma foldl_Del_lookup ks (h : header) k :
  (k ∈ (Header.canonical_key <$> ks) → foldl Header.Del h ks !! k = None) ∧
  (k ∉ (Header.canonical_key <$> ks) → foldl Header.Del h ks !! k = h !! k).
Proof.
  revert h. induction ks as [|x ks IH]; intros h; cbn; [split; [set_solver|done]|].
  destruct (IH (Header.Del h x)) as [IH1 IH2]. unfold Header.Del in *. split; intros Hk.
  - destruct (decide (k ∈ (Header.canonical_key <$> ks))) as [Hi|Hi]; [by apply IH1|].
    rewrite IH2 by done. assert (k = Header.canonical_key x) as -> by set_solver.
    apply lookup_delete_eq.
  - rewrite IH2 by set_solver. apply lookup_delete_ne. set_solver.
Qed.

(** The request that asks Rails is the client's without its body and what describes
    it: it carries this program's token and version whatever the client sent under those
    names, the headers of the body and of the connection are gone, and every other header
    is the client's, up to the address added to X-Forwarded-For. *)
Theorem newRequest_spec {V} (E : env V) (api : API) (tok : string) (r : Request)
    (suffix : string) (w : resp) (e : V) :
  ∃ q, run E (newRequest api (Ret (inl tok)) r None suffix) w e = (Value (inl q), w, e) ∧
    Method q = Method r ∧ Host q = Host r ∧ Body q = None ∧
    URL q = rebaseUrl (URL r) (URL_ api) suffix ∧
    Header_ q !! RequestHeader = Some [tok] ∧
    Header_ q !! "Gitlab-Workhorse" = Some [Version api] ∧
    (∀ k, k ∈ dropped_headers → Header_ q !! k = None) ∧
    (∀ k, k ∉ dropped_headers → k ≠ RequestHeader → k ≠ "Gitlab-Workhorse" →
      k ≠ "X-Forwarded-For" → Header_ q !! k = Header_ r !! k).
Proof.
  eexists. split; [reflexivity|]. cbn [Method Host Body URL Header_].
  assert (Header.canonical_key <$> dropped_headers = dropped_headers) as Hd by reflexivity.
  rewrite HelperProps.HeaderClone_id.
  set (h := Header.Set_ (foldl Header.Del (Header_ r) dropped_headers) "Gitlab-Workhorse" (Version api)).
  assert (∀ k, k ≠ "X-Forwarded-For" → Helper.SetForwardedFor h r !! k = h !! k) as Hf.
  { intros k Hk. unfold Helper.SetForwardedFor.
    destruct (Net.SplitHostPort _) as [[ip port]|]; [|done]. unfold Header.Set_.
    apply lookup_insert_ne. intros E'. apply Hk. by rewrite <- E'. }
  split_and!; [reflexivity|reflexivity|reflexivity|reflexivity|..].
  - apply lookup_insert_eq.
  - unfold Header.Set_ at 1. rewrite lookup_insert_ne by done. rewrite Hf by done.
    apply lookup_insert_eq.
  - intros k Hk. unfold Header.Set_ at 1.
    assert (k ≠ "X-Forwarded-For" ∧ k ≠ RequestHeader ∧ k ≠ "Gitlab-Workhorse") as (H1 & H2 & H3).
    { revert k Hk. apply Forall_forall. by apply (bool_decide_unpack _). }
    rewrite lookup_insert_ne by done. rewrite Hf by done. unfold h, Header.Set_.
    rewrite lookup_insert_ne by done. apply foldl_Del_lookup. by rewrite Hd.
  - intros k Hk H1 H2 H3. unfold Header.Set_ at 1. rewrite lookup_insert_ne by done.
    rewrite Hf by done. unfold h, Header.Set_. rewrite lookup_insert_ne by done.
    apply foldl_Del_lookup. by rewrite Hd.
Qed.

Lemma put_headers_run {V} (E : env V) name (h : header) w (e : V) :
  (∀ k k', is_Some (h !! k) → is_Some (h !! k') → name k = name k' → k = k') →
  ∃ w', run E (put_headers name h) w e = (Value tt, w', e) ∧ r_status w' = r_status w ∧
    r_body w' = r_body w ∧ r_room w' = r_room w ∧
    ∀ k vs, h !! k = Some vs → r_hdr w' !! name k = Some vs.
Proof.
  intros Hinj. unfold put_headers.
  assert (∀ l w, (∀ kv, kv ∈ l → h !! kv.1 = Some kv.2) → ∃ w',
    run E (foldr (λ '(k, v) p, header_put (name k) v;; p) (Ret tt) l) w e = (Value tt, w', e) ∧
    r_status w' = r_status w ∧ r_body w' = r_body w ∧ r_room w' = r_room w ∧
    (∀ k, r_hdr w !! name k = h !! k → is_Some (h !! k) → r_hdr w' !! name k = h !! k) ∧
    (∀ kv, kv ∈ l → r_hdr w' !! name kv.1 = Some kv.2)) as H.
  { induction l as [|[k v] l IH]; intros w0 Hl; cbn [foldr].
    { exists w0. split_and!; try done. intros kv Hkv. by apply elem_of_nil in Hkv. }
    rewrite run_bind. cbn [run header_put].
    pose proof (Hl (k, v) ltac:(by left)) as Hk. cbn in Hk.
    destruct (IH (resp_put (name k) (Some v) w0)) as (w' & H1 & H2 & H3 & H4 & H5 & H6).
    { intros kv Hkv. apply Hl. by right. }
    exists w'. split_and!; [done..| |].
    - intros k' H0 Hs. apply H5; [|done]. cbn. destruct (decide (name k = name k')) as [En|En].
      + rewrite En, lookup_partial_alter_eq. by rewrite <- (Hinj k k' ltac:(by eexists) Hs En).
      + by rewrite lookup_partial_alter_ne.
    - intros kv Hkv. apply elem_of_cons in Hkv as [->|Hkv]; [|by apply H6]. cbn.
      rewrite <- Hk. apply H5; [|by eexists]. cbn. by rewrite lookup_partial_alter_eq. }
  destruct (H (map_to_list h) w) as (w' & H1 & H2 & H3 & H4 & _ & H6).
  { intros [k v] Hkv. by apply elem_of_map_to_list in Hkv. }
  exists w'. split_and!; [done..|]. intros k vs Hk. apply (H6 (k, vs)).
  by apply elem_of_map_to_list.
Qed.

(** When Rails does not authorize, the client gets Rails' own answer, status, headers
    and body, unless the body has 32768 octets or more, or breaks off: then a 500. *)
Theorem passResponseBack_spec {V} (E : env V) (answer : Http.Response) (r : Request)
    (w : resp) (e : V) (Hfresh : r_status w = None) (Hroom : r_room w = None)
    (Hcode : body_allowed (StatusCode answer) = true)
    (Hnames : RHeader answer !! "WWW-Authenticate" = None) :
  let w' := (run E (passResponseBack answer r) w e).1.2 in
  if decide (b_end (RBody answer) = EOF ∧
             (Z.of_nat (length (b_data (RBody answer))) < failureResponseLimit)%Z)
  then r_status w' = Some (StatusCode answer) ∧ r_body w' = r_body w ++ b_data (RBody answer) ∧
    ∀ k vs, RHeader answer !! k = Some vs →
      r_sent w' !! (if String.eqb k "Www-Authenticate" then "WWW-Authenticate" else k) = Some vs
  else r_status w' = Some 500%Z.
Proof.
  cbv zeta. unfold passResponseBack. destruct answer as [code h [d x] conn]. cbn in *.
  unfold bufferResponse, limit_reader, read_all. cbn [b_data b_end].
  destruct (Z.ltb_spec (Z.of_nat (length d)) failureResponseLimit) as [Hd|Hd].
  2:{ rewrite decide_False by (intros [_ ?]; lia). cbn [b_data b_end whole].
      rewrite decide_True by done.
      assert ((Z.of_nat (length (take (Z.to_nat failureResponseLimit) d))
                 =? failureResponseLimit)%Z = true) as ->; [|by apply Helper.Fail500_status].
      apply Z.eqb_eq. rewrite length_take. unfold failureResponseLimit in *. lia. }
  cbn [b_data b_end]. destruct (decide (x = EOF)) as [->|Hx].
  2:{ rewrite decide_False by (by intros [? _]). apply Helper.Fail500_status; done. }
  rewrite decide_True by done. rewrite (proj2 (Z.eqb_neq _ _)) by lia.
  rewrite run_bind.
  assert (∃ e1, run E (close_body {| StatusCode := code; RHeader := h;
    RBody := {| b_data := d; b_end := EOF |}; RConn := conn |}) w e = (Value tt, w, e1))
    as (e1 & ->).
  { unfold close_body. cbn. destruct conn as [f|]; cbn; [|by eexists].
    destruct (E _ (CloseFd f) e) as [[] e1]. by exists e1. }
  cbn [run].
  match goal with |- context [E unit (Metric ?n ?l ?k) e1] =>
    destruct (E unit (Metric n l k) e1) as [[] e2] end.
  rewrite run_bind.
  destruct (put_headers_run E (λ k, if String.eqb k "Www-Authenticate" then "WWW-Authenticate" else k)
    h w e2) as (w1 & -> & H1 & H2 & H3 & H4).
  { intros k k' [v Hk] [v' Hk'].
    destruct (String.eqb_spec k "Www-Authenticate"), (String.eqb_spec k' "Www-Authenticate");
      congruence. }
  cbn [run].
  set (w2 := resp_header code w1).
  assert (r_status w2 = Some code ∧ r_body w2 = r_body w ∧ r_room w2 = None ∧ r_sent w2 = r_hdr w1)
    as (G1 & G2 & G3 & G4).
  { unfold w2, resp_header. rewrite H1, Hfresh. cbn. by rewrite H2, H3. }
  rewrite run_bind. destruct d as [|c d].
  - cbn. rewrite G1, G2, G4, app_nil_r. split_and!; [done..|]. intros k vs Hk. by apply H4.
  - cbn [run write]. erewrite resp_write_append by done. cbn. rewrite G1, G2, G4.
    split_and!; [done..|]. intros k vs Hk. by apply H4.
Qed.

(** ** Examples *)

(** Rails answers every request with this status, content type and body. *)
Definition rails_env (code : Z) (ctype : string) (b : bytes) : env (gset fd) := λ X e w,
  match e in ext X return X * gset fd with
  | RoundTrip_ _ =>
      (inl {| StatusCode := code; RHeader := {["Content-Type" := [ctype]]};
              RBody := whole b; RConn := Some (fresh w) |}, {[fresh w]} ∪ w)
  | e => HelperProps.file_env "/f" [] _ e w
  end.

#[global] Instance rails_env_fds code ctype b : FdEnv (rails_env code ctype b) id.
Proof.
  split; [|done]. intros X e w He. destruct e; cbn; try done;
    [|by split; [apply is_fresh|]].
  destruct (String.eqb _ _); [|done]. by split; [apply is_fresh|].
Qed.

Lemma rails_env_opens code ctype b r :
  opens_response (rails_env code ctype b) id (call (RoundTrip_ r)).
Proof. intros w e. cbn. by split; [apply is_fresh|]. Qed.

Definition api : API := {| URL_ := mk_url "http" "rails" "/" ""; Version := "7.0.0" |}.

Definition granted : Response :=
  {| GL_ID := "user-1"; GL_USERNAME := "root"; GL_REPOSITORY := "project-1"; RepoPath := "";
     GitConfigOptions := []; StoreLFSPath := ""; LfsOid := ""; LfsSize := 0;
     TempPath := "/tmp/uploads";
     RemoteObject := {| GetURL := ""; DeleteURL := ""; StoreURL := ""; CustomPutHeaders := false;
                        PutHeaders := ∅; ID := ""; Timeout := 0; MultipartUpload := None |};
     Archive := ""; Entry := ""; Terminal := None;
     GitalyServer := {| Gitaly.Address := "unix:gitaly.socket"; Gitaly.Token := "" |};
     Repository := {| Gitaly.StorageName := "default"; Gitaly.RelativePath := "a.git";
                      Gitaly.GitObjectDirectory := ""; Gitaly.GitAlternateObjectDirectories := [];
                      Gitaly.GlRepository := "" |};
     ShowAllRefs := false |}.

Definition test_handler (next : HandleFunc) : Handler :=
  PreAuthorizeHandler api (Ret (inl "jwt")) (λ r, call (RoundTrip_ r)) (λ _, inl granted) next
    "/authorize".

Lemma PreAuthorizeHandler_guards_witness :
  let E := rails_env 200 ResponseContentType (to_bytes "{}") in
  let next := λ _ _, write_header 204 in
  let handler h := PreAuthorizeHandler api (Ret (inl "jwt")) (λ r, call (RoundTrip_ r))
    (λ _, inl granted) h "/authorize" Block.request in
  match run E (PreAuthorize api (Ret (inl "jwt")) (λ r, call (RoundTrip_ r)) (λ _, inl granted)
                 "/authorize" Block.request) (new_resp ∅) ∅ with
  | (Value (inl (resp, Some a)), w', e') =>
      StatusCode resp = 200%Z ∧ validResponseContentType resp = true ∧
      (inl granted : result Response) = inl a ∧
      ∃ w1 e1, id e1 = (∅ : gset fd) ∧ r_status w1 = r_status w' ∧ r_body w1 = r_body w' ∧
        run E (handler next) (new_resp ∅) ∅
          = run E (deferring (close_body resp) (next Block.request a)) w1 e1
  | _ => ∀ next', run E (handler next) (new_resp ∅) ∅ = run E (handler next') (new_resp ∅) ∅
  end.
Proof.
  apply (PreAuthorizeHandler_guards (rails_env 200 ResponseContentType (to_bytes "{}")) id api
    (Ret (inl "jwt")) (λ r, call (RoundTrip_ r)) (λ _, inl granted)).
  - intros w e. reflexivity.
  - intros r. apply rails_env_opens.
Defined.

(** The example does reach the handler. *)
Example granted_reaches_handler :
  let '(_, w, e) := run (rails_env 200 ResponseContentType (to_bytes "{}"))
    (test_handler (λ _ _, write_header 204) Block.request) (new_resp ∅) ∅ in
  r_status w = Some 204%Z ∧ e = ∅.
Proof. vm_compute. split; reflexivity. Qed.

Lemma PreAuthorizeHandler_closes_witness :
  keeps (rails_env 401 "text/html" (to_bytes "no")) id
    (PreAuthorizeHandler api (Ret (inl "jwt")) (λ r, call (RoundTrip_ r)) (λ _, inl granted)
       (λ _ _, Raise "panic") "/authorize" Block.request).
Proof.
  apply PreAuthorizeHandler_closes; [apply _|by intros w e|intros r; apply rails_env_opens|].
  by intros a w e.
Defined.

Definition denied : Http.Response :=
  {| StatusCode := 401; RHeader := {["Www-Authenticate" := ["Basic"]]};
     RBody := whole (to_bytes "no"); RConn := None |}.

Lemma passResponseBack_spec_witness :
  let w' := (run (rails_env 401 "" []) (passResponseBack denied Block.request)
               (new_resp ∅) ∅).1.2 in
  if decide (b_end (RBody denied) = EOF ∧
             (Z.of_nat (length (b_data (RBody denied))) < failureResponseLimit)%Z)
  then r_status w' = Some (StatusCode denied) ∧ r_body w' = [] ++ b_data (RBody denied) ∧
    ∀ k vs, RHeader denied !! k = Some vs →
      r_sent w' !! (if String.eqb k "Www-Authenticate" then "WWW-Authenticate" else k) = Some vs
  else r_status w' = Some 500%Z.
Proof.
  apply (passResponseBack_spec (rails_env 401 "" []) denied Block.request (new_resp ∅) ∅);
    [reflexivity|reflexivity|reflexivity|vm_compute; reflexivity].
Defined.

Example singleJoiningSlash_test :
  (singleJoiningSlash "/a/" "/b", singleJoiningSlash "/a" "b", singleJoiningSlash "/a/" "b")
  = ("/a/b", "/a/b", "/a/b").
Proof. reflexivity. Qed.
End Api.
