(* ===== verification/ObjectStore.v ===== *)
(** * Uploads to object storage (internal/objectstore)

    An upload is a goroutine that reads the pipe its client writes to and sends it to a
    storage server: in one PUT request ([Object]), or in parts of a given size completed
    by a POST ([Multipart]).  A goroutine is modelled as a program on the octets that go
    through the pipe; it ends with the server's checksum, its error and how many octets
    it took, from which follow what the client's [Write] and [Close] return.  The MD5
    function and the XML decoder are parameters. *)

From S2P Require Import Prelude GoString GoXml Http GoNet Helper.
From stdpp Require Import options.

Module ObjectStore.

(** ** XML messages *)

(** [internal/objectstore/s3_complete_multipart_api.go:15-18 completeMultipartUploadPart] *)
Record completeMultipartUploadPart := { PartNumber : Z; PartETag : string }.

(** [internal/objectstore/s3_complete_multipart_api.go:11-13 CompleteMultipartUpload] *)
Definition CompleteMultipartUpload : Type := list completeMultipartUploadPart.

(** [internal/objectstore/s3_complete_multipart_api.go:21-26 CompleteMultipartUploadResult] *)
Record CompleteMultipartUploadResult := {
  Location : string;
  Bucket : string;
  Key : string;
  ResultETag : string;
}.

(** [internal/objectstore/s3_complete_multipart_api.go:31-35 CompleteMultipartUploadError] *)
Record CompleteMultipartUploadError := { Code : string; Message : string }.

(** [internal/objectstore/s3_complete_multipart_api.go:43-49 compoundCompleteMultipartUploadResult] *)
Record compoundCompleteMultipartUploadResult := {
  c_result : option CompleteMultipartUploadResult;
  c_error : option CompleteMultipartUploadError;
}.

(** [internal/objectstore/s3_complete_multipart_api.go:51-53 compoundCompleteMultipartUploadResult.isError] *)
Definition isError (c : compoundCompleteMultipartUploadResult) : bool :=
  match c_error c with Some _ => true | None => false end.

(** [xml.Marshal] of the list of parts. *)
Definition xml_Marshal (cmu : CompleteMultipartUpload) : bytes :=
  Xml.print (Xml.struct "CompleteMultipartUpload"
    ((λ p, Xml.struct "Part" [Xml.field "PartNumber" (itoa (PartNumber p));
                              Xml.field "ETag" (PartETag p)]) <$> cmu)).

(** ** The client's end *)

(** What an upload's goroutine ends with.
    [internal/objectstore/uploader.go:23-37 uploader] *)
Record uploader := { etag : string; uploadError : option gerr; taken : nat }.

(** What the [Write]s of the octets return: the pipe is closed with the goroutine's error
    when it ends, and all that it did not take fails.
    [internal/objectstore/uploader.go:65-67 uploader.Write] *)
Definition Write (u : uploader) (stream : bytes) : option gerr :=
  if taken u <? length stream
  then Some (default (Errorf "io: read/write on closed pipe") (uploadError u)) else None.

(** The goroutine has ended when [now] is read.
    [internal/objectstore/uploader.go:51-63 uploader.Close] *)
Definition Close (deadline now : Z) (u : uploader) : option gerr :=
  if (deadline <=? now)%Z then Some ErrDeadlineExceeded else uploadError u.

(** [internal/objectstore/uploader.go:92-97 uploader.extractETag] *)
Definition extractETag (rawETag : string) : outcome string :=
  match to_bytes rawETag with
  | c :: l =>
      if Ascii.eqb c "034"%char then
        match l with
        | [] => Panic "slice bounds out of range [1:0]"
        | _ => Value (of_bytes (take (length l - 1) l))
        end
      else Value rawETag
  | [] => Value rawETag
  end.

Section storage.
Context (url_Parse : string → result url) (md5 : bytes → bytes).
Context (xml_Decode : body → result compoundCompleteMultipartUploadResult).

(** [http.NewRequest]. *)
Definition NewRequest (method rawurl : string) (b : option body) (size : Z) : result Request :=
  match url_Parse rawurl with
  | inr e => inr e
  | inl u => inl {| Method := method; URL := u; ProtoMajor := 1; ProtoMinor := 1; Header_ := ∅;
                    Body := b; ContentLength := size; Host := UHost u; RequestURI := "";
                    RemoteAddr := "" |}
  end.

(** [internal/objectstore/uploader.go:99-106 uploader.md5Sum] *)
Definition md5Sum (d : bytes) : string := Hex.EncodeToString (md5 d).

(** [internal/objectstore/uploader.go:70-90 uploader.syncAndDelete] *)
Definition syncAndDelete (rawurl : string) : prog unit :=
  if String.eqb rawurl "" then Ret tt
  else
    match NewRequest "DELETE" rawurl None 0 with
    | inr err => call (LogInfo [("object", FText (Helper.ScrubURLParams rawurl))] "Delete failed")
    | inl req =>
        '(o, _) <- call (Do_ req);;
        match o with
        | inr err => call (LogInfo [("object", FText (Helper.ScrubURLParams rawurl))] "Delete failed")
        | inl resp => close_body resp
        end
    end.

(** ** One request *)

Definition counted (metrics : bool) (name : string) (labels : list string) (delta : Z) : prog unit :=
  if metrics then call (Metric name labels delta) else Ret tt.

Definition failed (err : gerr) (n : nat) : uploader :=
  {| etag := ""; uploadError := Some err; taken := n |}.

(** The goroutine that sends the request.
    [internal/objectstore/object.go:95-129 newObject] *)
Definition send (metrics : bool) (putURL : string) (req : Request) (stream : bytes)
    : prog uploader :=
  deferring (counted metrics "gitlab_workhorse_object_storage_upload_open" [] (-1))
    ('(o, n) <- call (Do_ req);;
     match o with
     | inr err =>
         counted metrics "gitlab_workhorse_object_storage_upload_requests" ["request-failed"] 1;;
         Ret (failed (Wrapf ("PUT request " +:+ quote (Helper.ScrubURLParams putURL)) err) n)
     | inl resp =>
         deferring (close_body resp)
           (if negb (StatusCode resp =? 200)%Z then
              counted metrics "gitlab_workhorse_object_storage_upload_requests" ["invalid-status"] 1;;
              Ret (failed (Errorf ("PUT request " +:+ Helper.ScrubURLParams putURL +:+ " returned")) n)
            else
              match extractETag (Header.Get (RHeader resp) "ETag") with
              | Panic m => Raise m
              | Value tag =>
                  let sum := md5Sum (take n stream) in
                  Ret {| etag := tag;
                         uploadError :=
                           if String.eqb tag sum then None
                           else Some (Errorf ("ETag mismatch. expected " +:+ quote sum +:+
                                              " got " +:+ quote tag));
                         taken := n |}
              end)
     end).

(** [internal/objectstore/object.go:54-132 newObject] *)
Definition newObject (metrics : bool) (putURL : string) (putHeaders : gmap string string)
    (size : Z) (stream : bytes) : prog (result uploader) :=
  match NewRequest "PUT" putURL (Some (whole stream)) size with
  | inr err =>
      counted metrics "gitlab_workhorse_object_storage_upload_requests" ["request-failed"] 1;;
      Ret (inr (Wrapf ("PUT " +:+ quote (Helper.ScrubURLParams putURL)) err))
  | inl req =>
      let h := map_fold (λ k v h, Header.Set_ h k v) (Header_ req) putHeaders in
      counted metrics "gitlab_workhorse_object_storage_upload_open" [] 1;;
      u <- send metrics putURL (with_header req h) stream;;
      Ret (inl u)
  end.

(** [internal/objectstore/object.go:50-52 NewObject] *)
Definition NewObject := newObject true.

(** ** Parts *)

(** [internal/objectstore/multipart.go:208-230 Multipart.uploadPart] *)
Definition uploadPart (deadline : Z) (url : string) (headers : gmap string string) (part : bytes)
    : prog (result string) :=
  o <- newObject false url headers (Z.of_nat (length part)) part;;
  match o with
  | inr err => Ret (inr err)
  | inl u =>
      match Write u part with
      | Some err => Ret (inr err)
      | None =>
          now <- call Now;;
          match Close deadline now u with
          | Some err => Ret (inr err)
          | None => Ret (inl (etag u))
          end
      end
  end.

(** With the buffer open.
    [internal/objectstore/multipart.go:188-205 Multipart.readAndUploadOnePart] *)
Definition upload_buffered (deadline : Z) (partURL : string) (putHeaders : gmap string string)
    (f : fd) (src : bytes) (partNumber : Z) : prog (result (option completeMultipartUploadPart)) :=
  match src with
  | [] => Ret (inl None)
  | _ =>
      '(_, err) <- call (WriteFd f src);;
      match err with
      | Some err => Ret (inr (Wrapf ("Cannot write part " +:+ itoa partNumber +:+ " to disk") err))
      | None =>
          err <- call (SeekFd f);;
          match err with
          | Some err =>
              Ret (inr (Wrapf ("Cannot rewind part " +:+ itoa partNumber +:+ " temporary dump ") err))
          | None =>
              tag <- uploadPart deadline partURL putHeaders src;;
              match tag with
              | inr err => Ret (inr (Wrapf ("Cannot upload part " +:+ itoa partNumber) err))
              | inl tag => Ret (inl (Some {| PartNumber := partNumber; PartETag := tag |}))
              end
          end
      end
  end.

(** The deferred removal. *)
Definition remove_buffer (path : string) : prog unit :=
  err <- call (Remove_ path);;
  match err with
  | Some _ => call (LogInfo [("file", FText path)] "Unable to delete temporary file")
  | None => Ret tt
  end.

(** [internal/objectstore/multipart.go:178-206 Multipart.readAndUploadOnePart] *)
Definition readAndUploadOnePart (deadline : Z) (partURL : string)
    (putHeaders : gmap string string) (src : bytes) (partNumber : Z)
    : prog (result (option completeMultipartUploadPart)) :=
  file <- call (TempFile_ "" "part-buffer");;
  match file with
  | inr err => Ret (inr (Wrapf "Unable to create a temporary file for buffering" err))
  | inl (f, path) =>
      deferring (remove_buffer path) (upload_buffered deadline partURL putHeaders f src partNumber)
  end.

(** The loop on the URLs of the parts: the parts sent, the octets left in the pipe, and
    the error that ends it.
    [internal/objectstore/multipart.go:62-74 NewMultipart] *)
Fixpoint upload_parts (deadline : Z) (putHeaders : gmap string string) (partSize : nat)
    (partURLs : list string) (i : Z) (cmu : CompleteMultipartUpload) (stream : bytes)
    : prog (CompleteMultipartUpload * bytes * option gerr) :=
  match partURLs with
  | [] => Ret (cmu, stream, None)
  | partURL :: partURLs =>
      part <- readAndUploadOnePart deadline partURL putHeaders (take partSize stream) i;;
      match part with
      | inr err => Ret (cmu, drop partSize stream, Some err)
      | inl None => Ret (cmu, drop partSize stream, None)
      | inl (Some part) =>
          upload_parts deadline putHeaders partSize partURLs (i + 1) (cmu ++ [part])
            (drop partSize stream)
      end
  end.

(** [internal/objectstore/s3_complete_multipart_api.go:60-75 CompleteMultipartUpload.BuildMultipartUploadETag] *)
Definition BuildMultipartUploadETag (cmu : CompleteMultipartUpload) : result string :=
  let checksums := foldr (λ p (r : result bytes),
    match Hex.DecodeString (PartETag p), r with
    | inl c, inl l => inl (c ++ l)
    | inr e, _ | _, inr e => inr e
    end) (inl [] : result bytes) cmu in
  match checksums with
  | inr e => inr e
  | inl l => inl (Hex.EncodeToString (md5 l) +:+ "-" +:+ itoa (Z.of_nat (length cmu)))
  end.

(** [internal/objectstore/multipart.go:166-176 Multipart.verifyETag] *)
Definition verifyETag (tag : string) (cmu : CompleteMultipartUpload) : option gerr :=
  match BuildMultipartUploadETag cmu with
  | inr e => Some e
  | inl expectedChecksum =>
      if negb (String.eqb expectedChecksum tag)
      then Some (Errorf ("got " +:+ quote tag +:+ " expected " +:+ quote expectedChecksum))
      else None
  end.

(** The checksum, and the error.
    [internal/objectstore/multipart.go:120-164 Multipart.complete] *)
Definition complete (CompleteURL : string) (cmu : CompleteMultipartUpload)
    : prog (string * option gerr) :=
  let body := xml_Marshal cmu in
  match NewRequest "POST" CompleteURL (Some (whole body)) (Z.of_nat (length body)) with
  | inr err => Ret ("", Some (Wrapf "Cannot create CompleteMultipartUpload request" err))
  | inl req =>
      '(o, _) <- call (Do_ (with_header req (Header.Set_ (Header_ req) "Content-Type" "application/xml")));;
      match o with
      | inr err =>
          Ret ("", Some (Wrapf ("CompleteMultipartUpload request " +:+
                               quote (Helper.ScrubURLParams CompleteURL)) err))
      | inl resp =>
          deferring (close_body resp)
            (if negb (StatusCode resp =? 200)%Z then
               Ret ("", Some (Errorf ("CompleteMultipartUpload request " +:+
                                     Helper.ScrubURLParams CompleteURL +:+ " returned")))
             else
               match xml_Decode (RBody resp) with
               | inr err => Ret ("", Some (Wrapf "Cannot decode CompleteMultipartUpload answer" err))
               | inl result =>
                   if isError result then
                     Ret ("", Some (Errorf "CompleteMultipartUpload remote error"))
                   else
                     match c_result result with
                     | None => Ret ("", Some (Errorf "Cannot read CompleteMultipartUpload answer"))
                     | Some res =>
                         match extractETag (ResultETag res) with
                         | Panic m => Raise m
                         | Value tag =>
                             Ret (tag, Wrapf "ETag verification failure" <$> verifyETag tag cmu)
                         end
                     end
               end)
      end
  end.

(** [internal/objectstore/multipart.go:39-94 NewMultipart] *)
Definition NewMultipart (partURLs : list string) (completeURL : string)
    (putHeaders : gmap string string) (deadline : Z) (partSize : Z) (stream : bytes)
    : prog uploader :=
  call (Metric "gitlab_workhorse_object_storage_upload_open" [] 1);;
  deferring (call (Metric "gitlab_workhorse_object_storage_upload_open" [] (-1)))
    ('(cmu, rest, err) <- upload_parts deadline putHeaders (Z.to_nat partSize) partURLs 1 [] stream;;
     match err with
     | Some err => Ret (failed err (length stream - length rest))
     | None =>
         if 0 <? length rest then Ret (failed ErrNotEnoughParts (length stream))
         else
           '(tag, err) <- complete completeURL cmu;;
           Ret {| etag := tag; uploadError := err; taken := length stream |}
     end).

(** What is left to do when the upload and the request are over.
    [internal/objectstore/multipart.go:102-118 Multipart.cleanup] *)
Definition cleanup (abortURL deleteURL : string) (u : uploader) : prog unit :=
  match uploadError u with
  | Some _ =>
      call (Metric "gitlab_workhorse_object_storage_upload_requests" ["request-failed"] 1);;
      syncAndDelete abortURL
  | None => syncAndDelete deleteURL
  end.

(** ** Facts *)

(** The parts of a stream: of [size] octets each but the last one, at most [k]. *)
Fixpoint chunks (k size : nat) (s : bytes) : list bytes :=
  match k with
  | O => []
  | S k => match take size s with [] => [] | c => c :: chunks k size (drop size s) end
  end.

Fixpoint parts_of (i : Z) (cs : list bytes) : CompleteMultipartUpload :=
  match cs with
  | [] => []
  | c :: cs => {| PartNumber := i; PartETag := md5Sum c |} :: parts_of (i + 1) cs
  end.

(** The checksum S3 gives to an object uploaded in these parts. *)
Definition multipart_sum (cs : list bytes) : string :=
  Hex.EncodeToString (md5 (concat (md5 <$> cs))) +:+ "-" +:+ itoa (Z.of_nat (length cs)).

Lemma chunks_concat k size s :
  concat (chunks k size s) = take (k * size) s.
Proof.
  revert s. induction k as [|k IH]; intros s; [done|]. cbn [chunks].
  destruct (take size s) as [|c l] eqn:E.
  - destruct s as [|x s]; [by rewrite take_nil|]. destruct size; [|done].
    by rewrite Nat.mul_0_r.
  - cbn [concat]. rewrite IH, <- E. cbn. by rewrite take_take_drop.
Qed.

Lemma chunks_size k size s i c :
  chunks k size s !! i = Some c →
  length c ≤ size ∧ c ≠ [] ∧ (S i < length (chunks k size s) → length c = size).
Proof.
  revert s i. induction k as [|k IH]; intros s i Hi; [done|]. cbn [chunks] in *.
  destruct (take size s) as [|x l] eqn:E; [done|].
  assert (length (x :: l) ≤ size) as Hl by (rewrite <- E, length_take; lia).
  destruct i as [|i]; cbn in Hi.
  - injection Hi as <-. split_and!; [done|done|]. intros Hlen.
    assert (size ≤ length s) as Hs.
    { destruct (decide (size ≤ length s)); [done|].
      rewrite (drop_ge s) in Hlen by lia. destruct k; cbn in Hlen; [lia|].
      rewrite take_nil in Hlen. cbn in Hlen. lia. }
    rewrite <- E, length_take. lia.
  - destruct (IH (drop size s) i Hi) as (H1 & H2 & H3). split_and!; [done..|].
    intros Hlen. apply H3. cbn in Hlen. lia.
Qed.

Lemma length_parts_of i cs : length (parts_of i cs) = length cs.
Proof. revert i. induction cs as [|c cs IH]; intros j; [done|]. cbn. by rewrite IH. Qed.

Lemma BuildMultipartUploadETag_parts i cs :
  BuildMultipartUploadETag (parts_of i cs) = inl (multipart_sum cs).
Proof.
  unfold BuildMultipartUploadETag, multipart_sum.
  assert (∀ i, foldr (λ p (r : result bytes), match Hex.DecodeString (PartETag p), r with
    | inl c, inl l => inl (c ++ l)
    | inr e, _ | _, inr e => inr e end) (inl [] : result bytes) (parts_of i cs)
    = inl (concat (md5 <$> cs))) as H.
  { induction cs as [|c cs IH]; intros j; [done|]. cbn [parts_of foldr]. rewrite IH.
    cbn [PartETag]. unfold md5Sum. by rewrite Hex.DecodeString_encode. }
  rewrite H. by rewrite length_parts_of.
Qed.

Lemma send_returns metrics url req stream :
  returns (send metrics url req stream)
    (λ u, uploadError u = None → etag u = md5Sum (take (taken u) stream)).
Proof.
  apply returns_deferring. apply returns_bind_any. intros [[resp|err] n].
  - apply returns_deferring. destruct (negb _).
    + apply returns_bind_any. intros _. by apply returns_ret.
    + destruct (extractETag _) as [tag|m]; [|done]. apply returns_ret. cbn.
      by destruct (String.eqb_spec tag (md5Sum (take n stream))).
  - apply returns_bind_any. intros _. by apply returns_ret.
Qed.

Lemma newObject_returns metrics url h size stream :
  returns (newObject metrics url h size stream) (λ o, match o with
    | inl u => uploadError u = None → etag u = md5Sum (take (taken u) stream)
    | inr _ => True end).
Proof.
  unfold newObject. destruct (NewRequest _ _ _ _) as [req|err].
  - apply returns_bind_any. intros _. eapply returns_bind; [apply send_returns|].
    intros u Hu. by apply returns_ret.
  - apply returns_bind_any. intros _. by apply returns_ret.
Qed.

Lemma Write_None u stream : Write u stream = None → take (taken u) stream = stream.
Proof.
  unfold Write. destruct (Nat.ltb_spec (taken u) (length stream)); [done|].
  intros _. by apply take_ge.
Qed.

Lemma Close_None deadline now u : Close deadline now u = None → uploadError u = None.
Proof. unfold Close. by destruct (deadline <=? now)%Z. Qed.

Lemma uploadPart_returns deadline url h part :
  returns (uploadPart deadline url h part) (λ o, match o with
    | inl tag => tag = md5Sum part
    | inr _ => True end).
Proof.
  eapply returns_bind; [apply newObject_returns|]. intros [u|err] Hu; [|by apply returns_ret].
  destruct (Write u part) eqn:Ew; [by apply returns_ret|]. apply returns_bind_any. intros now.
  destruct (Close deadline now u) eqn:Ec; [by apply returns_ret|]. apply returns_ret.
  apply Write_None in Ew. apply Close_None in Ec. rewrite Hu by done. by rewrite Ew.
Qed.

Lemma readAndUploadOnePart_returns deadline url h src i :
  returns (readAndUploadOnePart deadline url h src i) (λ o, match o with
    | inl (Some p) => src ≠ [] ∧ p = {| PartNumber := i; PartETag := md5Sum src |}
    | inl None => src = []
    | inr _ => True end).
Proof.
  apply returns_bind_any. intros [[f path]|err]; [|by apply returns_ret].
  apply returns_deferring. unfold upload_buffered. destruct src as [|c src]; [by apply returns_ret|].
  apply returns_bind_any. intros [n [err|]]; [by apply returns_ret|].
  apply returns_bind_any. intros [err|]; [by apply returns_ret|].
  eapply returns_bind; [apply uploadPart_returns|].
  intros [tag|err] Ht; apply returns_ret; [|done]. by subst.
Qed.

Lemma upload_parts_returns deadline h size urls i cmu stream :
  returns (upload_parts deadline h size urls i cmu stream) (λ o,
    let '(cmu', rest, err) := o in err = None →
    cmu' = cmu ++ parts_of i (chunks (length urls) size stream) ∧
    concat (chunks (length urls) size stream) ++ rest = stream).
Proof.
  revert i cmu stream. induction urls as [|url urls IH]; intros i cmu stream; cbn [upload_parts].
  - apply returns_ret. intros _. cbn. by rewrite app_nil_r.
  - eapply returns_bind; [apply readAndUploadOnePart_returns|].
    intros [[p|]|err] Hp; [..|by apply returns_ret].
    + destruct Hp as [Hne ->]. eapply returns_mono; [apply IH|].
      intros [[cmu' rest] err] H He. destruct (H He) as [-> H2]. cbn [length chunks].
      destruct (take size stream) as [|c l] eqn:E; [done|].
      cbn [parts_of concat]. rewrite <- !app_assoc. split; [done|].
      rewrite H2, <- E. apply take_drop.
    + apply returns_ret. intros _. cbn [length chunks]. rewrite Hp. cbn.
      rewrite app_nil_r. split; [done|]. rewrite <- (take_drop size stream) at 2. by rewrite Hp.
Qed.

Lemma complete_returns url cmu :
  returns (complete url cmu) (λ o, o.2 = None → verifyETag o.1 cmu = None).
Proof.
  unfold complete. destruct (NewRequest _ _ _ _); [|by apply returns_ret].
  apply returns_bind_any. intros [[resp|err] n]; [|by apply returns_ret].
  apply returns_deferring. destruct (negb _); [by apply returns_ret|].
  destruct (xml_Decode _) as [res|]; [|by apply returns_ret].
  destruct (isError res); [by apply returns_ret|].
  destruct (c_result res); [|by apply returns_ret].
  destruct (extractETag _) as [tag|]; [|done]. apply returns_ret. cbn.
  by destruct (verifyETag tag cmu).
Qed.

Lemma NewMultipart_returns urls cu h deadline size stream :
  returns (NewMultipart urls cu h deadline size stream) (λ u,
    uploadError u = None →
    let cs := chunks (length urls) (Z.to_nat size) stream in
    concat cs = stream ∧ etag u = multipart_sum cs ∧ taken u = length stream).
Proof.
  apply returns_bind_any. intros _. apply returns_deferring.
  eapply returns_bind; [apply upload_parts_returns|]. intros [[cmu rest] err] H.
  destruct err as [err|]; [by apply returns_ret|]. destruct (H eq_refl) as [-> H2].
  destruct rest as [|c rest]; [|by apply returns_ret]. cbn [length Nat.ltb Nat.leb].
  eapply returns_bind; [apply complete_returns|]. intros [tag err] Hc. apply returns_ret.
  cbn. intros ->. specialize (Hc eq_refl). cbn in Hc. unfold verifyETag in Hc.
  rewrite BuildMultipartUploadETag_parts in Hc. rewrite app_nil_r in H2.
  split_and!; [done| |done]. by destruct (String.eqb_spec (multipart_sum
    (chunks (length urls) (Z.to_nat size) stream)) tag).
Qed.

(** *** Files

    A request touches no file, and a part's buffer is removed. *)
Definition no_files {A} (p : prog A) : Prop := harmless (λ _ e, makes_or_removes e = false) p.

Lemma close_body_no_files resp : no_files (close_body resp).
Proof. unfold no_files, close_body. harmless_tac. Qed.

Lemma counted_no_files b n l d : no_files (counted b n l d).
Proof. unfold no_files, counted. harmless_tac. Qed.

Lemma syncAndDelete_no_files url : no_files (syncAndDelete url).
Proof.
  unfold no_files, syncAndDelete. harmless_tac. all: apply close_body_no_files.
Qed.

Lemma newObject_no_files metrics url h size stream :
  no_files (newObject metrics url h size stream).
Proof.
  unfold no_files, newObject, send.
  harmless_tac; first [apply close_body_no_files|apply counted_no_files].
Qed.

Lemma uploadPart_no_files deadline url h part : no_files (uploadPart deadline url h part).
Proof.
  apply harmless_bind; [apply newObject_no_files|]. intros o. harmless_tac.
Qed.

Lemma complete_no_files url cmu : no_files (complete url cmu).
Proof. unfold no_files, complete. harmless_tac. all: apply close_body_no_files. Qed.

Lemma cleanup_no_files a d u : no_files (cleanup a d u).
Proof. unfold no_files, cleanup. harmless_tac. all: apply syncAndDelete_no_files. Qed.

Section files.
Context {V : Type} (E : env V) (files : V → gset string) {HE : PathEnv E files}.
#[local] Set Default Proof Using "Type*".

Lemma remove_buffer_files path r w : ∃ o r' w',
  run E (remove_buffer path) r w = (o, r', w') ∧ files w' = files w ∖ {[path]}.
Proof.
  unfold remove_buffer. rewrite run_bind.
  destruct (run_Remove E files path r w HE) as (x & w1 & -> & H1).
  assert (keeps E files (match x with
    | Some _ => call (LogInfo [("file", FText path)] "Unable to delete temporary file")
    | None => Ret tt end)) as Hl by (apply keeps_files_harmless; [done|]; harmless_tac).
  specialize (Hl r w1). destruct (run E _ r w1) as [[o r'] w']. cbn in Hl.
  exists o, r', w'. by rewrite Hl.
Qed.

Lemma readAndUploadOnePart_files deadline url h src i :
  keeps E files (readAndUploadOnePart deadline url h src i).
Proof.
  intros r w. unfold readAndUploadOnePart. rewrite run_bind.
  pose proof (TempFile_makes E files "" "part-buffer" HE r w) as Ht.
  destruct (run E (call (TempFile_ _ _)) r w) as [[[[[f path]|err]|m] r1] w1]; [|done..].
  destruct Ht as [Hp Hw]. rewrite run_deferring.
  assert (keeps E files (upload_buffered deadline url h f src i)) as Hk.
  { apply keeps_files_harmless; [done|]. unfold upload_buffered. harmless_tac.
    apply newObject_no_files. }
  specialize (Hk r1 w1). destruct (run E _ r1 w1) as [[o r2] w2]. cbn in Hk.
  destruct (remove_buffer_files path r2 w2) as (o' & r3 & w3 & -> & Hw3).
  assert (files w3 = files w) as Hw' by (rewrite Hw3, Hk, Hw; clear -Hp; set_solver).
  by destruct o'.
Qed.

Lemma upload_parts_files deadline h size urls i cmu stream :
  keeps E files (upload_parts deadline h size urls i cmu stream).
Proof.
  revert i cmu stream. induction urls as [|url urls IH]; intros i cmu stream; [done|].
  apply keeps_bind; [apply readAndUploadOnePart_files|]. by intros [[p|]|err].
Qed.

Lemma NewMultipart_files urls cu h deadline size stream :
  keeps E files (NewMultipart urls cu h deadline size stream).
Proof.
  apply keeps_bind; [by apply keeps_files_harmless; harmless_tac|]. intros _.
  apply keeps_deferring; [by apply keeps_files_harmless; harmless_tac|].
  apply keeps_bind; [apply upload_parts_files|]. intros [[cmu rest] [err|]]; [done|].
  destruct (0 <? length rest); [done|].
  apply keeps_bind; [apply keeps_files_harmless; [done|apply complete_no_files]|].
  by intros [tag err].
Qed.
End files.
End storage.

Definition dquote : string := of_bytes ["034"%char].

Lemma extractETag_quoted s : extractETag (dquote +:+ s +:+ dquote) = Value s.
Proof.
  unfold extractETag. rewrite !to_bytes_app. change (to_bytes dquote) with ["034"%char].
  cbn [app]. rewrite Ascii.eqb_refl. destruct (to_bytes s ++ ["034"%char]) as [|c l] eqn:E.
  { by destruct (to_bytes s). }
  rewrite <- E, length_app. cbn [length]. rewrite Nat.add_sub, take_app_length.
  by rewrite of_to_bytes.
Qed.

(** ** Uploads to servers that accept them

    What the uploads do with a server is stated once for all servers: a part is taken
    when its PUT request is answered with the right checksum, a list of parts is completed
    when the POST request is answered with the checksum of the whole. *)
Definition request (method : string) (u : url) (h : header) (d : bytes) : Request :=
  {| Method := method; URL := u; ProtoMajor := 1; ProtoMinor := 1; Header_ := h;
     Body := Some (whole d); ContentLength := Z.of_nat (length d); Host := UHost u;
     RequestURI := ""; RemoteAddr := "" |}.

Section served.
Context (url_Parse : string → result url) (md5 : bytes → bytes).
Context (xml_Decode : body → result compoundCompleteMultipartUploadResult).
Context {V : Type} (E : env V).

(** The headers of the requests. *)
Definition put_header (h : gmap string string) : header :=
  map_fold (λ k v h, Header.Set_ h k v) (∅ : header) h.
Definition post_header : header := Header.Set_ ∅ "Content-Type" "application/xml".

(** Nothing but the server fails, and all is done before the deadline. *)
Record smooth (deadline : Z) : Prop := {
  smooth_Now v : ∃ t, E _ Now v = (t, v) ∧ (t < deadline)%Z;
  smooth_Metric name labels delta v : E _ (Metric name labels delta) v = (tt, v);
  smooth_TempFile dir prefix v : ∃ f, E _ (TempFile_ dir prefix) v = (inl f, v);
  smooth_WriteFd f d v : ∃ n, E _ (WriteFd f d) v = ((n, None), v);
  smooth_SeekFd f v : E _ (SeekFd f) v = (None, v);
  smooth_Remove path v : E _ (Remove_ path) v = (None, v);
  smooth_CloseFd f v : E _ (CloseFd f) v = (tt, v);
}.

Definition takes (h : gmap string string) (u : url) (d : bytes) (v v' : V) : Prop := ∃ rsp,
  E _ (Do_ (request "PUT" u (put_header h) d)) v = ((inl rsp, length d), v') ∧
  StatusCode rsp = 200%Z ∧ extractETag (Header.Get (RHeader rsp) "ETag") = Value (md5Sum md5 d).

Fixpoint takes_all (h : gmap string string) (l : list (url * bytes)) (v v' : V) : Prop :=
  match l with
  | [] => v' = v
  | (u, d) :: l => ∃ v1, takes h u d v v1 ∧ takes_all h l v1 v'
  end.

Definition completes (u : url) (cmu : CompleteMultipartUpload) (tag : string) (v v' : V) : Prop :=
  ∃ rsp n res,
    E _ (Do_ (request "POST" u post_header (xml_Marshal cmu))) v = ((inl rsp, n), v') ∧
    StatusCode rsp = 200%Z ∧
    xml_Decode (RBody rsp) = inl {| c_result := Some res; c_error := None |} ∧
    extractETag (ResultETag res) = Value tag.

Context (deadline : Z) (HE : smooth deadline).
#[local] Set Default Proof Using "Type*".

Lemma close_body_smooth rsp w v : run E (close_body rsp) w v = (Value tt, w, v).
Proof. unfold close_body. destruct (RConn rsp); [|done]. cbn. by rewrite (smooth_CloseFd _ HE). Qed.

Lemma counted_smooth b n l d w v : run E (counted b n l d) w v = (Value tt, w, v).
Proof. destruct b; [|done]. cbn. by rewrite (smooth_Metric _ HE). Qed.

Lemma newObject_served metrics rawurl u h d w v v' :
  url_Parse rawurl = inl u → takes h u d v v' →
  run E (newObject url_Parse md5 metrics rawurl h (Z.of_nat (length d)) d) w v =
    (Value (inl {| etag := md5Sum md5 d; uploadError := None; taken := length d |}), w, v').
Proof.
  intros Hu Ht. unfold newObject, NewRequest. rewrite Hu, run_bind, counted_smooth, run_bind.
  unfold send, with_header. rewrite run_deferring, run_bind. cbn [run call Method URL ProtoMajor
    ProtoMinor Header_ Body ContentLength Host RequestURI RemoteAddr].
  destruct Ht as (rsp & He & Hs & Htag). unfold request, put_header in He. rewrite He, run_deferring, Hs. cbn [Z.eqb Pos.eqb negb].
  rewrite Htag, firstn_all, String.eqb_refl. cbn [run].
  by rewrite close_body_smooth, counted_smooth.
Qed.

Lemma uploadPart_served rawurl u h d w v v' :
  url_Parse rawurl = inl u → takes h u d v v' →
  run E (uploadPart url_Parse md5 deadline rawurl h d) w v = (Value (inl (md5Sum md5 d)), w, v').
Proof.
  intros Hu Ht. unfold uploadPart. rewrite run_bind, (newObject_served _ _ _ _ _ _ _ _ Hu Ht).
  unfold Write. cbn [taken]. rewrite Nat.ltb_irrefl. cbn [run call bind].
  destruct (smooth_Now _ HE v') as (t & -> & Ht'). unfold Close.
  by destruct (Z.leb_spec deadline t); [lia|].
Qed.

Lemma readAndUploadOnePart_served rawurl u h src i w v v' :
  url_Parse rawurl = inl u → (src ≠ [] → takes h u src v v') → (src = [] → v' = v) →
  run E (readAndUploadOnePart url_Parse md5 deadline rawurl h src i) w v =
    (Value (inl match src with
                | [] => None
                | _ => Some {| PartNumber := i; PartETag := md5Sum md5 src |} end), w, v').
Proof.
  intros Hu Ht Hn. unfold readAndUploadOnePart, upload_buffered. cbn [run call bind].
  destruct (smooth_TempFile _ HE "" "part-buffer" v) as ([f path] & ->). rewrite run_deferring.
  assert (∀ v, run E (remove_buffer path) w v = (Value tt, w, v)) as Hr.
  { intros v1. unfold remove_buffer. cbn. by rewrite (smooth_Remove _ HE). }
  destruct src as [|c src]; cbn [run]; [by rewrite Hr, Hn|].
  cbn [run call bind]. destruct (smooth_WriteFd _ HE f (c :: src) v) as (n & ->).
  cbn [run call bind]. rewrite (smooth_SeekFd _ HE), run_bind.
  rewrite (uploadPart_served _ _ _ _ _ _ _ Hu (Ht ltac:(done))). cbn [run]. by rewrite Hr.
Qed.

Lemma upload_parts_served h size urls us i cmu stream w v v' :
  Forall2 (λ s u, url_Parse s = inl u) urls us → 0 < size →
  takes_all h (zip us (chunks (length urls) size stream)) v v' →
  run E (upload_parts url_Parse md5 deadline h size urls i cmu stream) w v =
    (Value (cmu ++ parts_of md5 i (chunks (length urls) size stream),
            drop (length urls * size) stream, None), w, v').
Proof.
  intros Hu Hs. revert i cmu stream v. induction Hu as [|rawurl u urls us Hru _ IH];
    intros i cmu stream v Ht.
  - cbn in *. by rewrite !app_nil_r, Ht.
  - cbn [upload_parts length chunks] in *. rewrite run_bind.
    destruct (take size stream) as [|c l] eqn:E'.
    + rewrite (readAndUploadOnePart_served _ _ _ _ _ _ _ v Hru) by done. cbn [run].
      destruct stream as [|x s]; [|by destruct size; [lia|]].
      rewrite !drop_nil. cbn in *. by rewrite !app_nil_r, Ht.
    + cbn [zip zip_with takes_all] in Ht. destruct Ht as (v1 & Ht1 & Ht).
      rewrite (readAndUploadOnePart_served _ _ _ _ _ _ _ v1 Hru) by done.
      rewrite (IH _ _ _ _ Ht). cbn [parts_of]. by rewrite <- !app_assoc, drop_drop.
Qed.

Lemma complete_served rawurl u cmu tag w v v' :
  url_Parse rawurl = inl u → completes u cmu tag v v' → verifyETag md5 tag cmu = None →
  run E (complete url_Parse md5 xml_Decode rawurl cmu) w v = (Value (tag, None), w, v').
Proof.
  intros Hu Hc Hv. unfold complete, NewRequest, with_header. rewrite Hu. cbn [run call bind Method
    URL ProtoMajor ProtoMinor Header_ Body ContentLength Host RequestURI RemoteAddr].
  destruct Hc as (rsp & n & res & He & Hs & Hd & Htag). unfold request, post_header in He. rewrite He, run_deferring, Hs. cbn [Z.eqb Pos.eqb negb].
  rewrite Hd. cbn [isError c_error c_result]. rewrite Htag, Hv. cbn [run fmap option_fmap option_map].
  by rewrite close_body_smooth.
Qed.

(** The upload as a whole: it completes when the stream fits the parts. *)
Lemma NewMultipart_served h partSize urls us rawurl u stream w v v1 v' :
  Forall2 (λ s u, url_Parse s = inl u) urls us → url_Parse rawurl = inl u →
  (0 < partSize)%Z →
  let cs := chunks (length urls) (Z.to_nat partSize) stream in
  let fits := length stream <=? length urls * Z.to_nat partSize in
  takes_all h (zip us cs) v v1 →
  (if fits then completes u (parts_of md5 1 cs) (multipart_sum md5 cs) v1 v' else v' = v1) →
  run E (NewMultipart url_Parse md5 xml_Decode urls rawurl h deadline partSize stream) w v =
    (Value {| etag := if fits then multipart_sum md5 cs else "";
              uploadError := if fits then None else Some ErrNotEnoughParts;
              taken := length stream |}, w, v').
Proof.
  intros Hus Hu Hs cs fits Ht Hc. unfold NewMultipart. cbn [run call bind].
  rewrite (smooth_Metric _ HE), run_deferring, run_bind.
  erewrite upload_parts_served by (first [done|lia]). fold cs. cbn [app].
  rewrite length_drop. unfold fits in *.
  destruct (Nat.leb_spec (length stream) (length urls * Z.to_nat partSize)) as [Hf|Hf].
  - rewrite (proj2 (Nat.ltb_ge _ _)) by lia. rewrite run_bind.
    erewrite complete_served; [|done..|].
    + cbn. by rewrite (smooth_Metric _ HE).
    + unfold verifyETag. by rewrite BuildMultipartUploadETag_parts, String.eqb_refl.
  - rewrite (proj2 (Nat.ltb_lt _ _)) by lia. cbn. by rewrite (smooth_Metric _ HE), Hc.
Qed.
End served.

Lemma length_chunks k size s : length (chunks k size s) ≤ k.
Proof.
  revert s. induction k as [|k IH]; intros s; [done|]. cbn. destruct (take _ s); cbn; [lia|].
  specialize (IH (drop size s)). lia.
Qed.

(** ** A storage server

    It stores what it is sent and answers with the right checksums. *)
Record store := { puts : list (url * bytes); posts : list (url * bytes) }.

Section server.
Context (parse : string → url) (md5 : bytes → bytes) (reply : string → bytes).
Context (xml_Decode : body → result compoundCompleteMultipartUploadResult).
Context (Hreply : ∀ tag, xml_Decode (whole (reply tag)) = inl
  {| c_result := Some {| Location := ""; Bucket := ""; Key := "";
                         ResultETag := dquote +:+ tag +:+ dquote |}; c_error := None |}).

Definition storage : env store := λ X e w,
  match e in ext X return X * store with
  | Do_ r =>
      let b := b_data (body_of r) in
      if String.eqb (Method r) "PUT" then
        ((inl {| StatusCode := 200;
                 RHeader := Header.Set_ ∅ "ETag" (dquote +:+ md5Sum md5 b +:+ dquote);
                 RBody := whole []; RConn := None |}, length b),
         {| puts := puts w ++ [(URL r, b)]; posts := posts w |})
      else if String.eqb (Method r) "POST" then
        ((inl {| StatusCode := 200; RHeader := ∅;
                 RBody := whole (reply (multipart_sum md5 (snd <$> puts w))); RConn := None |},
          length b),
         {| puts := puts w; posts := posts w ++ [(URL r, b)] |})
      else ((inl {| StatusCode := 204; RHeader := ∅; RBody := whole []; RConn := None |}, 0), w)
  | TempFile_ dir prefix => (inl (0, "/tmp/" +:+ prefix), w)
  | e => ((HelperProps.quiet_env _ e tt).1, w)
  end.

#[local] Set Default Proof Using "Type".

Lemma storage_smooth deadline : (0 < deadline)%Z → smooth storage deadline.
Proof. intros Hd. split; try done; intros; cbn; eauto. Qed.

Lemma storage_takes_all h l e :
  takes_all md5 storage h l e {| puts := puts e ++ l; posts := posts e |}.
Proof.
  revert e. induction l as [|[u d] l IH]; intros [ps qs]; cbn [takes_all].
  - cbn. by rewrite app_nil_r.
  - exists {| puts := ps ++ [(u, d)]; posts := qs |}. split.
    + eexists. split; [reflexivity|]. split; [done|]. cbn [RHeader].
      by rewrite Header.Get_Set_eq, extractETag_quoted.
    + specialize (IH {| puts := ps ++ [(u, d)]; posts := qs |}). cbn in IH.
      by rewrite <- app_assoc in IH.
Qed.

(** With a storage server that answers correctly and in time, an upload that fits its
    parts sends them in order to their URLs, completes with the right list of parts and
    ends without an error; one that does not fit sends all the parts, never completes and
    ends with [ErrNotEnoughParts]. *)
Theorem Multipart_completes (deadline partSize : Z) (h : gmap string string)
    (urls : list string) (completeURL : string) (stream : bytes) (w : resp)
    (Hd : (0 < deadline)%Z) (Hs : (0 < partSize)%Z) :
  let cs := chunks (length urls) (Z.to_nat partSize) stream in
  let fits := length stream <=? length urls * Z.to_nat partSize in
  run storage (NewMultipart (λ s, inl (parse s)) md5 xml_Decode urls completeURL h deadline
                 partSize stream) w {| puts := []; posts := [] |} =
    (Value {| etag := if fits then multipart_sum md5 cs else "";
              uploadError := if fits then None else Some ErrNotEnoughParts;
              taken := length stream |}, w,
     {| puts := zip (parse <$> urls) cs;
        posts := if fits then [(parse completeURL, xml_Marshal (parts_of md5 1 cs))] else [] |}).
Proof using Hreply.
  cbv zeta. set (cs := chunks _ _ _).
  assert (length cs ≤ length (parse <$> urls)) as Hl by (rewrite length_fmap; apply length_chunks).
  erewrite (NewMultipart_served _ _ _ storage deadline (storage_smooth deadline Hd));
    [reflexivity|..].
  - instantiate (1 := parse <$> urls). clear. by induction urls; constructor.
  - done.
  - done.
  - apply storage_takes_all.
  - fold cs. destruct (_ <=? _); [|done]. eexists _, _, _. split; [reflexivity|].
    split; [done|]. cbn [puts app RBody]. rewrite snd_zip by done. rewrite Hreply.
    split; [done|]. apply extractETag_quoted.
Qed.
End server.

(** C6: an upload in parts that reports success, whatever the server does, was read to its
    end, all of it was sent, in parts of the given size of which only the last may be
    smaller, and the server gave the checksum that the parts sent must have. *)
Theorem Multipart_integrity {V} (E : env V) url_Parse md5 xml_Decode (urls : list string)
    (completeURL : string) (h : gmap string string) (deadline partSize : Z) (stream : bytes)
    (w w' : resp) (e e' : V) (u : uploader)
    (Hrun : run E (NewMultipart url_Parse md5 xml_Decode urls completeURL h deadline partSize
                     stream) w e = (Value u, w', e'))
    (Hok : uploadError u = None) :
  let cs := chunks (length urls) (Z.to_nat partSize) stream in
  concat cs = stream ∧ taken u = length stream ∧ etag u = multipart_sum md5 cs ∧
  length stream ≤ length urls * Z.to_nat partSize ∧
  ∀ i c, cs !! i = Some c → length c ≤ Z.to_nat partSize ∧ c ≠ [] ∧
    (S i < length cs → length c = Z.to_nat partSize).
Proof.
  pose proof (returns_run E _ _ w e u w' e' (NewMultipart_returns url_Parse md5 xml_Decode urls
    completeURL h deadline partSize stream) Hrun Hok) as (H1 & H2 & H3).
  cbv zeta. split_and!; [done..| |by intros i c; apply chunks_size].
  rewrite chunks_concat in H1. rewrite <- H1, length_take. lia.
Qed.

(** An object sent in one request that reports success has the checksum of the octets
    that the server took, and of the whole stream if the writes succeeded too. *)
Theorem Object_integrity {V} (E : env V) url_Parse md5 (metrics : bool) (putURL : string)
    (h : gmap string string) (size : Z) (stream : bytes) (w w' : resp) (e e' : V) (u : uploader)
    (Hrun : run E (newObject url_Parse md5 metrics putURL h size stream) w e
            = (Value (inl u), w', e'))
    (Hok : uploadError u = None) (Hwrite : Write u stream = None) :
  etag u = md5Sum md5 stream.
Proof.
  pose proof (returns_run E _ _ w e _ w' e'
    (newObject_returns url_Parse md5 metrics putURL h size stream) Hrun Hok) as H.
  cbn in H. by rewrite H, Write_None.
Qed.

(** ** Examples *)

Definition test_url (s : string) : url := mk_url "https" "storage" s "".
Definition test_decode (b : body) : result compoundCompleteMultipartUploadResult :=
  inl {| c_result := Some {| Location := ""; Bucket := ""; Key := "";
                             ResultETag := dquote +:+ of_bytes (b_data b) +:+ dquote |};
         c_error := None |}.

Lemma test_decode_reply tag : test_decode (whole (to_bytes tag)) = inl
  {| c_result := Some {| Location := ""; Bucket := ""; Key := "";
                         ResultETag := dquote +:+ tag +:+ dquote |}; c_error := None |}.
Proof. unfold test_decode. cbn [b_data whole]. by rewrite of_to_bytes. Qed.

Definition test_storage : env store := storage (take 2) to_bytes.
Definition test_multipart (stream : string) : prog uploader :=
  NewMultipart (λ s, inl (test_url s)) (take 2) test_decode ["/1"; "/2"] "/complete" ∅ 9 3
    (to_bytes stream).

Lemma Multipart_completes_witness :
  let cs := chunks 2 3 (to_bytes "hello") in
  let fits := length (to_bytes "hello") <=? 2 * 3 in
  run test_storage (test_multipart "hello") (new_resp ∅) {| puts := []; posts := [] |} =
    (Value {| etag := if fits then multipart_sum (take 2) cs else "";
              uploadError := if fits then None else Some ErrNotEnoughParts;
              taken := length (to_bytes "hello") |}, new_resp ∅,
     {| puts := zip (test_url <$> ["/1"; "/2"]) cs;
        posts := if fits then [(test_url "/complete", xml_Marshal (parts_of (take 2) 1 cs))]
                 else [] |}).
Proof.
  apply (Multipart_completes test_url (take 2) to_bytes test_decode test_decode_reply 9 3 ∅
    ["/1"; "/2"] "/complete" (to_bytes "hello")); reflexivity.
Defined.

Definition test_uploaded (stream : string) : uploader :=
  match (run test_storage (test_multipart stream) (new_resp ∅) {| puts := []; posts := [] |}).1.1 with
  | Value u => u
  | Panic _ => failed EOF 0
  end.

Lemma Multipart_integrity_witness :
  uploadError (test_uploaded "hello") = None ∧
  let cs := chunks 2 3 (to_bytes "hello") in
  concat cs = to_bytes "hello" ∧ taken (test_uploaded "hello") = 5 ∧
  etag (test_uploaded "hello") = multipart_sum (take 2) cs ∧ 5 ≤ 2 * 3 ∧
  ∀ i c, cs !! i = Some c → length c ≤ 3 ∧ c ≠ [] ∧ (S i < length cs → length c = 3).
Proof.
  split; [vm_compute; reflexivity|].
  refine (Multipart_integrity test_storage (λ s, inl (test_url s)) (take 2) test_decode
    ["/1"; "/2"] "/complete" ∅ 9 3 (to_bytes "hello") (new_resp ∅) (new_resp ∅)
    {| puts := []; posts := [] |} _ (test_uploaded "hello") _ _);
    vm_compute; reflexivity.
Defined.

Lemma Object_integrity_witness :
  let u := {| etag := md5Sum (take 2) (to_bytes "hello"); uploadError := None; taken := 5 |} in
  Write u (to_bytes "hello") = None ∧ etag u = md5Sum (take 2) (to_bytes "hello").
Proof.
  split; [reflexivity|].
  refine (Object_integrity test_storage (λ s, inl (test_url s)) (take 2) true "/put" ∅ 5
    (to_bytes "hello") (new_resp ∅) (new_resp ∅) {| puts := []; posts := [] |} _
    {| etag := md5Sum (take 2) (to_bytes "hello"); uploadError := None; taken := 5 |} _ _ _);
    vm_compute; reflexivity.
Defined.

(** A checksum that is a single quote crashes the upload's goroutine. *)
Example extractETag_panics : extractETag dquote = Panic "slice bounds out of range [1:0]".
Proof. reflexivity. Qed.

(** The file that buffers a part is removed but never closed: nothing in
    [readAndUploadOnePart] closes a descriptor. *)
Example part_buffer_stays_open :
  harmless (λ X e, closes e = false)
    (readAndUploadOnePart (λ s, inl (test_url s)) (take 2) 9 "/1" ∅ [] 1).
Proof. cbn. split; [done|]. intros [[f path]|err]; cbn; [|done]. split; [done|]. by intros [x|]. Qed.

Example xml_Marshal_test :
  of_bytes (xml_Marshal [{| PartNumber := 1; PartETag := "a<b" |}]) =
    "<CompleteMultipartUpload><Part><PartNumber>1</PartNumber><ETag>a&lt;b</ETag></Part></CompleteMultipartUpload>".
Proof. reflexivity. Qed.
End ObjectStore.
