(* ===== verification/FileStore.v ===== *)
(** * Saving uploaded files (internal/filestore, internal/lfs)

    A file that a client uploads is copied at once to hash functions, to object storage
    and to a local file, as Rails asked; Rails then gets the request with the locations,
    the size and the checksums in place of the file.  What was stored is removed when the
    request is over.  The hash functions are parameters. *)

From S2P Require Import Prelude GoString Http GoNet Helper Gitaly Terminal Api ObjectStore Block.
From stdpp Require Import options.

Module FileStore.

(** ** Options *)

(** In nanoseconds.
    [internal/filestore/save_file_opts.go:9-10 DefaultObjectStoreTimeout] *)
Definition second : Z := 1000000000.
Definition DefaultObjectStoreTimeout : Z := 4 * 3600 * second.

(** [internal/filestore/save_file_opts.go:13-41 SaveFileOpts] *)
Record SaveFileOpts := {
  TempFilePrefix : string;
  LocalTempPath : string;
  RemoteID : string;
  RemoteURL : string;
  PresignedPut : string;
  PresignedDelete : string;
  PutHeaders : gmap string string;
  Deadline : Z;
  PartSize : Z;
  PresignedParts : list string;
  PresignedCompleteMultipart : string;
  PresignedAbortMultipart : string;
}.

(** [internal/filestore/save_file_opts.go:44-46 SaveFileOpts.IsLocal] *)
Definition IsLocal (s : SaveFileOpts) : bool := negb (String.eqb (LocalTempPath s) "").

(** [internal/filestore/save_file_opts.go:54-56 SaveFileOpts.IsMultipart] *)
Definition IsMultipart (s : SaveFileOpts) : bool := (0 <? PartSize s)%Z.

(** [internal/filestore/save_file_opts.go:49-51 SaveFileOpts.IsRemote] *)
Definition IsRemote (s : SaveFileOpts) : bool :=
  negb (String.eqb (PresignedPut s) "") || IsMultipart s.

(** [internal/filestore/save_file_opts.go:59-90 GetOpts] *)
Definition GetOpts (now : Z) (apiResponse : Api.Response) : SaveFileOpts :=
  let ro := Api.RemoteObject apiResponse in
  let timeout := (Api.Timeout ro * second)%Z in
  let timeout := if (timeout =? 0)%Z then DefaultObjectStoreTimeout else timeout in
  let multi := Api.MultipartUpload ro in
  {| TempFilePrefix := "";
     LocalTempPath := Api.TempPath apiResponse;
     RemoteID := Api.ID ro;
     RemoteURL := Api.GetURL ro;
     PresignedPut := Api.StoreURL ro;
     PresignedDelete := Api.DeleteURL ro;
     PutHeaders :=
       if negb (Api.CustomPutHeaders ro)
       then {["Content-Type" := "application/octet-stream"]} else Api.PutHeaders ro;
     Deadline := (now + timeout)%Z;
     PartSize := match multi with Some m => Api.PartSize m | None => 0 end;
     PresignedParts := match multi with Some m => Api.PartURLs m | None => [] end;
     PresignedCompleteMultipart := match multi with Some m => Api.CompleteURL m | None => "" end;
     PresignedAbortMultipart := match multi with Some m => Api.AbortURL m | None => "" end |}.

Definition with_prefix (prefix : string) (o : SaveFileOpts) : SaveFileOpts :=
  {| TempFilePrefix := prefix; LocalTempPath := LocalTempPath o; RemoteID := RemoteID o;
     RemoteURL := RemoteURL o; PresignedPut := PresignedPut o;
     PresignedDelete := PresignedDelete o; PutHeaders := PutHeaders o; Deadline := Deadline o;
     PartSize := PartSize o; PresignedParts := PresignedParts o;
     PresignedCompleteMultipart := PresignedCompleteMultipart o;
     PresignedAbortMultipart := PresignedAbortMultipart o |}.

(** ** Stored files *)

(** [internal/filestore/file_handler.go:22-40 FileHandler] *)
Record FileHandler := {
  LocalPath : string;
  RemoteID_ : string;
  RemoteURL_ : string;
  Size : Z;
  Name : string;
  hashes : gmap string string;
}.

(** [internal/filestore/file_handler.go:43-45 FileHandler.SHA256] *)
Definition SHA256 (fh : FileHandler) : string := default "" (hashes fh !! "sha256").

(** [internal/filestore/file_handler.go:48-50 FileHandler.MD5] *)
Definition MD5 (fh : FileHandler) : string := default "" (hashes fh !! "md5").

Definition set_unless_empty (k v : string) (data : gmap string string) : gmap string string :=
  if String.eqb v "" then data else <[k := v]> data.

(** [internal/filestore/file_handler.go:53-81 FileHandler.GitLabFinalizeFields] *)
Definition GitLabFinalizeFields (fh : FileHandler) (prefix : string) : gmap string string :=
  let key field := if String.eqb prefix "" then field else prefix +:+ "." +:+ field in
  let data := set_unless_empty (key "name") (Name fh) ∅ in
  let data := set_unless_empty (key "path") (LocalPath fh) data in
  let data := set_unless_empty (key "remote_url") (RemoteURL_ fh) data in
  let data := set_unless_empty (key "remote_id") (RemoteID_ fh) data in
  let data := <[key "size" := itoa (Size fh)]> data in
  map_fold (λ hashName hash data, <[key hashName := hash]> data) data (hashes fh).

(** What is to be removed when the request is over: a local file, and an object.  An
    object in parts is aborted if its upload failed. *)
Record leftovers := {
  l_local : option string;
  l_remote : option (bool * string * string * ObjectStore.uploader);
}.
Definition nothing_left : leftovers := {| l_local := None; l_remote := None |}.

Section save.
Context (url_Parse : string → result url).
Context (xml_Decode : body → result ObjectStore.compoundCompleteMultipartUploadResult).
Context (md5 sha1 sha256 sha512 : bytes → bytes).

(** [internal/filestore/multi_hash.go:13-18 hashFactories] *)
Definition hashFactories : list (string * (bytes → bytes)) :=
  [("md5", md5); ("sha1", sha1); ("sha256", sha256); ("sha512", sha512)].

(** The checksums of what was written.
    [internal/filestore/multi_hash.go:41-48 multiHash.finish] *)
Definition finish (d : bytes) : gmap string string :=
  foldl (λ h '(hashName, hash), <[hashName := Hex.EncodeToString (hash d)]> h)
    (∅ : gmap string string) hashFactories.

(** [internal/filestore/file_handler.go:160-179 FileHandler.uploadLocalFile] *)
Definition uploadLocalFile (opts : SaveFileOpts) : prog (result (fd * string)) :=
  err <- call (MkdirAll_ (LocalTempPath opts));;
  match err with
  | Some err => Ret (inr (Wrapf ("uploadLocalFile: mkdir " +:+ quote (LocalTempPath opts)) err))
  | None =>
      file <- call (TempFile_ (LocalTempPath opts) (TempFilePrefix opts));;
      match file with
      | inr err => Ret (inr (Wrapf "uploadLocalFile: create file" err))
      | inl file => Ret (inl file)
      end
  end.

(** The goroutine of the remote writer, on the octets that are written to it.
    [internal/filestore/file_handler.go:102-117 SaveFileFromReader] *)
Definition upload_remote (opts : SaveFileOpts) (size : Z) (stream : bytes)
    : prog (result (option ObjectStore.uploader)) :=
  if IsMultipart opts then
    u <- ObjectStore.NewMultipart url_Parse md5 xml_Decode (PresignedParts opts)
           (PresignedCompleteMultipart opts) (PutHeaders opts) (Deadline opts) (PartSize opts)
           stream;;
    Ret (inl (Some u))
  else if IsRemote opts then
    u <- ObjectStore.NewObject url_Parse md5 (PresignedPut opts) (PutHeaders opts) size stream;;
    match u with inl u => Ret (inl (Some u)) | inr err => Ret (inr err) end
  else Ret (inl None).

(** What reaches the remote writer when writing to the local file fails after [n] octets:
    the buffer that failed is written to the remote writer before. *)
Definition before_failure (n : nat) (d : bytes) : bytes :=
  take ((n / copy_buffer + 1) * copy_buffer) d.

(** The remote upload as it will be removed. *)
Definition remote_left (opts : SaveFileOpts) (u : option ObjectStore.uploader)
    : option (bool * string * string * ObjectStore.uploader) :=
  (λ u, (IsMultipart opts, PresignedAbortMultipart opts, PresignedDelete opts, u)) <$> u.

(** The copy, once the local file has been written: the remote writer gets [stream] and
    is closed.
    [internal/filestore/file_handler.go:134-157 SaveFileFromReader] *)
Definition copy_to_remote (reader : body) (size : Z) (opts : SaveFileOpts)
    (local_file : option string) (local_error : option gerr) (stream : bytes)
    : prog (result FileHandler * leftovers) :=
  let d := b_data reader in
  remote <- upload_remote opts size stream;;
  match remote with
  | inr err => Ret (inr err, {| l_local := local_file; l_remote := None |})
  | inl remoteWriter =>
      let residue := {| l_local := local_file; l_remote := remote_left opts remoteWriter |} in
      let remote_error := u ← remoteWriter; ObjectStore.Write u stream in
      match remote_error, local_error, (read_all reader).2 with
      | Some err, _, _ | None, Some err, _ | None, None, Some err => Ret (inr err, residue)
      | None, None, None =>
          let n := Z.of_nat (length d) in
          if negb (size =? -1)%Z && negb (size =? n)%Z then
            Ret (inr (Errorf ("Expected " +:+ itoa size +:+ " bytes but got only " +:+ itoa n)),
                 residue)
          else
            let fh h := {| LocalPath := default "" local_file; RemoteID_ := RemoteID opts;
                           RemoteURL_ := RemoteURL opts; Size := n; Name := TempFilePrefix opts;
                           hashes := h |} in
            match remoteWriter with
            | None => Ret (inl (fh (finish d)), residue)
            | Some u =>
                now <- call Now;;
                match ObjectStore.Close (Deadline opts) now u with
                | Some err =>
                    Ret (inr (if decide (err = ErrNotEnoughParts) then ErrEntityTooLarge else err),
                         residue)
                | None => Ret (inl (fh (<["etag" := ObjectStore.etag u]> (finish d))), residue)
                end
            end
      end
  end.

(** The result, and what is left to remove.  The local file is created while the remote
    upload waits for its first octets; it is written in full before the remote upload is
    run: if the remote writer fails first, the real file is shorter, but it is not used.
    [internal/filestore/file_handler.go:85-158 SaveFileFromReader] *)
Definition SaveFileFromReader (reader : body) (size : Z) (opts : SaveFileOpts)
    : prog (result FileHandler * leftovers) :=
  let d := b_data reader in
  if IsRemote opts && negb (IsMultipart opts) &&
     match url_Parse (PresignedPut opts) with inl _ => false | inr _ => true end
  then
    (* no request can be made *)
    u <- ObjectStore.NewObject url_Parse md5 (PresignedPut opts) (PutHeaders opts) size [];;
    Ret (inr match u with inr err => err | inl _ => EOF end, nothing_left)
  else if IsLocal opts then
    fileWriter <- uploadLocalFile opts;;
    match fileWriter with
    | inr err =>
        (* the remote writer is closed before anything is written to it *)
        remote <- upload_remote opts size [];;
        Ret (inr err, {| l_local := None;
                         l_remote := match remote with
                                     | inl u => remote_left opts u
                                     | inr _ => None end |})
    | inl (f, path) =>
        deferring (call (CloseFd f))
          ('(n, err) <- match d with [] => Ret (0, None) | _ => call (WriteFd f d) end;;
           copy_to_remote reader size opts (Some path) err
             match err with Some _ => before_failure n d | None => d end)
    end
  else if IsRemote opts then copy_to_remote reader size opts None None d
  else Ret (inr (Errorf "Missing upload destination"), nothing_left).

(** What the goroutines that wait for the end of the request do.
    [internal/filestore/file_handler.go:172-175 FileHandler.uploadLocalFile] *)
Definition remove_leftovers (l : leftovers) : prog unit :=
  match l_local l with Some path => call (Remove_ path);; Ret tt | None => Ret tt end;;
  match l_remote l with
  | Some (true, abortURL, deleteURL, u) => ObjectStore.cleanup url_Parse abortURL deleteURL u
  | Some (false, _, deleteURL, _) => ObjectStore.syncAndDelete url_Parse deleteURL
  | None => Ret tt
  end.

(** [internal/filestore/file_handler.go:182-195 SaveFileFromDisk] *)
Definition SaveFileFromDisk (fileName : string) (opts : SaveFileOpts)
    : prog (result FileHandler * leftovers) :=
  file <- call (OpenPath fileName);;
  match file with
  | inr err => Ret (inr err, nothing_left)
  | inl file =>
      deferring (call (CloseFd file))
        (fi <- call (Stat file);;
         match fi with
         | inr err => Ret (inr err, nothing_left)
         | inl fi =>
             b <- call (ReadFd file);;
             SaveFileFromReader b (Http.Size fi) opts
         end)
  end.

(** ** Uploads as request bodies *)

(** [internal/filestore/body_uploader.go:19-22 UploadVerifier] *)
Definition UploadVerifier : Type := FileHandler → option gerr.

(** [internal/filestore/body_uploader.go:25-29 UploadPreparer] *)
Definition UploadPreparer : Type :=
  Z → Api.Response → result (SaveFileOpts * option UploadVerifier).

(** [internal/filestore/body_uploader.go:33-35 defaultPreparer.Prepare] *)
Definition defaultPreparer : UploadPreparer := λ now a, inl (GetOpts now a, None).

(** [url.Values.Encode]: sorted by key, escaped. *)
Definition query_octet (c : octet) : bytes :=
  if is_digit c || is_upper c || is_lower c || existsb (Ascii.eqb c) (to_bytes "-_.~")
  then [c]
  else if Ascii.eqb c " "%char then ["+"%char]
  else "%"%char :: (upper <$> Hex.encode_octet c).
Definition QueryEscape (s : string) : bytes := concat (query_octet <$> to_bytes s).

Definition sorted_fields (m : gmap string string) : list (string * string) :=
  sort_keys (map_to_list m).

Fixpoint join_fields (l : list (string * string)) : bytes :=
  match l with
  | [] => []
  | [(k, v)] => QueryEscape k ++ "="%char :: QueryEscape v
  | (k, v) :: l => QueryEscape k ++ "="%char :: QueryEscape v ++ "&"%char :: join_fields l
  end.
Definition Values_Encode (m : gmap string string) : bytes := join_fields (sorted_fields m).

(** The request that Rails gets in place of the upload.
    [internal/filestore/body_uploader.go:64-74 BodyUploader] *)
Definition hijack_body (r : Request) (fh : FileHandler) : Request :=
  let body := Values_Encode (GitLabFinalizeFields fh "file") in
  with_header (with_body r (Some (whole body)) (Z.of_nat (length body)))
    (Header.Set_ (Header_ r) "Content-Type" "application/x-www-form-urlencoded").

(** What is done with an authorization; the cleanup waits for the end of the request.
    [internal/filestore/body_uploader.go:45-78 BodyUploader] *)
Definition upload_body (h : Handler) (p : UploadPreparer) : Api.HandleFunc := λ r a,
  now <- call Now;;
  match p now a with
  | inr err => Helper.Fail500 r (Some (Wrapf "BodyUploader: preparation failed" err))
  | inl (opts, verifier) =>
      '(fh, residue) <- SaveFileFromReader (body_of r) (ContentLength r) opts;;
      deferring (remove_leftovers residue)
        match fh with
        | inr err => Helper.Fail500 r (Some (Wrapf "BodyUploader: upload failed" err))
        | inl fh =>
            match verifier ≫= λ verify, verify fh with
            | Some err => Helper.Fail500 r (Some (Wrapf "BodyUploader: verification failed" err))
            | None => h (hijack_body r fh)
            end
        end
  end.

(** [internal/filestore/body_uploader.go:40-79 BodyUploader] *)
Definition BodyUploader (preAuthorizeHandler : Api.HandleFunc → string → Handler) (h : Handler)
    (p : option UploadPreparer) : Handler :=
  preAuthorizeHandler (upload_body h (default defaultPreparer p)) "/authorize".

(** ** internal/lfs *)

(** [internal/lfs/lfs.go:15-18 object] *)
Record object := { o_size : Z; oid : string }.

(** [internal/lfs/lfs.go:20-30 object.Verify] *)
Definition Verify (l : object) (fh : FileHandler) : option gerr :=
  if negb (Size fh =? o_size l)%Z then
    Some (Errorf ("LFSObject: expected size " +:+ itoa (o_size l) +:+ ", wrote " +:+ itoa (Size fh)))
  else if negb (String.eqb (SHA256 fh) (oid l)) then
    Some (Errorf ("LFSObject: expected sha256 " +:+ oid l +:+ ", got " +:+ SHA256 fh))
  else None.

(** [internal/lfs/lfs.go:34-39 uploadPreparer.Prepare] *)
Definition lfs_Prepare : UploadPreparer := λ now a,
  let opts := with_prefix (Api.LfsOid a) (GetOpts now a) in
  inl (opts, Some (Verify {| oid := Api.LfsOid a; o_size := Api.LfsSize a |})).

(** [internal/lfs/lfs.go:41-43 PutStore] *)
Definition PutStore (preAuthorizeHandler : Api.HandleFunc → string → Handler) (h : Handler)
    : Handler := BodyUploader preAuthorizeHandler h (Some lfs_Prepare).

(** ** Facts *)

Definition sums (d : bytes) (h : gmap string string) : Prop :=
  ∀ name hash, (name, hash) ∈ hashFactories → h !! name = Some (Hex.EncodeToString (hash d)).

Lemma finish_sums d : sums d (finish d) ∧ ∀ tag, sums d (<["etag" := tag]> (finish d)).
Proof.
  assert (sums d (finish d)) as H.
  { intros name hash Hin. unfold hashFactories, finish in *.
    repeat (apply elem_of_cons in Hin as [[= -> ->]|Hin]; [reflexivity|]).
    by apply elem_of_nil in Hin. }
  split; [done|]. intros tag name hash Hin. rewrite lookup_insert_ne; [by apply H|].
  intros <-. unfold hashFactories in Hin.
  repeat (apply elem_of_cons in Hin as [[=]|Hin]). by apply elem_of_nil in Hin.
Qed.

(** What a remote upload that reports no error says of the octets written to it. *)
Definition stored (opts : SaveFileOpts) (d : bytes) (tag : string) : Prop :=
  if IsMultipart opts then
    let cs := ObjectStore.chunks (length (PresignedParts opts)) (Z.to_nat (PartSize opts)) d in
    concat cs = d ∧ tag = ObjectStore.multipart_sum md5 cs
  else tag = ObjectStore.md5Sum md5 d.

Lemma upload_remote_returns opts size stream :
  returns (upload_remote opts size stream) (λ o, match o with
    | inl (Some u) => IsRemote opts = true ∧
        (ObjectStore.uploadError u = None → ObjectStore.Write u stream = None →
         stored opts stream (ObjectStore.etag u))
    | inl None => IsRemote opts = false
    | inr _ => True end).
Proof.
  unfold upload_remote, stored, IsRemote. destruct (IsMultipart opts).
  - eapply returns_bind; [apply ObjectStore.NewMultipart_returns|]. intros u Hu.
    apply returns_ret. rewrite orb_true_r. split; [done|]. intros H1 _.
    by destruct (Hu H1) as (? & ? & _).
  - rewrite orb_false_r. destruct (String.eqb (PresignedPut opts) ""); cbn [negb].
    + by apply returns_ret.
    + eapply returns_bind; [apply ObjectStore.newObject_returns|].
      intros [u|err] Hu; apply returns_ret; [|done]. split; [done|]. intros H1 H2.
      apply ObjectStore.Write_None in H2. rewrite <- H2. by apply Hu.
Qed.

(** What a saved file says of the octets it was made of. *)
Definition saved (reader : body) (size : Z) (opts : SaveFileOpts) (fh : FileHandler) : Prop :=
  let d := b_data reader in
  b_end reader = EOF ∧ Size fh = Z.of_nat (length d) ∧
  (size = (-1)%Z ∨ size = Z.of_nat (length d)) ∧ sums d (hashes fh) ∧
  (IsRemote opts = true → ∃ tag, hashes fh !! "etag" = Some tag ∧ stored opts d tag) ∧
  (IsLocal opts = true ∨ IsRemote opts = true).

Lemma copy_to_remote_returns reader size opts lf le stream :
  (le = None → stream = b_data reader) → (IsLocal opts = true ∨ IsRemote opts = true) →
  returns (copy_to_remote reader size opts lf le stream) (λ o,
    match o.1 with inl fh => saved reader size opts fh | inr _ => True end).
Proof.
  intros Hle Hdest. unfold copy_to_remote. cbv zeta.
  eapply returns_bind; [apply upload_remote_returns|].
  intros [ru|err] Hu; [|by apply returns_ret].
  destruct (u ← ru; ObjectStore.Write u stream) as [err|] eqn:Ew; [by apply returns_ret|].
  destruct le as [err|]; [by apply returns_ret|].
  destruct ((read_all reader).2) as [err|] eqn:Er; [by apply returns_ret|].
  destruct (negb (size =? -1)%Z && negb (size =? Z.of_nat (length (b_data reader)))%Z) eqn:Es;
    [by apply returns_ret|].
  specialize (Hle eq_refl) as ->.
  assert (b_end reader = EOF) as Heof.
  { unfold read_all in Er. cbn in Er. by destruct (decide (b_end reader = EOF)). }
  assert (size = (-1)%Z ∨ size = Z.of_nat (length (b_data reader))) as Hsize.
  { revert Es. destruct (Z.eqb_spec size (-1)); [by left|].
    destruct (Z.eqb_spec size (Z.of_nat (length (b_data reader)))); [by right|done]. }
  destruct (finish_sums (b_data reader)) as [Hs1 Hs2].
  destruct ru as [u|].
  - destruct Hu as [Hr Hu]. apply returns_bind_any. intros now.
    destruct (ObjectStore.Close (Deadline opts) now u) eqn:Ec; [by apply returns_ret|].
    apply returns_ret. split_and!; [done|done|done|apply Hs2| |done].
    intros _. eexists. split; [apply lookup_insert_eq|]. apply Hu; [|done].
    by eapply ObjectStore.Close_None.
  - apply returns_ret. split_and!; [done|done|done|apply Hs1| |done].
    intros Hr. congruence.
Qed.

Lemma SaveFileFromReader_returns reader size opts :
  returns (SaveFileFromReader reader size opts) (λ o,
    match o.1 with inl fh => saved reader size opts fh | inr _ => True end).
Proof.
  unfold SaveFileFromReader. cbv zeta. destruct (IsRemote opts && negb (IsMultipart opts) && _).
  { apply returns_bind_any. intros u. by apply returns_ret. }
  destruct (IsLocal opts) eqn:El.
  - apply returns_bind_any. intros [[f path]|err].
    + apply returns_deferring. apply returns_bind_any. intros [n err].
      apply copy_to_remote_returns; [|by left]. by destruct err.
    + apply returns_bind_any. intros remote. by apply returns_ret.
  - destruct (IsRemote opts) eqn:Er; [|by apply returns_ret].
    apply copy_to_remote_returns; [done|by right].
Qed.

(** *** Leftovers *)

Section files.
Context {V : Type} (E : env V) (files : V → gset string) {HE : PathEnv E files}.
#[local] Set Default Proof Using "Type*".

(** At most one file was made, and it will be removed. *)
Definition leaves (before : gset string) (l : leftovers) (e : V) : Prop :=
  match l_local l with
  | Some path => path ∉ before ∧ files e = {[path]} ∪ before
  | None => files e = before
  end.

Lemma upload_remote_files opts size stream : keeps E files (upload_remote opts size stream).
Proof.
  unfold upload_remote. destruct (IsMultipart opts).
  - apply keeps_bind; [by apply ObjectStore.NewMultipart_files|done].
  - destruct (IsRemote opts); [|done].
    apply keeps_bind; [apply keeps_files_harmless; [done|apply ObjectStore.newObject_no_files]|].
    by intros [u|err].
Qed.

Lemma copy_to_remote_files reader size opts lf le stream :
  keeps E files (copy_to_remote reader size opts lf le stream).
Proof.
  unfold copy_to_remote. apply keeps_bind; [apply upload_remote_files|].
  intros [ru|err]; [|done]. cbv zeta. apply keeps_files_harmless; [done|]. harmless_tac.
Qed.

Lemma copy_to_remote_local reader size opts lf le stream :
  returns (copy_to_remote reader size opts lf le stream) (λ o, l_local o.2 = lf).
Proof using Type.
  unfold copy_to_remote. cbv zeta. apply returns_bind_any. intros [ru|err]; [|by apply returns_ret].
  destruct (u ← ru; _), le, ((read_all reader).2); try by apply returns_ret.
  destruct (negb _ && negb _); [by apply returns_ret|]. destruct ru; [|by apply returns_ret].
  apply returns_bind_any. intros now. by destruct (ObjectStore.Close _ _ _); apply returns_ret.
Qed.

Lemma uploadLocalFile_makes opts : makes_file E files (uploadLocalFile opts).
Proof.
  intros r w. unfold uploadLocalFile. rewrite run_bind.
  assert (keeps E files (call (MkdirAll_ (LocalTempPath opts)))) as Hk
    by (apply keeps_files_harmless; [done|]; harmless_tac).
  specialize (Hk r w). destruct (run E (call _) r w) as [[[[err|]|m] r1] w1]; cbn in Hk; [done| |done].
  rewrite run_bind.
  pose proof (TempFile_makes E files (LocalTempPath opts) (TempFilePrefix opts) HE r1 w1) as Ht.
  destruct (run E (call (TempFile_ _ _)) r1 w1) as [[[[[f path]|err]|m] r2] w2]; cbn;
    rewrite Hk in Ht; done.
Qed.

Lemma SaveFileFromReader_leaves reader size opts w e o l w' e' :
  run E (SaveFileFromReader reader size opts) w e = (Value (o, l), w', e') → leaves (files e) l e'.
Proof.
  unfold SaveFileFromReader. cbv zeta. destruct (IsRemote opts && negb (IsMultipart opts) && _).
  { rewrite run_bind. pose proof (keeps_files_harmless E files
      (ObjectStore.NewObject url_Parse md5 (PresignedPut opts) (PutHeaders opts) size []) HE
      (ObjectStore.newObject_no_files url_Parse md5 true (PresignedPut opts) (PutHeaders opts) size [])
      w e) as Hk.
    destruct (run E (ObjectStore.NewObject _ _ _ _ _ _) w e) as [[[u|m] w1] e1]; [|done].
    cbn. intros [= <- <- <- <-]. done. }
  destruct (IsLocal opts).
  - rewrite run_bind. pose proof (uploadLocalFile_makes opts w e) as Hm.
    destruct (run E (uploadLocalFile opts) w e) as [[[[[f path]|err]|m] w1] e1]; [..|done].
    + destruct Hm as [Hp He]. rewrite run_deferring.
      match goal with |- context [run E (bind ?p ?k) w1 e1] => set (body := bind p k) end.
      assert (keeps E files body) as Hk.
      { apply keeps_bind; [|intros [n err]; apply copy_to_remote_files].
        apply keeps_files_harmless; [done|]. destruct (b_data reader); harmless_tac. }
      assert (returns body (λ o, l_local o.2 = Some path)) as Hl.
      { apply returns_bind_any. intros [n err]. apply copy_to_remote_local. }
      specialize (Hk w1 e1). pose proof (λ a r' w', returns_run E body _ w1 e1 a r' w' Hl) as Hl'.
      destruct (run E body w1 e1) as [[[a|m] w2] e2]; cbn in Hk.
      * specialize (Hl' a w2 e2 eq_refl).
        assert (keeps E files (call (CloseFd f))) as Hc
          by (apply keeps_files_harmless; [done|]; harmless_tac).
        specialize (Hc w2 e2). destruct (run E (call (CloseFd f)) w2 e2) as [[[[]|m] w3] e3]; [|done].
        intros [= -> <- <-]. cbn in Hl', Hc. unfold leaves. rewrite Hl', Hc, Hk. done.
      * destruct (run E (call (CloseFd f)) w2 e2) as [[[[]|m'] w3] e3]; done.
    + rewrite run_bind. pose proof (upload_remote_files opts size [] w1 e1) as Hk.
      destruct (run E (upload_remote opts size []) w1 e1) as [[[u|m] w2] e2]; [|done].
      cbn in *. intros [= <- <- <- <-]. unfold leaves. cbn. congruence.
  - destruct (IsRemote opts); [|by intros [= <- <- <- <-]].
    intros Hr. pose proof (copy_to_remote_files reader size opts None None (b_data reader) w e) as Hk.
    pose proof (returns_run E _ _ w e _ w' e'
      (copy_to_remote_local reader size opts None None (b_data reader)) Hr) as Hl.
    rewrite Hr in Hk. cbn in Hk, Hl. unfold leaves. by rewrite Hl.
Qed.

Lemma remove_leftovers_removes l w e :
  files (run E (remove_leftovers l) w e).2 =
    match l_local l with Some path => files e ∖ {[path]} | None => files e end.
Proof.
  unfold remove_leftovers. rewrite run_bind.
  assert (keeps E files (match l_remote l with
    | Some (true, abortURL, deleteURL, u) => ObjectStore.cleanup url_Parse abortURL deleteURL u
    | Some (false, _, deleteURL, _) => ObjectStore.syncAndDelete url_Parse deleteURL
    | None => Ret tt end)) as Hk.
  { apply keeps_files_harmless; [done|]. destruct (l_remote l) as [[[[[] a] d] u]|];
      [apply ObjectStore.cleanup_no_files|apply ObjectStore.syncAndDelete_no_files|done]. }
  destruct (l_local l) as [path|].
  - rewrite run_bind. destruct (run_Remove E files path w e HE) as (x & e1 & -> & H1). cbn [run].
    by rewrite Hk, H1.
  - cbn [run]. by rewrite Hk.
Qed.

Lemma remove_leftovers_files l before w e :
  leaves before l e → files (run E (remove_leftovers l) w e).2 = before.
Proof.
  unfold leaves. rewrite remove_leftovers_removes. destruct (l_local l) as [path|]; [|done].
  intros [Hp ->]. clear -Hp. set_solver.
Qed.

(** C14: when the request is over, no file made for it is left, whatever the destinations
    asked for, whatever failed, and also when the handler that got the file panics. *)
Theorem upload_body_leaves_nothing (h : Handler) (p : UploadPreparer) (r : Request)
    (a : Api.Response) (Hh : ∀ r, keeps E files (h r))
    (Hcrash : ∀ now opts v, p now a = inl (opts, v) → ∀ w e m,
      (run E (SaveFileFromReader (body_of r) (ContentLength r) opts) w e).1.1 ≠ Panic m) :
  keeps E files (upload_body h p r a).
Proof.
  assert (∀ x, keeps E files (Helper.Fail500 r x)) as Hf.
  { intros x. apply keeps_files_harmless; [done|]. apply Helper.Fail500_harmless.
    by split_and!. }
  unfold upload_body. apply keeps_bind; [by apply keeps_files_harmless; harmless_tac|].
  intros now. destruct (p now a) as [[opts verifier]|err] eqn:Ep; [|apply Hf].
  intros w e. rewrite run_bind. specialize (Hcrash now opts verifier Ep w e).
  pose proof (SaveFileFromReader_leaves (body_of r) (ContentLength r) opts w e) as Hl.
  destruct (run E (SaveFileFromReader _ _ _) w e) as [[[[fh l]|m] w1] e1];
    [|by destruct (Hcrash m)].
  specialize (Hl fh l w1 e1 eq_refl). rewrite run_deferring.
  match goal with |- context [run E ?b w1 e1] => assert (keeps E files b) as Hk end.
  { destruct fh as [fh|err]; [|apply Hf]. destruct (verifier ≫= (λ verify, verify fh)); [apply Hf|apply Hh]. }
  specialize (Hk w1 e1). destruct (run E _ w1 e1) as [[o w2] e2]. cbn in Hk.
  assert (leaves (files e) l e2) as Hl2 by (unfold leaves in *; by rewrite Hk).
  pose proof (remove_leftovers_files l (files e) w2 e2 Hl2) as Hr.
  by destruct (run E (remove_leftovers l) w2 e2) as [[[] w3] e3].
Qed.
End files.

(** C9: what an LFS upload hands to Rails is the object that Rails authorized: unless the
    body has the size and the SHA-256 of the object, came in full and as long as
    announced, nothing of the handler behind the upload runs. *)
Theorem lfs_rejects_mismatch {V} (E : env V) (h h' : Handler) (r : Request)
    (a : Api.Response) (w : resp) (e : V)
    (Hbad : let d := b_data (body_of r) in
      Z.of_nat (length d) ≠ Api.LfsSize a ∨ Hex.EncodeToString (sha256 d) ≠ Api.LfsOid a ∨
      b_end (body_of r) ≠ EOF ∨
      (ContentLength r ≠ (-1)%Z ∧ ContentLength r ≠ Z.of_nat (length d))) :
  run E (upload_body h lfs_Prepare r a) w e = run E (upload_body h' lfs_Prepare r a) w e.
Proof.
  unfold upload_body. rewrite !run_bind. destruct (run E (call Now) w e) as [[[now|m] w1] e1]; [|done].
  cbn [lfs_Prepare]. rewrite !run_bind.
  set (opts := with_prefix _ _).
  pose proof (λ o w' e', returns_run E _ _ w1 e1 o w' e'
    (SaveFileFromReader_returns (body_of r) (ContentLength r) opts)) as Hs.
  destruct (run E (SaveFileFromReader _ _ _) w1 e1) as [[[[fh l]|m] w2] e2]; [|done].
  specialize (Hs (fh, l) w2 e2 eq_refl). rewrite !run_deferring.
  destruct fh as [fh|err]; [|done]. cbn in Hs. destruct Hs as (H1 & H2 & H3 & H4 & _).
  repeat match goal with |- context [@base.mbind option option_bind ?A ?B ?g (Some ?v)] =>
    change (@base.mbind option option_bind A B g (Some v)) with (g v) end. cbv beta.
  assert (is_Some (Verify {| oid := Api.LfsOid a; o_size := Api.LfsSize a |} fh)) as [err ->];
    [|done].
  unfold Verify. cbn [o_size oid].
  destruct (Z.eqb_spec (Size fh) (Api.LfsSize a)) as [Hs|]; [|by eexists]. cbn [negb].
  assert (SHA256 fh = Hex.EncodeToString (sha256 (b_data (body_of r)))) as ->.
  { unfold SHA256. rewrite (H4 "sha256" sha256); [done|]. unfold hashFactories.
    do 2 right. by left. }
  destruct (String.eqb_spec (Hex.EncodeToString (sha256 (b_data (body_of r)))) (Api.LfsOid a));
    [|by eexists]. exfalso. cbv zeta in Hbad.
  destruct Hbad as [Hb|[Hb|[Hb|[Hb Hb']]]]; [congruence|done|done|by destruct H3].
Qed.

(** C5: a file that is reported as saved was read to its end, has the size that was
    announced, the checksums given are those of its octets, and object storage, if it was
    a destination, vouched for the same octets. *)
Theorem SaveFile_integrity {V} (E : env V) (reader : body) (size : Z) (opts : SaveFileOpts)
    (w w' : resp) (e e' : V) (fh : FileHandler) (l : leftovers)
    (Hrun : run E (SaveFileFromReader reader size opts) w e = (Value (inl fh, l), w', e')) :
  let d := b_data reader in
  b_end reader = EOF ∧ Size fh = Z.of_nat (length d) ∧
  (size = (-1)%Z ∨ size = Z.of_nat (length d)) ∧
  hashes fh !! "md5" = Some (Hex.EncodeToString (md5 d)) ∧
  hashes fh !! "sha1" = Some (Hex.EncodeToString (sha1 d)) ∧
  hashes fh !! "sha256" = Some (Hex.EncodeToString (sha256 d)) ∧
  hashes fh !! "sha512" = Some (Hex.EncodeToString (sha512 d)) ∧
  (IsRemote opts = true → IsMultipart opts = false → hashes fh !! "etag" = hashes fh !! "md5") ∧
  (IsMultipart opts = true →
    let cs := ObjectStore.chunks (length (PresignedParts opts)) (Z.to_nat (PartSize opts)) d in
    concat cs = d ∧ hashes fh !! "etag" = Some (ObjectStore.multipart_sum md5 cs)) ∧
  (IsLocal opts = true ∨ IsRemote opts = true).
Proof.
  pose proof (returns_run E _ _ w e _ w' e' (SaveFileFromReader_returns reader size opts) Hrun)
    as (H1 & H2 & H3 & H4 & H5 & H6).
  assert (hashes fh !! "md5" = Some (Hex.EncodeToString (md5 (b_data reader)))) as Hmd5
    by (apply H4; left).
  cbv zeta. split_and!; [done|done|done|done|apply H4; do 1 right; left|apply H4; do 2 right; left
    |apply H4; do 3 right; left| | |done]; unfold stored in H5.
  - intros Hr Hm. destruct (H5 Hr) as (tag & -> & Ht). rewrite Hm in Ht. by rewrite Hmd5, Ht.
  - intros Hm. destruct H5 as (tag & -> & Ht); [unfold IsRemote; by rewrite Hm, orb_true_r|].
    rewrite Hm in Ht. destruct Ht as [Ht ->]. done.
Qed.
End save.

(** ** Forms

    What Rails reads back from a form. *)
Module Form.
Import Query.

(** The fields, in order: cut at the ampersands, then at the first equals sign. *)
Fixpoint split_fields (fuel : nat) (l : bytes) : list bytes :=
  match fuel with
  | O => [l]
  | S fuel => match cut_at "&"%char l with
              | Some (a, b) => a :: split_fields fuel b
              | None => [l]
              end
  end.
Definition parse_field (l : bytes) : option (string * string) :=
  match cut_at "="%char l with
  | Some (k, v) => k ← unescape k; v ← unescape v; Some (of_bytes k, of_bytes v)
  | None => None
  end.
Definition parse (l : bytes) : option (list (string * string)) :=
  match l with [] => Some [] | _ => mapM parse_field (split_fields (length l) l) end.

(** An escaped text is made of unreserved octets, plus signs and escapes. *)
Definition safe (c : octet) : bool :=
  negb (Ascii.eqb c "&"%char) && negb (Ascii.eqb c "="%char).

Lemma query_octet_safe c : Forall (λ d, safe d = true) (query_octet c).
Proof. by destruct c as [[] [] [] [] [] [] [] []]; repeat constructor. Qed.

Lemma unescape_query c l : unescape (query_octet c ++ l) = (c ::.) <$> unescape l.
Proof.
  destruct c as [[] [] [] [] [] [] [] []];
    match goal with |- context [query_octet ?c] =>
      let q := eval vm_compute in (query_octet c) in change (query_octet c) with q end;
    cbn; by destruct (unescape l).
Qed.

Lemma unescape_escape s : unescape (QueryEscape s) = Some (to_bytes s).
Proof.
  unfold QueryEscape. induction (to_bytes s) as [|c l IH]; [done|].
  rewrite fmap_cons. cbn [concat]. by rewrite unescape_query, IH.
Qed.

Lemma QueryEscape_safe s : Forall (λ d, safe d = true) (QueryEscape s).
Proof.
  unfold QueryEscape. induction (to_bytes s) as [|c l IH]; [constructor|].
  rewrite fmap_cons. cbn [concat]. apply Forall_app. split; [apply query_octet_safe|done].
Qed.

Lemma QueryEscape_without c s : safe c = false → c ∉ QueryEscape s.
Proof.
  intros Hc Hin. pose proof (QueryEscape_safe s) as H.
  eapply Forall_forall in H; [|exact Hin]. congruence.
Qed.

Definition field (kv : string * string) : bytes := QueryEscape kv.1 ++ "="%char :: QueryEscape kv.2.

Lemma field_without_amp kv : "&"%char ∉ field kv.
Proof.
  unfold field. rewrite not_elem_of_app, not_elem_of_cons.
  split_and!; [by apply QueryEscape_without|done|by apply QueryEscape_without].
Qed.

Lemma parse_field_field kv : parse_field (field kv) = Some kv.
Proof.
  unfold parse_field, field. rewrite cut_at_app by (by apply QueryEscape_without).
  rewrite !unescape_escape. cbn. rewrite !of_to_bytes. by destruct kv.
Qed.

Lemma join_fields_cons kv kv' l :
  join_fields (kv :: kv' :: l) = field kv ++ "&"%char :: join_fields (kv' :: l).
Proof. destruct kv. unfold field. cbn [fst snd]. rewrite <- app_assoc. done. Qed.

Lemma split_join fuel kv l :
  length (join_fields (kv :: l)) ≤ fuel →
  split_fields fuel (join_fields (kv :: l)) = field <$> (kv :: l).
Proof.
  revert kv fuel. induction l as [|kv' l IH]; intros kv fuel Hf.
  - assert (join_fields [kv] = field kv) as -> by by destruct kv.
    destruct fuel as [|fuel]; [done|]. cbn [split_fields].
    by rewrite (proj2 (cut_at_None _ _) (field_without_amp kv)).
  - rewrite join_fields_cons in *. rewrite length_app in Hf. cbn [length] in Hf.
    destruct fuel as [|fuel]; [lia|]. cbn [split_fields].
    rewrite cut_at_app by apply field_without_amp. rewrite IH by lia. done.
Qed.

Lemma parse_join l : parse (join_fields l) = Some l.
Proof.
  destruct l as [|kv l]; [done|]. unfold parse.
  destruct (join_fields (kv :: l)) as [|c s] eqn:E.
  { destruct l as [|kv' l].
    - assert (join_fields [kv] = field kv) as E' by by destruct kv.
      rewrite E' in E. by destruct (app_cons_not_nil _ _ _ (eq_sym E)).
    - rewrite join_fields_cons in E. by destruct (app_cons_not_nil _ _ _ (eq_sym E)). }
  rewrite <- E, split_join by done. apply mapM_fmap_Some. intros x. apply parse_field_field.
Qed.

Lemma sorted_fields_perm m : sorted_fields m ≡ₚ map_to_list m.
Proof. apply sort_keys_perm. Qed.
End Form.

(** Rails reads from the form exactly the fields that were put in it, whatever octets
    they contain: no value can pass for another field. *)
Theorem Values_Encode_decodes (m : gmap string string) :
  ∃ l, Form.parse (Values_Encode m) = Some l ∧ l ≡ₚ map_to_list m ∧ list_to_map l = m.
Proof.
  exists (sorted_fields m). split; [apply Form.parse_join|].
  pose proof (Form.sorted_fields_perm m) as Hp. split; [done|].
  rewrite <- (list_to_map_to_list m) at 2. apply list_to_map_proper; [|done].
  rewrite Hp. apply NoDup_fst_map_to_list.
Qed.

(** ** Examples *)

Definition test_parse (s : string) : result url := inl (ObjectStore.test_url s).
Definition test_save := SaveFileFromReader test_parse ObjectStore.test_decode (take 2) (take 3)
  (take 4) (take 5).

Definition local_opts : SaveFileOpts :=
  {| TempFilePrefix := "oid"; LocalTempPath := "/tmp/uploads"; RemoteID := ""; RemoteURL := "";
     PresignedPut := ""; PresignedDelete := ""; PutHeaders := ∅; Deadline := 9; PartSize := 0;
     PresignedParts := []; PresignedCompleteMultipart := ""; PresignedAbortMultipart := "" |}.

(** The names of the temporary files. *)
Definition path_env : env (gset string) := λ X e w,
  match e in ext X return X * gset string with
  | TempFile_ _ _ => (inl (0, fresh w), {[fresh w]} ∪ w)
  | Remove_ p => (None, w ∖ {[p]})
  | e => ((HelperProps.quiet_env _ e tt).1, w)
  end.

#[global] Instance path_env_ok : PathEnv path_env id.
Proof.
  split.
  - intros dir prefix w. cbn. split; [apply is_fresh|done].
  - done.
  - by intros X [] w He.
Qed.

Lemma upload_body_leaves_nothing_witness :
  keeps path_env id
    (upload_body test_parse ObjectStore.test_decode (take 2) (take 3) (take 4) (take 5)
       (λ _, Raise "handler") (λ _ _, inl (local_opts, None)) Block.request Api.granted).
Proof.
  apply upload_body_leaves_nothing; [apply _|by intros r w e|].
  intros now opts v [= <- <-] w e m. unfold SaveFileFromReader.
  cbn -[fresh finish]. discriminate.
Defined.

Lemma lfs_rejects_mismatch_witness :
  let up h := upload_body test_parse ObjectStore.test_decode (take 2) (take 3) (take 4) (take 5)
                h lfs_Prepare (with_body Block.request (Some (whole (to_bytes "short"))) (-1))
                Api.granted in
  run path_env (up (λ _, write_header 200)) (new_resp ∅) ∅ =
  run path_env (up (λ _, Raise "not reached")) (new_resp ∅) ∅.
Proof.
  apply (lfs_rejects_mismatch test_parse ObjectStore.test_decode (take 2) (take 3) (take 4)
    (take 5) path_env).
  right. left. vm_compute. discriminate.
Defined.

Definition test_saved : result FileHandler * leftovers :=
  match (run path_env (test_save (whole (to_bytes "hello")) 5 local_opts) (new_resp ∅) ∅).1.1 with
  | Value x => x
  | Panic _ => (inr EOF, nothing_left)
  end.
Definition test_file : FileHandler :=
  match test_saved.1 with
  | inl fh => fh
  | inr _ => {| LocalPath := ""; RemoteID_ := ""; RemoteURL_ := ""; Size := 0; Name := "";
                hashes := ∅ |}
  end.

Lemma SaveFile_integrity_witness :
  let d := to_bytes "hello" in
  EOF = EOF ∧ Size test_file = 5%Z ∧ (5%Z = (-1)%Z ∨ 5%Z = 5%Z) ∧
  hashes test_file !! "md5" = Some (Hex.EncodeToString (take 2 d)) ∧
  hashes test_file !! "sha1" = Some (Hex.EncodeToString (take 3 d)) ∧
  hashes test_file !! "sha256" = Some (Hex.EncodeToString (take 4 d)) ∧
  hashes test_file !! "sha512" = Some (Hex.EncodeToString (take 5 d)) ∧
  (IsRemote local_opts = true → IsMultipart local_opts = false →
   hashes test_file !! "etag" = hashes test_file !! "md5") ∧
  (IsMultipart local_opts = true →
    let cs := ObjectStore.chunks (length (PresignedParts local_opts))
                (Z.to_nat (PartSize local_opts)) d in
    concat cs = d ∧ hashes test_file !! "etag" = Some (ObjectStore.multipart_sum (take 2) cs)) ∧
  (IsLocal local_opts = true ∨ IsRemote local_opts = true).
Proof.
  refine (SaveFile_integrity test_parse ObjectStore.test_decode (take 2) (take 3) (take 4) (take 5)
    path_env (whole (to_bytes "hello")) 5 local_opts (new_resp ∅) (new_resp ∅) ∅
    (run path_env (test_save (whole (to_bytes "hello")) 5 local_opts) (new_resp ∅) ∅).2 test_file
    test_saved.2 _).
  vm_compute. reflexivity.
Defined.

Example Values_Encode_test :
  of_bytes (Values_Encode (<["file.name" := "a&b=c"]> {["file.size" := "5"]}))
    = "file.name=a%26b%3Dc&file.size=5".
Proof. vm_compute. reflexivity. Qed.
End FileStore.
