(* ===== verification/ObjectstoreStub.v ===== *)
(** * The object store of the tests (internal/objectstore/test)

    The repository has a small object storage server, which keeps the checksums of what it
    is sent.  It is modelled as the server it is: a state and a handler.  Uploads are then
    proved against it: the client of ObjectStore.v and this server, written independently of
    each other, agree on the parts, their numbers, the XML messages and the checksums; and
    whatever goes wrong, a request leaves nothing in the store.  The XML messages are an
    interface, [MessageCodec], of which GoXml.v gives an implementation. *)

From S2P Require Import Prelude GoString Http Effects GoNet GoXml Helper Api ObjectStore FileStore.
From stdpp Require Import options.

Module Stub.
Import ObjectStore Effects.

(** ** Messages *)

(** [xml.Marshal] of the two answers, for [encodeXMLAnswer]. *)
Definition Marshal_result (res : CompleteMultipartUploadResult) : bytes :=
  Xml.print (Xml.struct "CompleteMultipartUploadResult"
    [Xml.field "Location" (Location res); Xml.field "Bucket" (Bucket res);
     Xml.field "Key" (Key res); Xml.field "ETag" (ResultETag res)]).
Definition Marshal_error (err : CompleteMultipartUploadError) : bytes :=
  Xml.print (Xml.struct "Error"
    [Xml.field "Code" (Code err); Xml.field "Message" (Message err)]).

Definition text (s : string) : bool := forallb Xml.text_octet (to_bytes s).
Definition part_ok (p : completeMultipartUploadPart) : bool :=
  int64 (PartNumber p) && text (PartETag p).
Definition result_ok (res : CompleteMultipartUploadResult) : bool :=
  text (Location res) && text (Bucket res) && text (Key res) && text (ResultETag res).

(** What each end relies on: it reads what the other one writes. *)
Class MessageCodec (unmarshal : bytes → result CompleteMultipartUpload)
    (decode : body → result compoundCompleteMultipartUploadResult) : Prop := {
  unmarshal_Marshal cmu : forallb part_ok cmu = true → unmarshal (xml_Marshal cmu) = inl cmu;
  decode_result res : result_ok res = true →
    decode (whole (Marshal_result res)) = inl {| c_result := Some res; c_error := None |};
  decode_error err : text (Code err) = true → text (Message err) = true →
    decode (whole (Marshal_error err)) = inl {| c_result := None; c_error := Some err |};
}.

(** ** The server *)

(** The checksums of the parts of an upload. *)
Abbreviation partsEtagMap := (gmap Z string).

(** A path without an entry in [multipart] has no upload in progress.
    [internal/objectstore/test/objectstore_stub.go:23-37 ObjectstoreStub] *)
Record ObjectstoreStub := {
  bucket : gmap string string;
  overwriteMD5 : gmap string string;
  multipart : gmap string partsEtagMap;
  headers : gmap string header;
  puts : Z;
  deletes : Z;
}.

(** [internal/objectstore/test/objectstore_stub.go:45-58 StartObjectStoreWithCustomMD5] *)
Definition StartObjectStoreWithCustomMD5 (md5Hashes : gmap string string) : ObjectstoreStub :=
  {| bucket := ∅; overwriteMD5 := map_fold insert ∅ md5Hashes; multipart := ∅; headers := ∅;
     puts := 0; deletes := 0 |}.

(** [internal/objectstore/test/objectstore_stub.go:40-42 StartObjectStore] *)
Definition StartObjectStore : ObjectstoreStub := StartObjectStoreWithCustomMD5 ∅.

(** [internal/objectstore/test/objectstore_stub.go:61-66 ObjectstoreStub.PutsCnt] *)
Definition PutsCnt (o : ObjectstoreStub) : Z := puts o.

(** [internal/objectstore/test/objectstore_stub.go:69-74 ObjectstoreStub.DeletesCnt] *)
Definition DeletesCnt (o : ObjectstoreStub) : Z := deletes o.

(** [internal/objectstore/test/objectstore_stub.go:78-83 ObjectstoreStub.GetObjectMD5] *)
Definition GetObjectMD5 (o : ObjectstoreStub) (path : string) : string :=
  default "" (bucket o !! path).

(** [internal/objectstore/test/objectstore_stub.go:86-95 ObjectstoreStub.GetHeader] *)
Definition GetHeader (o : ObjectstoreStub) (path key : string) : string :=
  match headers o !! path with Some val => Header.Get val key | None => "" end.

(** [internal/objectstore/test/objectstore_stub.go:125-127 ObjectstoreStub.isMultipartUpload] *)
Definition isMultipartUpload (o : ObjectstoreStub) (path : string) : bool :=
  match multipart o !! path with Some _ => true | None => false end.

(** [internal/objectstore/test/objectstore_stub.go:117-122 ObjectstoreStub.IsMultipartUpload] *)
Definition IsMultipartUpload := isMultipartUpload.

(** The updates of single fields. *)
Definition with_multipart (m : gmap string partsEtagMap) (o : ObjectstoreStub) : ObjectstoreStub :=
  {| bucket := bucket o; overwriteMD5 := overwriteMD5 o; multipart := m; headers := headers o;
     puts := puts o; deletes := deletes o |}.
Definition with_bucket (b : gmap string string) (o : ObjectstoreStub) : ObjectstoreStub :=
  {| bucket := b; overwriteMD5 := overwriteMD5 o; multipart := multipart o; headers := headers o;
     puts := puts o; deletes := deletes o |}.
Definition deleted (o : ObjectstoreStub) : ObjectstoreStub :=
  {| bucket := bucket o; overwriteMD5 := overwriteMD5 o; multipart := multipart o;
     headers := headers o; puts := puts o; deletes := deletes o + 1 |}.
Definition received (path : string) (h : header) (o : ObjectstoreStub) : ObjectstoreStub :=
  {| bucket := bucket o; overwriteMD5 := overwriteMD5 o; multipart := multipart o;
     headers := <[path := h]> (headers o); puts := puts o + 1; deletes := deletes o |}.

(** [internal/objectstore/test/objectstore_stub.go:104-114 ObjectstoreStub.InitiateMultipartUpload] *)
Definition InitiateMultipartUpload (path : string) (o : ObjectstoreStub)
    : option gerr * ObjectstoreStub :=
  if isMultipartUpload o path
  then (Some (Errorf ("MultipartUpload for " +:+ quote path +:+ " already in progress")), o)
  else (None, with_multipart (<[path := ∅]> (multipart o)) o).

(** [internal/objectstore/test/objectstore_stub.go:183-185 MultipartUploadInternalError] *)
Definition MultipartUploadInternalError : CompleteMultipartUploadError :=
  {| Code := "InternalError"; Message := "malformed object path" |}.

Section server.
Context (md5 : bytes → bytes) (unmarshal : bytes → result CompleteMultipartUpload).
Context (url_String : url → string) (error_text : gerr → string).

(** A handler of the server also returns the state it leaves.
    [internal/objectstore/test/objectstore_stub.go:129-147 ObjectstoreStub.removeObject] *)
Definition removeObject (o : ObjectstoreStub) (r : Request) : prog ObjectstoreStub :=
  let objectPath := Path_ (URL r) in
  if isMultipartUpload o objectPath then
    write_header 200;;
    Ret (deleted (with_multipart (delete objectPath (multipart o)) o))
  else
    match bucket o !! objectPath with
    | Some _ =>
        write_header 200;;
        Ret (deleted (with_bucket (delete objectPath (bucket o)) o))
    | None => write_header 404;; Ret o
    end.

(** The checksum of an object: the one given for the tests, or that of the body. *)
Definition checksum (o : ObjectstoreStub) (r : Request) : string :=
  match overwriteMD5 o !! Path_ (URL r) with
  | Some etag => etag
  | None => Hex.EncodeToString (md5 (b_data (body_of r)))
  end.

(** The text of the error of [strconv.Atoi]. *)
Definition Atoi_error (s : string) : string :=
  "strconv.Atoi: parsing " +:+ quote s +:+ ": " +:+
  match integer s with Some _ => "value out of range" | None => "invalid syntax" end.

(** [internal/objectstore/test/objectstore_stub.go:149-181 ObjectstoreStub.putObject] *)
Definition putObject (o : ObjectstoreStub) (r : Request) : prog ObjectstoreStub :=
  let objectPath := Path_ (URL r) in
  let etag := checksum o r in
  let o := received objectPath (Header_ r) o in
  let finish o := header_set "ETag" etag;; write_header 200;; Ret o in
  match multipart o !! objectPath with
  | Some parts =>
      let pNumber := Query.Get (RawQuery (URL r)) "partNumber" in
      match Atoi pNumber with
      | None => http_Error ("malformed partNumber: " +:+ Atoi_error pNumber) 400;; Ret o
      | Some idx => finish (with_multipart (<[objectPath := <[idx := etag]> parts]> (multipart o)) o)
      end
  | None => finish (with_bucket (<[objectPath := etag]> (bucket o)) o)
  end.

(** [internal/objectstore/test/objectstore_stub.go:251-258 encodeXMLAnswer] *)
Definition encodeXMLAnswer (doc : bytes) : prog unit :=
  header_set "Content-Type" "text/xml";;
  '(_, err) <- write doc;;
  match err with
  | Some err => http_Error (error_text err) 500
  | None => Ret tt
  end.

(** The first part whose checksum is not the one that was stored.
    [internal/objectstore/test/objectstore_stub.go:212-219 ObjectstoreStub.completeMultipartUpload] *)
Fixpoint mismatch (parts : partsEtagMap) (msg : CompleteMultipartUpload)
    : option (completeMultipartUploadPart * string) :=
  match msg with
  | [] => None
  | part :: msg =>
      let etag := default "" (parts !! PartNumber part) in
      if String.eqb etag (PartETag part) then mismatch parts msg else Some (part, etag)
  end.

(** [internal/objectstore/test/objectstore_stub.go:187-249 ObjectstoreStub.completeMultipartUpload] *)
Definition completeMultipartUpload (o : ObjectstoreStub) (r : Request) : prog ObjectstoreStub :=
  let objectPath := Path_ (URL r) in
  match multipart o !! objectPath with
  | None => http_Error "Unknown MultipartUpload" 404;; Ret o
  | Some parts =>
      match read_all (body_of r) with
      | (_, Some err) => http_Error (error_text err) 500;; Ret o
      | (buf, None) =>
          match unmarshal buf with
          | inr err => http_Error (error_text err) 400;; Ret o
          | inl msg =>
              match mismatch parts msg with
              | Some (part, etag) =>
                  http_Error ("ETag mismatch on part " +:+ itoa (PartNumber part) +:+
                              ". Expected " +:+ quote etag +:+ " got " +:+
                              quote (PartETag part)) 400;;
                  Ret o
              | None =>
                  match match overwriteMD5 o !! objectPath with
                        | Some etag => inl etag
                        | None => BuildMultipartUploadETag md5 msg
                        end with
                  | inr _ => http_Error "cannot compute ETag" 400;; Ret o
                  | inl etag =>
                      let o := with_multipart (delete objectPath (multipart o))
                                 (with_bucket (<[objectPath := etag]> (bucket o)) o) in
                      header_set "ETag" etag;;
                      match to_bytes objectPath with
                      | [] => Raise "slice bounds out of range [1:0]"
                      | _ :: rest =>
                          match split_n2 (of_bytes rest) "/"%char with
                          | [bucket; key] =>
                              encodeXMLAnswer (Marshal_result
                                {| Location := url_String (URL r); Bucket := bucket; Key := key;
                                   ResultETag := etag |});;
                              Ret o
                          | _ => encodeXMLAnswer (Marshal_error MultipartUploadInternalError);; Ret o
                          end
                      end
                  end
              end
          end
      end
  end.

(** [internal/objectstore/test/objectstore_stub.go:260-282 ObjectstoreStub.ServeHTTP] *)
Definition ServeHTTP (o : ObjectstoreStub) (r : Request) : prog ObjectstoreStub :=
  if String.eqb (Path_ (URL r)) "" then http_Error "No path provided" 404;; Ret o
  else if String.eqb (Method r) "DELETE" then removeObject o r
  else if String.eqb (Method r) "PUT" then putObject o r
  else if String.eqb (Method r) "POST" then completeMultipartUpload o r
  else write_header 404;; Ret o.

(** ** Requests to the server

    The server sees the path and the query of the URL a client asks for. *)
Definition served (r : Request) : Request :=
  {| Method := Method r; URL := mk_url "" "" (Path_ (URL r)) (RawQuery (URL r));
     ProtoMajor := ProtoMajor r; ProtoMinor := ProtoMinor r; Header_ := Header_ r;
     Body := Some (body_of r); ContentLength := ContentLength r; Host := Host r;
     RequestURI := RequestURI r; RemoteAddr := RemoteAddr r |}.

Definition serve (o : ObjectstoreStub) (r : Request) : outcome ObjectstoreStub * resp :=
  (run HelperProps.quiet_env (ServeHTTP o (served r)) (new_resp ∅) tt).1.

(** The response a client gets. *)
Definition respond (w : resp) : Response :=
  match r_status w with
  | Some s => {| StatusCode := s; RHeader := r_sent w; RBody := whole (r_body w); RConn := None |}
  | None => {| StatusCode := 200; RHeader := r_hdr w; RBody := whole []; RConn := None |}
  end.

Definition after (o : ObjectstoreStub) (r : Request) : ObjectstoreStub :=
  match (serve o r).1 with Value o' => o' | Panic _ => o end.
Definition answer (o : ObjectstoreStub) (r : Request) : result Response :=
  match serve o r with (Value _, w) => inl (respond w) | (Panic _, _) => inr EOF end.

(** Whether the handler reads the body. *)
Definition reads (o : ObjectstoreStub) (r : Request) : bool :=
  if String.eqb (Method r) "PUT"
  then match overwriteMD5 o !! Path_ (URL r) with Some _ => false | None => true end
  else String.eqb (Method r) "POST" && isMultipartUpload o (Path_ (URL r)).

(** An environment whose requests go to the server: [st] is the server's state. *)
Class StubEnv {V} (E : env V) (st : V → ObjectstoreStub) : Prop := {
  stub_Do r v :
    st (E _ (Do_ r) v).2 = after (st v) r ∧ (E _ (Do_ r) v).1.1 = answer (st v) r ∧
    (reads (st v) r = true → (E _ (Do_ r) v).1.2 = length (b_data (body_of r)));
  stub_other X (e : ext X) v :
    match e with Do_ _ => True | _ => st (E X e v).2 = st v end;
}.

(** Nothing else ever fails; [unread] says how much of a body is sent that the handler
    does not read. *)
Definition stub_env (unread : Request → nat) : env ObjectstoreStub := λ X e o,
  match e in ext X return X * ObjectstoreStub with
  | Do_ r => ((answer o r, if reads o r then length (b_data (body_of r)) else unread r), after o r)
  | TempFile_ dir prefix => (inl (0, "/tmp/" +:+ prefix), o)
  | e => ((HelperProps.quiet_env _ e tt).1, o)
  end.

#[export] Instance stub_env_StubEnv unread : StubEnv (stub_env unread) id.
Proof.
  split; [|by intros X []]. intros r v. cbn. split_and!; [done..|]. by intros ->.
Qed.

(** ** What the client's requests do *)

Lemma hex_octets d :
  Forall (λ c, Xml.text_octet c = true ∧ Ascii.eqb c "034"%char = false)
    (to_bytes (Hex.EncodeToString d)).
Proof.
  unfold Hex.EncodeToString. rewrite to_of_bytes. induction d as [|c d IH]; [constructor|].
  cbn [fmap list_fmap concat]. apply Forall_app. split; [|done].
  destruct c as [[] [] [] [] [] [] [] []]; by repeat constructor.
Qed.

Lemma text_app s t : text (s +:+ t) = text s && text t.
Proof. unfold text. by rewrite to_bytes_app, forallb_app. Qed.

Lemma hex_text d : text (Hex.EncodeToString d) = true.
Proof.
  apply forallb_forall. intros c Hc. pose proof (hex_octets d) as H. rewrite Forall_forall in H.
  by apply H, list_elem_of_In.
Qed.

Lemma itoa_text n : text (itoa n) = true.
Proof.
  apply forallb_forall. intros c Hc. pose proof (itoa_octets n) as H. rewrite Forall_forall in H.
  apply list_elem_of_In in Hc. destruct (H c Hc) as [Hd|Hd]; [|by subst].
  unfold is_digit in Hd. apply andb_true_iff in Hd as [Hd _]. apply Nat.leb_le in Hd.
  unfold Xml.text_octet. by rewrite (proj2 (Nat.leb_le 32 _)) by (cbn in Hd; lia).
Qed.

Lemma multipart_sum_text cs : text (multipart_sum md5 cs) = true.
Proof. unfold multipart_sum. by rewrite !text_app, hex_text, itoa_text. Qed.

(** A checksum is read as it is: it does not start with a double quote. *)
Lemma extractETag_hex d s : head (to_bytes s) ≠ Some "034"%char →
  extractETag (Hex.EncodeToString d +:+ s) = Value (Hex.EncodeToString d +:+ s).
Proof.
  intros Hs. unfold extractETag. rewrite to_bytes_app. pose proof (hex_octets d) as H.
  destruct (to_bytes (Hex.EncodeToString d)) as [|c l].
  - cbn [app]. destruct (to_bytes s) as [|c l]; [done|]. cbn in Hs.
    destruct (Ascii.eqb_spec c "034"%char); [congruence|done].
  - inversion_clear H as [|? ? [_ Hc] _]. cbn [app]. by rewrite Hc.
Qed.

Lemma extractETag_sum d : extractETag (md5Sum md5 d) = Value (md5Sum md5 d).
Proof.
  pose proof (extractETag_hex (md5 d) "" ltac:(done)) as H.
  by assert (Hex.EncodeToString (md5 d) +:+ "" = md5Sum md5 d) as <- by (apply (inj to_bytes);
    by rewrite to_bytes_app, app_nil_r).
Qed.

Lemma extractETag_multipart_sum cs :
  extractETag (multipart_sum md5 cs) = Value (multipart_sum md5 cs).
Proof. by apply extractETag_hex. Qed.

(** A part that is sent to an upload in progress. *)
Definition part_stored (path : string) (h : gmap string string) (p : completeMultipartUploadPart)
    (parts : partsEtagMap) (o : ObjectstoreStub) : ObjectstoreStub :=
  with_multipart (<[path := <[PartNumber p := PartETag p]> parts]> (multipart o))
    (received path (put_header h) o).

Lemma put_part_takes unread h u d o parts i :
  Path_ u ≠ "" → multipart o !! Path_ u = Some parts → overwriteMD5 o !! Path_ u = None →
  Atoi (Query.Get (RawQuery u) "partNumber") = Some i →
  takes md5 (stub_env unread) h u d o
    (part_stored (Path_ u) h {| PartNumber := i; PartETag := md5Sum md5 d |} parts o).
Proof.
  intros Hp Hm Ho Hi. eexists. unfold stub_env, reads, answer, after, serve, ServeHTTP.
  cbn [served request URL Path_ Method String.eqb Ascii.eqb Bool.eqb].
  destruct (String.eqb_spec (Path_ u) ""); [done|].
  unfold putObject, checksum. cbn [served request URL Path_ multipart received RawQuery body_of
    Body default b_data whole Header_].
  rewrite Ho, Hm, Hi. cbn. split; [reflexivity|]. split; [done|]. cbn [RHeader].
  change (partial_alter _ _ ∅) with (Header.Set_ ∅ "ETag" (md5Sum md5 d)).
  rewrite Header.Get_Set_eq. apply extractETag_sum.
Qed.

(** The server after all parts of a list. *)
Fixpoint after_parts (path : string) (h : gmap string string) (cmu : CompleteMultipartUpload)
    (parts : partsEtagMap) (o : ObjectstoreStub) : ObjectstoreStub :=
  match cmu with
  | [] => o
  | p :: cmu =>
      after_parts path h cmu (<[PartNumber p := PartETag p]> parts) (part_stored path h p parts o)
  end.
Definition record_parts (cmu : CompleteMultipartUpload) (parts : partsEtagMap) : partsEtagMap :=
  foldl (λ m p, <[PartNumber p := PartETag p]> m) parts cmu.

(** The URLs of the parts are those of one path, numbered from [i]. *)
Fixpoint numbered (path : string) (i : Z) (us : list url) : Prop :=
  match us with
  | [] => True
  | u :: us =>
      Path_ u = path ∧ Atoi (Query.Get (RawQuery u) "partNumber") = Some i ∧
      numbered path (i + 1) us
  end.

Lemma parts_take unread path h us cs o parts i :
  path ≠ "" → numbered path i us → length cs ≤ length us →
  multipart o !! path = Some parts → overwriteMD5 o !! path = None →
  takes_all md5 (stub_env unread) h (zip us cs) o (after_parts path h (parts_of md5 i cs) parts o).
Proof.
  intros Hp. revert cs o parts i. induction us as [|u us IH]; intros [|c cs] o parts i Hn Hl Hm Ho;
    cbn in Hl; try done; try lia.
  destruct Hn as (<- & Hi & Hn). cbn [zip zip_with takes_all parts_of after_parts].
  eexists. split; [by apply put_part_takes|]. apply IH; [done|lia| |done].
  cbn. by rewrite lookup_insert_eq.
Qed.

(** What is known of the server then. *)
Lemma after_parts_spec path h cmu parts o :
  multipart o !! path = Some parts →
  let o' := after_parts path h cmu parts o in
  multipart o' = <[path := record_parts cmu parts]> (multipart o) ∧ bucket o' = bucket o ∧
  overwriteMD5 o' = overwriteMD5 o ∧ puts o' = (puts o + Z.of_nat (length cmu))%Z ∧
  deletes o' = deletes o.
Proof.
  revert parts o. induction cmu as [|p cmu IH]; intros parts o Hm; cbn [after_parts].
  - cbn. rewrite insert_id by done. split_and!; try done. lia.
  - destruct (IH (<[PartNumber p := PartETag p]> parts) (part_stored path h p parts o))
      as (H1 & H2 & H3 & H4 & H5); [cbn; by rewrite lookup_insert_eq|].
    cbv zeta. rewrite H1, H2, H3, H4, H5. cbn. rewrite insert_insert_eq.
    split_and!; try done. lia.
Qed.

Lemma record_parts_cons p cmu parts :
  record_parts (p :: cmu) parts = record_parts cmu (<[PartNumber p := PartETag p]> parts).
Proof. done. Qed.

Lemma record_parts_below i cs parts n :
  (n < i)%Z → record_parts (parts_of md5 i cs) parts !! n = parts !! n.
Proof.
  revert i parts. induction cs as [|c cs IH]; intros i parts Hn; [done|].
  cbn [parts_of]. rewrite record_parts_cons, IH by lia. by rewrite lookup_insert_ne by (cbn; lia).
Qed.

Lemma mismatch_parts i cs parts :
  mismatch (record_parts (parts_of md5 i cs) parts) (parts_of md5 i cs) = None.
Proof.
  revert i parts. induction cs as [|c cs IH]; intros i parts; [done|].
  cbn [parts_of]. rewrite record_parts_cons. cbn [mismatch PartNumber PartETag].
  rewrite record_parts_below by lia. rewrite lookup_insert_eq. cbn [default].
  by rewrite String.eqb_refl.
Qed.

Lemma parts_of_ok i cs : (0 ≤ i)%Z → (i + Z.of_nat (length cs) < 2 ^ 63)%Z →
  forallb part_ok (parts_of md5 i cs) = true.
Proof.
  revert i. induction cs as [|c cs IH]; intros i Hi Hl; [done|]. cbn [length] in Hl.
  cbn [parts_of forallb]. rewrite IH by lia. unfold part_ok, int64. cbn [PartNumber PartETag].
  unfold md5Sum. rewrite hex_text.
  by rewrite (proj2 (Z.leb_le _ _)), (proj2 (Z.ltb_lt _ _)) by lia.
Qed.

Definition completed (path tag : string) (o : ObjectstoreStub) : ObjectstoreStub :=
  with_multipart (delete path (multipart o)) (with_bucket (<[path := tag]> (bucket o)) o).

(** A path with a bucket and a key. *)
Definition object_path (path bucket key : string) : Prop :=
  path = "/" +:+ bucket +:+ "/" +:+ key ∧ "/"%char ∉ to_bytes bucket ∧ text path = true.

Lemma object_path_split path b k : object_path path b k →
  ∃ rest, to_bytes path = "/"%char :: rest ∧ split_n2 (of_bytes rest) "/"%char = [b; k] ∧
    text b = true ∧ text k = true ∧ path ≠ "".
Proof.
  intros (-> & Hb & Ht). exists (to_bytes (b +:+ "/" +:+ k)). rewrite !text_app in Ht.
  apply andb_true_iff in Ht as [_ Ht]. apply andb_true_iff in Ht as [Htb Ht].
  apply andb_true_iff in Ht as [_ Htk]. split_and!; try done.
  rewrite of_to_bytes. unfold split_n2. rewrite !to_bytes_app. cbn [to_bytes app].
  change (to_bytes "/" ++ to_bytes k) with ("/"%char :: to_bytes k).
  by rewrite cut_at_app, !of_to_bytes.
Qed.

Context (decode : body → result compoundCompleteMultipartUploadResult).
Context {codec : MessageCodec unmarshal decode}.
#[local] Set Default Proof Using "Type*".

Lemma encode_runs doc (o : ObjectstoreStub) w :
  r_status w = None → r_room w = None →
  ∃ w', run HelperProps.quiet_env (encodeXMLAnswer doc;; Ret o) w tt = (Value o, w', tt) ∧
    r_status w' = Some 200%Z ∧ r_body w' = r_body w ++ doc.
Proof.
  intros Hs Hr. unfold encodeXMLAnswer. cbn [header_set write bind run]. unfold resp_write.
  cbn [resp_put r_status]. rewrite Hs. unfold resp_header. cbn [resp_put r_status]. rewrite Hs.
  cbn [r_status default body_allowed r_room resp_put]. rewrite Hr. cbn.
  rewrite bool_decide_true by done. cbn. eexists. split; [reflexivity|]. done.
Qed.

Lemma parts_complete unread u b k cs o parts :
  object_path (Path_ u) b k → text (url_String (mk_url "" "" (Path_ u) (RawQuery u))) = true →
  multipart o !! Path_ u = Some (record_parts (parts_of md5 1 cs) parts) →
  overwriteMD5 o !! Path_ u = None → (Z.of_nat (length cs) < 2 ^ 62)%Z →
  completes decode (stub_env unread) u (parts_of md5 1 cs) (multipart_sum md5 cs) o
    (completed (Path_ u) (multipart_sum md5 cs) o).
Proof.
  intros Hp Hu Hm Ho Hl. destruct (object_path_split _ _ _ Hp) as (rest & Hrest & Hsplit & Hb & Hk & Hne).
  unfold completes, stub_env, reads, answer, after, serve, ServeHTTP.
  cbn [served request URL Path_ Method String.eqb Ascii.eqb Bool.eqb RawQuery].
  destruct (String.eqb_spec (Path_ u) ""); [done|].
  unfold completeMultipartUpload. cbn [served request URL Path_ RawQuery body_of Body default].
  rewrite Hm. cbn [read_all whole b_data b_end id]. rewrite decide_True by done.
  rewrite (unmarshal_Marshal (decode := decode)) by (apply parts_of_ok; lia). rewrite mismatch_parts, Ho.
  rewrite BuildMultipartUploadETag_parts, Hrest, Hsplit. cbn [header_set bind run].
  match goal with |- context [run _ (bind (encodeXMLAnswer ?doc) _) ?w tt] =>
    destruct (encode_runs doc (completed (Path_ u) (multipart_sum md5 cs) o) w eq_refl eq_refl)
      as (w' & Hrun & Hs & Hbody) end.
  unfold completed in Hrun at 1. rewrite Hrun. cbn [fst]. unfold respond. rewrite Hs, Hbody. 
  set (res := {| Location := url_String (mk_url "" "" (Path_ u) (RawQuery u));
                 Bucket := b; Key := k; ResultETag := multipart_sum md5 cs |}).
  eexists _, _, res. split; [reflexivity|]. split; [done|].
  split; [|exact (extractETag_multipart_sum cs)]. cbn [RBody r_body resp_put new_resp app].
  apply decode_result. unfold result_ok, res. cbn [Location Bucket Key ResultETag].
  by rewrite Hu, Hb, Hk, multipart_sum_text.
Qed.

(** The URLs Rails gives for an upload in parts: those of the parts have their numbers. *)
Definition part_urls (url_Parse : string → result url) (path : string) (urls : list string) : Prop :=
  ∀ k s, urls !! k = Some s → ∃ u, url_Parse s = inl u ∧ Path_ u = path ∧
    Atoi (Query.Get (RawQuery u) "partNumber") = Some (Z.of_nat k + 1)%Z.

Lemma part_urls_numbered (url_Parse : string → result url) path (urls : list string) i :
  (∀ k s, urls !! k = Some s → ∃ u, url_Parse s = inl u ∧ Path_ u = path ∧
    Atoi (Query.Get (RawQuery u) "partNumber") = Some (Z.of_nat k + i)%Z) →
  ∃ us, Forall2 (λ s u, url_Parse s = inl u) urls us ∧ numbered path i us.
Proof.
  revert i. induction urls as [|s urls IH]; intros i H.
  - exists []. split; [constructor|done].
  - destruct (H 0 s eq_refl) as (u & Hu & Hp & Ha).
    destruct (IH (i + 1)%Z) as (us & Hus & Hn).
    { intros k t Hk. destruct (H (S k) t Hk) as (u' & ?). exists u'.
      by replace (Z.of_nat k + (i + 1))%Z with (Z.of_nat (S k) + i)%Z by lia. }
    exists (u :: us). split; [by constructor|]. by replace i with (Z.of_nat 0 + i)%Z in Ha |- * by lia.
Qed.

Lemma stub_smooth unread deadline : (0 < deadline)%Z → smooth (stub_env unread) deadline.
Proof using Type. intros Hd. split; intros; cbn; eauto. Qed.

(** C7: the client and the server agree: an upload in parts to an upload in progress on the
    server, by the URLs of its parts, ends without an error when the stream fits: the
    server has the object with the checksum of the parts, and no upload in progress.  When
    it does not fit, the client reports it and the server has all the parts, and no object.
    Nothing else on the server changes, except that as many parts were put. *)
Theorem stub_multipart unread url_Parse (path b k : string) (urls : list string)
    (completeURL : string) (cu : url) (h : gmap string string) (deadline partSize : Z)
    (stream : bytes) (w : resp) (o : ObjectstoreStub) (parts : partsEtagMap)
    (Hpath : object_path path b k) (Hurls : part_urls url_Parse path urls)
    (Hcu : url_Parse completeURL = inl cu) (Hcp : Path_ cu = path)
    (Hct : text (url_String (mk_url "" "" path (RawQuery cu))) = true)
    (Hm : multipart o !! path = Some parts) (Ho : overwriteMD5 o !! path = None)
    (Hd : (0 < deadline)%Z) (Hs : (0 < partSize)%Z)
    (Hlen : (Z.of_nat (length urls) < 2 ^ 62)%Z) :
  let cs := chunks (length urls) (Z.to_nat partSize) stream in
  let fits := length stream <=? length urls * Z.to_nat partSize in
  ∃ o', run (stub_env unread) (NewMultipart url_Parse md5 decode urls completeURL h deadline
                                 partSize stream) w o =
      (Value {| etag := if fits then multipart_sum md5 cs else "";
                uploadError := if fits then None else Some ErrNotEnoughParts;
                taken := length stream |}, w, o') ∧
    bucket o' = (if fits then <[path := multipart_sum md5 cs]> (bucket o) else bucket o) ∧
    multipart o' = (if fits then delete path (multipart o)
                    else <[path := record_parts (parts_of md5 1 cs) parts]> (multipart o)) ∧
    puts o' = (puts o + Z.of_nat (length cs))%Z ∧ deletes o' = deletes o.
Proof.
  intros cs fits. destruct (part_urls_numbered url_Parse path urls 1 Hurls) as (us & Hus & Hn).
  destruct (object_path_split _ _ _ Hpath) as (_ & _ & _ & _ & _ & Hne).
  pose proof (length_chunks (length urls) (Z.to_nat partSize) stream) as Hcl. fold cs in Hcl.
  assert (length (parts_of md5 1 cs) = length cs) as Hpl by apply length_parts_of.
  set (o1 := after_parts path h (parts_of md5 1 cs) parts o).
  destruct (after_parts_spec path h (parts_of md5 1 cs) parts o Hm) as (H1 & H2 & H3 & H4 & H5).
  fold o1 in H1, H2, H3, H4, H5. rewrite Hpl in H4.
  exists (if fits then completed path (multipart_sum md5 cs) o1 else o1). split.
  - apply (NewMultipart_served url_Parse md5 decode (stub_env unread) deadline
      (stub_smooth unread deadline Hd) h partSize urls us completeURL cu stream w o o1);
      [done..| |]; fold cs fits.
    + apply parts_take; try done. rewrite (Forall2_length _ _ _ Hus) in Hcl. exact Hcl.
    + destruct fits; [|done]. subst path. eapply parts_complete; try done; [|by rewrite H3|lia].
      rewrite H1. by rewrite lookup_insert_eq.
  - destruct fits; cbn; rewrite H1, H2, H4, H5; [|done]. by rewrite delete_insert_eq.
Qed.

(** A file sent in one request is the object of its path. *)
Lemma stub_object unread (url_Parse : string → result url) putURL u (h : gmap string string)
    stream w o :
  url_Parse putURL = inl u → Path_ u ≠ "" → multipart o !! Path_ u = None →
  overwriteMD5 o !! Path_ u = None →
  run (stub_env unread) (NewObject url_Parse md5 putURL h (Z.of_nat (length stream)) stream) w o =
    (Value (inl {| etag := md5Sum md5 stream; uploadError := None; taken := length stream |}), w,
     with_bucket (<[Path_ u := md5Sum md5 stream]> (bucket o)) (received (Path_ u) (put_header h) o)).
Proof using Type.
  intros Hu Hp Hm Ho. apply (newObject_served url_Parse md5 (stub_env unread) 1
    (stub_smooth unread 1 ltac:(done)) true putURL u h stream w o); [done|].
  eexists. unfold stub_env, reads, answer, after, serve, ServeHTTP.
  cbn [served request URL Path_ Method String.eqb Ascii.eqb Bool.eqb].
  destruct (String.eqb_spec (Path_ u) ""); [done|].
  unfold putObject, checksum. cbn [served request URL Path_ multipart received RawQuery body_of
    Body default b_data whole Header_].
  rewrite Ho, Hm. cbn. split; [reflexivity|]. split; [done|]. cbn [RHeader].
  change (partial_alter _ _ ∅) with (Header.Set_ ∅ "ETag" (md5Sum md5 stream)).
  rewrite Header.Get_Set_eq. apply extractETag_sum.
Qed.

(** ** What a request leaves in the store *)

(** No path has both an object and an upload in progress. *)
Definition exclusive (o : ObjectstoreStub) : Prop :=
  ∀ path, bucket o !! path = None ∨ multipart o !! path = None.
Definition clean (path : string) (o : ObjectstoreStub) : Prop :=
  bucket o !! path = None ∧ multipart o !! path = None.

#[local] Set Default Proof Using "Type".

Lemma exclusive_insert path tag o : exclusive o → multipart o !! path = None →
  exclusive (with_bucket (<[path := tag]> (bucket o)) o).
Proof.
  intros Hi Hm p. cbn. destruct (decide (p = path)) as [->|]; [by right|].
  rewrite lookup_insert_ne by done. apply Hi.
Qed.

Lemma ServeHTTP_exclusive o r : exclusive o → returns (ServeHTTP o r) exclusive.
Proof.
  intros Hi. unfold ServeHTTP. destruct (String.eqb _ _).
  { apply returns_bind_any. intros _. by apply returns_ret. }
  destruct (String.eqb _ _).
  { unfold removeObject, isMultipartUpload. destruct (multipart o !! _) eqn:Em.
    - apply returns_bind_any. intros _. apply returns_ret. intros p. cbn.
      rewrite lookup_delete. case_decide; [by right|apply Hi].
    - destruct (bucket o !! _); apply returns_bind_any; intros _; apply returns_ret; [|done].
      intros p. cbn. rewrite lookup_delete. case_decide; [by left|apply Hi]. }
  destruct (String.eqb _ _).
  { unfold putObject. set (o1 := received _ _ o). assert (exclusive o1) as Hi1 by exact Hi.
    destruct (multipart o1 !! _) as [parts|] eqn:Em.
    - destruct (Atoi _); apply returns_bind_any; intros _; [|by apply returns_ret].
      apply returns_bind_any. intros _. apply returns_ret. intros p. cbn.
      destruct (decide (p = Path_ (URL r))) as [->|].
      + destruct (Hi1 (Path_ (URL r))) as [H|H]; [by left|congruence].
      + rewrite lookup_insert_ne by done. apply Hi.
    - do 2 (apply returns_bind_any; intros _). apply returns_ret. by apply exclusive_insert. }
  destruct (String.eqb _ _); [|apply returns_bind_any; intros _; by apply returns_ret].
  unfold completeMultipartUpload.
  repeat match goal with
    | |- returns (match ?x with _ => _ end) _ => destruct x
    | |- returns (bind _ _) _ => apply returns_bind_any; intros ?
    end; try (by apply returns_ret); try done;
  apply returns_ret; intros p; cbn; (destruct (decide (p = Path_ (URL r))) as [->|];
    [right; apply lookup_delete_eq
    |rewrite lookup_insert_ne, lookup_delete_ne by done; apply Hi]).
Qed.

Lemma after_exclusive o r : exclusive o → exclusive (after o r).
Proof.
  intros Hi. unfold after, serve.
  destruct (run _ _ _ _) as [[[o'|m] w] []] eqn:Hr; [|done].
  eapply returns_run; [by apply ServeHTTP_exclusive|exact Hr].
Qed.

Lemma after_delete o r : Method r = "DELETE" → Path_ (URL r) ≠ "" → exclusive o →
  clean (Path_ (URL r)) (after o r).
Proof.
  intros Hm Hp Hi. unfold after, serve, ServeHTTP.
  cbn [served URL Path_ Method]. rewrite Hm. destruct (String.eqb_spec (Path_ (URL r)) ""); [done|].
  cbn [String.eqb Ascii.eqb Bool.eqb]. unfold removeObject, isMultipartUpload.
  cbn [served URL Path_]. destruct (multipart o !! _) as [parts|] eqn:Em.
  - cbn. split; [by destruct (Hi (Path_ (URL r))) as [H|H]; [|congruence]|apply lookup_delete_eq].
  - destruct (bucket o !! _) eqn:Eb; unfold clean; cbn; by rewrite ?lookup_delete_eq.
Qed.

(** The panic of a goroutine that uploads, on a checksum that is one double quote. *)
Definition etag_panic (m : string) : Prop := m = "slice bounds out of range [1:0]".

Lemma close_body_panics P rsp : panics P (close_body rsp).
Proof. unfold close_body. panics_tac. Qed.

Lemma extractETag_panic s m : extractETag s = Panic m → etag_panic m.
Proof.
  unfold extractETag. destruct (to_bytes s) as [|c [|d l]]; [done|..];
    destruct (Ascii.eqb c _); try done. by intros [= <-].
Qed.

Section upload.
Context (url_Parse : string → result url) (sha1 sha256 sha512 : bytes → bytes).

Lemma newObject_panics metrics url h size stream :
  panics etag_panic (newObject url_Parse md5 metrics url h size stream).
Proof.
  unfold newObject, send, counted. panics_tac;
    eauto using extractETag_panic, close_body_panics.
Qed.

Lemma upload_parts_panics deadline h size urls i cmu stream :
  panics etag_panic (upload_parts url_Parse md5 deadline h size urls i cmu stream).
Proof.
  revert i cmu stream. induction urls as [|s urls IH]; intros i cmu d; [done|]. cbn [upload_parts].
  apply panics_bind; [|intros [[p|]|err]; [apply IH|done..]].
  unfold readAndUploadOnePart, upload_buffered, remove_buffer, uploadPart. panics_tac.
  apply newObject_panics.
Qed.

Lemma complete_panics rawurl cmu :
  panics etag_panic (complete url_Parse md5 decode rawurl cmu).
Proof.
  unfold complete. panics_tac; eauto using extractETag_panic, close_body_panics.
Qed.

Lemma upload_remote_panics opts size stream :
  panics etag_panic (FileStore.upload_remote url_Parse decode md5 opts size stream).
Proof.
  unfold FileStore.upload_remote, NewMultipart, NewObject.
  panics_tac; auto using upload_parts_panics, complete_panics, newObject_panics.
Qed.

Lemma SaveFileFromReader_panics reader size opts :
  panics etag_panic
    (FileStore.SaveFileFromReader url_Parse decode md5 sha1 sha256 sha512 reader size opts).
Proof.
  unfold FileStore.SaveFileFromReader, FileStore.uploadLocalFile, FileStore.copy_to_remote,
    NewObject.
  panics_tac; auto using newObject_panics, upload_remote_panics.
Qed.

(** Where an upload goes: its URLs are those of one path of the server, and there is one
    to remove it. *)
Record stored_at (path : string) (opts : FileStore.SaveFileOpts) : Prop := {
  sa_remote : FileStore.IsRemote opts = true;
  sa_put : FileStore.IsMultipart opts = false → ∃ u, url_Parse (FileStore.PresignedPut opts) = inl u;
  sa_delete : FileStore.PresignedDelete opts ≠ "" ∧
    ∃ u, url_Parse (FileStore.PresignedDelete opts) = inl u ∧ Path_ u = path;
  sa_abort : FileStore.IsMultipart opts = true →
    FileStore.PresignedAbortMultipart opts ≠ "" ∧
    ∃ u, url_Parse (FileStore.PresignedAbortMultipart opts) = inl u ∧ Path_ u = path;
}.

(** What is left to remove when the file has been saved, or not. *)
Definition remembered (opts : FileStore.SaveFileOpts) (l : FileStore.leftovers) : Prop :=
  ∃ u, FileStore.l_remote l = Some (FileStore.IsMultipart opts,
    FileStore.PresignedAbortMultipart opts, FileStore.PresignedDelete opts, u).

Lemma upload_remote_remembers path opts size stream : stored_at path opts →
  returns (FileStore.upload_remote url_Parse decode md5 opts size stream)
    (λ o, ∃ u, o = inl (Some u)).
Proof.
  intros [Hr Hp _ _]. unfold FileStore.upload_remote, NewObject.
  destruct (FileStore.IsMultipart opts).
  - apply returns_bind_any. intros u. apply returns_ret. by exists u.
  - rewrite Hr. destruct (Hp eq_refl) as (v & Hv). unfold newObject, NewRequest. rewrite Hv.
    apply (returns_bind _ _ (λ o, ∃ u, o = inl u)).
    + do 2 (apply returns_bind_any; intros ?). apply returns_ret. by eexists.
    + intros _ [u ->]. apply returns_ret. by exists u.
Qed.

Lemma copy_to_remote_left path reader size opts lf le stream : stored_at path opts →
  returns (FileStore.copy_to_remote url_Parse decode md5 sha1 sha256 sha512 reader size opts lf le
             stream) (λ '(_, l), remembered opts l).
Proof.
  intros Ho. unfold FileStore.copy_to_remote.
  eapply returns_bind; [by eapply upload_remote_remembers|]. intros _ [u ->].
  assert (∀ X (x : X), returns (Ret (x, {| FileStore.l_local := lf;
    FileStore.l_remote := FileStore.remote_left opts (Some u) |})) (λ '(_, l), remembered opts l)) as H.
  { intros X x. apply returns_ret. by exists u. }
  repeat match goal with
    | |- returns (match ?x with _ => _ end) _ => destruct x
    | |- returns (bind _ _) _ => apply returns_bind_any; intros ?
    end; apply H.
Qed.

Lemma SaveFileFromReader_left path reader size opts : stored_at path opts →
  returns (FileStore.SaveFileFromReader url_Parse decode md5 sha1 sha256 sha512 reader size opts)
    (λ '(_, l), remembered opts l).
Proof.
  intros Ho. unfold FileStore.SaveFileFromReader. rewrite (sa_remote _ _ Ho). cbn [andb].
  destruct (negb (FileStore.IsMultipart opts) && _) eqn:Ep.
  { apply andb_true_iff in Ep as [Hm Hu]. apply negb_true_iff in Hm.
    destruct (sa_put _ _ Ho Hm) as (u & Hu'). by rewrite Hu' in Hu. }
  destruct (FileStore.IsLocal opts); [|by eapply copy_to_remote_left].
  apply returns_bind_any. intros [[f p]|err].
  - apply returns_deferring, returns_bind_any. intros [n err]. by eapply copy_to_remote_left.
  - eapply returns_bind; [by eapply upload_remote_remembers|]. intros _ [u ->].
    apply returns_ret. by exists u.
Qed.

Section requests.
Context {V : Type} (E : env V) (st : V → ObjectstoreStub) {HE : StubEnv E st}.
#[local] Set Default Proof Using "Type*".

Lemma stub_exclusive X (e : ext X) v : exclusive (st v) → exclusive (st (E X e v).2).
Proof.
  intros Hv. pose proof (stub_other (E := E) (st := st) X e v) as H.
  destruct e; try (by rewrite H).
  destruct (stub_Do (E := E) r v) as (-> & _). by apply after_exclusive.
Qed.

Lemma run_exclusive {A} (p : prog A) w v : exclusive (st v) → exclusive (st (run E p w v).2).
Proof.
  apply (run_invariant E (λ v, exclusive (st v))). intros X e v'. apply stub_exclusive.
Qed.

(** Calls that are no requests leave the server alone. *)
Lemma keeps_stub {A} (p : prog A) :
  harmless (λ X e, match e with Do_ _ => False | _ => True end) p → keeps E st p.
Proof.
  intros Hp. eapply (keeps_harmless E st (λ X e, match e with Do_ _ => False | _ => True end));
    [|done].
  intros X e v He. pose proof (stub_other (E := E) (st := st) X e v) as H. by destruct e.
Qed.

Lemma syncAndDelete_cleans rawurl u w v :
  rawurl ≠ "" → url_Parse rawurl = inl u → Path_ u ≠ "" → exclusive (st v) →
  clean (Path_ u) (st (run E (syncAndDelete url_Parse rawurl) w v).2).
Proof.
  intros Hne Hu Hp Hv. unfold syncAndDelete. destruct (String.eqb_spec rawurl "") as [|_]; [done|].
  unfold NewRequest. rewrite Hu. cbn [bind call run].
  match goal with |- context [E _ (Do_ ?r) v] =>
    destruct (stub_Do (E := E) r v) as (Hs & _ & _); pose proof (after_delete (st v) r eq_refl Hp Hv) as Hc;
    rewrite <- Hs in Hc; destruct (E _ (Do_ r) v) as [[o n] v'] end.
  cbn [snd URL] in Hc. cbn [run].
  assert (∀ p : prog unit, keeps E st p → clean (Path_ u) (st (run E p w v').2)) as Hk
    by (intros p H; by rewrite H).
  destruct o as [rsp|err]; apply Hk, keeps_stub; [unfold close_body|]; by harmless_tac.
Qed.

Lemma remove_leftovers_cleans path opts l w v :
  stored_at path opts → remembered opts l → path ≠ "" → exclusive (st v) →
  clean path (st (run E (FileStore.remove_leftovers url_Parse l) w v).2).
Proof.
  intros [_ _ (Hd & du & Hdu & <-) Ha] (u & Hl) Hp Hv. unfold FileStore.remove_leftovers.
  rewrite Hl, run_bind.
  destruct (never_panics_run E (match FileStore.l_local l with
    | Some path => call (Remove_ path);; Ret tt | None => Ret tt end) w v) as ([] & w1 & v1 & Hr);
    [by destruct (FileStore.l_local l)|].
  pose proof (run_exclusive (match FileStore.l_local l with
    | Some path => call (Remove_ path);; Ret tt | None => Ret tt end) w v Hv) as Hv1.
  rewrite Hr in Hv1 |- *. cbn in Hv1.
  destruct (FileStore.IsMultipart opts) eqn:Em; [|by apply syncAndDelete_cleans].
  destruct (Ha eq_refl) as (Hab & au & Hau & Hpath). unfold cleanup.
  destruct (uploadError u); [|by apply syncAndDelete_cleans].
  rewrite run_bind. cbn [run call]. destruct (E _ (Metric _ _ _) v1) as [[] v2] eqn:E2.
  rewrite <- Hpath in *. apply syncAndDelete_cleans; try done.
  pose proof (stub_exclusive _ (Metric "gitlab_workhorse_object_storage_upload_requests"
    ["request-failed"] 1) v1 Hv1) as H. by rewrite E2 in H.
Qed.

(** C8: whatever happens to an upload - writing to disk fails, the time is over, the sizes or
    the checksums are wrong, Rails refuses it or panics - when the request is over there is
    neither an object nor an upload in progress at its path; unless the goroutine that
    uploads has crashed on a malformed checksum, which ends the process. *)
Theorem request_leaves_no_object (h : Handler) (p : FileStore.UploadPreparer) (r : Request)
    (a : Api.Response) (w : resp) (v : V) (path : string)
    (Hprep : ∀ now, ∃ opts verifier, p now a = inl (opts, verifier) ∧ stored_at path opts)
    (Hpath : path ≠ "") (Hv : exclusive (st v)) :
  let '(o, _, v') := run E (FileStore.upload_body url_Parse decode md5 sha1 sha256 sha512 h p r a) w v in
  o = Panic "slice bounds out of range [1:0]" ∨ clean path (st v').
Proof.
  unfold FileStore.upload_body. cbn [bind call run].
  pose proof (stub_exclusive _ Now v Hv) as Hv1. destruct (E _ Now v) as [now v1]. cbn in Hv1.
  destruct (Hprep now) as (opts & verifier & -> & Ho). rewrite run_bind.
  set (save := FileStore.SaveFileFromReader _ _ _ _ _ _ _ _ _).
  pose proof (run_exclusive save w v1 Hv1) as Hv2.
  destruct (run E save w v1) as [[[[fh l]|m] w2] v2] eqn:Hr; cbn in Hv2.
  - pose proof (returns_run E _ _ _ _ _ _ _ (SaveFileFromReader_left _ _ _ _ Ho) Hr) as Hl.
    cbn in Hl. rewrite run_deferring. set (rest := match fh with inl _ => _ | inr _ => _ end).
    pose proof (run_exclusive rest w2 v2 Hv2) as Hv3.
    destruct (run E rest w2 v2) as [[o w3] v3]. cbn in Hv3.
    pose proof (remove_leftovers_cleans path opts l w3 v3 Ho Hl Hpath Hv3) as Hc.
    destruct (run E (FileStore.remove_leftovers _ l) w3 v3) as [[[[]|m] w4] v4]; by right.
  - left. f_equal. eapply (panics_run etag_panic); [|exact Hr]. apply SaveFileFromReader_panics.
Qed.
End requests.
End upload.
End server.

(** ** An implementation of the messages *)

Definition syntax_error : gerr := Errorf "XML syntax error".

(** [xml.Unmarshal] of the list of parts: elements that are no fields are skipped. *)
Fixpoint unmarshal_parts (l : list Xml.elem) : result CompleteMultipartUpload :=
  match l with
  | [] => inl []
  | e :: l =>
      if String.eqb (of_bytes (Xml.e_name e)) "Part" then
        match Xml.int_of "PartNumber" e, unmarshal_parts l with
        | Some n, inl cmu =>
            inl ({| PartNumber := n; PartETag := default "" (Xml.text_of "ETag" e) |} :: cmu)
        | None, _ => inr syntax_error
        | _, inr err => inr err
        end
      else unmarshal_parts l
  end.
Definition Unmarshal_message (b : bytes) : result CompleteMultipartUpload :=
  match Xml.parse b with
  | None => inr syntax_error
  | Some e => unmarshal_parts (Xml.e_kids e)
  end.

(** [xml.Decoder.Decode] of an answer: an embedded struct is allocated for the first of its
    fields that is found. *)
Definition Decode_answer (b : body) : result compoundCompleteMultipartUploadResult :=
  match Xml.parse (b_data b) with
  | None => inr syntax_error
  | Some e =>
      let found := existsb (λ name, match Xml.text_of name e with Some _ => true | None => false end) in
      let get name := default "" (Xml.text_of name e) in
      inl {| c_result :=
               if found ["Location"; "Bucket"; "Key"; "ETag"]
               then Some {| Location := get "Location"; Bucket := get "Bucket"; Key := get "Key";
                            ResultETag := get "ETag" |} else None;
             c_error :=
               if found ["Code"; "Message"]
               then Some {| Code := get "Code"; Message := get "Message" |} else None |}
  end.

Lemma wf_field name s : Xml.name_ok (to_bytes name) = true → text s = true →
  Xml.wf (Xml.field name s) = true.
Proof. intros Hn Hs. cbn. unfold text in Hs. by rewrite Hn, Hs. Qed.

Lemma wf_struct name l : Xml.name_ok (to_bytes name) = true →
  Forall (λ e, Xml.wf e = true) l → Xml.wf (Xml.struct name l) = true.
Proof.
  intros Hn Hl. unfold Xml.struct. cbn [Xml.wf forallb]. rewrite Hn. cbn [andb].
  induction Hl as [|e l He _ IH]; [done|]. cbn [forallb]. by rewrite He.
Qed.
#[local] Hint Resolve wf_field wf_struct itoa_text : xml.

Lemma digits_trim l : Forall (λ c, is_digit c = true ∨ c = "-"%char) l → Mime.trim_space l = l.
Proof.
  assert (∀ l, Forall (λ c, is_digit c = true ∨ c = "-"%char) l → Mime.trim_left l = l) as H.
  { intros [|c l'] Hl; [done|]. inversion_clear Hl as [|? ? Hc _]. cbn.
    assert (Mime.is_space c = false) as ->; [|done].
    destruct Hc as [Hc|Hc]; [|by subst]. by destruct c as [[] [] [] [] [] [] [] []]. }
  intros Hl. unfold Mime.trim_space. rewrite (H l), H, rev_involutive; [done| |done].
  by apply Forall_rev.
Qed.

Lemma unmarshal_parts_ok cmu : forallb part_ok cmu = true →
  unmarshal_parts ((λ p, Xml.struct "Part" [Xml.field "PartNumber" (itoa (PartNumber p));
                                            Xml.field "ETag" (PartETag p)]) <$> cmu) = inl cmu.
Proof.
  induction cmu as [|[n tag] cmu IH]; intros H; [done|]. cbn in H.
  apply andb_true_iff in H as [Hp H]. unfold part_ok in Hp. cbn in Hp.
  apply andb_true_iff in Hp as [Hn _]. unfold int64 in Hn. apply andb_true_iff in Hn as [H1 H2].
  apply Z.leb_le in H1. apply Z.ltb_lt in H2. cbn [fmap list_fmap unmarshal_parts].
  assert (Xml.int_of "PartNumber" (Xml.struct "Part" [Xml.field "PartNumber" (itoa n); Xml.field "ETag" tag])
    = Some n) as Hi.
  { unfold Xml.int_of. cbn [Xml.text_of Xml.struct Xml.field Xml.e_kids foldl Xml.e_name Xml.e_text].
    rewrite !of_to_bytes. cbn [String.eqb Ascii.eqb Bool.eqb].
    pose proof (Atoi_itoa n ltac:(lia)) as Ha. pose proof (digits_trim _ (itoa_octets n)) as Ht.
    destruct (itoa n); [done|]. by rewrite Ht, of_to_bytes. }
  cbn [PartNumber PartETag] in *. rewrite Hi, (IH H). cbn. by rewrite of_to_bytes.
Qed.

#[export] Instance xml_codec : MessageCodec Unmarshal_message Decode_answer.
Proof.
  split.
  - intros cmu H. unfold Unmarshal_message, xml_Marshal. rewrite Xml.parse_print; [by apply unmarshal_parts_ok|].
    apply wf_struct; [done|]. induction cmu as [|p cmu IH]; cbn [fmap list_fmap]; [constructor|].
    cbn in H. apply andb_true_iff in H as [Hp H]. unfold part_ok in Hp.
    apply andb_true_iff in Hp as [_ Hp]. constructor; [|by apply IH].
    apply wf_struct; [done|]. repeat constructor; auto with xml.
  - intros [l b k t] H. unfold result_ok in H. cbn [Location Bucket Key ResultETag] in H.
    apply andb_true_iff in H as [H Ht]. apply andb_true_iff in H as [H Hk].
    apply andb_true_iff in H as [Hl Hb]. unfold Decode_answer, Marshal_result, whole. cbn [b_data].
    rewrite Xml.parse_print by (apply wf_struct; [done|]; repeat constructor; auto with xml).
    cbn. by rewrite !of_to_bytes.
  - intros [c m] Hc Hm. unfold Decode_answer, Marshal_error, whole. cbn [b_data Code Message] in *.
    rewrite Xml.parse_print by (apply wf_struct; [done|]; repeat constructor; auto with xml).
    cbn. by rewrite !of_to_bytes.
Qed.

(** ** Examples *)

Definition test_parse (s : string) : result url :=
  match split_n2 s "?"%char with
  | [p; q] => inl (mk_url "http" "storage" p q)
  | _ => inl (mk_url "http" "storage" s "")
  end.
Definition test_md5 : bytes → bytes := take 2.
Definition test_urls : list string :=
  ["/bucket/object?partNumber=1"; "/bucket/object?partNumber=2"].
Definition test_stub : ObjectstoreStub :=
  (InitiateMultipartUpload "/bucket/object" StartObjectStore).2.
Definition test_env : env ObjectstoreStub :=
  stub_env test_md5 Unmarshal_message Path_ (λ _, "error") (λ _, 0).
Definition test_upload (s : string) : outcome uploader * resp * ObjectstoreStub :=
  run test_env (NewMultipart test_parse test_md5 Decode_answer test_urls "/bucket/object" ∅ 9 3
                  (to_bytes s)) (new_resp ∅) test_stub.

Example in_parts :
  let o := (test_upload "hello").2 in
  ((test_upload "hello").1.1,
   GetObjectMD5 o "/bucket/object", IsMultipartUpload o "/bucket/object", PutsCnt o) =
  (Value {| etag := "6865-2"; uploadError := None; taken := 5 |}, "6865-2", false, 2%Z).
Proof. vm_compute. reflexivity. Qed.

Example one_request :
  let '(u, _, o) := run test_env (NewObject test_parse test_md5 "/bucket/a" ∅ 5 (to_bytes "hello"))
                      (new_resp ∅) StartObjectStore in
  (u, GetObjectMD5 o "/bucket/a", GetHeader o "/bucket/a" "etag") =
  (Value (inl {| etag := "6865"; uploadError := None; taken := 5 |}), "6865", "").
Proof. vm_compute. reflexivity. Qed.

(** A server that stored something else is noticed. *)
Example another_checksum :
  let '(u, _, _) := run test_env (NewObject test_parse test_md5 "/bucket/a" ∅ 5 (to_bytes "hello"))
                      (new_resp ∅) (StartObjectStoreWithCustomMD5 {["/bucket/a" := "6869"]}) in
  match u with Value (inl u) => negb (bool_decide (uploadError u = None)) | _ => false end = true.
Proof. vm_compute. reflexivity. Qed.

(** A path without a key: the server stores the object and answers with an error. *)
Example malformed_path :
  let '(u, _, o) := run test_env
      (NewMultipart test_parse test_md5 Decode_answer ["/x?partNumber=1"] "/x" ∅ 9 9 (to_bytes "hello"))
      (new_resp ∅) (InitiateMultipartUpload "/x" StartObjectStore).2 in
  (match u with Value u => uploadError u | Panic _ => None end, GetObjectMD5 o "/x") =
  (Some (Errorf "CompleteMultipartUpload remote error"), "6865-1").
Proof. vm_compute. reflexivity. Qed.

Lemma stub_multipart_witness :
  object_path "/bucket/object" "bucket" "object" ∧ part_urls test_parse "/bucket/object" test_urls ∧
  ∃ o', run test_env (NewMultipart test_parse test_md5 Decode_answer test_urls "/bucket/object" ∅ 9 3
                        (to_bytes "hello")) (new_resp ∅) test_stub =
      (Value {| etag := multipart_sum test_md5 (chunks 2 3 (to_bytes "hello"));
                uploadError := None; taken := 5 |}, new_resp ∅, o') ∧
    bucket o' = <["/bucket/object" := multipart_sum test_md5 (chunks 2 3 (to_bytes "hello"))]>
                  (bucket test_stub) ∧
    multipart o' = delete "/bucket/object" (multipart test_stub) ∧
    puts o' = (puts test_stub + 2)%Z ∧ deletes o' = deletes test_stub.
Proof.
  assert (object_path "/bucket/object" "bucket" "object") as Hp.
  { split_and!; [reflexivity| |reflexivity]. by apply (bool_decide_eq_true (¬ _)). }
  assert (part_urls test_parse "/bucket/object" test_urls) as Hu.
  { intros [|[|k]] s Hk; cbn in Hk; [..|discriminate Hk]; injection Hk as <-;
      eexists; split_and!; reflexivity. }
  split; [exact Hp|]. split; [exact Hu|].
  apply (stub_multipart test_md5 Unmarshal_message Path_ (λ _, "error") Decode_answer (λ _, 0)
    test_parse "/bucket/object" "bucket" "object" test_urls "/bucket/object"
    (mk_url "http" "storage" "/bucket/object" "") ∅ 9 3 (to_bytes "hello") (new_resp ∅) test_stub ∅
    Hp Hu); try reflexivity; cbn; lia.
Defined.

(** An upload whose handler stores something else and then fails. *)
Definition test_opts : FileStore.SaveFileOpts :=
  {| FileStore.TempFilePrefix := "x"; FileStore.LocalTempPath := ""; FileStore.RemoteID := "1";
     FileStore.RemoteURL := "/bucket/a"; FileStore.PresignedPut := "/bucket/a";
     FileStore.PresignedDelete := "/bucket/a"; FileStore.PutHeaders := ∅; FileStore.Deadline := 9;
     FileStore.PartSize := 0; FileStore.PresignedParts := [];
     FileStore.PresignedCompleteMultipart := ""; FileStore.PresignedAbortMultipart := "" |}.
Definition test_request : Request :=
  with_body (request "POST" (mk_url "" "" "/upload" "") ∅ []) (Some (whole (to_bytes "hi"))) 2.

Definition saves_another : Handler := λ r,
  _ <- call (Do_ (request "PUT" (mk_url "http" "storage" "/bucket/b" "") ∅ (to_bytes "b")));;
  Raise "Rails is away".

Lemma request_leaves_no_object_witness :
  let '(o, _, o') := run test_env
      (FileStore.upload_body test_parse Decode_answer test_md5 test_md5 test_md5 test_md5
         saves_another (λ _ _, inl (test_opts, None)) test_request (Api.only_TempPath ""))
      (new_resp ∅) StartObjectStore in
  o = Panic "slice bounds out of range [1:0]" ∨ clean "/bucket/a" o'.
Proof.
  apply (request_leaves_no_object test_md5 Unmarshal_message Path_ (λ _, "error") Decode_answer
    test_parse test_md5 test_md5 test_md5 test_env id).
  - intros now. exists test_opts, None. split; [reflexivity|].
    split; cbn; [reflexivity|..].
    + intros _. eexists. reflexivity.
    + split; [discriminate|]. eexists. split; reflexivity.
    + intros H. discriminate H.
  - discriminate.
  - intros path. left. reflexivity.
Defined.

Example panic_cleans :
  let '(o, _, o') := run test_env
      (FileStore.upload_body test_parse Decode_answer test_md5 test_md5 test_md5 test_md5
         saves_another (λ _ _, inl (test_opts, None)) test_request (Api.only_TempPath ""))
      (new_resp ∅) StartObjectStore in
  (o, GetObjectMD5 o' "/bucket/a", GetObjectMD5 o' "/bucket/b", PutsCnt o', DeletesCnt o') =
  (Panic "Rails is away", "", "62", 2%Z, 1%Z).
Proof. vm_compute. reflexivity. Qed.
End Stub.
