(* ===== verification/PktLine.v ===== *)
(** * Packet lines of the Git protocol (internal/git/pktline.go)

    A packet is a length in four hexadecimal digits, which counts itself, and a payload;
    [0000] ends a list of packets.  [pktLineSplitter] is the split function of a
    [bufio.Scanner], called on the octets read so far; [scanDeepen] looks for a packet
    that begins with "deepen". *)

From S2P Require Import Prelude GoString.
From stdpp Require Import options.

Module PktLine.

(** [strconv.ParseInt(s, 16, 0)] for a text of four octets: an optional sign, then digits. *)
Fixpoint hex_value (acc : Z) (l : bytes) : option Z :=
  match l with
  | [] => Some acc
  | c :: l => d ← Hex.digit c; hex_value (acc * 16 + Z.of_nat d) l
  end.
Definition ParseInt16 (l : bytes) : option Z :=
  match l with
  | c :: (_ :: _) as l' =>
      if Ascii.eqb c "-"%char then Z.opp <$> hex_value 0 (tail l)
      else if Ascii.eqb c "+"%char then hex_value 0 (tail l)
      else hex_value 0 l
  | _ => hex_value 0 l
  end.

Definition starts (p l : bytes) : bool := bool_decide (take (length p) l = p).

(** How far the scanner advances, the token if there is one, and the error.
    [internal/git/pktline.go:23-59 pktLineSplitter] *)
Definition pktLineSplitter (data : bytes) (atEOF : bool)
    : outcome (nat * option bytes * option gerr) :=
  if length data <? 4 then
    if atEOF && (0 <? length data)
    then Value (0, None, Some (Errorf "pktLineSplitter: incomplete length prefix"))
    else Value (0, None, None)
  else if starts (to_bytes "0000") data then Value (4, Some [], None)
  else
    match ParseInt16 (take 4 data) with
    | None => Value (0, None, Some (Errorf "pktLineSplitter: decode length"))
    | Some pktLength =>
        if (pktLength <? 0)%Z then Value (0, None, Some (Errorf "pktLineSplitter: invalid length"))
        else if (Z.of_nat (length data) <? pktLength)%Z then
          if atEOF then Value (0, None, Some (Errorf "pktLineSplitter: less bytes in input"))
          else Value (0, None, None)
        else if (pktLength <? 4)%Z then Panic "slice bounds out of range"
        else Value (Z.to_nat pktLength, Some (drop 4 (take (Z.to_nat pktLength) data)), None)
    end.

(** [bufio.Scanner]: the tokens, and whether it ended without an error.  The octets read
    so far are [buf]; [reads] are those that later reads will give.  No packet is longer
    than a scanner's buffer.  The fuel bounds the number of calls of the split function. *)
Fixpoint scan (fuel : nat) (buf : bytes) (reads : list bytes) : outcome (list bytes * bool) :=
  match fuel with
  | O => Value ([], false)
  | S fuel =>
      let more :=
        match reads with
        | [] => Value ([], true)
        | d :: reads => scan fuel (buf ++ d) reads
        end in
      match pktLineSplitter buf (match reads with [] => true | _ => false end) with
      | Panic m => Panic m
      | Value (_, _, Some _) => Value ([], false)
      | Value (_, None, None) => more
      | Value (advance, Some token, None) =>
          match scan fuel (drop advance buf) reads with
          | Panic m => Panic m
          | Value (tokens, ok) => Value (token :: tokens, ok)
          end
      end
  end.

(** Every call either consumes four octets or a read. *)
Definition scan_fuel (buf : bytes) (reads : list bytes) : nat :=
  S (length buf + length (concat reads) + length reads).

(** The scanner's error is set only when it stops, so it plays no part while there are
    tokens.
    [internal/git/pktline.go:11-21 scanDeepen] *)
Definition scanDeepen (reads : list bytes) : outcome bool :=
  match scan (scan_fuel [] reads) [] reads with
  | Panic m => Panic m
  | Value (tokens, _) => Value (existsb (starts (to_bytes "deepen")) tokens)
  end.

(** ** Packets *)

(** Four hexadecimal digits. *)
Definition hex4 (n : nat) : bytes :=
  [hex_digit_of (n / 4096 mod 16); hex_digit_of (n / 256 mod 16); hex_digit_of (n / 16 mod 16);
   hex_digit_of (n mod 16)].
Definition pkt (p : bytes) : bytes := hex4 (length p + 4) ++ p.
Definition flush_pkt : bytes := to_bytes "0000".

(** A list of packets as it is sent. *)
Definition packets (ps : list bytes) : bytes := concat (pkt <$> ps) ++ flush_pkt.

Lemma digit_hex_digit n : n < 16 → Hex.digit (hex_digit_of n) = Some n.
Proof. intros H. do 16 (destruct n as [|n]; [reflexivity|]). lia. Qed.

Lemma hex_digit_not_sign n : Ascii.eqb (hex_digit_of n) "-"%char = false ∧
  Ascii.eqb (hex_digit_of n) "+"%char = false.
Proof. do 16 (destruct n as [|n]; [done|]). unfold hex_digit_of. by rewrite nth_overflow by (cbn; lia). Qed.

Lemma ParseInt16_hex4 n : n < 16 * 4096 → ParseInt16 (hex4 n) = Some (Z.of_nat n).
Proof.
  intros Hn. unfold ParseInt16, hex4. cbn [tail].
  destruct (hex_digit_not_sign (n / 4096 mod 16)) as [-> ->].
  cbn [hex_value]. rewrite !digit_hex_digit by (apply Nat.mod_upper_bound; lia).
  cbn [mbind option_bind]. f_equal.
  assert (n / 16 / 16 = n / 256) as E1 by (by rewrite Nat.Div0.div_div).
  assert (n / 256 / 16 = n / 4096) as E2 by (by rewrite Nat.Div0.div_div).
  assert (n / 4096 < 16) by (apply Nat.Div0.div_lt_upper_bound; lia).
  rewrite (Nat.mod_small (n / 4096) 16) by done.
  pose proof (Nat.div_mod n 16 ltac:(done)). pose proof (Nat.div_mod (n / 16) 16 ltac:(done)).
  pose proof (Nat.div_mod (n / 256) 16 ltac:(done)). rewrite E1, E2 in *. lia.
Qed.

(** ** Facts *)

Lemma starts_app p l k : length p ≤ length l → starts p (l ++ k) = starts p l.
Proof. intros H. unfold starts. by rewrite take_app_le. Qed.

(** What the split function says of octets read so far stands when more are read. *)
Lemma pktLineSplitter_more data more eof :
  pktLineSplitter data false ≠ Value (0, None, None) →
  pktLineSplitter (data ++ more) eof = pktLineSplitter data false.
Proof.
  unfold pktLineSplitter. intros H. destruct (Nat.ltb_spec (length data) 4) as [Hl|Hl]; [done|].
  rewrite (proj2 (Nat.ltb_ge (length (data ++ more)) 4)) by (rewrite length_app; lia).
  rewrite starts_app by done. destruct (starts (to_bytes "0000") data); [done|].
  rewrite take_app_le by done. destruct (ParseInt16 (take 4 data)) as [n|]; [|done].
  destruct (Z.ltb_spec n 0); [done|].
  destruct (Z.ltb_spec (Z.of_nat (length data)) n) as [Hn|Hn]; [done|].
  rewrite (proj2 (Z.ltb_ge (Z.of_nat (length (data ++ more))) n)) by (rewrite length_app; lia).
  destruct (n <? 4)%Z; [done|]. rewrite take_app_le by lia. done.
Qed.

Lemma pktLineSplitter_token data eof adv tok err :
  pktLineSplitter data eof = Value (adv, tok, err) →
  match tok with
  | Some t => err = None ∧ 4 ≤ adv ≤ length data ∧ t = drop 4 (take adv data)
  | None => adv = 0
  end.
Proof.
  unfold pktLineSplitter. destruct (Nat.ltb_spec (length data) 4) as [Hl|Hl].
  { destruct (eof && _); by intros [= <- <- <-]. }
  destruct (starts (to_bytes "0000") data).
  { intros [= <- <- <-]. split_and!; [done|lia|lia|].
    rewrite drop_ge; [done|]. rewrite length_take. lia. }
  destruct (ParseInt16 _) as [n|]; [|by intros [= <- <- <-]].
  destruct (Z.ltb_spec n 0); [by intros [= <- <- <-]|].
  destruct (Z.ltb_spec (Z.of_nat (length data)) n); [destruct eof; by intros [= <- <- <-]|].
  destruct (Z.ltb_spec n 4); [done|]. intros [= <- <- <-]. split_and!; [done|lia|lia|done].
Qed.

(** The tokens do not depend on how the octets were read. *)
Lemma scan_reads n m buf reads :
  scan_fuel buf reads ≤ n → length buf + length (concat reads) < m →
  scan n buf reads = scan m (buf ++ concat reads) [].
Proof.
  unfold scan_fuel. revert m buf reads. induction n as [|n IH]; intros m buf reads Hn Hm; [lia|].
  destruct m as [|m]; [lia|]. cbn [scan].
  destruct reads as [|d reads].
  { cbn [concat]. rewrite app_nil_r. destruct (pktLineSplitter buf true) as [[[adv [tok|]] [err|]]|s] eqn:E;
      try done. apply pktLineSplitter_token in E as (_ & Ha & _). cbn [concat length] in *.
    rewrite (IH m (drop adv buf) []); [by rewrite app_nil_r|rewrite length_drop; cbn; lia..]. }
  pose proof (pktLineSplitter_more buf (concat (d :: reads)) true) as Hmore.
  cbn [concat length] in *. rewrite length_app in *.
  assert (pktLineSplitter buf false = Value (0, None, None) →
    match pktLineSplitter buf false with
      | Panic m => Panic m
      | Value (_, _, Some _) => Value ([], false)
      | Value (_, None, None) => scan n (buf ++ d) reads
      | Value (advance, Some token, None) =>
          match scan n (drop advance buf) (d :: reads) with
          | Panic m => Panic m
          | Value (tokens, ok) => Value (token :: tokens, ok)
          end
      end = scan (S m) (buf ++ d ++ concat reads) []) as Hwait.
  { intros ->. rewrite app_assoc. apply IH; rewrite length_app; lia. }
  destruct (pktLineSplitter buf false) as [[[adv [tok|]] [err|]]|s] eqn:E.
  - by rewrite Hmore.
  - rewrite Hmore by done. apply pktLineSplitter_token in E as (_ & Ha & _).
    rewrite drop_app_le by lia.
    rewrite (IH m (drop adv buf) (d :: reads)); [done|rewrite length_drop; cbn [concat length];
      rewrite ?length_app; lia..].
  - by rewrite Hmore.
  - apply pktLineSplitter_token in E as ->. by apply Hwait.
  - by rewrite Hmore.
Qed.

Lemma pkt_split p rest :
  length p + 4 < 16 * 4096 →
  pktLineSplitter (pkt p ++ rest) true = Value (length p + 4, Some p, None).
Proof.
  intros Hp. unfold pktLineSplitter, pkt.
  assert (take 4 ((hex4 (length p + 4) ++ p) ++ rest) = hex4 (length p + 4)) as Ht by done.
  rewrite (proj2 (Nat.ltb_ge _ 4)) by (rewrite !length_app; cbn; lia).
  rewrite Ht, ParseInt16_hex4 by done.
  assert (starts (to_bytes "0000") ((hex4 (length p + 4) ++ p) ++ rest) = false) as ->.
  { unfold starts. change (length (to_bytes "0000")) with 4. rewrite Ht.
    apply bool_decide_eq_false. intros H. pose proof (ParseInt16_hex4 _ Hp) as H'.
    rewrite H in H'. injection H' as H'. lia. }
  rewrite (proj2 (Z.ltb_ge _ 0)) by lia.
  rewrite (proj2 (Z.ltb_ge _ _)) by (rewrite !length_app; cbn; lia).
  rewrite (proj2 (Z.ltb_ge _ 4)) by lia. rewrite Nat2Z.id, <- app_assoc.
  assert (take (length p + 4) (hex4 (length p + 4) ++ p ++ rest) = hex4 (length p + 4) ++ p) as ->.
  { rewrite app_assoc. apply take_app_length'. rewrite length_app. cbn. lia. }
  done.
Qed.

Lemma scan_packets ps fuel :
  Forall (λ p, length p + 4 < 16 * 4096) ps → length (packets ps) < fuel →
  scan fuel (packets ps) [] = Value (ps ++ [[]], true).
Proof.
  unfold packets. intros Hps. revert fuel. induction Hps as [|p ps Hp Hps IH]; intros fuel Hf.
  - destruct fuel as [|[|fuel]]; cbn in Hf; [lia..|]. done.
  - rewrite fmap_cons in *. cbn [concat] in *. rewrite <- app_assoc in *.
    destruct fuel as [|fuel]; [lia|]. cbn [scan]. rewrite pkt_split by done.
    rewrite drop_app_length' by (unfold pkt; rewrite length_app; cbn; lia).
    rewrite IH; [done|]. rewrite length_app in Hf.
    assert (1 ≤ length (pkt p)) by (unfold pkt; rewrite length_app; cbn; lia). lia.
Qed.


(** However the octets of a request arrive, [scanDeepen] gives the same answer, and for
    a list of packets it tells whether one of them begins with "deepen". *)
Theorem scanDeepen_spec (reads : list bytes) :
  scanDeepen reads = scanDeepen [concat reads] ∧
  ∀ ps, Forall (λ p, length p + 4 < 16 * 4096) ps → concat reads = packets ps →
    scanDeepen reads = Value (existsb (starts (to_bytes "deepen")) ps).
Proof.
  assert (∀ reads, scan (scan_fuel [] reads) [] reads
    = scan (S (length (concat reads))) (concat reads) []) as H.
  { intros rs. rewrite (scan_reads _ (S (length (concat rs))) [] rs); [done|done|cbn; lia]. }
  unfold scanDeepen. rewrite !H. cbn [concat]. rewrite app_nil_r. split; [done|].
  intros ps Hps ->. rewrite scan_packets by (done || lia). rewrite existsb_app. cbn.
  by rewrite orb_false_r.
Qed.

(** ** Examples *)

(** Lengths too small for the prefix crash the scanner. *)
Example pktLineSplitter_panics :
  pktLineSplitter (to_bytes "0003xx") true = Panic "slice bounds out of range" ∧
  pktLineSplitter (to_bytes "+000") true = Panic "slice bounds out of range".
Proof. split; reflexivity. Qed.

Example scanDeepen_test :
  scanDeepen [to_bytes "000dd"; to_bytes "eepen 1"; to_bytes "20000"] = Value true ∧
  scanDeepen [packets [to_bytes "want"; to_bytes "not deepen"]] = Value false.
Proof. split; vm_compute; reflexivity. Qed.
End PktLine.
