(* ===== verification/Upload.v ===== *)
(** * Multipart uploads (internal/upload)

    A form that uploads files is rewritten: each file is saved where Rails asked, fields
    that describe it take its place, and the other fields are copied.  A processor sees
    every part; the one of [Accelerate] remembers where the files are and signs that, so
    that Rails can tell the fields of this program from those of the client. *)

From S2P Require Import Prelude GoString Http GoNet.
From S2P Require Import GoMultipart.
From S2P Require Import Helper.
From S2P Require Import Gitaly.
From S2P Require Import Api.
From S2P Require Import ObjectStore.
From S2P Require Import FileStore.
From S2P Require Import Block.
From stdpp Require Import options.

Module Upload.
Import FileStore(FileHandler, leftovers, GitLabFinalizeFields).

(** [internal/upload/accelerate.go:16-16 RewrittenFieldsHeader] *)
Definition RewrittenFieldsHeader : string := "Gitlab-Workhorse-Multipart-Fields".

(** A form being rewritten: what is written of the new form, the state of the processor,
    and what is to be removed when the request is over.
    [internal/upload/rewrite.go:44-48 rewriter] *)
Record rewriter S := mk_rewriter {
  writer : Multipart.Writer;
  proc : S;
  left_ : list leftovers;
}.
Arguments mk_rewriter {S} _ _ _.
Arguments writer {S} _.
Arguments proc {S} _.
Arguments left_ {S} _.

Definition with_writer {S} (w : Multipart.Writer) (rew : rewriter S) : rewriter S :=
  mk_rewriter w (proc rew) (left_ rew).

(** [internal/upload/uploads.go:17-22 MultipartFormProcessor] *)
Record MultipartFormProcessor S := {
  ProcessFile : string → FileHandler → rewriter S → prog (option gerr * rewriter S);
  ProcessField : string → rewriter S → prog (option gerr * rewriter S);
  Finalize : S → Request → prog (option gerr * Request);
  Name : string;
}.
Arguments ProcessFile {S} _ _ _ _.
Arguments ProcessField {S} _ _ _.
Arguments Finalize {S} _ _ _.
Arguments Name {S} _.

(** One field of the new form. *)
Definition write_field (w : Multipart.Writer) (kv : string * string) : Multipart.Writer :=
  Multipart.WriteField kv.1 kv.2 w.

Definition illegal (filename : string) : bool :=
  contains filename "/" || String.eqb filename "." || String.eqb filename "..".

Section upload.
Context (url_Parse : string → result url).
Context (xml_Decode : body → result ObjectStore.compoundCompleteMultipartUploadResult).
Context (md5 sha1 sha256 sha512 : bytes → bytes).
Context (quotedprintable : body → body).
(** The boundary that [multipart.NewWriter] chose. *)
Context (randomBoundary : bytes).

Abbreviation SaveFileFromReader :=
  (FileStore.SaveFileFromReader url_Parse xml_Decode md5 sha1 sha256 sha512).

Section processor.
Context {S : Type} (filter : MultipartFormProcessor S) (preauth : Api.Response).

(** [internal/upload/rewrite.go:104-131 rewriter.handleFilePart] *)
Definition handleFilePart (name : string) (p : Multipart.Part) (rew : rewriter S)
    : prog (option gerr * rewriter S) :=
  call (Metric "gitlab_workhorse_multipart_upload_files" [Name filter] 1);;
  let filename := Multipart.FileName p in
  if illegal filename then Ret (Some (Errorf ("illegal filename: " +:+ quote filename)), rew)
  else
    now <- call Now;;
    let opts := FileStore.with_prefix filename (FileStore.GetOpts now preauth) in
    '(fh, residue) <- SaveFileFromReader (Multipart.p_body p) (-1) opts;;
    let rew := mk_rewriter (writer rew) (proc rew) (residue :: left_ rew) in
    match fh with
    | inr err =>
        Ret (Some (if decide (err = ErrEntityTooLarge) then err
                   else Wrapf "Persisting multipart file" err), rew)
    | inl fh =>
        let rew :=
          with_writer (foldl write_field (writer rew) (map_to_list (GitLabFinalizeFields fh name)))
            rew in
        call (Metric "gitlab_workhorse_multipart_upload_bytes" [Name filter] (FileStore.Size fh));;
        ProcessFile filter name fh rew
    end.

(** Writing to the buffer never fails.
    [internal/upload/rewrite.go:133-148 rewriter.copyPart] *)
Definition copyPart (name : string) (p : Multipart.Part) (rew : rewriter S)
    : prog (option gerr * rewriter S) :=
  let '(data, err) := read_all (Multipart.p_body p) in
  let rew := with_writer (Multipart.write_part (Multipart.p_header p) data (writer rew)) rew in
  match err with
  | Some err => Ret (Some (Wrapf "duplicate multipart field" err), rew)
  | None =>
      '(err, rew) <- ProcessField filter name rew;;
      Ret (Wrapf "process multipart field" <$> err, rew)
  end.

(** The loop over the parts, which ends with [err].
    [internal/upload/rewrite.go:75-101 rewriteFormFilesFromMultipart] *)
Fixpoint rewrite_parts (ps : list Multipart.Part) (err : gerr) (rew : rewriter S)
    : prog (option gerr * rewriter S) :=
  match ps with
  | [] => Ret (if decide (err = EOF) then None else Some err, rew)
  | p :: ps =>
      let name := Multipart.FormName p in
      if String.eqb name "" then rewrite_parts ps err rew
      else
        '(x, rew) <-
          (if negb (String.eqb (Multipart.FileName p) "")
           then handleFilePart name p rew else copyPart name p rew);;
        match x with
        | Some x => Ret (Some x, rew)
        | None => rewrite_parts ps err rew
        end
  end.

(** [internal/upload/rewrite.go:56-102 rewriteFormFilesFromMultipart] *)
Definition rewriteFormFilesFromMultipart (r : Request) (rew : rewriter S)
    : prog (option gerr * rewriter S) :=
  match Multipart.MultipartReader quotedprintable r with
  | inr err =>
      Ret (Some (if decide (err = ErrNotMultipart) then ErrNotMultipart
                 else Wrapf "get multipart reader" err), rew)
  | inl (ps, err) =>
      call (Metric "gitlab_workhorse_multipart_upload_requests" [Name filter] 1);;
      rewrite_parts ps err rew
  end.

(** The request with the new form in place of its body.
    [internal/upload/uploads.go:51-54 HandleFileUploads] *)
Definition hijack (r : Request) (w : Multipart.Writer) : Request :=
  let body := Multipart.w_buf w in
  with_header (with_body r (Some (whole body)) (Z.of_nat (length body)))
    (Header.Set_ (Header_ r) "Content-Type" (Multipart.FormDataContentType w)).

(** What the goroutines that wait for the end of the request do; one does not stop
    another. *)
Fixpoint remove_all (l : list leftovers) : prog unit :=
  match l with
  | [] => Ret tt
  | x :: l => deferring (remove_all l) (FileStore.remove_leftovers url_Parse x)
  end.

(** [internal/upload/uploads.go:24-64 HandleFileUploads] *)
Definition HandleFileUploads (h : Handler) (s : S) : Handler := λ r,
  now <- call Now;;
  let opts := FileStore.GetOpts now preauth in
  if negb (FileStore.IsLocal opts) && negb (FileStore.IsRemote opts) then
    Helper.Fail500 r (Some (Errorf "handleFileUploads: missing destination storage"))
  else
    '(err, rew) <-
      rewriteFormFilesFromMultipart r (mk_rewriter (Multipart.NewWriter randomBoundary) s []);;
    deferring (remove_all (left_ rew))
      match err with
      | Some ErrNotMultipart => h r
      | Some ErrEntityTooLarge => Helper.RequestEntityTooLarge r ErrEntityTooLarge
      | Some err =>
          Helper.Fail500 r (Some (Wrapf "handleFileUploads: extract files from multipart" err))
      | None =>
          '(err, r) <- Finalize filter (proc rew) (hijack r (Multipart.Close (writer rew)));;
          match err with
          | Some err => Helper.Fail500 r (Some (Wrapf "handleFileUploads: Finalize" err))
          | None => h r
          end
      end.
End processor.

(** ** Accelerated uploads *)

(** The token of the claims with these rewritten fields.
    (MultipartClaims, internal/upload/accelerate.go) *)
Context (JWTTokenString : gmap string string → prog (result string)).

(** The fields rewritten so far; no map before the first.
    (savedFileTracker, internal/upload/accelerate.go) *)
Abbreviation savedFileTracker := (option (gmap string string)).

(** [internal/upload/accelerate.go:35-64 savedFileTracker.ProcessFile] *)
Definition tracker : MultipartFormProcessor savedFileTracker := {|
  ProcessFile fieldName file rew :=
    Ret (None, mk_rewriter (writer rew)
                 (Some (<[fieldName := FileStore.LocalPath file]> (default ∅ (proc rew))))
                 (left_ rew));
  ProcessField _ rew := Ret (None, rew);
  Finalize s r :=
    match s with
    | None => Ret (None, r)
    | Some rewrittenFields =>
        token <- JWTTokenString rewrittenFields;;
        match token with
        | inr err => Ret (Some (Wrapf "savedFileTracker.Finalize" err), r)
        | inl tokenString =>
            Ret (None, with_header r (Header.Set_ (Header_ r) RewrittenFieldsHeader tokenString))
        end
    end;
  Name := "accelerate";
|}.

(** [internal/upload/accelerate.go:28-33 Accelerate] *)
Definition Accelerate (preAuthorizeHandler : Api.HandleFunc → string → Handler) (h : Handler)
    : Handler :=
  preAuthorizeHandler (λ r a, HandleFileUploads tracker a h None r) "/authorize".

(** [internal/upload/skip_rails_authorizer.go:18-22 SkipRailsAuthorizer.PreAuthorizeHandler] *)
Definition SkipRailsAuthorizer (TempPath : string) (next : Api.HandleFunc) (_ : string)
    : Handler := λ r, next r (Api.only_TempPath TempPath).

(** ** What a rewritten form is *)

Definition field_item (kv : string * string) : Multipart.item :=
  (Multipart.field_header kv.1, to_bytes kv.2).

(** The parts that take the place of a file. *)
Definition file_items (name : string) (fh : FileHandler) : list Multipart.item :=
  field_item <$> map_to_list (GitLabFinalizeFields fh name).

(** [rewritten ps fs items]: the form of [items] stands for the one of [ps].  Parts without
    a name are dropped, other fields are copied in full, and each file, saved as [fs] says,
    is replaced by its fields. *)
Inductive rewritten (preauth : Api.Response)
    : list Multipart.Part → list (string * FileHandler) → list Multipart.item → Prop :=
  | rewritten_end : rewritten preauth [] [] []
  | rewritten_nameless p ps fs items :
      Multipart.FormName p = "" →
      rewritten preauth ps fs items → rewritten preauth (p :: ps) fs items
  | rewritten_field p ps fs items :
      Multipart.FormName p ≠ "" → Multipart.FileName p = "" →
      b_end (Multipart.p_body p) = EOF →
      rewritten preauth ps fs items →
      rewritten preauth (p :: ps) fs
        ((Multipart.p_header p, b_data (Multipart.p_body p)) :: items)
  | rewritten_file p ps fs items now fh :
      Multipart.FormName p ≠ "" → Multipart.FileName p ≠ "" →
      illegal (Multipart.FileName p) = false →
      FileStore.saved md5 sha1 sha256 sha512 (Multipart.p_body p) (-1)
        (FileStore.with_prefix (Multipart.FileName p) (FileStore.GetOpts now preauth)) fh →
      rewritten preauth ps fs items →
      rewritten preauth (p :: ps) ((Multipart.FormName p, fh) :: fs)
        (file_items (Multipart.FormName p) fh ++ items).

(** The claims that files saved as [fs] add. *)
Definition record_file (s : savedFileTracker) (f : string * FileHandler) : savedFileTracker :=
  Some (<[f.1 := FileStore.LocalPath f.2]> (default ∅ s)).

Lemma write_fields_items l w :
  foldl write_field w l = Multipart.write_items (field_item <$> l) w.
Proof. revert w. induction l as [|kv l IH]; intros w; [done|]. cbn. by rewrite IH. Qed.

Lemma write_items_app l l' w :
  Multipart.write_items (l ++ l') w = Multipart.write_items l' (Multipart.write_items l w).
Proof. unfold Multipart.write_items. by rewrite foldl_app. Qed.

Section facts.
Context (preauth : Api.Response).

Lemma handleFilePart_returns name p rew :
  returns (handleFilePart tracker preauth name p rew) (λ o,
    match o.1 with
    | Some err => err ≠ ErrNotMultipart
    | None => illegal (Multipart.FileName p) = false ∧ ∃ now fh,
        FileStore.saved md5 sha1 sha256 sha512 (Multipart.p_body p) (-1)
          (FileStore.with_prefix (Multipart.FileName p) (FileStore.GetOpts now preauth)) fh ∧
        writer o.2 = Multipart.write_items (file_items name fh) (writer rew) ∧
        proc o.2 = record_file (proc rew) (name, fh)
    end).
Proof.
  unfold handleFilePart. apply returns_bind_any. intros [].
  destruct (illegal (Multipart.FileName p)) eqn:Ei; [by apply returns_ret|].
  apply returns_bind_any. intros now. cbv zeta.
  eapply returns_bind; [apply FileStore.SaveFileFromReader_returns|]. intros [[fh|err] l] Hs.
  - apply returns_bind_any. intros []. apply returns_ret. cbn in Hs |- *. split; [done|].
    exists now, fh. split; [done|]. split; [|done]. by rewrite write_fields_items.
  - apply returns_ret. cbn. destruct (decide (err = ErrEntityTooLarge)) as [->|]; [done|].
    intros [=].
Qed.

Lemma copyPart_returns name p rew :
  returns (copyPart tracker name p rew) (λ o,
    match o.1 with
    | Some err => err ≠ ErrNotMultipart
    | None => b_end (Multipart.p_body p) = EOF ∧
        writer o.2 = Multipart.write_items
          [(Multipart.p_header p, b_data (Multipart.p_body p))] (writer rew) ∧
        proc o.2 = proc rew
    end).
Proof.
  unfold copyPart, read_all. destruct (decide (b_end (Multipart.p_body p) = EOF)); by apply returns_ret.
Qed.

Lemma rewrite_parts_returns ps err rew :
  returns (rewrite_parts tracker preauth ps err rew) (λ o, o.1 = None →
    err = EOF ∧ ∃ fs items, rewritten preauth ps fs items ∧
      writer o.2 = Multipart.write_items items (writer rew) ∧
      proc o.2 = foldl record_file (proc rew) fs).
Proof.
  revert rew. induction ps as [|p ps IH]; intros rew; cbn [rewrite_parts].
  { apply returns_ret. cbn. destruct (decide (err = EOF)); [|done]. intros _. split; [done|].
    exists [], []. by repeat constructor. }
  destruct (String.eqb_spec (Multipart.FormName p) "") as [Hn|Hn].
  { eapply returns_mono; [apply IH|]. intros o Ho Hx. destruct (Ho Hx) as (? & fs & items & ? & ?).
    split; [done|]. exists fs, items. split; [by constructor|done]. }
  destruct (String.eqb_spec (Multipart.FileName p) "") as [Hf|Hf]; cbn [negb].
  - eapply returns_bind; [apply copyPart_returns|]. intros [[x|] rew1] H1; [by apply returns_ret|].
    cbn in H1. destruct H1 as (Hb & Hw & Hp).
    eapply returns_mono; [apply IH|]. intros o Ho Hx. destruct (Ho Hx) as (? & fs & items & Hr & Hw2 & Hp2).
    split; [done|]. eexists fs, (_ :: items). split; [by apply rewritten_field|].
    rewrite Hw2, Hw, Hp2, Hp. done.
  - eapply returns_bind; [apply handleFilePart_returns|]. intros [[x|] rew1] H1; [by apply returns_ret|].
    cbn in H1. destruct H1 as (Hi & now & fh & Hs & Hw & Hp).
    eapply returns_mono; [apply IH|]. intros o Ho Hx. destruct (Ho Hx) as (? & fs & items & Hr & Hw2 & Hp2).
    split; [done|]. eexists (_ :: fs), (_ ++ items). split; [by eapply rewritten_file|].
    rewrite Hw2, Hw, Hp2, Hp, write_items_app. done.
Qed.
End facts.

(** C11: the handler behind an accelerated upload gets the client's form with each file,
    saved in full, replaced by the fields that describe it, and everything else as it was:
    that is what a reader of multipart forms reads from the new body.  The token says
    where the files of this very form are, and is there exactly if there are any; what was
    saved is removed after the handler. *)
Theorem Accelerate_forwards {V} (E : env V) (preauth : Api.Response) (h : Handler)
    (r : Request) (w w1 : resp) (e e1 : V) (rew : rewriter savedFileTracker)
    (sign : gmap string string → string)
    (Hdest : FileStore.IsLocal (FileStore.GetOpts 0 preauth) ||
             FileStore.IsRemote (FileStore.GetOpts 0 preauth) = true)
    (Hboundary : Multipart.boundary_ok randomBoundary = true)
    (Hsign : ∀ m w e, run E (JWTTokenString m) w e = (Value (inl (sign m)), w, e))
    (Hrun : run E (rewriteFormFilesFromMultipart tracker preauth r
                     (mk_rewriter (Multipart.NewWriter randomBoundary) None [])) w (E _ Now e).2
            = (Value (None, rew), w1, e1)) :
  ∃ ps fs items,
    Multipart.MultipartReader quotedprintable r = inl (ps, EOF) ∧
    rewritten preauth ps fs items ∧
    let form := hijack r (Multipart.Close (writer rew)) in
    let r' := match foldl record_file None fs with
              | None => form
              | Some m => with_header form
                  (Header.Set_ (Header_ form) RewrittenFieldsHeader (sign m))
              end in
    (Forall (Multipart.item_ok randomBoundary) items →
     Multipart.MultipartReader quotedprintable form = inl (Multipart.part_of <$> items, EOF)) ∧
    run E (HandleFileUploads tracker preauth h None r) w e =
      run E (deferring (remove_all (left_ rew)) (h r')) w1 e1.
Proof.
  unfold HandleFileUploads. rewrite run_bind. cbn [run call].
  destruct (E Z Now e) as [now e0]. cbn [snd] in Hrun.
  assert (negb (FileStore.IsLocal (FileStore.GetOpts now preauth)) &&
          negb (FileStore.IsRemote (FileStore.GetOpts now preauth)) = false) as ->
    by (rewrite <- negb_orb; change (negb (FileStore.IsLocal (FileStore.GetOpts 0 preauth) ||
          FileStore.IsRemote (FileStore.GetOpts 0 preauth)) = false); by rewrite Hdest).
  rewrite run_bind, Hrun. unfold rewriteFormFilesFromMultipart in Hrun.
  destruct (Multipart.MultipartReader quotedprintable r) as [[ps err]|err]; [|done].
  rewrite run_bind in Hrun. cbn [run call] in Hrun. destruct (E unit _ e0) as [[] e2].
  pose proof (returns_run E _ _ w e2 _ w1 e1 (rewrite_parts_returns preauth ps err _) Hrun eq_refl)
    as (-> & fs & items & Hrw & Hw & Hp).
  exists ps, fs, items. split; [done|]. split; [done|]. cbv zeta. split.
  - intros Hok. cbn in Hw. rewrite Hw. unfold hijack. by apply Multipart.MultipartReader_written.
  - rewrite !run_deferring. cbn in Hp. rewrite Hp. cbn [Finalize tracker].
    destruct (foldl record_file None fs) as [m|]; [|done].
    rewrite run_bind. rewrite run_bind. by rewrite Hsign.
Qed.

Lemma rewrite_parts_illegal preauth ps err rew p :
  p ∈ ps → Multipart.FormName p ≠ "" → illegal (Multipart.FileName p) = true →
  returns (rewrite_parts tracker preauth ps err rew)
    (λ o, ∃ x, o.1 = Some x ∧ x ≠ ErrNotMultipart).
Proof.
  intros Hin Hname Hill. revert rew. induction ps as [|q ps IH]; intros rew; [by apply elem_of_nil in Hin|].
  cbn [rewrite_parts].
  destruct (String.eqb_spec (Multipart.FormName q) "") as [Hn|Hn].
  { apply elem_of_cons in Hin as [->|Hin]; [done|]. by apply IH. }
  destruct (String.eqb_spec (Multipart.FileName q) "") as [Hf|Hf]; cbn [negb].
  - assert (p ∈ ps) as Hin'.
    { apply elem_of_cons in Hin as [->|Hin]; [|done]. by rewrite Hf in Hill. }
    eapply returns_bind; [apply copyPart_returns|]. intros [[x|] rew1] H1.
    + apply returns_ret. by exists x.
    + by apply IH.
  - eapply returns_bind; [apply handleFilePart_returns|]. intros [[x|] rew1] H1.
    + apply returns_ret. by exists x.
    + destruct H1 as [H1 _]. apply elem_of_cons in Hin as [->|Hin]; [congruence|]. by apply IH.
Qed.

(** C12: a form that names a file so that it could leave its directory is refused: nothing
    of the handler behind the upload runs. *)
Theorem illegal_filename_refused {V} (E : env V) (preauth : Api.Response) (h h' : Handler)
    (r : Request) (ps : list Multipart.Part) (err : gerr) (p : Multipart.Part) (w : resp) (e : V)
    (Hread : Multipart.MultipartReader quotedprintable r = inl (ps, err)) (Hin : p ∈ ps)
    (Hname : Multipart.FormName p ≠ "")
    (Hill : contains (Multipart.FileName p) "/" = true ∨ Multipart.FileName p ∈ ["."; ".."]) :
  run E (HandleFileUploads tracker preauth h None r) w e =
  run E (HandleFileUploads tracker preauth h' None r) w e.
Proof.
  assert (illegal (Multipart.FileName p) = true) as Hi.
  { unfold illegal. destruct Hill as [->|Hi]; [done|].
    apply orb_true_iff. apply elem_of_cons in Hi as [->|Hi]; [left; apply orb_true_r|].
    apply list_elem_of_singleton in Hi as ->. by right. }
  unfold HandleFileUploads. rewrite !run_bind. cbn [run call]. destruct (E Z Now e) as [now e0].
  destruct (_ && _); [done|]. rewrite !run_bind. unfold rewriteFormFilesFromMultipart. rewrite Hread.
  rewrite !run_bind. cbn [run call]. destruct (E unit _ e0) as [[] e2].
  pose proof (λ o w' e', returns_run E _ _ w e2 o w' e'
    (rewrite_parts_illegal preauth ps err (mk_rewriter (Multipart.NewWriter randomBoundary) None [])
       p Hin Hname Hi)) as Hr.
  destruct (run E (rewrite_parts _ _ _ _ _) w e2) as [[[[x rew]|m] w3] e3]; [|done].
  destruct (Hr (x, rew) w3 e3 eq_refl) as (y & Hx & Hy). cbn in Hx. subst x.
  rewrite !run_deferring. by destruct y.
Qed.

(** *** Leftovers *)

Section files.
Context {V : Type} (E : env V) (files : V → gset string) {HE : PathEnv E files}.
#[local] Set Default Proof Using "Type*".

Definition locals (l : list leftovers) : gset string := list_to_set (omap FileStore.l_local l).

(** The files made since are those that will be removed. *)
Definition leaves_all (before : gset string) (l : list leftovers) (e : V) : Prop :=
  locals l ## before ∧ files e = locals l ∪ before.

(** A step of the rewriting that keeps account of the files it makes. *)
Definition accounts {S} (p : prog (option gerr * rewriter S)) (rew : rewriter S) : Prop :=
  ∀ before w e, leaves_all before (left_ rew) e →
    match run E p w e with
    | (Value (_, rew'), _, e') => leaves_all before (left_ rew') e'
    | (Panic _, _, _) => True
    end.

Lemma accounts_ret {S} x (rew rew' : rewriter S) : left_ rew' = left_ rew → accounts (Ret (x, rew')) rew.
Proof using Type. intros H before w e. cbn. by rewrite H. Qed.

Lemma accounts_keeps {S A} (p : prog A) (k : A → prog (option gerr * rewriter S)) rew :
  keeps E files p → (∀ a, accounts (k a) rew) → accounts (bind p k) rew.
Proof using Type.
  intros Hp Hk before w e H. rewrite run_bind. specialize (Hp w e).
  destruct (run E p w e) as [[[a|m] w1] e1]; [|done]. apply Hk. cbn in Hp.
  unfold leaves_all in *. by rewrite Hp.
Qed.

Lemma accounts_bind {S} (p : prog (option gerr * rewriter S)) k rew :
  accounts p rew → (∀ x rew', accounts (k (x, rew')) rew') →
  accounts (bind p k) rew.
Proof using Type.
  intros Hp Hk before w e H. rewrite run_bind. specialize (Hp before w e H).
  destruct (run E p w e) as [[[[x rew']|m] w1] e1]; [|done]. by apply Hk.
Qed.

Lemma remove_all_files l w e : files (run E (remove_all l) w e).2 = files e ∖ locals l.
Proof using HE.
  clear md5 sha1 sha256 sha512 randomBoundary.
  revert w e. induction l as [|x l IH]; intros w e; cbn [remove_all].
  { unfold locals. cbn. set_solver. }
  rewrite run_deferring.
  pose proof (FileStore.remove_leftovers_removes url_Parse E files x w e) as Hr.
  destruct (run E (FileStore.remove_leftovers url_Parse x) w e) as [[o w1] e1].
  specialize (IH w1 e1). destruct (run E (remove_all l) w1 e1) as [[[[]|m] w2] e2];
    cbn [snd] in *; rewrite IH, Hr; unfold locals; cbn [omap list_omap];
    destruct (FileStore.l_local x); cbn [list_to_set]; set_solver.
Qed.

Context {S : Type} (filter : MultipartFormProcessor S) (preauth : Api.Response).
Context (Hfile : ∀ name fh rew, accounts (ProcessFile filter name fh rew) rew).
Context (Hfield : ∀ name rew, accounts (ProcessField filter name rew) rew).

Lemma keeps_call {X} (x : ext X) : makes_or_removes x = false → keeps E files (call x).
Proof using HE. intros Hx. apply keeps_files_harmless; [done|]. by split. Qed.

Lemma handleFilePart_accounts name p rew : accounts (handleFilePart filter preauth name p rew) rew.
Proof using HE Hfile.
  clear Hfield randomBoundary.
  unfold handleFilePart. apply accounts_keeps; [by apply keeps_call|]. intros [].
  destruct (illegal _); [by apply accounts_ret|].
  apply accounts_keeps; [by apply keeps_call|]. intros now. cbv zeta.
  intros before w e [Hd He]. rewrite run_bind.
  pose proof (FileStore.SaveFileFromReader_leaves url_Parse xml_Decode md5 sha1 sha256 sha512 E files
    (Multipart.p_body p) (-1)
    (FileStore.with_prefix (Multipart.FileName p) (FileStore.GetOpts now preauth)) w e) as Hl.
  destruct (run E (SaveFileFromReader _ _ _) w e) as [[[[fh l]|m] w1] e1]; [|done].
  specialize (Hl fh l w1 e1 eq_refl). rewrite He in Hl.
  set (rew' := mk_rewriter (writer rew) (proc rew) (l :: left_ rew)).
  assert (leaves_all before (left_ rew') e1) as Hrew.
  { unfold leaves_all, locals, FileStore.leaves in *. cbn [left_ rew' omap list_omap].
    destruct (FileStore.l_local l) as [path|]; [|done]. destruct Hl as [Hp ->].
    cbn [list_to_set]. set_solver. }
  destruct fh as [fh|err]; [|done].
  match goal with |- context [with_writer ?w rew'] => set (rew2 := with_writer w rew') end.
  change (left_ rew') with (left_ rew2) in Hrew.
  revert before w1 e1 Hrew Hd He Hl. intros before w1 e1 Hrew _ _ _.
  refine (accounts_keeps (call _) _ rew2 _ _ before w1 e1 Hrew); [by apply keeps_call|].
  intros []. apply Hfile.
Qed.

Lemma copyPart_accounts name p rew : accounts (copyPart filter name p rew) rew.
Proof using Hfield.
  unfold copyPart. destruct (read_all _) as [d [err|]]; [by apply accounts_ret|].
  match goal with |- context [with_writer ?w rew] => set (rew1 := with_writer w rew) end.
  change (accounts (bind (ProcessField filter name rew1)
    (λ '(err, rew), Ret (Wrapf "process multipart field" <$> err, rew))) rew1).
  apply accounts_bind; [apply Hfield|]. intros x rew'. by apply accounts_ret.
Qed.

Lemma rewrite_parts_accounts ps err rew : accounts (rewrite_parts filter preauth ps err rew) rew.
Proof.
  revert rew. induction ps as [|p ps IH]; intros rew; cbn [rewrite_parts]; [by apply accounts_ret|].
  destruct (String.eqb _ ""); [apply IH|].
  apply accounts_bind.
  - destruct (negb _); [apply handleFilePart_accounts|apply copyPart_accounts].
  - intros [x|] rew'; [by apply accounts_ret|apply IH].
Qed.

(** C13: when the request is over, no file made for any part of the form is left, whichever
    part failed, and also when the handler that got the form panics. *)
Theorem HandleFileUploads_leaves_nothing (h : Handler) (s : S) (r : Request)
    (Hfinal : ∀ s r, keeps E files (Finalize filter s r)) (Hh : ∀ r, keeps E files (h r))
    (Hcrash : ∀ w e m, (run E (rewriteFormFilesFromMultipart filter preauth r
       (mk_rewriter (Multipart.NewWriter randomBoundary) s [])) w e).1.1 ≠ Panic m) :
  keeps E files (HandleFileUploads filter preauth h s r).
Proof.
  assert (∀ x, keeps E files (Helper.Fail500 r x)) as Hf.
  { intros x. apply keeps_files_harmless; [done|]. apply Helper.Fail500_harmless. by split_and!. }
  unfold HandleFileUploads. apply keeps_bind; [by apply keeps_call|]. intros now. cbv zeta.
  destruct (_ && _); [apply Hf|]. intros w e. rewrite run_bind. specialize (Hcrash w e).
  assert (accounts (rewriteFormFilesFromMultipart filter preauth r
    (mk_rewriter (Multipart.NewWriter randomBoundary) s []))
    (mk_rewriter (Multipart.NewWriter randomBoundary) s [])) as Hacc.
  { unfold rewriteFormFilesFromMultipart. destruct (Multipart.MultipartReader _ _) as [[ps x]|x].
    - apply accounts_keeps; [by apply keeps_call|]. intros []. apply rewrite_parts_accounts.
    - by apply accounts_ret. }
  specialize (Hacc (files e) w e).
  destruct (run E (rewriteFormFilesFromMultipart _ _ _ _) w e) as [[[[x rew]|m] w1] e1];
    [|by destruct (Hcrash m)].
  destruct Hacc as [Hd He]; [unfold leaves_all, locals; cbn; set_solver|].
  rewrite run_deferring. match goal with |- context [run E ?b w1 e1] => assert (keeps E files b) as Hk end.
  { destruct x as [x|].
    - assert (keeps E files (Helper.RequestEntityTooLarge r ErrEntityTooLarge)) as H413
        by (apply keeps_files_harmless; [done|]; by apply Helper.RequestEntityTooLarge_harmless).
      destruct x; try apply Hf; [apply Hh|apply H413].
    - apply keeps_bind; [apply Hfinal|]. intros [[x|] r']; [|apply Hh].
      apply keeps_files_harmless; [done|]. apply Helper.Fail500_harmless. by split_and!. }
  specialize (Hk w1 e1). destruct (run E _ w1 e1) as [[o w2] e2]. cbn [snd] in Hk.
  pose proof (remove_all_files (left_ rew) w2 e2) as Hr.
  destruct (run E (remove_all (left_ rew)) w2 e2) as [[[[]|m] w3] e3]; cbn [snd] in *;
    rewrite Hr, Hk, He; clear -Hd; set_solver.
Qed.
End files.
End upload.

(** ** Examples *)

Definition test_boundary : bytes := concat (replicate 15 (to_bytes "0f3a")).
Definition client_boundary : bytes := to_bytes "B".

(** A form with a field and a file whose name is [filename]. *)
Definition file_header (filename : string) : header :=
  {["Content-Disposition" := [of_bytes (to_bytes "form-data; name=file; filename=" ++
      ["034"%char] ++ to_bytes filename ++ ["034"%char])]]}.
Definition test_form (filename : string) : bytes :=
  Multipart.w_buf (Multipart.Close (Multipart.write_part (file_header filename) (to_bytes "hello")
    (Multipart.WriteField "key" "value" (Multipart.NewWriter client_boundary)))).
Definition test_request (filename : string) : Request :=
  with_header (with_body Block.request (Some (whole (test_form filename))) (-1))
    {["Content-Type" := ["multipart/form-data; boundary=B"]]}.
Definition test_sign (m : gmap string string) : string := default "" (m !! "file").
Definition test_rewrite (filename : string) :=
  rewriteFormFilesFromMultipart FileStore.test_parse ObjectStore.test_decode (take 2) (take 3)
    (take 4) (take 5) id (tracker (λ m, Ret (inl (test_sign m)))) Api.granted
    (test_request filename) (mk_rewriter (Multipart.NewWriter test_boundary) None []).
Definition test_rewritten : option gerr * rewriter (option (gmap string string)) :=
  match (run FileStore.path_env (test_rewrite "a.txt") (new_resp ∅) ∅).1.1 with
  | Value x => x
  | Panic _ => (None, mk_rewriter (Multipart.NewWriter []) None [])
  end.

Example test_rewritten_fields :
  (test_rewritten.1, default ∅ (proc test_rewritten.2) !! "file",
   length (Multipart.read_parts id test_boundary
     (whole (Multipart.w_buf (Multipart.Close (writer test_rewritten.2))))).1)
  = (None, Some (fresh (∅ : gset string)), 8).
Proof. vm_compute. reflexivity. Qed.

Lemma Accelerate_forwards_witness :
  ∃ ps fs items,
    Multipart.MultipartReader id (test_request "a.txt") = inl (ps, EOF) ∧
    rewritten (take 2) (take 3) (take 4) (take 5) Api.granted ps fs items ∧
    let form := hijack (test_request "a.txt") (Multipart.Close (writer test_rewritten.2)) in
    let r' := match foldl record_file None fs with
              | None => form
              | Some m => with_header form
                  (Header.Set_ (Header_ form) RewrittenFieldsHeader (test_sign m))
              end in
    (Forall (Multipart.item_ok test_boundary) items →
     Multipart.MultipartReader id form = inl (Multipart.part_of <$> items, EOF)) ∧
    run FileStore.path_env
      (HandleFileUploads FileStore.test_parse ObjectStore.test_decode (take 2) (take 3) (take 4)
         (take 5) id test_boundary (tracker (λ m, Ret (inl (test_sign m)))) Api.granted
         (λ _, write_header 204) None (test_request "a.txt")) (new_resp ∅) ∅ =
      run FileStore.path_env (deferring (remove_all FileStore.test_parse (left_ test_rewritten.2))
        (write_header 204))
        (new_resp ∅) (run FileStore.path_env (test_rewrite "a.txt") (new_resp ∅) ∅).2.
Proof.
  refine (Accelerate_forwards FileStore.test_parse ObjectStore.test_decode (take 2) (take 3)
    (take 4) (take 5) id test_boundary (λ m, Ret (inl (test_sign m))) FileStore.path_env
    Api.granted (λ _, write_header 204) (test_request "a.txt") (new_resp ∅) (new_resp ∅) ∅
    (run FileStore.path_env (test_rewrite "a.txt") (new_resp ∅) ∅).2 test_rewritten.2 test_sign
    _ _ _ _).
  - reflexivity.
  - vm_compute. reflexivity.
  - reflexivity.
  - vm_compute. reflexivity.
Defined.

Lemma illegal_filename_refused_witness :
  let up h := HandleFileUploads FileStore.test_parse ObjectStore.test_decode (take 2) (take 3)
    (take 4) (take 5) id test_boundary (tracker (λ m, Ret (inl (test_sign m)))) Api.granted h None
    (test_request "../x") in
  run FileStore.path_env (up (λ _, write_header 204)) (new_resp ∅) ∅ =
  run FileStore.path_env (up (λ _, Raise "not reached")) (new_resp ∅) ∅.
Proof.
  set (ps := match Multipart.MultipartReader id (test_request "../x") with
             | inl (ps, _) => ps | inr _ => [] end).
  refine (illegal_filename_refused FileStore.test_parse ObjectStore.test_decode (take 2) (take 3)
    (take 4) (take 5) id test_boundary (λ m, Ret (inl (test_sign m))) FileStore.path_env
    Api.granted (λ _, write_header 204) (λ _, Raise "not reached") (test_request "../x") ps EOF
    (Multipart.part_of (file_header "../x", to_bytes "hello")) (new_resp ∅) ∅ _ _ _ _).
  - vm_compute. reflexivity.
  - right. left.
  - vm_compute. discriminate.
  - left. vm_compute. reflexivity.
Defined.

Lemma HandleFileUploads_leaves_nothing_witness :
  keeps FileStore.path_env id
    (HandleFileUploads FileStore.test_parse ObjectStore.test_decode (take 2) (take 3) (take 4)
       (take 5) id test_boundary (tracker (λ m, Ret (inl (test_sign m)))) Api.granted
       (λ _, Raise "handler") None (test_request "..")).
Proof.
  apply HandleFileUploads_leaves_nothing; [apply _| | | | |].
  - intros name fh rew. by apply accounts_ret.
  - intros name rew. by apply accounts_ret.
  - by intros [m|] r w e.
  - by intros r w e.
  - intros w e m. unfold rewriteFormFilesFromMultipart.
    assert (Multipart.MultipartReader id (test_request "..") = inl
      ([Multipart.part_of (Multipart.field_header "key", to_bytes "value");
        Multipart.part_of (file_header "..", to_bytes "hello")], EOF)) as ->
      by (vm_compute; reflexivity).
    vm_compute. discriminate.
Defined.
End Upload.
