(* ===== verification/GitalyClient.v ===== *)
(** * Calls of Gitaly's services (internal/gitaly)

    The clients of the repository, blob, diff and smart HTTP services on a shared
    connection.  A call streams its answer; Gitaly's protocol and the transport are the
    environment's. *)

From S2P Require Import Prelude GoString Http GoNet.
From S2P Require Import Helper.
From S2P Require Import Gitaly.
From stdpp Require Import options.

Module GitalyClient.

(** [pb.Repository]. *)
Definition repository (r : Gitaly.Repository) : pb :=
  PMsg [("storage_name", PText (Gitaly.StorageName r));
        ("relative_path", PText (Gitaly.RelativePath r));
        ("git_object_directory", PText (Gitaly.GitObjectDirectory r));
        ("git_alternate_object_directories", PList (Gitaly.GitAlternateObjectDirectories r));
        ("gl_repository", PText (Gitaly.GlRepository r))].

(** A client of a service: the shared connection to the server.
    [internal/gitaly/gitaly.go:27-52 NewSmartHTTPClient NewBlobClient NewRepositoryClient] *)
Definition newClient (s : Gitaly.Server) : prog (result nat) :=
  call (Dial_ (Gitaly.Address s) (Gitaly.Token s)).

(** [internal/gitaly/gitaly.go:64-71 NewDiffClient] *)
Definition NewDiffClient (s : Gitaly.Server) : prog (result nat) := newClient s.

(** [internal/gitaly/smarthttp.go:16-33 SmartHTTPClient.InfoRefsResponseReader] *)
Definition InfoRefsResponseReader (client : nat) (repo : Gitaly.Repository) (rpc : string)
    (gitConfigOptions : list string) (gitProtocol : string) : prog (result rpc_stream) :=
  let rpcRequest := PMsg [("repository", repository repo);
                          ("git_config_options", PList gitConfigOptions);
                          ("git_protocol", PText gitProtocol)] in
  if String.eqb rpc "git-upload-pack" then
    call (Rpc_ client "SmartHTTPService/InfoRefsUploadPack" rpcRequest)
  else if String.eqb rpc "git-receive-pack" then
    call (Rpc_ client "SmartHTTPService/InfoRefsReceivePack" rpcRequest)
  else Ret (inr (Errorf ("InfoRefsResponseWriterTo: Unsupported RPC: " +:+ quote rpc))).

(** The errors of the two goroutines of an exchange, in the order in which they end: the
    first error is the result.  If sending fails first, what is answered after that is not
    waited for. *)
Definition exchange_error (s : rpc_session) (clientRequest : body) : option gerr :=
  match rpc_send_error s with
  | Some e => Some e
  | None => (read_all clientRequest).2
  end.
Definition relay (s : rpc_session) (clientRequest : body) : prog (option gerr) :=
  let sent := exchange_error s clientRequest in
  '(_, early) <- io_Copy (whole (rpc_early s));;
  if rpc_send_first s && bool_decide (is_Some sent) then Ret sent
  else
    received <- match early with
                | Some e => Ret (Some e)
                | None => '(_, err) <- io_Copy (rpc_answer s);; Ret err
                end;;
    Ret (match received with Some e => Some e | None => sent end).

(** How much of the request had been read when an exchange ended so. *)
Definition octets_read (s : rpc_session) (clientRequest : body) (err : option gerr) : nat :=
  let n := length (b_data clientRequest) in
  match err with None => n | Some _ => Nat.min (rpc_taken s) n end.

(** [internal/gitaly/smarthttp.go:46-93 SmartHTTPClient.ReceivePack] *)
Definition ReceivePack (client : nat) (repo : Gitaly.Repository)
    (glId glUsername glRepository : string) (gitConfigOptions : list string)
    (clientRequest : body) (gitProtocol : string)
    (relay : rpc_session → body → prog (option gerr * option fd))
    : prog (option gerr * nat * option fd) :=
  let rpcRequest := PMsg [("repository", repository repo); ("gl_id", PText glId);
                          ("gl_username", PText glUsername);
                          ("gl_repository", PText glRepository);
                          ("git_config_options", PList gitConfigOptions);
                          ("git_protocol", PText gitProtocol)] in
  s <- call (Bidi_ client "SmartHTTPService/PostReceivePack" rpcRequest clientRequest);;
  match s with
  | inr err => Ret (Some err, 0, None)
  | inl s =>
      '(err, tempfile) <- relay s clientRequest;;
      Ret (err, octets_read s clientRequest err, tempfile)
  end.

(** [internal/gitaly/smarthttp.go:95-139 SmartHTTPClient.UploadPack] *)
Definition UploadPack (client : nat) (repo : Gitaly.Repository) (clientRequest : body)
    (gitConfigOptions : list string) (gitProtocol : string)
    (relay : rpc_session → body → prog (option gerr)) : prog (option gerr) :=
  let rpcRequest := PMsg [("repository", repository repo);
                          ("git_config_options", PList gitConfigOptions);
                          ("git_protocol", PText gitProtocol)] in
  s <- call (Bidi_ client "SmartHTTPService/PostUploadPack" rpcRequest clientRequest);;
  match s with
  | inr err => Ret (Some err)
  | inl s => relay s clientRequest
  end.

(** A client is [None] when it could not be made: calling its method panics. *)
Definition nil_dereference {A} : prog A :=
  Raise "runtime error: invalid memory address or nil pointer dereference".

(** [internal/gitaly/blob.go:18-41 BlobClient.SendBlob] *)
Definition SendBlob (client : option nat) (request : pb) : prog (option gerr) :=
  match client with
  | None => nil_dereference
  | Some client =>
      c <- call (Rpc_ client "BlobService/GetBlob" request);;
      match c with
      | inr err => Ret (Some (Wrapf "rpc failed" err))
      | inl c =>
          match rs_size c with
          | Some size => header_set "Content-Length" (itoa size)
          | None => Ret tt
          end;;
          '(_, err) <- io_Copy (rs_body c);;
          Ret (Wrapf "copy rpc data" <$> err)
      end
  end.

(** [internal/gitaly/diff.go:17-35 DiffClient.SendRawDiff] *)
Definition SendRawDiff (client : option nat) (request : pb) : prog (option gerr) :=
  match client with
  | None => nil_dereference
  | Some client =>
      c <- call (Rpc_ client "DiffService/RawDiff" request);;
      match c with
      | inr err => Ret (Some (Wrapf "rpc failed" err))
      | inl c =>
          header_del "Content-Length";;
          '(_, err) <- io_Copy (rs_body c);;
          Ret (Wrapf "copy rpc data" <$> err)
      end
  end.

(** [internal/gitaly/diff.go:37-55 DiffClient.SendRawPatch] *)
Definition SendRawPatch (client : option nat) (request : pb) : prog (option gerr) :=
  match client with
  | None => nil_dereference
  | Some client =>
      c <- call (Rpc_ client "DiffService/RawPatch" request);;
      match c with
      | inr err => Ret (Some (Wrapf "rpc failed" err))
      | inl c =>
          header_del "Content-Length";;
          '(_, err) <- io_Copy (rs_body c);;
          Ret (Wrapf "copy rpc data" <$> err)
      end
  end.

(** [internal/gitaly/repository.go:19-30 RepositoryClient.ArchiveReader] *)
Definition ArchiveReader (client : nat) (request : pb) : prog (result rpc_stream) :=
  c <- call (Rpc_ client "RepositoryService/GetArchive" request);;
  Ret match c with
      | inr err => inr (Wrapf "RepositoryService::GetArchive" err) | inl c => inl c end.

(** [internal/gitaly/repository.go:34-45 RepositoryClient.SnapshotReader] *)
Definition SnapshotReader (client : nat) (request : pb) : prog (result rpc_stream) :=
  c <- call (Rpc_ client "RepositoryService/GetSnapshot" request);;
  Ret match c with
      | inr err => inr (Wrapf "RepositoryService::GetSnapshot" err) | inl c => inl c end.

(** ** Facts *)

Lemma relay_harmless ok s data : harmless ok (relay s data).
Proof.
  unfold relay. apply harmless_bind; [apply io_Copy_harmless|]. intros [n e].
  destruct (_ && _); [exact I|]. apply harmless_bind; [|done].
  destruct e; [done|]. apply harmless_bind; [apply io_Copy_harmless|]. by intros [m x].
Qed.
End GitalyClient.
