(* ===== verification/Git.v ===== *)
(** * Git over HTTP (internal/git)

    Listing references, fetching and pushing: [info/refs], [git-upload-pack] and
    [git-receive-pack].  Gitaly, or a local process, does the work; the handlers relay the
    client's request and the answer, count what goes both ways, and report an error to the
    client only while nothing has been sent. *)

From S2P Require Import Prelude GoString Http GoNet.
From S2P Require Import GoBase64.
From S2P Require Import Helper.
From S2P Require Import Gitaly.
From S2P Require Import Api.
From S2P Require Import Block.
From S2P Require Import GitalyClient.
From stdpp Require Import options.

Module Git.

(** [internal/git/git-http.go:20-24 GitConfigShowAllRefs] *)
Definition GitConfigShowAllRefs : string := "transfer.hideRefs=!refs".

(** [internal/git/git-http.go:34-42 gitConfigOptions] *)
Definition gitConfigOptions (a : Api.Response) : list string :=
  if Api.ShowAllRefs a then [GitConfigShowAllRefs] else [].

(** [internal/git/git-http.go:91-96 getService] *)
Definition getService (r : Request) : string :=
  if String.eqb (Method r) "GET" then Query.Get (RawQuery (URL r)) "service"
  else Path.Base (Path_ (URL r)).

(** [internal/git/git-http.go:98-100 subCommand] *)
Definition subCommand (rpc : string) : string := trim_prefix rpc "git-".

(** [internal/git/git-http.go:86-89 writePostRPCHeader] *)
Definition writePostRPCHeader (action : string) : prog unit :=
  header_set "Content-Type" ("application/x-" +:+ action +:+ "-result");;
  header_set "Cache-Control" "no-cache".

(** ** The counting response writer *)

(** [http.Request.BasicAuth]: the user name. *)
Definition BasicAuth (r : Request) : option string :=
  let auth := Header.Get (Header_ r) "Authorization" in
  if equal_fold (of_bytes (take 6 (to_bytes auth))) "Basic " then
    match StdDecode (drop 6 (to_bytes auth)) with
    | (d, true) => (λ '(user, _), of_bytes user) <$> cut_at ":"%char d
    | (_, false) => None
    end
  else None.

(** [internal/git/responsewriter.go:69-80 getRequestAgent] *)
Definition getRequestAgent (r : Request) : string :=
  match BasicAuth r with
  | None => "anonymous"
  | Some u => if String.eqb u "gitlab-ci-token" then "gitlab-ci" else "logged"
  end.

Definition sessions : string := "gitlab_workhorse_git_http_sessions_active".

(** [internal/git/responsewriter.go:50-55 NewHttpResponseWriter] *)
Definition NewHttpResponseWriter : prog Counting.countingResponseWriter :=
  call (Metric sessions [] 1);;
  Ret Counting.NewCountingResponseWriter.

(** [internal/git/responsewriter.go:57-67 HttpResponseWriter.Log] *)
Definition Log (w : Counting.countingResponseWriter) (r : Request) (writtenIn : Z) : prog unit :=
  let service := getService r in
  let agent := getRequestAgent r in
  let labels := [Method r; itoa (Counting.Status w); service; agent] in
  call (Metric sessions [] (-1));;
  call (Metric "gitlab_workhorse_git_http_requests" labels 1);;
  call (Metric "gitlab_workhorse_git_http_bytes" (labels ++ ["in"]) writtenIn);;
  call (Metric "gitlab_workhorse_git_http_bytes" (labels ++ ["out"]) (Counting.Count w)).

(** A program that writes its response through such a writer, with the logging deferred;
    the result of the program says how much of the request it read. *)
Definition session (r : Request) (p : prog nat) : prog unit :=
  w0 <- NewHttpResponseWriter;;
  '(o, w) <- under Counting.wrapper p w0;;
  Log w r match o with Value n => Z.of_nat n | Panic _ => 0%Z end;;
  _ <- reraise o;; Ret tt.

(** [internal/git/git-http.go:44-62 postRPCHandler] *)
Definition post_rpc (name : string) (handler : Request → Api.Response → prog (option gerr * nat))
    : Api.HandleFunc := λ r ar,
  session r
    ('(err, n) <- handler r ar;;
     match err with
     | Some err =>
         (* a no-op if the handler has written a response *)
         write_header 500;;
         Helper.LogError (Some r) (Some (Wrapf name err))
     | None => Ret tt
     end;;
     Ret n).

(** ** Processes *)

Section process.
(** [os.Getenv]. *)
Context (Getenv : string → string).

(** The environment of a Git command.
    [internal/git/command.go:15-36 gitCommandApi] *)
Definition gitCommandApi (a : option Api.Response) : list string :=
  ["HOME=" +:+ Getenv "HOME"; "PATH=" +:+ Getenv "PATH";
   "LD_LIBRARY_PATH=" +:+ Getenv "LD_LIBRARY_PATH"; "GL_PROTOCOL=http"] ++
  match a with
  | None => []
  | Some a =>
      ["GL_ID=" +:+ Api.GL_ID a; "GL_USERNAME=" +:+ Api.GL_USERNAME a] ++
      if String.eqb (Api.GL_REPOSITORY a) "" then []
      else ["GL_REPOSITORY=" +:+ Api.GL_REPOSITORY a]
  end.

(** [internal/git/git-http.go:71-83 startGitCommand] *)
Definition startGitCommand (a : Api.Response) (stdin : body) (action : string) : prog (result fd) :=
  let args := ["git"; subCommand action; "--stateless-rpc"; Api.RepoPath a] in
  cmd <- call (StartCmd args (gitCommandApi (Some a)) (Some stdin));;
  Ret match cmd with
      | inr err => inr (Wrapf "start" err)
      | inl cmd => inl cmd
      end.

(** ** Pushing

    The answer goes to a temporary file while the request is being read, and to the client
    after that. *)

(** What is written while the request is read: the temporary file, if it could be made,
    and the error.
    [internal/helper/writeafterreader.go:118-131 coupledWriter.tempfileWrite] *)
Definition write_early (d : bytes) : prog (option fd * option gerr) :=
  match d with
  | [] => Ret (None, None)
  | _ =>
      file <- call (TempFile_ "" "gitlab-workhorse-coupledWriter");;
      match file with
      | inr err => Ret (None, Some (Wrapf "coupledWriter" err))
      | inl (f, path) =>
          err <- call (Remove_ path);;
          match err with
          | Some err => call (CloseFd f);; Ret (None, Some (Wrapf "coupledWriter" err))
          | None =>
              '(_, err) <- call (WriteFd f d);;
              Ret (Some f, Wrapf "coupledWriter" <$> err)
          end
      end
  end.

(** [internal/helper/writeafterreader.go:97-116 coupledWriter.Flush] *)
Definition flush (tempfile : option fd) : prog (option gerr) :=
  match tempfile with
  | None => Ret None
  | Some f =>
      deferring (call (CloseFd f))
        (err <- call (SeekFd f);;
         match err with
         | Some err => Ret (Some err)
         | None =>
             b <- call (ReadFd f);;
             '(_, err) <- io_Copy b;;
             Ret err
         end)
  end.

(** The request is read through the reader coupled with the writer. *)
Definition busy_body (b : body) : body :=
  {| b_data := b_data b;
     b_end := if decide (b_end b = EOF) then EOF else Wrapf "busyReader" (b_end b) |}.

(** An exchange whose answer goes through the coupled writer: its error, and the temporary
    file that is still to be flushed.
    [internal/helper/writeafterreader.go:76-95 coupledWriter.Write] *)
Definition coupled (s : rpc_session) (request : body) : prog (option gerr * option fd) :=
  '(tempfile, early) <- write_early (rpc_early s);;
  let sent := GitalyClient.exchange_error s request in
  if rpc_send_first s && bool_decide (is_Some sent) then Ret (sent, tempfile)
  else
    match early, b_data (rpc_answer s) with
    | Some e, _ => Ret (Some e, tempfile)
    | None, [] =>
        Ret (match (read_all (rpc_answer s)).2 with Some e => Some e | None => sent end, tempfile)
    | None, _ =>
        err <- flush tempfile;;
        match err with
        | Some e => Ret (Some (Wrapf "coupledWriter" e), None)
        | None =>
            '(_, err) <- io_Copy (rpc_answer s);;
            Ret (match err with Some e => Some e | None => sent end, None)
        end
    end.

(** [internal/git/receive-pack.go:35-49 handleReceivePackLocally] *)
Definition handleReceivePackLocally (a : Api.Response) (r : Request) (stdin : body)
    (action : string) : prog (option gerr * nat * option fd) :=
  cmd <- startGitCommand a stdin action;;
  match cmd with
  | inr err => Ret (Some (Wrapf "startGitCommand" err), 0, None)
  | inl cmd =>
      deferring (call (CloseFd cmd))
        (s <- call (Duplex_ cmd stdin);;
         '(copied, tempfile) <- coupled s stdin;;
         exit <- call (WaitCmd cmd);;
         match match exit with Some (err, _) => Some err | None => copied end with
         | Some err => Helper.LogError (Some r) (Some (Wrapf "wait for" err))
         | None => Ret tt
         end;;
         (* nil, because the response body has been written to already *)
         Ret (None, GitalyClient.octets_read s stdin copied, tempfile))
  end.

(** [internal/git/receive-pack.go:51-62 handleReceivePackWithGitaly] *)
Definition handleReceivePackWithGitaly (a : Api.Response) (clientRequest : body)
    (gitProtocol : string) : prog (option gerr * nat * option fd) :=
  smarthttp <- GitalyClient.newClient (Api.GitalyServer a);;
  match smarthttp with
  | inr err => Ret (Some (Wrapf "smarthttp.ReceivePack" err), 0, None)
  | inl smarthttp =>
      '(err, n, tempfile) <- GitalyClient.ReceivePack smarthttp (Api.Repository a) (Api.GL_ID a)
        (Api.GL_USERNAME a) (Api.GL_REPOSITORY a) (Api.GitConfigOptions a) clientRequest
        gitProtocol coupled;;
      Ret (Wrapf "smarthttp.ReceivePack" <$> err, n, tempfile)
  end.

(** [internal/git/receive-pack.go:16-33 handleReceivePack] *)
Definition handleReceivePack (r : Request) (a : Api.Response) : prog (option gerr * nat) :=
  let action := getService r in
  writePostRPCHeader action;;
  let cr := busy_body (body_of r) in
  '(err, n, tempfile) <-
    (if String.eqb (Gitaly.Address (Api.GitalyServer a)) "" then
       handleReceivePackLocally a r cr action
     else handleReceivePackWithGitaly a cr (Header.Get (Header_ r) "Git-Protocol"));;
  _ <- flush tempfile;;
  Ret (err, n).

(** ** Fetching *)

(** The request is stored in a file that has no name any more.
    [internal/helper/tempfile.go:9-35 ReadAllTempfile] *)
Definition ReadAllTempfile (r : body) : prog (result fd) :=
  tempfile <- call (TempFile_ "" "gitlab-workhorse-read-all-tempfile");;
  match tempfile with
  | inr err => Ret (inr err)
  | inl (f, path) =>
      err <-
        (err <- call (Remove_ path);;
         match err with
         | Some err => Ret (Some err)
         | None =>
             '(_, err) <- match b_data r with [] => Ret (0, None) | d => call (WriteFd f d) end;;
             match err, (read_all r).2 with
             | Some err, _ | None, Some err => Ret (Some err)
             | None, None => call (SeekFd f)
             end
         end);;
      match err with
      | Some err => call (CloseFd f);; Ret (inr err)
      | None => Ret (inl f)
      end
  end.

(** [internal/git/upload-pack.go:35-46 handleUploadPackWithGitaly] *)
Definition handleUploadPackWithGitaly (a : Api.Response) (clientRequest : body)
    (gitProtocol : string) : prog (option gerr) :=
  smarthttp <- GitalyClient.newClient (Api.GitalyServer a);;
  match smarthttp with
  | inr err => Ret (Some (Wrapf "smarthttp.UploadPack" err))
  | inl smarthttp =>
      err <- GitalyClient.UploadPack smarthttp (Api.Repository a) clientRequest
        (gitConfigOptions a) gitProtocol GitalyClient.relay;;
      Ret (Wrapf "smarthttp.UploadPack" <$> err)
  end.

Definition upload_pack_limit : Z := 10 * 1024 * 1024.

(** [internal/git/upload-pack.go:16-33 handleUploadPack] *)
Definition handleUploadPack (r : Request) (a : Api.Response) : prog (option gerr * nat) :=
  let limited := limit_reader (body_of r) upload_pack_limit in
  let n := length (b_data limited) in
  buffer <- ReadAllTempfile limited;;
  match buffer with
  | inr err => Ret (Some (Wrapf "ReadAllTempfile" err), n)
  | inl buffer =>
      deferring (call (CloseFd buffer))
        (let action := getService r in
         writePostRPCHeader action;;
         clientRequest <- call (ReadFd buffer);;
         err <- handleUploadPackWithGitaly a clientRequest
           (Header.Get (Header_ r) "Git-Protocol");;
         Ret (err, n))
  end.

(** ** Listing references *)

(** [internal/git/info-refs.go:42-58 handleGetInfoRefsWithGitaly] *)
Definition handleGetInfoRefsWithGitaly (a : Api.Response) (rpc gitProtocol : string)
    : prog (option gerr) :=
  smarthttp <- GitalyClient.newClient (Api.GitalyServer a);;
  match smarthttp with
  | inr err => Ret (Some (Wrapf "GetInfoRefsHandler" err))
  | inl smarthttp =>
      reader <- GitalyClient.InfoRefsResponseReader smarthttp (Api.Repository a) rpc
        (gitConfigOptions a) gitProtocol;;
      match reader with
      | inr err => Ret (Some (Wrapf "GetInfoRefsHandler" err))
      | inl reader =>
          '(_, err) <- io_Copy (rs_body reader);;
          Ret (Wrapf "GetInfoRefsHandler: copy Gitaly response" <$> err)
      end
  end.

(** [internal/git/info-refs.go:18-40 handleGetInfoRefs] *)
Definition handleGetInfoRefs : Api.HandleFunc := λ r a,
  session r
    (let rpc := getService r in
     if negb (String.eqb rpc "git-upload-pack" || String.eqb rpc "git-receive-pack") then
       http_Error "Not Found" 404;; Ret 0
     else
       header_set "Content-Type" ("application/x-" +:+ rpc +:+ "-advertisement");;
       header_set "Cache-Control" "no-cache";;
       let gitProtocol := Header.Get (Header_ r) "Git-Protocol" in
       err <- handleGetInfoRefsWithGitaly a rpc gitProtocol;;
       match err with
       | Some err => Helper.Fail500 r (Some (Wrapf "handleGetInfoRefs" err))
       | None => Ret tt
       end;;
       Ret 0).

(** ** The handlers *)

Section handlers.
Context (PreAuthorizeHandler : Api.HandleFunc → string → Handler).

(** [internal/git/git-http.go:64-68 repoPreAuthorizeHandler] *)
Definition repoPreAuthorizeHandler (handleFunc : Api.HandleFunc) : Handler :=
  PreAuthorizeHandler handleFunc "".

(** [internal/git/git-http.go:44-62 postRPCHandler] *)
Definition postRPCHandler (name : string)
    (handler : Request → Api.Response → prog (option gerr * nat)) : Handler :=
  repoPreAuthorizeHandler (post_rpc name handler).

(** [internal/git/git-http.go:26-28 ReceivePack] *)
Definition ReceivePack : Handler := postRPCHandler "handleReceivePack" handleReceivePack.

(** [internal/git/git-http.go:30-32 UploadPack] *)
Definition UploadPack : Handler := postRPCHandler "handleUploadPack" handleUploadPack.

(** [internal/git/info-refs.go:14-16 GetInfoRefsHandler] *)
Definition GetInfoRefsHandler : Handler := repoPreAuthorizeHandler handleGetInfoRefs.
End handlers.

(** ** Codes and panics *)

Lemma relay_codes s b : codes_ok (GitalyClient.relay s b).
Proof.
  unfold GitalyClient.relay. apply codes_ok_bind; [apply io_Copy_codes|]. intros [n x].
  destruct (_ && _); [exact I|]. apply codes_ok_bind; [|done]. destruct x; [done|].
  apply codes_ok_bind; [apply io_Copy_codes|]. by intros [].
Qed.

(** Goes through a program whose status codes are known. *)
Ltac codes_tac :=
  repeat first
    [ progress cbn [codes_ok call header_get header_set header_del header_put write_header write]
    | match goal with
      | |- codes_ok (io_Copy _) => apply io_Copy_codes
      | |- codes_ok (GitalyClient.relay _ _) => apply relay_codes
      | |- codes_ok (Helper.LogError _ _) => apply Helper.LogError_codes
      | |- codes_ok (Helper.Fail500 _ _) => apply Helper.Fail500_codes
      | |- codes_ok (deferring _ _) => apply codes_ok_deferring
      | |- codes_ok (bind _ _) => apply codes_ok_bind
      | |- codes_ok (match ?x with _ => _ end) => destruct x
      | |- codes_ok (let '(_, _) := ?x in _) => destruct x
      | |- _ ∧ _ => split
      | |- ∀ _, _ => intros ?
      | |- True => exact I
      | |- (_ : Z) ≠ _ => done
      end ].

(** ** Open files and processes *)

Section files.
Context {V : Type} (E : env V) (fds : V → gset fd) {HE : FdEnv E fds}.
#[local] Set Default Proof Using "Type*".

(** At most one more file is open: [t]. *)
Definition one_more (before : gset fd) (t : option fd) (e : V) : Prop :=
  match t with
  | Some f => f ∉ before ∧ fds e = {[f]} ∪ before
  | None => fds e = before
  end.

Lemma one_more_eq before t e e' : fds e' = fds e → one_more before t e → one_more before t e'.
Proof using Type. unfold one_more. by intros ->. Qed.

(** Opening a temporary file and removing its name. *)
Lemma write_early_fds d w e :
  ∃ t err w' e', run E (write_early d) w e = (Value (t, err), w', e') ∧ one_more (fds e) t e'.
Proof.
  unfold write_early. destruct d as [|c d]; [by eexists _, _, _, _|].
  remember (c :: d) as data. clear Heqdata c d. rewrite run_bind. cbn [run call].
  pose proof (fd_opened E fds _ (TempFile_ "" "gitlab-workhorse-coupledWriter") e eq_refl) as Ho.
  cbn [opened] in Ho.
  destruct (E _ (TempFile_ "" "gitlab-workhorse-coupledWriter") e) as [[[f path]|x] e1]; cbn in Ho.
  2:{ eexists _, _, _, _. split; [reflexivity|done]. }
  destruct Ho as [Hf He]. rewrite run_bind. cbn [run call].
  pose proof (fd_other E fds (Remove_ path) e1 HE eq_refl) as Hr.
  destruct (E _ (Remove_ path) e1) as [[x|] e2]; cbn in Hr.
  - rewrite run_bind. cbn [run call]. pose proof (fd_close E fds f e2) as Hc.
    destruct (E _ (CloseFd f) e2) as [[] e3]. cbn in Hc.
    eexists _, _, _, _. split; [reflexivity|]. cbn. rewrite Hc, Hr, He. clear -Hf. set_solver.
  - rewrite run_bind. cbn [run call].
    pose proof (fd_other E fds (WriteFd f data) e2 HE eq_refl) as Hw.
    destruct (E _ (WriteFd f data) e2) as [[n x] e3]. cbn in Hw.
    eexists _, _, _, _. split; [reflexivity|]. cbn. by rewrite Hw, Hr.
Qed.

Lemma flush_fds t before w e :
  one_more before t e → fds (run E (flush t) w e).2 = before.
Proof.
  destruct t as [f|]; cbn [one_more flush]; [|done]. intros [Hf He].
  rewrite closes_deferring; [rewrite He; clear -Hf; set_solver|done| |rewrite He; set_solver].
  apply closes_no_files; [done|]. harmless_tac; apply io_Copy_harmless.
Qed.

Lemma flush_calm t : never_panics (flush t).
Proof using Type.
  destruct t as [f|]; [|exact I]. apply never_panics_deferring; [by intros []|].
  calm_tac; apply io_Copy_calm.
Qed.

Lemma coupled_fds s request w e :
  ∃ err t w' e', run E (coupled s request) w e = (Value (err, t), w', e') ∧ one_more (fds e) t e'.
Proof.
  unfold coupled. rewrite run_bind.
  destruct (write_early_fds (rpc_early s) w e) as (t & early & w1 & e1 & -> & H1). cbv zeta iota.
  destruct (_ && _); [by eexists _, _, _, _|].
  destruct early as [x|]; [by eexists _, _, _, _|].
  destruct (b_data (rpc_answer s)) as [|c d]; [by eexists _, _, _, _|].
  rewrite run_bind. pose proof (flush_fds t (fds e) w1 e1 H1) as Hf.
  destruct (never_panics_run E (flush t) w1 e1 (flush_calm t)) as (x & w2 & e2 & Hr).
  rewrite Hr in Hf |- *. cbn in Hf. destruct x as [x|]; [by eexists _, _, _, _|].
  rewrite run_bind.
  assert (keeps E fds (io_Copy (rpc_answer s))) as Hk
    by (apply closes_no_files; [done|apply io_Copy_harmless]).
  specialize (Hk w2 e2).
  destruct (never_panics_run E (io_Copy (rpc_answer s)) w2 e2 (io_Copy_calm _)) as ([n y] & w3 & e3 & Hc).
  rewrite Hc in Hk |- *. cbn in Hk. eexists _, _, _, _. split; [reflexivity|]. cbn. congruence.
Qed.

Lemma startGitCommand_opens a stdin action r w :
  let '(o, _, w') := run E (startGitCommand a stdin action) r w in
  match o with
  | Value (inl f) => f ∉ fds w ∧ fds w' = {[f]} ∪ fds w
  | _ => fds w' = fds w
  end.
Proof.
  unfold startGitCommand. rewrite run_bind. cbn [run call].
  match goal with |- context [E _ ?x w] => pose proof (fd_opened E fds _ x w eq_refl) as Ho;
    cbn [opened] in Ho; destruct (E _ x w) as [[f|x0] w1] end; done.
Qed.

Lemma handleReceivePackLocally_fds a r stdin action w e :
  let '(o, _, e') := run E (handleReceivePackLocally a r stdin action) w e in
  match o with
  | Value (_, _, t) => one_more (fds e) t e'
  | Panic _ => fds e' = fds e
  end.
Proof.
  unfold handleReceivePackLocally. rewrite run_bind.
  pose proof (startGitCommand_opens a stdin action w e) as Hs.
  destruct (run E (startGitCommand a stdin action) w e) as [[[[cmd|x]|m] w1] e1]; [|done..].
  destruct Hs as [Hf He]. rewrite run_deferring, run_bind. cbn [run call].
  pose proof (fd_other E fds (Duplex_ cmd stdin) e1 HE eq_refl) as Hd.
  destruct (E _ (Duplex_ cmd stdin) e1) as [s e2]. cbn in Hd. rewrite run_bind.
  destruct (coupled_fds s stdin w1 e2) as (copied & t & w3 & e3 & -> & H3). cbv iota beta.
  rewrite run_bind. cbn [run call].
  pose proof (fd_other E fds (WaitCmd cmd) e3 HE eq_refl) as Hw.
  destruct (E _ (WaitCmd cmd) e3) as [ex e4]. cbn in Hw. rewrite run_bind.
  match goal with |- context [run E ?p w3 e4] => assert (keeps E fds p) as Hk; [|assert (never_panics p) as Hc] end.
  { apply closes_no_files; [done|].
    destruct ex as [[y z]|]; [|destruct copied]; try done; by apply Helper.LogError_harmless. }
  { destruct ex as [[y z]|]; [|destruct copied]; try done; apply Helper.LogError_calm. }
  specialize (Hk w3 e4). destruct (never_panics_run E _ w3 e4 Hc) as ([] & w5 & e5 & Hr).
  rewrite Hr in Hk |- *. cbn [snd] in Hk. cbn [run].
  pose proof (fd_close E fds cmd e5) as Hcl. destruct (E _ (CloseFd cmd) e5) as [[] e6]. cbn in Hcl.
  revert H3. rewrite Hd, He. clear -Hf Hcl Hk Hw. unfold one_more. rewrite Hcl, Hk, Hw.
  destruct t as [f|]; [intros [H1 ->]; split; set_solver|intros ->; set_solver].
Qed.

Lemma handleReceivePackWithGitaly_fds a request proto w e :
  let '(o, _, e') := run E (handleReceivePackWithGitaly a request proto) w e in
  match o with
  | Value (_, _, t) => one_more (fds e) t e'
  | Panic _ => fds e' = fds e
  end.
Proof.
  unfold handleReceivePackWithGitaly, GitalyClient.newClient. rewrite run_bind. cbn [run call].
  match goal with |- context [E _ ?x e] => pose proof (fd_other E fds x e HE eq_refl) as Hd;
    destruct (E _ x e) as [[cn|x0] e1] end; cbn in Hd; [|done].
  rewrite run_bind. unfold GitalyClient.ReceivePack. rewrite run_bind. cbn [run call].
  match goal with |- context [E _ ?x e1] => pose proof (fd_other E fds x e1 HE eq_refl) as Hb;
    destruct (E _ x e1) as [[s|x0] e2] end; cbn in Hb; [|by cbn; rewrite Hb].
  rewrite run_bind. destruct (coupled_fds s request w e2) as (err & t & w3 & e3 & -> & H3).
  cbn. by rewrite Hb, Hd in H3.
Qed.

Lemma handleReceivePack_closes r a : keeps E fds (handleReceivePack r a).
Proof.
  intros w e. unfold handleReceivePack. rewrite run_bind. cbn [run writePostRPCHeader bind header_set].
  rewrite run_bind. set (w1 := resp_put _ _ _).
  match goal with |- context [run E ?p w1 e] =>
    assert (let '(o, _, e') := run E p w1 e in
      match o with Value (_, _, t) => one_more (fds e) t e' | Panic _ => fds e' = fds e end) as H end.
  { destruct (String.eqb _ ""); [apply handleReceivePackLocally_fds|apply handleReceivePackWithGitaly_fds]. }
  destruct (run E _ w1 e) as [[[[[err n] t]|m] w2] e2]; [|done].
  rewrite run_bind. pose proof (flush_fds t (fds e) w2 e2 H) as Hf.
  by destruct (run E (flush t) w2 e2) as [[[x|m] w3] e3].
Qed.

Lemma ReadAllTempfile_fds d w e :
  let '(o, _, e') := run E (ReadAllTempfile d) w e in
  match o with
  | Value (inl f) => f ∉ fds e ∧ fds e' = {[f]} ∪ fds e
  | _ => fds e' = fds e
  end.
Proof.
  unfold ReadAllTempfile. rewrite run_bind. cbn [run call].
  match goal with |- context [E _ ?x e] => pose proof (fd_opened E fds _ x e eq_refl) as Ho;
    cbn [opened] in Ho; destruct (E _ x e) as [[[f path]|x0] e1] end; cbn in Ho; [|done].
  destruct Ho as [Hf He]. rewrite run_bind.
  match goal with |- context [run E ?p w e1] => assert (keeps E fds p) as Hk; [|assert (never_panics p) as Hc] end.
  { apply closes_no_files; [done|]. harmless_tac. }
  { calm_tac. }
  specialize (Hk w e1). destruct (never_panics_run E _ w e1 Hc) as (err & w2 & e2 & Hr).
  rewrite Hr in Hk |- *. cbn [snd] in Hk. destruct err as [x|]; [|cbn; by rewrite Hk].
  rewrite run_bind. cbn [run call]. pose proof (fd_close E fds f e2) as Hcl.
  destruct (E _ (CloseFd f) e2) as [[] e3]. cbn in Hcl |- *. rewrite Hcl, Hk, He.
  clear -Hf. set_solver.
Qed.

Lemma handleUploadPack_closes r a : keeps E fds (handleUploadPack r a).
Proof.
  intros w e. unfold handleUploadPack. cbv zeta. rewrite run_bind.
  pose proof (ReadAllTempfile_fds (limit_reader (body_of r) upload_pack_limit) w e) as H.
  destruct (run E (ReadAllTempfile _) w e) as [[[[f|x]|m] w1] e1]; [|done..].
  destruct H as [Hf He]. rewrite closes_deferring; [rewrite He; clear -Hf; set_solver|done| |rewrite He; set_solver].
  apply closes_no_files; [done|].
  unfold handleUploadPackWithGitaly, GitalyClient.newClient, GitalyClient.UploadPack, writePostRPCHeader.
  harmless_tac; apply io_Copy_harmless.
Qed.

End files.

(** ** What the client and the metrics see *)

(** A session keeps what its program keeps, if counting sessions does not change it. *)
Lemma session_keeps {V T} (E : env V) (obs : V → T) r (p : prog nat) :
  (∀ n l k e, obs (E _ (Metric n l k) e).2 = obs e) →
  keeps E obs p → codes_ok p → keeps E obs (session r p).
Proof.
  intros Hm Hp Hc. unfold session, NewHttpResponseWriter. intros w e. cbn [bind call run].
  pose proof (Hm sessions [] 1%Z e) as H1. destruct (E _ (Metric sessions [] 1) e) as [[] e1].
  cbn in H1. rewrite run_bind.
  destruct (Counting.under_keeps E obs p w e1 Hp Hc) as (o & c & w2 & e2 & -> & Hu).
  rewrite <- H1, <- Hu. cbv iota beta. unfold Log. cbn [bind call run].
  repeat match goal with |- context [E unit (Metric ?n ?l ?k) ?e] =>
    let H := fresh in pose proof (Hm n l k e) as H;
    destruct (E unit (Metric n l k) e) as [[] ?]; cbn [snd] in H; rewrite <- H; clear H end.
  by destruct o.
Qed.

(** The gauge of sessions comes back to where it was. *)
Lemma session_gauge {V} (E : env V) (gauge : V → Z) r (p : prog nat) :
  (∀ d e, gauge (E _ (Metric sessions [] d) e).2 = (gauge e + d)%Z) →
  (∀ n l d e, n ≠ sessions → gauge (E _ (Metric n l d) e).2 = gauge e) →
  keeps E gauge p → codes_ok p → keeps E gauge (session r p).
Proof.
  intros Hg Hm Hp Hc. unfold session, NewHttpResponseWriter. intros w e. cbn [bind call run].
  pose proof (Hg 1%Z e) as H1. destruct (E _ (Metric sessions [] 1) e) as [[] e1].
  cbn in H1. rewrite run_bind.
  destruct (Counting.under_keeps E gauge p w e1 Hp Hc) as (o & c & w2 & e2 & -> & Hu).
  cbv iota beta. unfold Log. cbn [bind call run].
  pose proof (Hg (-1)%Z e2) as H2. destruct (E _ (Metric sessions [] (-1)) e2) as [[] e3].
  cbn [snd] in H2. assert (gauge e3 = gauge e) as <- by lia.
  repeat match goal with |- context [E unit (Metric ?n ?l ?k) ?e] =>
    let H := fresh in pose proof (Hm n l k e ltac:(done)) as H;
    destruct (E unit (Metric n l k) e) as [[] ?]; cbn [snd] in H; rewrite <- H; clear H end.
  by destruct o.
Qed.

(** The response of a session is that of its program, with no header sent twice, and the
    log has its status and sizes. *)
Lemma session_run {V} (E : env V) (r : Request) (p : prog nat) (w : resp) (e : V) o w0 e1 :
  r_status w = None → codes_ok p → run E p w (E _ (Metric sessions [] 1) e).2 = (o, w0, e1) →
  let c := {| Counting.status := default 0%Z (r_status w0);
              Counting.count := (Z.of_nat (length (r_body w0)) - Z.of_nat (length (r_body w)))%Z |} in
  let n := match o with Value n => Z.of_nat n | Panic _ => 0%Z end in
  ∃ w', run E (session r p) w e =
      (match o with Value _ => Value tt | Panic m => Panic m end, w', (run E (Log c r n) w0 e1).2) ∧
    w' ≡ w0 ∧ r_superfluous w' = r_superfluous w.
Proof.
  intros Hw Hp Ep. cbv zeta. destruct (E _ (Metric sessions [] 1) e) as [[] e0] eqn:Em. cbn [snd] in Ep.
  set (c0 := Counting.NewCountingResponseWriter). set (n0 := Z.of_nat (length (r_body w))).
  destruct (under_transparent E Counting.wrapper (Counting.accurate n0) (λ _, false) p c0 w w e0)
    as (o' & c & w' & e' & H & [|(_ & (Hst & Hnz & Hn) & w0' & H0 & Heq)]);
    [apply _|done|unfold Counting.accurate; rewrite Hw; cbn; split_and!; [done|done|lia]|done|done|done|].
  rewrite Ep in H0. injection H0 as <- <- <-. exists w'. split_and!; [|done|].
  - unfold session, NewHttpResponseWriter. rewrite run_bind. cbn [bind call run]. rewrite Em.
    rewrite run_bind. fold c0. rewrite H. cbv iota beta.
    assert (c = {| Counting.status := default 0%Z (r_status w0);
                   Counting.count := (Z.of_nat (length (r_body w0)) - n0)%Z |}) as ->.
    { destruct c as [st k], Heq as (_ & Es & _ & Eb & _). cbn in *. by rewrite Hst, Hn, Es, Eb. }
    rewrite run_bind.
    set (c := {| Counting.status := _ |}).
    assert (∀ n w, run E (Log c r n) w e1 = (Value tt, w, (run E (Log c r n) w0 e1).2)) as HL.
    { intros n w2. unfold Log. cbn [run call bind]. by repeat (destruct (E unit _ _) as [[] ?]). }
    rewrite HL. by destruct o.
  - pose proof (wp_run any_answer E (under Counting.wrapper p c0) _ w e0 ltac:(done)
      (under_maintains any_answer Counting.wrapper _ p (Counting.sends_once any_answer (r_superfluous w))
         Hp c0 w ltac:(split; [by rewrite Hw; intros []|done]))) as Hm.
    rewrite H in Hm. by destruct Hm.
Qed.

(** The response of a handler's session: what it sent, and a 500 after an error if it had
    sent nothing. *)
Lemma post_rpc_run {V} (E : env V) name (handler : Request → Api.Response → prog (option gerr * nat))
    r a w w0 (e e1 : V) err n :
  r_status w = None → codes_ok (handler r a) →
  run E (handler r a) w (E _ (Metric sessions [] 1) e).2 = (Value (err, n), w0, e1) →
  ∃ w' e', run E (post_rpc name handler r a) w e = (Value tt, w', e') ∧
    w' ≡ (match err with Some _ => resp_header 500 w0 | None => w0 end) ∧
    r_superfluous w' = r_superfluous w.
Proof.
  intros Hfresh Hcodes Hrun. set (w1 := match err with Some _ => _ | None => _ end).
  assert (∃ e2, run E match err with
     | Some err => write_header 500;; Helper.LogError (Some r) (Some (Wrapf name err))
     | None => Ret tt end w0 e1 = (Value tt, w1, e2)) as [e2 Hl].
  { destruct err as [err|]; [|by exists e1].
    destruct (Helper.LogError_run E (Some r) (Some (Wrapf name err)) w1 e1) as [e2 Hl]. by exists e2. }
  destruct (session_run E r
    ('(err, n) <- handler r a;;
     match err with
     | Some err => write_header 500;; Helper.LogError (Some r) (Some (Wrapf name err))
     | None => Ret tt
     end;;
     Ret n) w e (Value n) w1 e2) as (w' & Hs & Heq & Hsup); [done| | |].
  - apply codes_ok_bind; [done|]. intros [[x|] k]; codes_tac.
  - by rewrite run_bind, Hrun, run_bind, Hl.
  - eexists w', _. by split; [exact Hs|].
Qed.

(** C27: an error of a handler becomes a 500 if the handler had sent nothing yet; otherwise
    the response is exactly what the handler sent, and no header is sent after it. *)
Theorem post_rpc_reports {V} (E : env V) (name : string)
    (handler : Request → Api.Response → prog (option gerr * nat)) (r : Request)
    (a : Api.Response) (w w0 : resp) (e e1 : V) (err : gerr) (n : nat)
    (Hfresh : r_status w = None) (Hcodes : codes_ok (handler r a))
    (Hrun : run E (handler r a) w (E _ (Metric sessions [] 1) e).2 = (Value (Some err, n), w0, e1)) :
  ∃ w' e', run E (post_rpc name handler r a) w e = (Value tt, w', e') ∧
    r_superfluous w' = r_superfluous w ∧ r_body w' = r_body w0 ∧
    match r_status w0 with
    | Some s => r_status w' = Some s ∧ r_sent w' = r_sent w0
    | None => r_status w' = Some 500%Z ∧ r_sent w' = r_hdr w0
    end.
Proof.
  destruct (post_rpc_run E name handler r a w w0 e e1 (Some err) n Hfresh Hcodes Hrun)
    as (w' & e' & Hs & (Hh & Hst & Hsent & Hb & _) & Hsup).
  exists w', e'. split; [exact Hs|]. split; [done|]. unfold resp_header in *.
  destruct (r_status w0) as [s|] eqn:Es; cbn in *; rewrite Hb, Hst, Hsent; by split_and!.
Qed.

(** Whatever a handler does and however it ends, the gauge of active sessions comes
    back to where it was. *)
Theorem sessions_balanced {V} (E : env V) (gauge : V → Z) (name : string)
    (handler : Request → Api.Response → prog (option gerr * nat)) (r : Request) (a : Api.Response)
    (Hgauge : ∀ d e, gauge (E _ (Metric sessions [] d) e).2 = (gauge e + d)%Z)
    (Hother : ∀ n l d e, n ≠ sessions → gauge (E _ (Metric n l d) e).2 = gauge e)
    (Hlog : ∀ r x, keeps E gauge (Helper.LogError r x))
    (Hhandler : keeps E gauge (handler r a)) (Hcodes : codes_ok (handler r a)) :
  keeps E gauge (post_rpc name handler r a).
Proof.
  apply session_gauge; [done|done| |].
  - apply keeps_bind; [done|]. intros [err n]. apply keeps_bind; [|done].
    destruct err; [|done]. apply keeps_bind; [done|]. intros _. apply Hlog.
  - apply codes_ok_bind; [done|]. intros [[x|] k]; codes_tac.
Qed.

Lemma handleReceivePack_codes r a : codes_ok (handleReceivePack r a).
Proof.
  unfold handleReceivePack, handleReceivePackLocally, handleReceivePackWithGitaly, coupled,
    write_early, flush, startGitCommand, writePostRPCHeader, GitalyClient.newClient,
    GitalyClient.ReceivePack. codes_tac.
Qed.

Lemma handleUploadPack_codes r a : codes_ok (handleUploadPack r a).
Proof.
  unfold handleUploadPack, ReadAllTempfile, handleUploadPackWithGitaly, writePostRPCHeader,
    GitalyClient.newClient, GitalyClient.UploadPack. codes_tac.
Qed.

Lemma info_refs_codes a rpc proto : codes_ok (handleGetInfoRefsWithGitaly a rpc proto).
Proof.
  unfold handleGetInfoRefsWithGitaly, GitalyClient.newClient, GitalyClient.InfoRefsResponseReader.
  codes_tac.
Qed.

Lemma info_refs_harmless (ok : ∀ X, ext X → Prop) a rpc proto :
  (∀ s t, ok _ (Dial_ s t)) → (∀ c m q, ok _ (Rpc_ c m q)) →
  harmless ok (handleGetInfoRefsWithGitaly a rpc proto).
Proof.
  intros H1 H2. unfold handleGetInfoRefsWithGitaly, GitalyClient.newClient.
  apply harmless_bind; [by split|]. intros [c|x]; [|exact I].
  apply harmless_bind.
  { unfold GitalyClient.InfoRefsResponseReader. do 2 (destruct (String.eqb _ _); [by split|]). exact I. }
  intros [s|x]; [|exact I]. apply harmless_bind; [apply io_Copy_harmless|]. by intros [n y].
Qed.


(** The call for a service that has one. *)
Lemma info_refs_call {V} (E : env V) gitaly repo rpc opts proto w1 (e1 : V) :
  String.eqb rpc "git-upload-pack" || String.eqb rpc "git-receive-pack" = true →
  run E (GitalyClient.InfoRefsResponseReader gitaly repo rpc opts proto) w1 e1 =
    let '(x, e2) := E _ (Rpc_ gitaly
      (if String.eqb rpc "git-upload-pack"
       then "SmartHTTPService/InfoRefsUploadPack" else "SmartHTTPService/InfoRefsReceivePack")
      (PMsg [("repository", GitalyClient.repository repo); ("git_config_options", PList opts);
             ("git_protocol", PText proto)])) e1 in (Value x, w1, e2).
Proof.
  unfold GitalyClient.InfoRefsResponseReader. intros Hs. apply orb_true_iff in Hs.
  destruct (String.eqb rpc "git-upload-pack"); [done|]. destruct Hs as [Hs|Hs]; [done|]. by rewrite Hs.
Qed.

(** A listing of references is what Gitaly answers for the repository that Rails
    named, with the content type of the service and not to be cached; any other service is
    not found, and Gitaly is not asked. *)
Theorem info_refs_relays {V} (E : env V) (r : Request) (a : Api.Response) (w : resp) (e : V)
    (d : bytes) (gitaly : nat) (e1 e2 : V) (size : option Z)
    (Hfresh : r_status w = None) (Hroom : r_room w = None) (Hd : d ≠ [])
    (Hservice : getService r ∈ ["git-upload-pack"; "git-receive-pack"])
    (Hdial : E _ (Dial_ (Gitaly.Address (Api.GitalyServer a)) (Gitaly.Token (Api.GitalyServer a)))
               (E _ (Metric sessions [] 1) e).2 = (inl gitaly, e1))
    (Hrpc : E _ (Rpc_ gitaly
               (if String.eqb (getService r) "git-upload-pack"
                then "SmartHTTPService/InfoRefsUploadPack" else "SmartHTTPService/InfoRefsReceivePack")
               (PMsg [("repository", GitalyClient.repository (Api.Repository a));
                      ("git_config_options", PList (gitConfigOptions a));
                      ("git_protocol", PText (Header.Get (Header_ r) "Git-Protocol"))])) e1
            = (inl (mk_rpc_stream size (whole d)), e2)) :
  ∃ w' e', run E (handleGetInfoRefs r a) w e = (Value tt, w', e') ∧
    r_status w' = Some 200%Z ∧ r_body w' = r_body w ++ d ∧
    r_sent w' = <["Cache-Control" := ["no-cache"]]>
      (<["Content-Type" := ["application/x-" +:+ getService r +:+ "-advertisement"]]> (r_hdr w)).
Proof.
  set (w1 := resp_put "Cache-Control" (Some ["no-cache"])
    (resp_put "Content-Type" (Some ["application/x-" +:+ getService r +:+ "-advertisement"]) w)).
  assert (String.eqb (getService r) "git-upload-pack" || String.eqb (getService r) "git-receive-pack"
    = true) as Hs.
  { apply elem_of_cons in Hservice as [->|Hs]; [done|].
    apply list_elem_of_singleton in Hs as ->. apply orb_true_r. }
  destruct (session_run E r
    (let rpc := getService r in
     if negb (String.eqb rpc "git-upload-pack" || String.eqb rpc "git-receive-pack") then
       http_Error "Not Found" 404;; Ret 0
     else
       header_set "Content-Type" ("application/x-" +:+ rpc +:+ "-advertisement");;
       header_set "Cache-Control" "no-cache";;
       let gitProtocol := Header.Get (Header_ r) "Git-Protocol" in
       err <- handleGetInfoRefsWithGitaly a rpc gitProtocol;;
       match err with
       | Some err => Helper.Fail500 r (Some (Wrapf "handleGetInfoRefs" err))
       | None => Ret tt
       end;;
       Ret 0) w e (Value 0) (resp_append d (resp_header 200 w1)) e2) as (w' & H & Heq & _); [done| | |].
  - cbv zeta. destruct (negb _); [unfold http_Error; codes_tac|]. codes_tac; apply info_refs_codes.
  - cbv zeta. rewrite Hs. cbn [negb run bind header_set]. rewrite run_bind. fold w1.
    unfold handleGetInfoRefsWithGitaly, GitalyClient.newClient. rewrite run_bind. cbn [run call].
    rewrite Hdial, run_bind, info_refs_call by done.
    rewrite Hrpc, run_bind. cbn [rs_body].
    rewrite run_io_Copy_fresh by done. done.
  - eexists w', _. split; [exact H|]. destruct Heq as (_ & -> & -> & -> & _). cbn.
    unfold resp_header. cbn. rewrite Hfresh. done.
Qed.
End process.

(** ** Examples *)

(** Gitaly answers every call with these octets. *)
Definition gitaly_env (d : bytes) : env (gset fd) := λ X x w,
  match x in ext X return X * gset fd with
  | Dial_ _ _ => (inl 0, w)
  | Rpc_ _ _ _ => (inl (mk_rpc_stream None (whole d)), w)
  | Bidi_ _ _ _ _ => (inl (mk_rpc_session [] (whole d) None true 0), w)
  | TempFile_ _ _ => (inl (fresh w, "/tmp/x"), {[fresh w]} ∪ w)
  | StartCmd _ _ _ => (inl (fresh w), {[fresh w]} ∪ w)
  | x => HelperProps.file_env "/f" [] _ x w
  end.

#[global] Instance gitaly_env_fds d : FdEnv (gitaly_env d) id.
Proof.
  split; [|done]. intros X x w Hx.
  destruct x; cbn; try done; try (split; [apply is_fresh|done]).
  destruct (String.eqb _ _); [|done]. by split; [apply is_fresh|].
Qed.

Definition fetch_request : Request :=
  {| Method := "GET";
     URL := {| Scheme := ""; UHost := ""; Path_ := "/a.git/info/refs"; RawQuery := "service=git-upload-pack" |};
     ProtoMajor := 1; ProtoMinor := 1; Header_ := ∅; Body := None; ContentLength := 0;
     Host := ""; RequestURI := ""; RemoteAddr := "" |}.

Lemma info_refs_relays_witness :
  ∃ w' e', run (gitaly_env (to_bytes "refs")) (handleGetInfoRefs fetch_request Api.granted)
             (new_resp ∅) ∅ = (Value tt, w', e') ∧
    r_status w' = Some 200%Z ∧ r_body w' = to_bytes "refs" ∧
    r_sent w' = <["Cache-Control" := ["no-cache"]]>
      (<["Content-Type" := ["application/x-git-upload-pack-advertisement"]]> ∅).
Proof.
  refine (info_refs_relays (gitaly_env (to_bytes "refs")) fetch_request Api.granted (new_resp ∅) ∅
    (to_bytes "refs") 0 ∅ ∅ None _ _ _ _ _ _); try reflexivity; [discriminate|left].
Defined.

Example dumb_protocol_not_found :
  r_status (run (gitaly_env []) (handleGetInfoRefs
     (with_body Block.request None 0) Api.granted) (new_resp ∅) ∅).1.2 = Some 404%Z.
Proof. vm_compute. reflexivity. Qed.

(** A handler that fails after it has sent something. *)
Definition half_sent (r : Request) (a : Api.Response) : prog (option gerr * nat) :=
  _ <- write (to_bytes "half");; Ret (Some EOF, 0).

Lemma post_rpc_reports_witness :
  ∃ w' e', run (gitaly_env []) (post_rpc "x" half_sent Block.request Api.granted) (new_resp ∅) ∅
             = (Value tt, w', e') ∧
    r_superfluous w' = 0 ∧ r_body w' = to_bytes "half" ∧ r_status w' = Some 200%Z ∧ r_sent w' = ∅.
Proof.
  refine (post_rpc_reports (gitaly_env []) "x" half_sent Block.request Api.granted (new_resp ∅)
    (run (gitaly_env []) (half_sent Block.request Api.granted) (new_resp ∅) ∅).1.2 ∅ ∅ EOF 0 _ _ _).
  - reflexivity.
  - by intros x.
  - reflexivity.
Defined.

Definition is_metric {X} (x : ext X) : bool := match x with Metric _ _ _ => true | _ => false end.
Definition sessions_env : env Z := λ X x g,
  match x in ext X return X * Z with
  | Metric n _ d => (tt, if String.eqb n sessions then (g + d)%Z else g)
  | x => ((HelperProps.quiet_env _ x tt).1, g)
  end.

Lemma sessions_balanced_witness :
  keeps sessions_env id (post_rpc "x" (λ _ _, Raise "handler") Block.request Api.granted).
Proof.
  apply (sessions_balanced sessions_env id).
  - done.
  - intros n l d e Hn. cbn. by rewrite (proj2 (String.eqb_neq n sessions) Hn).
  - intros r x. apply (keeps_harmless sessions_env id (λ _ x, is_metric x = false)).
    + by intros X [] w H.
    + by apply Helper.LogError_harmless.
  - done.
  - done.
Defined.

End Git.
