(* ===== verification/GitSend.v ===== *)
(** * What Rails lets clients download from repositories (internal/git)

    Injecters for blobs, diffs, patches, snapshots and archives: Rails names the object in
    the send-data header, and this program gets it from Gitaly or from a local Git process
    and streams it to the client.  An archive is also stored, under a name of its own, and
    linked into the cache when it is complete.  Decoding JSON and [http.ServeContent] are
    parameters. *)

From S2P Require Import Prelude GoString GoRegexp Http GoNet.
From S2P Require Import Helper.
From S2P Require Import SendData.
From S2P Require Import Gitaly.
From S2P Require Import Api.
From S2P Require Import Block.
From S2P Require Import GitalyClient.
From S2P Require Import Git.
From stdpp Require Import options.

Module GitSend.

(** ** Parameters of the injecters *)

(** [internal/git/blob.go:18-23 blobParams] *)
Record blobParams := {
  bp_RepoPath : string;
  BlobId : string;
  bp_GitalyServer : Gitaly.Server;
  GetBlobRequest : pb;
}.

(** A range of commits; the request for Gitaly is text.
    [internal/git/diff.go:18-24 diffParams] *)
Record diffParams := {
  dp_RepoPath : string;
  ShaFrom : string;
  ShaTo : string;
  dp_GitalyServer : Gitaly.Server;
  RawRequest : string;
}.

(** [internal/git/format-patch.go:18-24 patchParams] *)
Definition patchParams : Type := diffParams.

(** [internal/git/snapshot.go:20-23 snapshotParams] *)
Record snapshotParams := {
  sp_GitalyServer : Gitaly.Server;
  GetSnapshotRequest : string;
}.

(** [internal/git/archive.go:27-35 archiveParams] *)
Record archiveParams := {
  ap_RepoPath : string;
  ArchivePath : string;
  ArchivePrefix : string;
  CommitId : string;
  ap_GitalyServer : Gitaly.Server;
  GitalyRepository : Gitaly.Repository;
  DisableCache : bool;
}.

(** ** Formats of archives *)

(** [pb.GetArchiveRequest_Format]. *)
Inductive Format := ZIP | TAR | TAR_GZ | TAR_BZ2.
#[global] Instance Format_eq_dec : EqDecision Format.
Proof. solve_decision. Defined.
Definition format_number (f : Format) : Z :=
  match f with ZIP => 0 | TAR => 1 | TAR_GZ => 2 | TAR_BZ2 => 3 end.

(** A name that ends with one of these, after a dot. *)
Definition extension (exts : list string) : regexp :=
  {| at_start := false; pattern := Seq (lit ".") (alts (lit <$> exts)); at_end := true |}.

(** [internal/git/archive.go:185-190 patternZip] *)
Definition patternZip : regexp := extension ["zip"].
Definition patternTar : regexp := extension ["tar"].
Definition patternTarGz : regexp := extension ["tar.gz"; "tgz"; "gz"].
Definition patternTarBz2 : regexp := extension ["tar.bz2"; "tbz"; "tbz2"; "tb2"; "bz2"].

(** [internal/git/archive.go:192-211 parseBasename] *)
Definition parseBasename (basename : string) : option Format :=
  if String.eqb basename "archive" then Some TAR_GZ
  else if MatchString patternZip basename then Some ZIP
  else if MatchString patternTar basename then Some TAR
  else if MatchString patternTarGz basename then Some TAR_GZ
  else if MatchString patternTarBz2 basename then Some TAR_BZ2
  else None.

(** The command that compresses, and the format that Git is asked for.
    [internal/git/archivereader.go:15-28 parseArchiveFormat] *)
Definition parseArchiveFormat (format : Format) : option (list string) * string :=
  match format with
  | TAR => (None, "tar")
  | TAR_GZ => (Some ["gzip"; "-c"; "-n"], "tar")
  | TAR_BZ2 => (Some ["bzip2"; "-c"], "tar")
  | ZIP => (None, "zip")
  end.

(** ** Formats of archives, by the end of their names *)

(** The extensions of a format. *)
Definition extensions (f : Format) : list string :=
  match f with
  | ZIP => ["zip"] | TAR => ["tar"] | TAR_GZ => ["tar.gz"; "tgz"; "gz"]
  | TAR_BZ2 => ["tar.bz2"; "tbz"; "tbz2"; "tb2"; "bz2"]
  end.
Definition formats : list Format := [ZIP; TAR; TAR_GZ; TAR_BZ2].

(** [s] ends with a dot and [ext]. *)
Definition ends_with (s ext : string) : Prop := ∃ a, to_bytes s = a ++ "."%char :: to_bytes ext.

Lemma lang_alts_lit exts u : exts ≠ [] → lang (alts (lit <$> exts)) u ↔ ∃ ext, ext ∈ exts ∧ u = to_bytes ext.
Proof.
  induction exts as [|x [|y exts] IH]; intros Hne; [done| |].
  - cbn. rewrite lang_lit. split; [intros ->; exists x; by rewrite list_elem_of_singleton|].
    by intros (e & ->%list_elem_of_singleton & ->).
  - change (alts (lit <$> x :: y :: exts)) with (Alt (lit x) (alts (lit <$> y :: exts))).
    specialize (IH ltac:(done)). split.
    + inversion_clear 1 as [| | |? ? ? Hl|? ? ? Hr| | |].
      * apply lang_lit in Hl as ->. exists x. split; [by left|done].
      * apply IH in Hr as (e & He & ->). exists e. split; [by right|done].
    + intros (e & [->|He]%elem_of_cons & ->).
      * apply lang_alt_l, lang_lit. done.
      * apply lang_alt_r, IH. by exists e.
Qed.

Lemma MatchString_extension exts s :
  exts ≠ [] → MatchString (extension exts) s = true ↔ ∃ ext, ext ∈ exts ∧ ends_with s ext.
Proof.
  intros Hne. rewrite MatchString_spec. cbn [extension at_start at_end pattern]. split.
  - intros (a & u & v & Hs & Hl & _ & Hv). specialize (Hv eq_refl). subst v.
    inversion Hl as [| |? ? u1 u2 H1 H2| | | | |]; subst.
    apply lang_lit in H1 as ->. apply lang_alts_lit in H2 as (e & He & ->); [|done].
    exists e. split; [done|]. exists a. by rewrite Hs, app_nil_r.
  - intros (e & He & a & Hs). exists a, ("."%char :: to_bytes e), []. rewrite app_nil_r.
    split_and!; [done| |done|done]. change ("."%char :: to_bytes e) with (to_bytes "." ++ to_bytes e).
    constructor; [by apply lang_lit|]. apply lang_alts_lit; [done|]. by exists e.
Qed.

(** Of two ends of a string the shorter one is an end of the other. *)
Fixpoint is_end (a b : bytes) : bool :=
  bool_decide (a = b) || match b with [] => false | _ :: b => is_end a b end.

Lemma is_end_app a b : is_end a (b ++ a) = true.
Proof.
  induction b as [|c b IH]; cbn; [destruct a; cbn; by rewrite bool_decide_eq_true_2|].
  by rewrite IH, orb_true_r.
Qed.

Lemma ends_comparable (s a b x y : bytes) : s = a ++ x → s = b ++ y → is_end x y || is_end y x = true.
Proof.
  intros -> H. apply app_eq_app in H as (l & [[-> ->]|[-> ->]]); rewrite is_end_app; [done|].
  by rewrite orb_true_r.
Qed.

(** No extension of a format is the end of one of another. *)
Lemma formats_apart s f g x y :
  x ∈ extensions f → y ∈ extensions g → ends_with s x → ends_with s y → f = g.
Proof.
  intros Hx Hy [a Ha] [b Hb]. pose proof (ends_comparable _ _ _ _ _ Ha Hb) as H.
  destruct f, g; try done; cbn in Hx, Hy;
    repeat (apply elem_of_cons in Hx as [->|Hx]); try (by apply elem_of_nil in Hx);
    repeat (apply elem_of_cons in Hy as [->|Hy]); try (by apply elem_of_nil in Hy);
    by vm_compute in H.
Qed.

Section send.
Context (Getenv : string → string) (Environ : list string).
Context (ServeContent : Request → string → Z → fd → prog unit).
(** [json.Unmarshal] for each kind of parameters, and [jsonpb.UnmarshalString], which
    fills its message as far as it gets. *)
Context (unmarshal_blob : bytes → result blobParams).
Context (unmarshal_diff : bytes → result diffParams).
Context (unmarshal_patch : bytes → result patchParams).
Context (unmarshal_snapshot : bytes → result snapshotParams).
Context (unmarshal_archive : bytes → result archiveParams).
Context (jsonpb_Unmarshal : string → pb * option gerr).

(** ** Processes that write to the client *)

(** [internal/git/command.go:38-40 gitCommand] *)
Definition gitCommand : list string := Git.gitCommandApi Getenv None.

(** The client that a constructor made, or none after an error. *)
Definition client_of {A} (c : result A) : option A :=
  match c with inl c => Some c | inr _ => None end.
Definition report (r : Request) (what : string) (err : option gerr) : prog unit :=
  match err with Some err => Helper.Fail500 r (Some (Wrapf what err)) | None => Ret tt end.
Definition error_of {A} (c : result A) : option gerr :=
  match c with inl _ => None | inr err => Some err end.

(** The standard output of a command goes to the client, after [headers].  Making the pipe
    is part of starting the command. *)
Definition copy_command (r : Request) (args : list string) (what : string) (headers : prog unit)
    : prog unit :=
  cmd <- call (StartCmd args gitCommand None);;
  match cmd with
  | inr err => Helper.Fail500 r (Some (Wrapf (what +:+ ": start") err))
  | inl cmd =>
      deferring (call (CloseFd cmd))
        (headers;;
         stdout <- call (ReadFd cmd);;
         '(_, err) <- io_Copy stdout;;
         match err with
         | Some err => Helper.LogError (Some r) (Some (Wrapf (what +:+ ": copy") err))
         | None =>
             exit <- call (WaitCmd cmd);;
             match exit with
             | Some (err, _) => Helper.LogError (Some r) (Some (Wrapf (what +:+ ": wait for") err))
             | None => Ret tt
             end
         end)
  end.

(** ** Blobs *)

(** An error does not end the handler: it goes on with a nil client.
    [internal/git/blob.go:41-50 handleSendBlobWithGitaly] *)
Definition handleSendBlobWithGitaly (r : Request) (params : blobParams) : prog unit :=
  blobClient <- GitalyClient.newClient (bp_GitalyServer params);;
  report r "blob.GetBlob" (error_of blobClient);;
  err <- GitalyClient.SendBlob (client_of blobClient) (GetBlobRequest params);;
  report r "blob.GetBlob" err.

(** [internal/git/blob.go:52-85 handleSendBlobLocally] *)
Definition handleSendBlobLocally (r : Request) (params : blobParams) : prog unit :=
  call (LogInfo [("blobId", FText (BlobId params)); ("path", FText (Path_ (URL r)))]
          "SendBlob: sending");;
  let git_dir := "--git-dir=" +:+ bp_RepoPath params in
  sizeOutput <- call (Output_ ["git"; git_dir; "cat-file"; "-s"; BlobId params] gitCommand);;
  match sizeOutput with
  | inr err => Helper.Fail500 r (Some (Wrapf "SendBlob: get blob size" err))
  | inl sizeOutput =>
      copy_command r ["git"; git_dir; "cat-file"; "blob"; BlobId params] "SendBlob"
        (header_set "Content-Length" (of_bytes (Mime.trim_space sizeOutput)))
  end.

(** [internal/git/blob.go:27-39 blob.Inject] *)
Definition Inject_blob (r : Request) (sendData : string) : prog unit :=
  match SendData.Unpack unmarshal_blob "git-blob:" sendData with
  | inr err => Helper.Fail500 r (Some (Wrapf "SendBlob: unpack sendData" err))
  | inl params =>
      if negb (String.eqb (Gitaly.Address (bp_GitalyServer params)) "")
      then handleSendBlobWithGitaly r params
      else handleSendBlobLocally r params
  end.

(** ** Diffs and patches *)

(** [internal/git/diff.go:42-59 handleSendDiffWithGitaly] *)
Definition handleSendDiffWithGitaly (r : Request) (params : diffParams) : prog unit :=
  let '(request, err) := jsonpb_Unmarshal (RawRequest params) in
  report r "diff.RawDiff" err;;
  diffClient <- GitalyClient.NewDiffClient (dp_GitalyServer params);;
  report r "diff.RawDiff" (error_of diffClient);;
  err <- GitalyClient.SendRawDiff (client_of diffClient) request;;
  match err with
  | Some err => Helper.LogError (Some r) (Some (Wrapf "diff.RawDiff" err))
  | None => Ret tt
  end.

(** [internal/git/diff.go:62-93 handleSendDiffLocally] *)
Definition handleSendDiffLocally (r : Request) (params : diffParams) : prog unit :=
  call (LogInfo [("shaFrom", FText (ShaFrom params)); ("shaTo", FText (ShaTo params));
                 ("path", FText (Path_ (URL r)))] "SendDiff: sending diff");;
  copy_command r ["git"; "--git-dir=" +:+ dp_RepoPath params; "diff"; ShaFrom params; ShaTo params]
    "SendDiff" (header_del "Content-Length").

(** [internal/git/diff.go:28-40 diff.Inject] *)
Definition Inject_diff (r : Request) (sendData : string) : prog unit :=
  match SendData.Unpack unmarshal_diff "git-diff:" sendData with
  | inr err => Helper.Fail500 r (Some (Wrapf "SendDiff: unpack sendData" err))
  | inl params =>
      if negb (String.eqb (Gitaly.Address (dp_GitalyServer params)) "")
      then handleSendDiffWithGitaly r params
      else handleSendDiffLocally r params
  end.

(** [internal/git/format-patch.go:41-58 handleSendPatchWithGitaly] *)
Definition handleSendPatchWithGitaly (r : Request) (params : patchParams) : prog unit :=
  let '(request, err) := jsonpb_Unmarshal (RawRequest params) in
  report r "diff.RawPatch" err;;
  diffClient <- GitalyClient.NewDiffClient (dp_GitalyServer params);;
  report r "diff.RawPatch" (error_of diffClient);;
  err <- GitalyClient.SendRawPatch (client_of diffClient) request;;
  match err with
  | Some err => Helper.LogError (Some r) (Some (Wrapf "diff.RawPatch" err))
  | None => Ret tt
  end.

(** [internal/git/format-patch.go:61-91 handleSendPatchLocally] *)
Definition handleSendPatchLocally (r : Request) (params : patchParams) : prog unit :=
  call (LogInfo [("shaFrom", FText (ShaFrom params)); ("shaTo", FText (ShaTo params));
                 ("path", FText (Path_ (URL r)))] "SendPatch: sending patch");;
  let gitRange := ShaFrom params +:+ ".." +:+ ShaTo params in
  copy_command r ["git"; "--git-dir=" +:+ dp_RepoPath params; "format-patch"; gitRange; "--stdout"]
    "SendPatch" (header_del "Content-Length").

(** [internal/git/format-patch.go:28-39 patch.Inject] *)
Definition Inject_patch (r : Request) (sendData : string) : prog unit :=
  match SendData.Unpack unmarshal_patch "git-format-patch:" sendData with
  | inr err => Helper.Fail500 r (Some (Wrapf "SendPatch: unpack sendData" err))
  | inl params =>
      if negb (String.eqb (Gitaly.Address (dp_GitalyServer params)) "")
      then handleSendPatchWithGitaly r params
      else handleSendPatchLocally r params
  end.

(** ** Snapshots *)

Definition quoted (s : string) : string := of_bytes ["034"%char] +:+ s +:+ of_bytes ["034"%char].

(** [internal/git/snapshot.go:31-65 snapshot.Inject] *)
Definition Inject_snapshot (r : Request) (sendData : string) : prog unit :=
  match SendData.Unpack unmarshal_snapshot "git-snapshot:" sendData with
  | inr err => Helper.Fail500 r (Some (Wrapf "SendSnapshot: unpack sendData" err))
  | inl params =>
      match jsonpb_Unmarshal (GetSnapshotRequest params) with
      | (_, Some err) =>
          Helper.Fail500 r (Some (Wrapf "SendSnapshot: unmarshal GetSnapshotRequest" err))
      | (request, None) =>
          c <- GitalyClient.newClient (sp_GitalyServer params);;
          match c with
          | inr err => Helper.Fail500 r (Some (Wrapf "SendSnapshot: gitaly.NewRepositoryClient" err))
          | inl c =>
              reader <- GitalyClient.SnapshotReader c request;;
              match reader with
              | inr err => Helper.Fail500 r (Some (Wrapf "SendSnapshot: client.SnapshotReader" err))
              | inl reader =>
                  header_del "Content-Length";;
                  header_set "Content-Disposition" ("attachment; filename=" +:+ quoted "snapshot.tar");;
                  header_set "Content-Type" "application/x-tar";;
                  header_set "Content-Transfer-Encoding" "binary";;
                  header_set "Cache-Control" "private";;
                  write_header 200;;
                  '(_, err) <- io_Copy (rs_body reader);;
                  match err with
                  | Some err =>
                      Helper.LogError (Some r) (Some (Wrapf "SendSnapshot: copy gitaly output" err))
                  | None => Ret tt
                  end
              end
          end
      end
  end.

(** ** Archives *)

(** What an archive is read from: the processes behind it, its octets, and what is still
    to be waited for at their end. *)
Record reader := { waitCmds : list fd; octets : prog body }.

(** The first error, after waiting for all.
    [internal/git/archivereader.go:49-63 archiveReader.wait] *)
Fixpoint wait (cmds : list fd) : prog (option gerr) :=
  match cmds with
  | [] => Ret None
  | cmd :: cmds =>
      exit <- call (WaitCmd cmd);;
      err <- wait cmds;;
      Ret match exit with Some (e, _) => Some e | None => err end
  end.

(** The compressing command, if there is one, reads what the archiving command writes.
    [internal/git/archivereader.go:65-118 newArchiveReader] *)
Definition newArchiveReader (repoPath : string) (format : Format)
    (archivePrefix commitId : string) : prog (result reader) :=
  let '(compressCmd, formatArg) := parseArchiveFormat format in
  compress <-
    match compressCmd with
    | None => Ret (inl None)
    | Some args =>
        cmd <- call (StartCmd args Environ None);;
        Ret match cmd with inl cmd => inl (Some cmd) | inr err => inr err end
    end;;
  match compress with
  | inr err => Ret (inr (Wrapf "SendArchive: start" err))
  | inl compress =>
      archive <- call (StartCmd ["git"; "--git-dir=" +:+ repoPath; "archive";
        "--format=" +:+ formatArg; "--prefix=" +:+ archivePrefix +:+ "/"; commitId] gitCommand None);;
      match archive with
      | inr err =>
          (* the compressing command is killed at the end of the request *)
          match compress with Some cmd => call (CloseFd cmd) | None => Ret tt end;;
          Ret (inr (Wrapf "SendArchive: start" err))
      | inl archive =>
          Ret (inl {| waitCmds := match compress with Some cmd => [cmd; archive] | None => [archive] end;
                      octets := call (ReadFd (default archive compress)) |})
      end
  end.

(** [internal/git/archive.go:139-153 handleArchiveWithGitaly] *)
Definition handleArchiveWithGitaly (params : archiveParams) (format : Format)
    : prog (result reader) :=
  c <- GitalyClient.newClient (ap_GitalyServer params);;
  match c with
  | inr err => Ret (inr err)
  | inl c =>
      s <- GitalyClient.ArchiveReader c
        (PMsg [("repository", GitalyClient.repository (GitalyRepository params));
               ("commit_id", PText (CommitId params)); ("prefix", PText (ArchivePrefix params));
               ("format", PEnum (format_number format))]);;
      Ret match s with
          | inr err => inr err
          | inl s => inl {| waitCmds := []; octets := Ret (rs_body s) |}
          end
  end.

(** [internal/git/archive.go:155-165 setArchiveHeaders] *)
Definition setArchiveHeaders (format : Format) (archiveFilename : string) : prog unit :=
  header_del "Content-Length";;
  header_set "Content-Disposition" ("attachment; filename=" +:+ quoted archiveFilename);;
  header_set "Content-Type"
    (if decide (format = ZIP) then "application/zip" else "application/octet-stream");;
  header_set "Content-Transfer-Encoding" "binary";;
  header_set "Cache-Control" "private".

(** [internal/git/archive.go:167-172 prepareArchiveTempfile] *)
Definition prepareArchiveTempfile (dir prefix : string) : prog (result (fd * string)) :=
  err <- call (MkdirAll_ dir);;
  match err with
  | Some err => Ret (inr err)
  | None => call (TempFile_ dir prefix)
  end.

(** [internal/git/archive.go:174-183 finalizeCachedArchive] *)
Definition finalizeCachedArchive (tempFile : fd * string) (archivePath : string)
    : prog (option gerr) :=
  call (CloseFd tempFile.1);;
  err <- call (Link_ tempFile.2 archivePath);;
  Ret match err with
      | Some err => if decide (err = ErrExist) then None else Some err
      | None => None
      end.

(** [io.Copy] through a [TeeReader]: what is read is written to the file before it is
    handed on, up to where writing to the file failed. *)
Fixpoint tee_chunks (f : fd) (fuel : nat) (d : bytes) (end_ : option gerr) : prog (option gerr) :=
  match fuel, d with
  | S fuel, _ :: _ =>
      let chunk := take copy_buffer d in
      '(n, tee) <- call (WriteFd f chunk);;
      let handed := match tee with Some _ => take n chunk | None => chunk end in
      '(m, err) <- match handed with [] => Ret (0%Z, None) | _ => write handed end;;
      match err with
      | Some e => Ret (Some e)
      | None =>
          if negb (m =? Z.of_nat (length handed))%Z then Ret (Some ErrShortWrite)
          else match tee with
               | Some e => Ret (Some e)
               | None => tee_chunks f fuel (drop copy_buffer d) end_
               end
      end
  | _, _ => Ret end_
  end.
Definition copy_archive (tempFile : option (fd * string)) (b : body) : prog (option gerr) :=
  match tempFile with
  | Some (f, _) => tee_chunks f (length (b_data b)) (b_data b) (read_all b).2
  | None => '(_, err) <- io_Copy b;; Ret err
  end.

(** Processes still running at the end of the request are killed. *)
Fixpoint kill_all (cmds : list fd) : prog unit :=
  match cmds with
  | [] => Ret tt
  | cmd :: cmds => call (CloseFd cmd);; kill_all cmds
  end.

(** Streaming the archive, with a temporary file if it is to be cached.
    [internal/git/archive.go:97-137 archive.Inject] *)
Definition stream_archive (r : Request) (params : archiveParams) (format : Format)
    (archiveFilename : string) (tempFile : option (fd * string)) : prog unit :=
  archiveReader <-
    (if negb (String.eqb (Gitaly.Address (ap_GitalyServer params)) "") then
       x <- handleArchiveWithGitaly params format;;
       Ret match x with inl x => inl x | inr err => inr (Wrapf "operations.GetArchive" err) end
     else newArchiveReader (ap_RepoPath params) format (ArchivePrefix params) (CommitId params));;
  match archiveReader with
  | inr err => Helper.Fail500 r (Some err)
  | inl archiveReader =>
      deferring (kill_all (waitCmds archiveReader))
        (setArchiveHeaders format archiveFilename;;
         write_header 200;;
         b <- octets archiveReader;;
         err <- copy_archive tempFile b;;
         err <- match err with Some err => Ret (Some err) | None => wait (waitCmds archiveReader) end;;
         match err, tempFile with
         | Some err, _ =>
             Helper.LogError (Some r) (Some (Wrapf "SendArchive: copy 'git archive' output" err))
         | None, None => Ret tt
         | None, Some tempFile =>
             err <- finalizeCachedArchive tempFile (ArchivePath params);;
             match err with
             | Some err =>
                 Helper.LogError (Some r) (Some (Wrapf "SendArchive: finalize cached archive" err))
             | None => Ret tt
             end
         end)
  end.

Definition archive_cache : string := "gitlab_workhorse_git_archive_cache".

(** [internal/git/archive.go:53-137 archive.Inject] *)
Definition Inject_archive (r : Request) (sendData : string) : prog unit :=
  match SendData.Unpack unmarshal_archive "git-archive:" sendData with
  | inr err => Helper.Fail500 r (Some (Wrapf "SendArchive: unpack sendData" err))
  | inl params =>
      let urlPath := Path_ (URL r) in
      match parseBasename (Path.Base urlPath) with
      | None => Helper.Fail500 r (Some (Errorf ("SendArchive: invalid format: " +:+ urlPath)))
      | Some format =>
          let cacheEnabled := negb (DisableCache params) in
          let archiveFilename := Path.Base (ArchivePath params) in
          cachedArchive <-
            (if cacheEnabled then call (OpenPath (ArchivePath params)) else Ret (inr ErrNotExist));;
          match cachedArchive with
          | inl cachedArchive =>
              deferring (call (CloseFd cachedArchive))
                (call (Metric archive_cache ["hit"] 1);;
                 setArchiveHeaders format archiveFilename;;
                 ServeContent r "" 0 cachedArchive)
          | inr _ =>
              call (Metric archive_cache ["miss"] 1);;
              if cacheEnabled then
                tempFile <- prepareArchiveTempfile (Path.Dir (ArchivePath params)) archiveFilename;;
                match tempFile with
                | inr err => Helper.Fail500 r (Some (Wrapf "SendArchive: create tempfile" err))
                | inl tempFile =>
                    deferring (call (CloseFd tempFile.1))
                      (deferring (_ <- call (Remove_ tempFile.2);; Ret tt)
                         (stream_archive r params format archiveFilename (Some tempFile)))
                end
              else stream_archive r params format archiveFilename None
          end
      end
  end.

(** The injecters, by the prefix they recognise. *)
Definition injecter (prefix : string) (Inject : Request → string → prog unit) : SendData.Injecter :=
  {| SendData.inj_Match := SendData.Match prefix; SendData.inj_Inject := Inject;
     SendData.inj_Name := SendData.Name prefix |}.

(** [internal/git/archive.go:39-39 SendArchive] *)
Definition SendArchive : SendData.Injecter := injecter "git-archive:" Inject_archive.

(** [internal/git/blob.go:25-25 SendBlob] *)
Definition SendBlob : SendData.Injecter := injecter "git-blob:" Inject_blob.

(** [internal/git/diff.go:27-27 SendDiff] *)
Definition SendDiff : SendData.Injecter := injecter "git-diff:" Inject_diff.

(** [internal/git/format-patch.go:27-27 SendPatch] *)
Definition SendPatch : SendData.Injecter := injecter "git-format-patch:" Inject_patch.

(** [internal/git/snapshot.go:27-29 SendSnapshot] *)
Definition SendSnapshot : SendData.Injecter := injecter "git-snapshot:" Inject_snapshot.

(** Waiting for processes and killing them. *)
Lemma wait_harmless (ok : ∀ X, ext X → Prop) cmds :
  (∀ f, ok _ (WaitCmd f)) → harmless ok (wait cmds).
Proof using Type.
  intros Hok. induction cmds as [|cmd cmds IH]; cbn [wait]; [done|]. cbn [harmless bind call].
  split; [done|]. intros x. apply harmless_bind; [done|]. done.
Qed.

Lemma wait_calm cmds : never_panics (wait cmds).
Proof using Type.
  induction cmds as [|cmd cmds IH]; cbn [wait]; [done|]. cbn [never_panics bind call].
  intros x. apply never_panics_bind; [done|]. done.
Qed.

Lemma kill_all_harmless (ok : ∀ X, ext X → Prop) cmds :
  (∀ f, ok _ (CloseFd f)) → harmless ok (kill_all cmds).
Proof using Type.
  intros Hok. induction cmds as [|cmd cmds IH]; [done|]. cbn. split; [done|]. by intros [].
Qed.

(** ** The cache of archives *)

Section cache.
Context {V : Type} (E : env V).
(** What was written to the temporary file, and the cached archive, in an environment
    where linking puts the contents of the file into the cache. *)
Context (content : V → bytes) (cached : V → option bytes).
Context (Htemp : ∀ dir prefix e, content (E _ (TempFile_ dir prefix) e).2 = [] ∧
  cached (E _ (TempFile_ dir prefix) e).2 = cached e).
Context (Hwrite : ∀ f d e, let '((n, err), e') := E _ (WriteFd f d) e in
  content e' = content e ++ take n d ∧ (err = None → n = length d) ∧ cached e' = cached e).
Context (Hlink : ∀ old new e, let '(_, e') := E _ (Link_ old new) e in
  content e' = content e ∧ (cached e' = cached e ∨ cached e' = Some (content e))).

(** Calls that touch neither. *)
Definition aside {X} (x : ext X) : bool :=
  match x with TempFile_ _ _ | WriteFd _ _ | Link_ _ _ => false | _ => true end.
Context (Hother : ∀ X (x : ext X) e, aside x = true →
  content (E _ x e).2 = content e ∧ cached (E _ x e).2 = cached e).
#[local] Set Default Proof Using "Type*".

Definition state (e : V) : bytes * option bytes := (content e, cached e).

Lemma keeps_aside {A} (p : prog A) : harmless (λ X x, aside x = true) p → keeps E state p.
Proof.
  apply keeps_harmless. intros X x e Hx. destruct (Hother X x e Hx) as [H1 H2].
  unfold state. by rewrite H1, H2.
Qed.

(** A copy without an error has written everything to the file. *)
Lemma tee_chunks_run f fuel d end_ w e :
  length d ≤ fuel →
  ∃ err w' e', run E (tee_chunks f fuel d end_) w e = (Value err, w', e') ∧
    cached e' = cached e ∧ (err = None → end_ = None ∧ content e' = content e ++ d).
Proof.
  revert d w e. induction fuel as [|fuel IH]; intros d w e Hd.
  { destruct d; [|cbn in Hd; lia]. eexists _, _, _. split; [reflexivity|]. by rewrite app_nil_r. }
  destruct d as [|c d]; [eexists _, _, _; split; [reflexivity|]; by rewrite app_nil_r|].
  cbn [tee_chunks]. remember (c :: d) as l eqn:El. rewrite run_bind. cbn [run call].
  pose proof (Hwrite f (take copy_buffer l) e) as Hw.
  destruct (E _ (WriteFd f (take copy_buffer l)) e) as [[n tee] e1].
  destruct Hw as (H1 & H2 & H3). rewrite run_bind.
  set (handed := match tee with Some _ => take n (take copy_buffer l) | None => take copy_buffer l end).
  assert (∃ m err w1, run E (match handed with [] => Ret (0%Z, None) | _ => write handed end) w e1
    = (Value (m, err), w1, e1)) as (m & err & w1 & ->).
  { destruct handed; [by repeat eexists|]. cbn [run write].
    destruct (resp_write _ w) as [[m err] w1]. by repeat eexists. }
  destruct err as [x|]; [by eexists _, _, _|].
  destruct (negb _); [by eexists _, _, _|]. destruct tee as [x|]; [by eexists _, _, _|].
  destruct (IH (drop copy_buffer l) w1 e1) as (err & w2 & e2 & Hr & Hc & He).
  { rewrite length_drop. pose proof copy_buffer_pos. subst l. cbn in *. lia. }
  exists err, w2, e2. split; [exact Hr|]. split; [congruence|]. intros Hn.
  destruct (He Hn) as [? ->]. split; [done|]. rewrite H1, (H2 eq_refl).
  by rewrite firstn_all, <- app_assoc, take_drop.
Qed.

Lemma copy_archive_run t b w e :
  ∃ err w' e', run E (copy_archive t b) w e = (Value err, w', e') ∧ cached e' = cached e ∧
    (err = None → is_Some t → b_end b = EOF ∧ content e' = content e ++ b_data b).
Proof.
  destruct t as [[f path]|]; cbn [copy_archive].
  - destruct (tee_chunks_run f (length (b_data b)) (b_data b) (read_all b).2 w e ltac:(done))
      as (err & w' & e' & -> & Hc & He). eexists _, _, _. split; [reflexivity|]. split; [done|].
    intros Hn _. destruct (He Hn) as [Hr ?]. split; [|done].
    unfold read_all in Hr. cbn in Hr. by destruct (decide (b_end b = EOF)).
  - rewrite run_bind. destruct (never_panics_run E (io_Copy b) w e (io_Copy_calm b)) as ([n err] & w' & e' & Hr).
    pose proof (keeps_aside (io_Copy b) (io_Copy_harmless _ b) w e) as Hk. rewrite Hr in *.
    eexists _, _, _. split; [reflexivity|]. split; [by injection Hk|]. by intros _ [].
Qed.

(** Every source of archives answers with this body. *)
Context (b : body).
Context (Hrpc : ∀ c m q e s, (E _ (Rpc_ c m q) e).1 = inl s → rs_body s = b).
Context (Hread : ∀ f e, (E _ (ReadFd f) e).1 = b).

Definition cached_whole (e0 e : V) : Prop :=
  cached e = cached e0 ∨ (b_end b = EOF ∧ cached e = Some (b_data b)).

(** A source gives the body and leaves the file alone. *)
Definition gives_body (x : reader) : Prop :=
  ∀ w e, ∃ w' e', run E (octets x) w e = (Value b, w', e') ∧ state e' = state e.

Lemma setArchiveHeaders_harmless ok format name : harmless ok (setArchiveHeaders format name).
Proof using Type. done. Qed.

(** The part of the handler that runs on an archive. *)
Lemma stream_copy_run (r : Request) (params : archiveParams) t cmds (x : reader) w e :
  (is_Some t → content e = []) → gives_body x →
  let '(_, _, e') := run E
    (b <- octets x;;
     err <- copy_archive t b;;
     err <- match err with Some err => Ret (Some err) | None => wait cmds end;;
     match err, t with
     | Some err, _ =>
         Helper.LogError (Some r) (Some (Wrapf "SendArchive: copy 'git archive' output" err))
     | None, None => Ret tt
     | None, Some tempFile =>
         err <- finalizeCachedArchive tempFile (ArchivePath params);;
         match err with
         | Some err =>
             Helper.LogError (Some r) (Some (Wrapf "SendArchive: finalize cached archive" err))
         | None => Ret tt
         end
     end) w e in cached_whole e e'.
Proof.
  intros Hc Hx. rewrite run_bind. destruct (Hx w e) as (w1 & e1 & -> & Hs1).
  rewrite run_bind. destruct (copy_archive_run t b w1 e1) as (err & w2 & e2 & -> & Hc2 & Hw2).
  injection Hs1 as Hc1 Hk1. rewrite run_bind.
  assert (∃ err' w3 e3, run E (match err with Some err => Ret (Some err) | None => wait cmds end) w2 e2
    = (Value err', w3, e3) ∧ state e3 = state e2 ∧ (err' = None → err = None)) as (err' & w3 & e3 & -> & Hs3 & Herr).
  { destruct err as [y|]; [by eexists _, _, _|].
    pose proof (keeps_aside (wait cmds) (wait_harmless (λ X x, aside x = true) cmds (λ _, eq_refl)) w2 e2) as Hk.
    destruct (never_panics_run E (wait cmds) w2 e2 (wait_calm cmds)) as (y & w3 & e3 & Hr).
    rewrite Hr in *. by eexists _, _, _. }
  injection Hs3 as Hc3 Hk3.
  assert (∀ y, let '(_, _, e') := run E (Helper.LogError (Some r) y) w3 e3 in cached_whole e e') as Hlog.
  { intros y. pose proof (keeps_aside (Helper.LogError (Some r) y) ltac:(by apply Helper.LogError_harmless)
      w3 e3) as Hk. destruct (run E _ w3 e3) as [[o w4] e4]. injection Hk as _ Hk. left. cbn in Hk. congruence. }
  destruct err' as [y|]; [apply Hlog|]. destruct t as [[f path]|]; [|left; cbn; congruence].
  specialize (Herr eq_refl) as ->. destruct (Hw2 eq_refl ltac:(by eexists)) as [Heof Hcont].
  unfold finalizeCachedArchive. rewrite run_bind. cbn [bind call run fst snd].
  destruct (Hother _ (CloseFd f) e3 eq_refl) as [Hc4 Hk4].
  destruct (E _ (CloseFd f) e3) as [[] e4]. cbn in Hc4, Hk4.
  pose proof (Hlink path (ArchivePath params) e4) as Hl.
  destruct (E _ (Link_ path (ArchivePath params)) e4) as [lerr e5]. destruct Hl as [_ Hl].
  assert (cached_whole e e5) as Hfinal.
  { destruct Hl as [Hl|Hl]; [left; congruence|]. right. split; [done|].
    by rewrite Hl, Hc4, Hc3, Hcont, Hc1, Hc by (by eexists). }
  match goal with |- context [run E (match ?z with _ => _ end) w3 e5] => destruct z as [y|] end; [|done].
  pose proof (keeps_aside (Helper.LogError (Some r) (Some (Wrapf "SendArchive: finalize cached archive" y)))
    ltac:(by apply Helper.LogError_harmless) w3 e5) as Hk.
  destruct (run E (Helper.LogError _ _) w3 e5) as [[o w6] e6]. injection Hk as _ Hk. cbn in Hk.
  unfold cached_whole in *. by rewrite Hk.
Qed.

Lemma newArchiveReader_run path format prefix commit w e :
  ∃ x w' e', run E (newArchiveReader path format prefix commit) w e = (Value x, w', e') ∧
    state e' = state e ∧ match x with inl x => gives_body x | inr _ => True end.
Proof.
  assert (∀ f w e, ∃ w' e', run E (call (ReadFd f)) w e = (Value b, w', e') ∧ state e' = state e) as Hr.
  { intros f w1 e1. cbn. destruct (Hother _ (ReadFd f) e1 eq_refl) as [H1 H2].
    specialize (Hread f e1). destruct (E _ (ReadFd f) e1) as [y e2]. cbn in *. subst y.
    eexists _, _. split; [done|]. unfold state. by rewrite H1, H2. }
  assert (∀ args en si w e, ∃ x e', run E (call (StartCmd args en si)) w e = (Value x, w, e') ∧ state e' = state e) as Hs.
  { intros args en si w1 e1. cbn. destruct (Hother _ (StartCmd args en si) e1 eq_refl) as [H1 H2].
    destruct (E _ (StartCmd args en si) e1) as [y e2]. eexists _, _. split; [done|].
    unfold state. cbn in *. by rewrite H1, H2. }
  unfold newArchiveReader. destruct (parseArchiveFormat format) as [[args|] arg].
  - rewrite run_bind, run_bind. destruct (Hs args Environ None w e) as ([cmd|y] & e1 & -> & H1); cbn [run].
    2:{ eexists _, _, _. split; [reflexivity|]. done. }
    rewrite run_bind. match goal with |- context [call (StartCmd ?a ?g None)] =>
      destruct (Hs a g None w e1) as ([ar|y] & e2 & -> & H2) end; cbn [run].
    + eexists _, _, _. split; [reflexivity|]. split; [congruence|]. intros w1 e3. apply Hr.
    + rewrite run_bind. cbn [run call]. destruct (Hother _ (CloseFd cmd) e2 eq_refl) as [H3 H4].
      destruct (E _ (CloseFd cmd) e2) as [[] e3]. eexists _, _, _. split; [reflexivity|]. split; [|done].
      unfold state in *. cbn in *. congruence.
  - rewrite run_bind. cbn [run]. rewrite run_bind. match goal with |- context [call (StartCmd ?a ?g None)] =>
      destruct (Hs a g None w e) as ([ar|y] & e2 & -> & H2) end; cbn [run].
    + eexists _, _, _. split; [reflexivity|]. split; [congruence|]. intros w1 e3. apply Hr.
    + eexists _, _, _. split; [reflexivity|]. done.
Qed.

Lemma handleArchiveWithGitaly_run params format w e :
  ∃ x w' e', run E (handleArchiveWithGitaly params format) w e = (Value x, w', e') ∧
    state e' = state e ∧ match x with inl x => gives_body x | inr _ => True end.
Proof.
  unfold handleArchiveWithGitaly, GitalyClient.newClient. rewrite run_bind. cbn [run call].
  match goal with |- context [E _ ?x e] => destruct (Hother _ x e eq_refl) as [H1 H2];
    destruct (E _ x e) as [[c|y] e1] end; cbn in H1, H2.
  2:{ eexists _, _, _. split; [reflexivity|]. unfold state. by rewrite H1, H2. }
  rewrite run_bind. unfold GitalyClient.ArchiveReader. rewrite run_bind. cbn [run call].
  match goal with |- context [E _ ?x e1] => destruct (Hother _ x e1 eq_refl) as [H3 H4];
    match x with Rpc_ ?c ?m ?q => pose proof (Hrpc c m q e1) as Hb end;
    destruct (E _ x e1) as [[s|y] e2] end; cbn in H3, H4; cbn [run].
  - eexists _, _, _. split; [reflexivity|]. split; [unfold state; congruence|].
    intros w1 e3. specialize (Hb s eq_refl). cbn. rewrite Hb. by eexists _, _.
  - eexists _, _, _. split; [reflexivity|]. split; [unfold state; congruence|done].
Qed.

Lemma cached_whole_state e0 e1 e2 : state e2 = state e1 → cached_whole e0 e1 → cached_whole e0 e2.
Proof. intros [=_ H]. unfold cached_whole. by rewrite H. Qed.

Lemma cached_whole_start e0 e1 e2 : state e1 = state e0 → cached_whole e1 e2 → cached_whole e0 e2.
Proof. intros [=_ H]. unfold cached_whole. by rewrite H. Qed.

Lemma stream_archive_run r params format name t w e :
  (is_Some t → content e = []) →
  cached_whole e (run E (stream_archive r params format name t) w e).2.
Proof.
  intros Hc. unfold stream_archive. rewrite run_bind.
  match goal with |- context [run E ?p w e] =>
    assert (∃ x w' e', run E p w e = (Value x, w', e') ∧ state e' = state e ∧
      match x with inl x => gives_body x | inr _ => True end) as (x & w1 & e1 & -> & H1 & Hx) end.
  { destruct (negb _); [|apply newArchiveReader_run]. rewrite run_bind.
    destruct (handleArchiveWithGitaly_run params format w e) as (x & w1 & e1 & -> & H1 & Hx).
    eexists _, _, _. split; [reflexivity|]. split; [done|]. by destruct x. }
  apply (cached_whole_start e e1); [done|]. destruct x as [x|y].
  2:{ left. pose proof (keeps_aside (Helper.Fail500 r (Some y))
        ltac:(by apply Helper.Fail500_harmless) w1 e1) as Hk. by injection Hk. }
  rewrite run_deferring. rewrite run_bind.
  pose proof (keeps_aside (setArchiveHeaders format name) ltac:(done) w1 e1) as Hk.
  destruct (run E (setArchiveHeaders format name) w1 e1) as [[[[]|m] w2] e2] eqn:Er; [|done].
  cbn [snd] in Hk. cbn [run bind write_header].
  match goal with |- context [run E ?p (resp_header 200 w2) e2] => 
    pose proof (stream_copy_run r params t (waitCmds x) x (resp_header 200 w2) e2) as Hs end.
  assert (is_Some t → content e2 = []) as Hc2.
  { intros Ht. injection Hk as -> _. injection H1 as -> _. by apply Hc. }
  specialize (Hs Hc2 Hx).
  destruct (run E _ (resp_header 200 w2) e2) as [[o w3] e3].
  pose proof (keeps_aside (kill_all (waitCmds x)) (kill_all_harmless (λ X x, aside x = true) _ (λ _, eq_refl)) w3 e3) as Hkill.
  apply (cached_whole_start e1 e2); [done|].
  destruct (run E (kill_all (waitCmds x)) w3 e3) as [[[[]|m] w4] e4]; cbn [snd] in *;
    by apply (cached_whole_state e2 e3).
Qed.

Lemma keeps_cached {A} (p : prog A) w e : keeps E state p → cached_whole e (run E p w e).2.
Proof. intros Hk. left. specialize (Hk w e). by injection Hk. Qed.

Lemma keeps_aside_call {X} (x : ext X) : aside x = true → keeps E state (call x).
Proof. intros Hx. apply keeps_aside. by split. Qed.

(** The archive through a temporary file. *)
Lemma tempfile_run r params format name w2 e2 :
  cached_whole e2 (run E
    (tempFile <- prepareArchiveTempfile (Path.Dir (ArchivePath params)) name;;
     match tempFile with
     | inr err => Helper.Fail500 r (Some (Wrapf "SendArchive: create tempfile" err))
     | inl tempFile =>
         deferring (call (CloseFd tempFile.1))
           (deferring (_ <- call (Remove_ tempFile.2);; Ret tt)
              (stream_archive r params format name (Some tempFile)))
     end) w2 e2).2.
Proof.
  assert (∀ x, keeps E state (Helper.Fail500 r x)) as Hf
    by (intros x; apply keeps_aside; by apply Helper.Fail500_harmless).
  unfold prepareArchiveTempfile. rewrite run_bind, run_bind.
  pose proof (keeps_aside_call (MkdirAll_ (Path.Dir (ArchivePath params))) eq_refl w2 e2) as Hd.
  destruct (run E (call (MkdirAll_ _)) w2 e2) as [[[x0|m] w3] e3]; cbn [snd] in Hd;
    apply (cached_whole_start e2 e3); try done; [|by left].
  destruct x0 as [x0|]; [by apply keeps_cached|]. cbn [run call].
  destruct (Htemp (Path.Dir (ArchivePath params)) name e3) as [H1 H2].
  destruct (E _ (TempFile_ _ _) e3) as [[[f path]|x0] e4]; cbn [fst snd] in H1, H2.
  2:{ pose proof (keeps_cached (Helper.Fail500 r (Some (Wrapf "SendArchive: create tempfile" x0))) w3 e4 (Hf _)) as Hkeep.
      unfold cached_whole in *. by rewrite <- H2. }
  rewrite !run_deferring.
  pose proof (stream_archive_run r params format name (Some (f, path)) w3 e4
    (λ _, H1)) as Hs.
  destruct (run E (stream_archive _ _ _ _ _) w3 e4) as [[o w4] e5]. cbn [snd] in Hs.
  match goal with |- context [run E ?p w4 e5] =>
    assert (keeps E state p) as Hr by (apply keeps_bind; [by apply keeps_aside_call|done]);
    specialize (Hr w4 e5); destruct (run E p w4 e5) as [[o5 w5] e6] end.
  pose proof (keeps_aside_call (CloseFd f) eq_refl w5 e6) as Hcl.
  assert (cached_whole e4 e6) as Hs6 by (by apply (cached_whole_state e4 e5)).
  cbn [fst snd] in *.
  assert (cached_whole e3 e6) as H36 by (unfold cached_whole in *; by rewrite <- H2).
  destruct o5; destruct (run E (call (CloseFd f)) w5 e6) as [[[[]|m'] w6] e7]; cbn [snd] in *;
    by apply (cached_whole_state e3 e6).
Qed.

End cache.

(** ** Files and processes *)

Section closing.
Context {V : Type} (E : env V) (fds : V → gset fd) {HE : FdEnv E fds}.
Context (Hserve : ∀ r name t f, keeps E fds (ServeContent r name t f)).
#[local] Set Default Proof Using "Type*".

Lemma closes_aside {A} (p : prog A) :
  harmless (λ _ e, opens_or_closes e = false) p → keeps E fds p.
Proof. by apply closes_no_files. Qed.

Lemma Fail500_keeps_open r x : keeps E fds (Helper.Fail500 r x).
Proof. apply closes_aside. by apply Helper.Fail500_harmless. Qed.

Lemma LogError_closes r x : keeps E fds (Helper.LogError r x).
Proof. apply closes_aside. by apply Helper.LogError_harmless. Qed.

Lemma io_Copy_closes b : keeps E fds (io_Copy b).
Proof. apply closes_aside, io_Copy_harmless. Qed.

(** Goes through a program whose calls open nothing; [first_of] is tried first. *)
Ltac closes_steps first_of :=
  repeat first
    [ first_of | apply Fail500_keeps_open | apply LogError_closes | apply io_Copy_closes
    | (apply closes_call; [done|done])
    | apply keeps_ret
    | apply keeps_bind
    | match goal with
      | |- ∀ _, _ => intros ?
      | |- keeps _ _ (match ?x with _ => _ end) => destruct x
      | |- keeps _ _ (let '(_, _) := ?x in _) => destruct x
      end
    | done ].

Lemma copy_command_closes r args what headers :
  keeps E fds headers → keeps E fds (copy_command r args what headers).
Proof.
  intros Hh. eapply closes_opening_call; [done|done|done| |reflexivity|]; cbn beta iota.
  - intros x. apply Fail500_keeps_open.
  - intros f. apply keeps_bind; [done|]. intros _. closes_steps fail.
Qed.

Lemma Inject_blob_closes r d : keeps E fds (Inject_blob r d).
Proof.
  unfold Inject_blob, handleSendBlobWithGitaly, handleSendBlobLocally, GitalyClient.SendBlob,
    GitalyClient.newClient, report. closes_steps ltac:(by apply copy_command_closes).
Qed.

Lemma Inject_diff_closes r d : keeps E fds (Inject_diff r d).
Proof.
  unfold Inject_diff, handleSendDiffWithGitaly, handleSendDiffLocally, GitalyClient.SendRawDiff,
    GitalyClient.NewDiffClient, GitalyClient.newClient, report. closes_steps ltac:(by apply copy_command_closes).
Qed.

Lemma Inject_patch_closes r d : keeps E fds (Inject_patch r d).
Proof.
  unfold Inject_patch, handleSendPatchWithGitaly, handleSendPatchLocally, GitalyClient.SendRawPatch,
    GitalyClient.NewDiffClient, GitalyClient.newClient, report. closes_steps ltac:(by apply copy_command_closes).
Qed.

Lemma Inject_snapshot_closes r d : keeps E fds (Inject_snapshot r d).
Proof.
  unfold Inject_snapshot, GitalyClient.SnapshotReader, GitalyClient.newClient. closes_steps fail.
Qed.
(** An archive whose processes are the ones started for it. *)
Definition opens_reader (p : prog (result reader)) : Prop := ∀ w e,
  let '(o, _, e') := run E p w e in
  match o with
  | Value (inl x) =>
      list_to_set (waitCmds x) ## fds e ∧ fds e' = list_to_set (waitCmds x) ∪ fds e ∧
      keeps E fds (octets x)
  | _ => fds e' = fds e
  end.

Lemma opens_reader_keeps p (k : reader → reader) (f : gerr → gerr) :
  (∀ x, waitCmds (k x) = waitCmds x ∧ octets (k x) = octets x) → opens_reader p →
  opens_reader (x <- p;; Ret match x with inl x => inl (k x) | inr err => inr (f err) end).
Proof.
  intros Hk Hp w e. rewrite run_bind. specialize (Hp w e).
  destruct (run E p w e) as [[[[x|y]|m] w1] e1]; cbn [run]; [|done..].
  destruct (Hk x) as [-> ->]. exact Hp.
Qed.

Lemma StartCmd_run args environ w e :
  ∃ x e', run E (call (StartCmd args environ None)) w e = (Value x, w, e') ∧
    match x with
    | inl f => f ∉ fds e ∧ fds e' = {[f]} ∪ fds e
    | inr _ => fds e' = fds e
    end.
Proof.
  cbn. pose proof (fd_opened E fds _ (StartCmd args environ None) e eq_refl) as H. cbn in H.
  destruct (E _ (StartCmd args environ None) e) as [x e1]. exists x, e1. by destruct x.
Qed.

Lemma CloseFd_run f w e :
  ∃ e', run E (call (CloseFd f)) w e = (Value tt, w, e') ∧ fds e' = fds e ∖ {[f]}.
Proof.
  cbn. pose proof (fd_close E fds f e) as H.
  destruct (E _ (CloseFd f) e) as [[] e']. by exists e'.
Qed.

Lemma newArchiveReader_opens repoPath format archivePrefix commitId :
  opens_reader (newArchiveReader repoPath format archivePrefix commitId).
Proof.
  assert (∀ f, keeps E fds (call (ReadFd f))) as Hread by (intros f; by apply closes_call).
  intros w e. unfold newArchiveReader. destruct (parseArchiveFormat format) as [[args|] formatArg].
  - rewrite !run_bind. destruct (StartCmd_run args Environ w e) as ([f|x] & e1 & -> & H1); [|done].
    destruct H1 as [Hf H1]. cbn [run]. rewrite run_bind.
    match goal with |- context [run E (call (StartCmd ?a ?v None)) w e1] =>
      destruct (StartCmd_run a v w e1) as ([g|x] & e2 & -> & H2) end; cbn [run].
    + destruct H2 as [Hg H2]. rewrite H1 in Hg. cbn. rewrite H2, H1.
      split_and!; [|apply set_eq; intros y; rewrite !elem_of_union, elem_of_empty; clear; tauto|done].
      apply elem_of_disjoint. intros y. rewrite !elem_of_union, !elem_of_singleton in *.
      clear - Hf Hg. intros [->|[->|[]%elem_of_empty]]; naive_solver.
    + rewrite run_bind. destruct (CloseFd_run f w e2) as (e3 & -> & H3). cbn [run].
      rewrite H3, H2, H1. clear - Hf. set_solver.
  - cbn [bind]. rewrite run_bind.
    match goal with |- context [run E (call (StartCmd ?a ?v None)) w e] =>
      destruct (StartCmd_run a v w e) as ([g|x] & e2 & -> & H2) end; cbn [run]; [|done].
    destruct H2 as [Hg H2]. clear - Hg H2 Hread. cbn. split_and!; [set_solver|set_solver|done].
Qed.

Lemma kill_all_run cmds w e :
  ∃ e', run E (kill_all cmds) w e = (Value tt, w, e') ∧ fds e' = fds e ∖ list_to_set cmds.
Proof.
  revert e. induction cmds as [|cmd cmds IH]; intros e; cbn [kill_all].
  { exists e. split; [done|]. cbn. set_solver. }
  rewrite run_bind. destruct (CloseFd_run cmd w e) as (e1 & -> & H1).
  destruct (IH e1) as (e2 & -> & H2). exists e2. split; [done|]. cbn. clear - H1 H2. set_solver.
Qed.

Lemma wait_closes cmds : keeps E fds (wait cmds).
Proof.
  apply closes_aside. by apply wait_harmless.
Qed.

Lemma tee_chunks_closes f fuel d end_ : keeps E fds (tee_chunks f fuel d end_).
Proof.
  revert d. induction fuel as [|fuel IH]; intros [|c d]; try done. cbn [tee_chunks].
  apply keeps_bind; [by apply closes_call|]. intros [n t].
  apply keeps_bind; [apply closes_aside; by destruct (match t with Some _ => _ | None => _ end)|]. intros [m [x|]]; [done|].
  destruct (negb _); [done|]. by destruct t.
Qed.

Lemma handleArchiveWithGitaly_opens params format : opens_reader (handleArchiveWithGitaly params format).
Proof.
  assert (harmless (λ _ e, opens_or_closes e = false) (handleArchiveWithGitaly params format)) as Hh.
  { unfold handleArchiveWithGitaly, GitalyClient.newClient, GitalyClient.ArchiveReader. by harmless_tac. }
  intros w e. pose proof (closes_aside _ Hh w e) as Hk.
  unfold handleArchiveWithGitaly, GitalyClient.newClient, GitalyClient.ArchiveReader in *.
  rewrite run_bind in *. cbn [run call] in *. destruct (E _ (Dial_ _ _) e) as [[c|y] e1]; [|done].
  rewrite run_bind in *. cbn [run call bind] in *. destruct (E _ (Rpc_ _ _ _) e1) as [[c'|y] e2]; [|done].
  cbn in *. split_and!; [set_solver|set_solver|done].
Qed.

(** What closes the temporary file at the latest when it ends. *)
Definition may_close (t : option (fd * string)) {A} (p : prog A) : Prop := ∀ w e,
  fds (run E p w e).2 = fds e ∨ ∃ f path, t = Some (f, path) ∧ fds (run E p w e).2 = fds e ∖ {[f]}.

Lemma may_close_keeps t {A} (p : prog A) : keeps E fds p → may_close t p.
Proof. intros Hp w e. by left. Qed.

Lemma may_close_bind t {A B} (p : prog A) (q : A → prog B) :
  keeps E fds p → (∀ a, may_close t (q a)) → may_close t (bind p q).
Proof.
  intros Hp Hq w e. rewrite run_bind. specialize (Hp w e).
  destruct (run E p w e) as [[[a|m] w1] e1]; cbn [snd] in *; [|by left].
  rewrite <- Hp. apply Hq.
Qed.

Lemma finalize_may_close t params : may_close (Some t) (finalizeCachedArchive t (ArchivePath params)).
Proof.
  intros w e. right. exists t.1, t.2. split; [by destruct t|]. unfold finalizeCachedArchive.
  rewrite run_bind. destruct (CloseFd_run t.1 w e) as (e1 & -> & H1). cbn.
  pose proof (fd_other E fds (Link_ t.2 (ArchivePath params)) e1 HE eq_refl) as H2.
  destruct (E _ (Link_ _ _) e1) as [x e2]. cbn in *. congruence.
Qed.

Lemma stream_archive_may_close r params format name t :
  may_close t (stream_archive r params format name t).
Proof.
  unfold stream_archive.
  match goal with |- may_close t (bind ?p _) => assert (opens_reader p) as Hopen end.
  { destruct (negb _); [|apply newArchiveReader_opens].
    apply (opens_reader_keeps _ (λ x, x) (Wrapf "operations.GetArchive")); [done|].
    apply handleArchiveWithGitaly_opens. }
  intros w e. rewrite run_bind. specialize (Hopen w e).
  destruct (run E _ w e) as [[[[x|y]|m] w1] e1]; cbn [snd]; [|left..]; [|by rewrite (Fail500_keeps_open r (Some y) w1 e1)|done].
  destruct Hopen as (Hd & H1 & Hx). rewrite run_deferring.
  match goal with |- context [run E ?p w1 e1] => assert (may_close t p) as Hbody end.
  { apply may_close_bind; [by apply closes_aside|]. intros _.
    apply may_close_bind; [by apply closes_aside|]. intros _.
    apply may_close_bind; [done|]. intros b.
    apply may_close_bind. { destruct t as [[f path]|]; [apply tee_chunks_closes|closes_steps fail]. }
    intros err. apply may_close_bind. { destruct err; [done|apply wait_closes]. }
    intros [y|]; [apply may_close_keeps, LogError_closes|].
    destruct t as [t|]; [|by apply may_close_keeps].
    intros w2 e2. rewrite run_bind. pose proof (finalize_may_close t params w2 e2) as Hf.
    destruct (run E _ w2 e2) as [[[[y|]|m] w3] e3]; cbn [snd run] in *; [|done..].
    by rewrite (LogError_closes (Some r) _ w3 e3). }
  specialize (Hbody w1 e1). destruct (run E _ w1 e1) as [[o w2] e2]. cbn [snd] in Hbody.
  destruct (kill_all_run (waitCmds x) w2 e2) as (e3 & -> & H3). cbn [snd].
  assert (list_to_set (waitCmds x) ## fds e) as Hd' by done. revert H1 H3 Hbody Hd.
  generalize (list_to_set (waitCmds x) : gset fd) as S. intros S H1 H3 Hbody Hd.
  destruct Hbody as [H2|(f & path & Ht & H2)]; [left|right; exists f, path; split; [done|]];
    rewrite H3, H2, H1; clear - Hd; set_solver.
Qed.

Lemma Inject_archive_closes r d : keeps E fds (Inject_archive r d).
Proof.
  unfold Inject_archive. destruct (SendData.Unpack _ _ _) as [params|x]; [|apply Fail500_keeps_open].
  destruct (parseBasename _) as [format|]; [|apply Fail500_keeps_open]. cbv zeta.
  assert (∀ t name, may_close t (stream_archive r params format name t)) as Hs
    by (intros; apply stream_archive_may_close).
  destruct (negb (DisableCache params)).
  - eapply closes_opening_call; [done|done|done| |reflexivity|]; cbn beta iota.
    + intros x. apply keeps_bind; [by apply closes_call|]. intros _ w e.
      rewrite run_bind. unfold prepareArchiveTempfile. rewrite run_bind. cbn [run call].
      pose proof (fd_other E fds (MkdirAll_ (Path.Dir (ArchivePath params))) e HE eq_refl) as H1.
      destruct (E _ (MkdirAll_ _) e) as [[y|] e1]; cbn [snd] in H1; rewrite <- H1; cbn [run call];
        [apply Fail500_keeps_open|].
      pose proof (fd_opened E fds _ (TempFile_ (Path.Dir (ArchivePath params))
        (Path.Base (ArchivePath params))) e1 eq_refl) as H2.
      destruct (E _ (TempFile_ _ _) e1) as [[[f path]|y] e2]; cbn [fst snd opened] in H2;
        [|rewrite <- H2; apply Fail500_keeps_open].
      destruct H2 as [Hf H2]. rewrite !run_deferring.
      specialize (Hs (Some (f, path)) (Path.Base (ArchivePath params)) w e2).
      destruct (run E (stream_archive _ _ _ _ _) w e2) as [[o w3] e3]. cbn [snd fst] in *.
      match goal with |- context [run E ?p w3 e3] =>
        assert (keeps E fds p) as Hr by (apply keeps_bind; [by apply closes_call|done]);
        specialize (Hr w3 e3); destruct (run E p w3 e3) as [[o4 w4] e4] end.
      destruct (CloseFd_run f w4 e4) as (e5 & He5 & H5). cbn [snd] in Hr.
      assert (fds e5 = fds e1) as Hend.
      { rewrite H5, Hr. destruct Hs as [->|(f' & path' & [= <- <-] & ->)]; rewrite H2;
          clear - Hf; set_solver. }
      destruct o4; rewrite He5; exact Hend.
    + intros f. apply keeps_bind; [by apply closes_call|]. intros _.
      apply keeps_bind; [by apply closes_aside|]. intros _. apply Hserve.
  - cbn [bind]. apply keeps_bind; [by apply closes_call|]. intros _ w e.
    destruct (Hs None (Path.Base (ArchivePath params)) w e) as [H|(f & path & [=] & _)]. exact H.
Qed.
End closing.

Section leftovers.
Context {V : Type} (E : env V) (files : V → gset string) {HE : PathEnv E files}.
Context (Hserve : ∀ r name t f, keeps E files (ServeContent r name t f)).
#[local] Set Default Proof Using "Type*".

Abbreviation no_paths := (harmless (λ _ e, makes_or_removes e = false)).

Lemma newArchiveReader_no_paths repoPath format archivePrefix commitId :
  no_paths (newArchiveReader repoPath format archivePrefix commitId).
Proof using Type.
  unfold newArchiveReader. destruct (parseArchiveFormat format) as [[args|] formatArg].
  - cbn [bind call harmless]. split; [done|]. intros [f|x]; [|done]. cbn [harmless bind]. split; [done|].
    by intros [g|x].
  - cbn [bind call harmless]. split; [done|]. by intros [g|x].
Qed.

Lemma tee_chunks_no_paths f fuel d end_ : no_paths (tee_chunks f fuel d end_).
Proof using Type.
  revert d. induction fuel as [|fuel IH]; intros [|c d]; try done. cbn [tee_chunks].
  apply harmless_bind; [done|]. intros [n t].
  apply harmless_bind; [by destruct (match t with Some _ => _ | None => _ end)|]. intros [m [x|]]; [done|].
  destruct (negb _); [done|]. by destruct t.
Qed.

Lemma source_octets params format :
  returns (if negb (String.eqb (Gitaly.Address (ap_GitalyServer params)) "") then
       x <- handleArchiveWithGitaly params format;;
       Ret match x with inl x => inl x | inr err => inr (Wrapf "operations.GetArchive" err) end
     else newArchiveReader (ap_RepoPath params) format (ArchivePrefix params) (CommitId params))
    (λ x, match x with inl x => no_paths (octets x) | inr _ => True end).
Proof using Type.
  destruct (negb _).
  - apply (returns_bind _ _ (λ x, match x with inl x => no_paths (octets x) | inr _ => True end)).
    + apply returns_bind_any. intros [c|x]; [|by apply returns_ret].
      apply returns_bind_any. intros s. apply returns_ret. by destruct s.
    + intros [x|x] H; by apply returns_ret.
  - unfold newArchiveReader. destruct (parseArchiveFormat format) as [compressCmd formatArg].
    apply returns_bind_any. intros [f|x]; [|by apply returns_ret].
    apply returns_bind_any. intros [g|x]; [by apply returns_ret|].
    apply returns_bind_any. intros _. by apply returns_ret.
Qed.

Lemma stream_archive_keeps r params format name t :
  keeps E files (stream_archive r params format name t).
Proof.
  eapply keeps_bind_returns; [|apply source_octets|]; cbn beta.
  { apply keeps_files_harmless; [done|]. destruct (negb _); [|apply newArchiveReader_no_paths].
    unfold handleArchiveWithGitaly, GitalyClient.newClient, GitalyClient.ArchiveReader. by harmless_tac. }
  intros [x|y] Hx; (apply keeps_files_harmless; [done|]); [|by apply Helper.Fail500_harmless].
  apply harmless_deferring; [by apply kill_all_harmless|].
  apply harmless_bind; [done|]. intros _. apply harmless_bind; [done|]. intros _.
  apply harmless_bind; [done|]. intros b. apply harmless_bind.
  { destruct t as [[f path]|]; [apply tee_chunks_no_paths|].
    apply harmless_bind; [apply io_Copy_harmless|]. by intros [n y]. }
  intros err. apply harmless_bind; [destruct err; [done|by apply wait_harmless]|].
  intros [y|]; [by apply Helper.LogError_harmless|]. destruct t as [t|]; [|done].
  apply harmless_bind; [done|]. intros [y|]; [by apply Helper.LogError_harmless|done].
Qed.

Lemma Inject_archive_removes r d : keeps E files (Inject_archive r d).
Proof.
  assert (∀ x, keeps E files (Helper.Fail500 r x)) as Hf
    by (intros x; apply keeps_files_harmless; [done|by apply Helper.Fail500_harmless]).
  assert (∀ X (x : ext X), makes_or_removes x = false → keeps E files (call x)) as Hcall
    by (intros X x Hx; apply keeps_files_harmless; [done|by split]).
  unfold Inject_archive. destruct (SendData.Unpack _ _ _) as [params|x]; [|done].
  destruct (parseBasename _) as [format|]; [|done]. cbv zeta.
  apply keeps_bind; [destruct (negb _); [by apply Hcall|done]|]. intros [f|x].
  { apply keeps_deferring; [by apply Hcall|]. apply keeps_bind; [by apply Hcall|]. intros _.
    apply keeps_bind; [by apply keeps_files_harmless|]. intros _. apply Hserve. }
  apply keeps_bind; [by apply Hcall|]. intros _.
  destruct (negb _); [|apply stream_archive_keeps].
  unfold prepareArchiveTempfile. intros w e. rewrite !run_bind.
  pose proof (Hcall _ (MkdirAll_ (Path.Dir (ArchivePath params))) eq_refl w e) as H1.
  destruct (run E (call (MkdirAll_ _)) w e) as [[[[y|]|m] w1] e1]; cbn [snd run] in *;
    [by rewrite <- H1, Hf| |done].
  pose proof (TempFile_makes E files (Path.Dir (ArchivePath params)) (Path.Base (ArchivePath params)) HE w1 e1) as H2.
  destruct (run E (call (TempFile_ _ _)) w1 e1) as [[[[[f path]|y]|m] w2] e2]; cbn [fst snd];
    [|by rewrite Hf, H2, H1|by rewrite H2, H1].
  destruct H2 as [Hp H2]. rewrite !run_deferring.
  pose proof (stream_archive_keeps r params format (Path.Base (ArchivePath params)) (Some (f, path)) w2 e2) as Hs.
  destruct (run E (stream_archive _ _ _ _ _) w2 e2) as [[o w3] e3]. cbn [snd] in Hs.
  rewrite run_bind. destruct (run_Remove E files path w3 e3 HE) as (y & e4 & -> & H4). cbn [run].
  pose proof (Hcall _ (CloseFd f) eq_refl w3 e4) as H5.
  destruct (run E (call (CloseFd f)) w3 e4) as [[[[]|m] w5] e5]; cbn [snd] in *;
    rewrite H5, H4, Hs, H2, H1; rewrite H1 in Hp; clear - Hp; set_solver.
Qed.
End leftovers.

(** C26: whatever Rails asks for and however it ends, sending it leaves no file open and no
    process running, and a temporary archive is removed. *)
Theorem injecters_close {V} (E : env V) (fds : V → gset fd) (files : V → gset string)
    {HE : FdEnv E fds} {HP : PathEnv E files} (r : Request) (sendData : string)
    (Hserve : ∀ r name t f, keeps E fds (ServeContent r name t f) ∧ keeps E files (ServeContent r name t f)) :
  Forall (λ i, keeps E fds (SendData.inj_Inject i r sendData))
    [SendArchive; SendBlob; SendDiff; SendPatch; SendSnapshot] ∧
  keeps E files (SendData.inj_Inject SendArchive r sendData).
Proof.
  split; [|by apply Inject_archive_removes; [|intros; apply Hserve]].
  repeat apply Forall_cons_2; try apply Forall_nil_2; cbn [SendData.inj_Inject].
  - by apply Inject_archive_closes; [|intros; apply Hserve].
  - by apply Inject_blob_closes; [|intros; apply Hserve].
  - by apply Inject_diff_closes; [|intros; apply Hserve].
  - by apply Inject_patch_closes; [|intros; apply Hserve].
  - by apply Inject_snapshot_closes; [|intros; apply Hserve].
Qed.

End send.

(** The format of an archive is that of the extension of its name, if it has one that is
    known; "archive" itself is a tar.gz, and any other name is refused.  The order in which
    the extensions are tried does not matter. *)
Theorem parseBasename_spec (basename : string) (f : Format) :
  parseBasename basename = Some f ↔
  (basename = "archive" ∧ f = TAR_GZ) ∨ ∃ ext, ext ∈ extensions f ∧ ends_with basename ext.
Proof.
  assert (∀ g, MatchString (extension (extensions g)) basename = true ↔
    ∃ ext, ext ∈ extensions g ∧ ends_with basename ext) as Hg
    by (intros g; apply MatchString_extension; by destruct g).
  unfold parseBasename, patternZip, patternTar, patternTarGz, patternTarBz2.
  destruct (String.eqb_spec basename "archive") as [->|Hn].
  { split; [intros [= <-]; by left|]. intros [[_ ->]|(ext & He & a & Ha)]; [done|].
    apply (f_equal (existsb (Ascii.eqb "."))) in Ha. rewrite existsb_app in Ha. cbn in Ha.
    by rewrite orb_true_r in Ha. }
  transitivity (∃ ext, ext ∈ extensions f ∧ ends_with basename ext); [|split; [by right|by intros [[]|]]].
  rewrite <- Hg. pose proof (λ g h, formats_apart basename g h) as Hap.
  assert (∀ g h, MatchString (extension (extensions g)) basename = true →
    MatchString (extension (extensions h)) basename = true → g = h) as Hu
    by (intros g h (x & Hx & Ex)%Hg (y & Hy & Ey)%Hg; by eapply Hap).
  clear Hap Hg.
  assert (∀ g, MatchString (extension (extensions g)) basename = true →
    Some g = Some f ↔ MatchString (extension (extensions f)) basename = true) as Hp.
  { intros g H. split; [by intros [= <-]|]. intros Hf. by rewrite (Hu g f H Hf). }
  change ["zip"] with (extensions ZIP). change ["tar"] with (extensions TAR).
  change ["tar.gz"; "tgz"; "gz"] with (extensions TAR_GZ).
  change ["tar.bz2"; "tbz"; "tbz2"; "tb2"; "bz2"] with (extensions TAR_BZ2).
  destruct (MatchString (extension (extensions ZIP)) basename) eqn:E1; [by apply Hp|].
  destruct (MatchString (extension (extensions TAR)) basename) eqn:E2; [by apply Hp|].
  destruct (MatchString (extension (extensions TAR_GZ)) basename) eqn:E3; [by apply Hp|].
  destruct (MatchString (extension (extensions TAR_BZ2)) basename) eqn:E4; [by apply Hp|].
  split; [done|]. intros H. destruct f; congruence.
Qed.

(** ** Examples *)

(** Gitaly answers with [b]; the state is the temporary file and the cache. *)
Definition archive_env (b : body) : env (bytes * option bytes) := λ X x w,
  match x in ext X return X * (bytes * option bytes) with
  | Rpc_ _ _ _ => (inl (mk_rpc_stream None b), w)
  | Dial_ _ _ => (inl 0, w)
  | ReadFd _ => (b, w)
  | StartCmd _ _ _ => (inl 1, w)
  | TempFile_ _ _ => (inl (0, "/cache/x"), ([], w.2))
  | WriteFd _ d => ((length d, None), (w.1 ++ d, w.2))
  | Link_ _ _ => (None, (w.1, Some w.1))
  | x => ((HelperProps.quiet_env _ x tt).1, w)
  end.

Definition no_json {A} (d : bytes) : result A := inr (Errorf "json").
Definition archive_json (address : string) (d : bytes) : result archiveParams :=
  inl {| ap_RepoPath := "/r.git"; ArchivePath := "/cache/a.tar.gz"; ArchivePrefix := "a"; CommitId := "c";
         ap_GitalyServer := {| Gitaly.Address := address; Gitaly.Token := "t" |};
         GitalyRepository := {| Gitaly.StorageName := ""; Gitaly.RelativePath := "";
           Gitaly.GitObjectDirectory := ""; Gitaly.GitAlternateObjectDirectories := [];
           Gitaly.GlRepository := "" |};
         DisableCache := false |}.
Definition test_archive (address : string) : Request → string → prog unit :=
  Inject_archive (λ _, "") [] (λ _ _ _ _, Ret tt) (archive_json address).

Definition archive_request : Request :=
  {| Method := "GET";
     URL := {| Scheme := ""; UHost := ""; Path_ := "/a/archive/a.tar.gz"; RawQuery := "" |};
     ProtoMajor := 1; ProtoMinor := 1; Header_ := ∅; Body := None; ContentLength := 0;
     Host := ""; RequestURI := ""; RemoteAddr := "" |}.


(** A whole archive is cached; one that breaks off is sent as far as it goes, and not. *)
Example whole_archive_cached :
  (run (archive_env (whole (to_bytes "octets"))) (test_archive "" archive_request "git-archive:e30=")
     (new_resp ∅) ([], None)).2.2 = Some (to_bytes "octets").
Proof. by vm_compute. Qed.

Example broken_archive_not_cached :
  let '(_, w, e) := run (archive_env {| b_data := to_bytes "octe"; b_end := Errorf "broken" |})
     (test_archive "g" archive_request "git-archive:e30=") (new_resp ∅) ([], None) in
  r_body w = to_bytes "octe" ∧ r_status w = Some 200%Z ∧ e.2 = None.
Proof. by vm_compute. Qed.

(** Files and processes have numbers, temporary files names. *)
Definition gitaly_files : env (gset fd * gset string) := λ X x w,
  match x in ext X return X * (gset fd * gset string) with
  | TempFile_ _ _ => (inl (fresh w.1, fresh w.2), ({[fresh w.1]} ∪ w.1, {[fresh w.2]} ∪ w.2))
  | Remove_ p => (None, (w.1, w.2 ∖ {[p]}))
  | x => let p := Git.gitaly_env (to_bytes "octets") _ x w.1 in (p.1, (p.2, w.2))
  end.

#[global] Instance gitaly_files_fds : FdEnv gitaly_files fst.
Proof.
  split; [|done]. intros X x [fds files] Hx.
  pose proof (fd_opened (Git.gitaly_env (to_bytes "octets")) id X x fds Hx) as H.
  by destruct x; try exact H.
Qed.

#[global] Instance gitaly_files_paths : PathEnv gitaly_files snd.
Proof.
  split.
  - intros dir prefix w. cbn. split; [apply is_fresh|done].
  - done.
  - intros X x w Hx. by destruct x.
Qed.

Lemma injecters_close_witness :
  Forall (λ i, keeps gitaly_files fst (SendData.inj_Inject i archive_request "git-archive:e30="))
    [SendArchive (λ _, "") [] (λ _ _ _ _, Ret tt) (archive_json ""); SendBlob (λ _, "") no_json;
     SendDiff (λ _, "") no_json (λ _, (PList [], None)); SendPatch (λ _, "") no_json (λ _, (PList [], None));
     SendSnapshot no_json (λ _, (PList [], None))] ∧
  keeps gitaly_files snd (SendData.inj_Inject (SendArchive (λ _, "") [] (λ _ _ _ _, Ret tt) (archive_json ""))
    archive_request "git-archive:e30=").
Proof. apply (injecters_close (λ _, "") [] (λ _ _ _ _, Ret tt)); try apply _. done. Defined.

(** A connection that cannot be made: the handler reports it and goes on without a client. *)
Definition no_gitaly : env unit := λ X x w,
  match x in ext X return X * unit with
  | Dial_ _ _ => (inr (Errorf "dial"), w)
  | x => HelperProps.quiet_env _ x w
  end.
Example SendBlob_panics :
  let '(o, w, _) := run no_gitaly (Inject_blob (λ _, "") (λ _, inl {| bp_RepoPath := ""; BlobId := "";
      bp_GitalyServer := {| Gitaly.Address := "g"; Gitaly.Token := "t" |}; GetBlobRequest := PList [] |})
      archive_request "git-blob:e30=") (new_resp ∅) tt in
  o = Panic "runtime error: invalid memory address or nil pointer dereference" ∧ r_status w = Some 500%Z.
Proof. by vm_compute. Qed.
End GitSend.
