(* ===== verification/Streams.v ===== *)
(** * Readers and writers, call by call

    The rest of the library treats what is read from a request, a process or a stream of
    messages as a [body]: octets and the error that ends them.  Here the readers are the
    state machines the code has, one [Read] at a time with any size of the buffer, and each
    is proved to simulate the body the other files use: the counting reader and the archive
    reader of internal/git, the busy reader of internal/helper, the reader on a stream of
    messages of internal/gitaly.  Hashes that are fed in pieces give the checksums that the
    other files compute at once (internal/filestore, internal/objectstore). *)

From S2P Require Import Prelude GoString Http GoNet WriteAfterReader FileStore Git.
From stdpp Require Import options.

Module Streams.

(** ** Readers *)

(** [io.Reader]: the octets read into a buffer of a size, and the error. *)
Definition Reader (S : Type) : Type := nat → S → (bytes * option gerr) * S.

Definition rest_of (b : body) (rest : bytes) : body := {| b_data := rest; b_end := b_end b |}.

(** [R s b]: what is still to be read in state [s] is the body [b].  A reader simulates
    bodies if each read takes octets from the front, or the last ones with the error. *)
Class Simulates {S} (rd : Reader S) (R : S → body → Prop) : Prop :=
  sim_read : ∀ n s b, 0 < n → R s b →
    let '((d, e), s') := rd n s in
    length d ≤ n ∧
    match e with
    | None => ∃ rest, b_data b = d ++ rest ∧ R s' (rest_of b rest)
    | Some err => d = b_data b ∧ err = b_end b
    end.

(** Reads with buffers of these sizes, up to the first error. *)
Fixpoint reads {S} (rd : Reader S) (sizes : list nat) (s : S) : bytes * option gerr * S :=
  match sizes with
  | [] => ([], None, s)
  | n :: sizes =>
      let '((d, e), s) := rd n s in
      match e with
      | Some err => (d, Some err, s)
      | None => let '(d', e, s) := reads rd sizes s in (d ++ d', e, s)
      end
  end.

(** Whatever the sizes of the buffers, what is read is the body from its front; with the
    error it is all of it, and the error is the body's. *)
Lemma reads_body {S} (rd : Reader S) R {HR : Simulates rd R} sizes s b :
  Forall (lt 0) sizes → R s b →
  let '(d, e, s') := reads rd sizes s in
  match e with
  | None => ∃ rest, b_data b = d ++ rest ∧ R s' (rest_of b rest)
  | Some err => d = b_data b ∧ err = b_end b
  end.
Proof.
  intros Hn. revert s b. induction Hn as [|n sizes Hn _ IH]; intros s b Hs; cbn [reads].
  - exists (b_data b). by destruct b.
  - pose proof (sim_read (R := R) n s b Hn Hs) as H. destruct (rd n s) as [[d [err|]] s1].
    { by destruct H as [_ H]. }
    destruct H as (_ & rest & Hb & Hr). specialize (IH s1 _ Hr).
    destruct (reads rd sizes s1) as [[d' [err|]] s2]; cbn in IH.
    + destruct IH as [-> ->]. by rewrite Hb.
    + destruct IH as (rest' & -> & Hr'). exists rest'. by rewrite Hb, app_assoc.
Qed.

(** A reader that never returns nothing ends after as many reads as there are octets, and
    one more. *)
Class Eager {S} (rd : Reader S) (R : S → body → Prop) : Prop :=
  eager_read : ∀ n s b, 0 < n → R s b → let '((d, e), _) := rd n s in d ≠ [] ∨ e ≠ None.

Lemma reads_end {S} (rd : Reader S) R {HR : Simulates rd R} {He : Eager rd R} sizes s b :
  Forall (lt 0) sizes → R s b → length (b_data b) < length sizes →
  (reads rd sizes s).1.2 ≠ None.
Proof.
  intros Hn. revert s b. induction Hn as [|n sizes Hn _ IH]; intros s b Hs Hl; cbn in Hl; [lia|].
  cbn [reads]. pose proof (sim_read (R := R) n s b Hn Hs) as H.
  pose proof (eager_read (R := R) n s b Hn Hs) as Hd.
  destruct (rd n s) as [[d [err|]] s1]; [done|]. destruct H as (_ & rest & Hb & Hr).
  destruct Hd as [Hd|]; [|done]. specialize (IH s1 _ Hr). cbn in IH.
  rewrite Hb, length_app in Hl. destruct (reads rd sizes s1) as [[d' e] s2]. cbn in *. apply IH.
  destruct d; [done|]. cbn in Hl. lia.
Qed.

(** *** A connection

    The octets arrive in pieces, none of which is empty. *)
Definition connection : Type := list bytes * gerr.
Definition conn_read : Reader connection := λ n '(ps, end_),
  match ps with
  | [] => (([], Some end_), ([], end_))
  | p :: ps =>
      ((take n p, None), (match drop n p with [] => ps | rest => rest :: ps end, end_))
  end.
Definition conn_body (c : connection) (b : body) : Prop :=
  Forall (.≠ []) c.1 ∧ b = {| b_data := concat c.1; b_end := c.2 |}.

#[export] Instance conn_simulates : Simulates conn_read conn_body.
Proof.
  intros n [ps end_] b Hn [Hp ->]. cbn in *. destruct Hp as [|p ps Hp Hps]; [cbn; split; [lia|done]|].
  split; [rewrite length_take; lia|]. cbn [concat b_data fst snd].
  exists (drop n p ++ concat ps). split; [by rewrite app_assoc, take_drop|].
  unfold conn_body, rest_of. destruct (drop n p) as [|c l]; [done|]. split; [by constructor|done].
Qed.

#[export] Instance conn_eager : Eager conn_read conn_body.
Proof.
  intros n [ps end_] b Hn [Hp ->]. cbn in *. destruct Hp as [|[|c p] ps Hp Hps]; [by right|done|].
  destruct n; [lia|]. by left.
Qed.

(** ** The counting reader *)

(** The count and the reader below.
    [internal/git/git-http.go:102-106 countReadCloser] *)
Record countReadCloser (S : Type) := { n : Z; ReadCloser : S }.
Arguments n {S} _.
Arguments ReadCloser {S} _.
Arguments Build_countReadCloser {S} _ _.

(** [internal/git/git-http.go:108-116 countReadCloser.Read] *)
Definition count_Read {S} (rd : Reader S) : Reader (countReadCloser S) := λ k c,
  let '((d, err), s) := rd k (ReadCloser c) in
  ((d, err), {| n := n c + Z.of_nat (length d); ReadCloser := s |}).

(** [internal/git/git-http.go:118-122 countReadCloser.Count] *)
Definition Count {S} (c : countReadCloser S) : Z := n c.

Definition count_body {S} (R : S → body → Prop) (c : countReadCloser S) (b : body) : Prop :=
  R (ReadCloser c) b.

#[export] Instance count_simulates {S} (rd : Reader S) R :
  Simulates rd R → Simulates (count_Read rd) (count_body R).
Proof.
  intros HR k c b Hk Hc. pose proof (sim_read (R := R) k _ b Hk Hc) as H. unfold count_Read.
  by destruct (rd k (ReadCloser c)) as [[d [err|]] s].
Qed.

#[export] Instance count_eager {S} (rd : Reader S) R :
  Eager rd R → Eager (count_Read rd) (count_body R).
Proof.
  intros He k c b Hk Hc. pose proof (eager_read (R := R) k _ b Hk Hc) as H. unfold count_Read.
  by destruct (rd k (ReadCloser c)) as [[d e] s].
Qed.

(** The count is the number of octets that were read. *)
Lemma Count_reads {S} (rd : Reader S) sizes c :
  let '(d, _, c') := reads (count_Read rd) sizes c in
  Count c' = (Count c + Z.of_nat (length d))%Z.
Proof.
  revert c. induction sizes as [|k sizes IH]; intros c; cbn [reads]; [cbn; lia|].
  unfold count_Read at 1. destruct (rd k (ReadCloser c)) as [[d [err|]] s]; [done|].
  specialize (IH {| n := n c + Z.of_nat (length d); ReadCloser := s |}).
  destruct (reads _ sizes _) as [[d' e] c']. unfold Count in *. cbn in *. rewrite length_app. lia.
Qed.

(** ** The busy reader *)

(** The reader below is asked only while there is no error.
    [internal/helper/writeafterreader.go:32-45 busyReader.Read] *)
Definition busy_Read {S} (rd : Reader S) : Reader (WriteAfterReader.busyReader * S) := λ k '(r, s),
  if WriteAfterReader.IsBusy r then
    let '(ans, s) := rd k s in
    let '(res, r) := WriteAfterReader.Read r ans in (res, (r, s))
  else
    let '(res, r) := WriteAfterReader.Read r ([], None) in (res, (r, s)).

Definition busy_state {S} (R : S → body → Prop) (rs : WriteAfterReader.busyReader * S) (b : body) : Prop :=
  WriteAfterReader.error rs.1 = None ∧ ∃ b0, R rs.2 b0 ∧ b = Git.busy_body b0.

#[export] Instance busy_simulates {S} (rd : Reader S) R :
  Simulates rd R → Simulates (busy_Read rd) (busy_state R).
Proof.
  intros HR k [[err] s] b Hk [He (b0 & Hs & ->)]. cbn in He, Hs. subst err.
  pose proof (sim_read (R := R) k s b0 Hk Hs) as H. unfold busy_Read. cbn.
  destruct (rd k s) as [[d [e|]] s1]; destruct H as [Hl H]; (split; [exact Hl|]).
  - destruct H as [-> ->]. split; [done|]. cbn. by destruct (decide (b_end b0 = EOF)) as [->|].
  - destruct H as (rest & Hb & Hr). exists rest. split; [exact Hb|]. split; [done|].
    by exists (rest_of b0 rest).
Qed.

(** Once it has ended, it gives the same error for ever and does not read any more. *)
Lemma busy_ended {S} (rd : Reader S) k r s e :
  WriteAfterReader.error r = Some e → busy_Read rd k (r, s) = (([], Some e), (r, s)).
Proof.
  destruct r as [err]. cbn. intros ->. unfold busy_Read, WriteAfterReader.IsBusy. by cbn.
Qed.

(** How the busy reader reports an error of the reader below. *)
Definition busy_error (e : gerr) : gerr := if decide (e = EOF) then e else Wrapf "busyReader" e.

(** Up to its first error it reads what the reader below reads. *)
Lemma busy_reads {S} (rd : Reader S) sizes s :
  reads (busy_Read rd) sizes ({| WriteAfterReader.error := None |}, s) =
    let '(d, e, s') := reads rd sizes s in
    (d, busy_error <$> e, ({| WriteAfterReader.error := busy_error <$> e |}, s')).
Proof.
  revert s. induction sizes as [|k sizes IH]; intros s; [done|]. cbn [reads].
  unfold busy_Read at 1. cbn. destruct (rd k s) as [[d [e|]] s1]; [done|]. cbn. rewrite IH.
  by destruct (reads rd sizes s1) as [[d' e] s2].
Qed.

#[export] Instance busy_eager {S} (rd : Reader S) R :
  Eager rd R → Eager (busy_Read rd) (busy_state R).
Proof.
  intros He k [[err] s] b Hk [Hr (b0 & Hs & ->)]. cbn in Hr, Hs. subst err.
  pose proof (eager_read (R := R) k s b0 Hk Hs) as H. unfold busy_Read. cbn.
  destruct (rd k s) as [[d [e|]] s1]; cbn; [by right|by destruct H; [left|]].
Qed.

(** [c] reads the body of the client's request [b] for a push: it is counted and watched
    ([postRPCHandler], then [NewWriteAfterReader]).
    [internal/git/git-http.go:46-47 postRPCHandler] *)
Definition client_request {S} (s : S) : WriteAfterReader.busyReader * countReadCloser S :=
  (WriteAfterReader.NewWriteAfterReader.1, {| n := 0; ReadCloser := s |}).

Lemma client_request_reads {S} (R : S → body → Prop) s b :
  R s b → busy_state (count_body R) (client_request s) (Git.busy_body b).
Proof. intros Hs. split; [done|]. by exists b. Qed.

(** Whatever the sizes of the buffers, a push that is counted and watched is read as the
    rest of the library has it, and as many octets are counted as were read. *)
Theorem client_request_whole {S} (rd : Reader S) R {HR : Simulates rd R} sizes s b
    (Hn : Forall (lt 0) sizes) (Hs : R s b) :
  let '(d, e, (r, c)) := reads (busy_Read (count_Read rd)) sizes (client_request s) in
  Count c = Z.of_nat (length d) ∧ WriteAfterReader.IsBusy r = bool_decide (e = None) ∧
  match e with
  | None => d `prefix_of` b_data b
  | Some err => d = b_data b ∧ err = b_end (Git.busy_body b)
  end.
Proof.
  pose proof (reads_body (busy_Read (count_Read rd)) _ sizes _ _ Hn
    (client_request_reads R s b Hs)) as H.
  pose proof (Count_reads rd sizes {| n := 0; ReadCloser := s |}) as Hc.
  unfold client_request in *. cbn [fst WriteAfterReader.NewWriteAfterReader] in *.
  rewrite busy_reads in *. destruct (reads (count_Read rd) sizes _) as [[d e] c].
  rewrite Hc. destruct e as [e|]; cbn in *.
  - done.
  - destruct H as (rest & -> & _). repeat split; try done. by exists rest.
Qed.

(** ** The archive reader *)

(** The standard output, and whether the processes have been waited for; [exits] are their
    ends.
    [internal/git/archivereader.go:30-33 archiveReader] *)
Record archiveReader (S : Type) := { waited : bool; stdout : S }.
Arguments waited {S} _.
Arguments stdout {S} _.
Arguments Build_archiveReader {S} _ _.

Definition first_error (exits : list (option gerr)) : option gerr :=
  head (omap id exits).

(** A process that has been waited for cannot be waited for again. *)
Definition wait_error (exits : list (option gerr)) (again : bool) : option gerr :=
  first_error (if again then (λ _, Some (Errorf "exec: Wait was already called")) <$> exits else exits).

(** [internal/git/archivereader.go:35-47 archiveReader.Read] *)
Definition archive_Read {S} (rd : Reader S) (exits : list (option gerr)) : Reader (archiveReader S) :=
  λ k a,
  let '((d, err), s) := rd k (stdout a) in
  match err with
  | Some e =>
      if decide (e = EOF)
      then ((d, Some (default EOF (wait_error exits (waited a)))), {| waited := true; stdout := s |})
      else ((d, Some e), {| waited := waited a; stdout := s |})
  | None => ((d, None), {| waited := waited a; stdout := s |})
  end.

(** The body of an archive: its end is the first error of the processes. *)
Definition archive_body (exits : list (option gerr)) (b : body) : body :=
  {| b_data := b_data b;
     b_end := if decide (b_end b = EOF) then default EOF (first_error exits) else b_end b |}.
Definition archive_state {S} (exits : list (option gerr)) (R : S → body → Prop)
    (a : archiveReader S) (b : body) : Prop :=
  waited a = false ∧ ∃ b0, R (stdout a) b0 ∧ b = archive_body exits b0.

#[export] Instance archive_simulates {S} (rd : Reader S) R exits :
  Simulates rd R → Simulates (archive_Read rd exits) (archive_state exits R).
Proof.
  intros HR k [w s] b Hk [Hw (b0 & Hs & ->)]. cbn in Hw, Hs. subst w.
  pose proof (sim_read (R := R) k s b0 Hk Hs) as H. unfold archive_Read. cbn.
  destruct (rd k s) as [[d [e|]] s1]; destruct H as [Hl H].
  - destruct H as [-> ->]. unfold archive_body. cbn. by destruct (decide (b_end b0 = EOF)).
  - destruct H as (rest & Hb & Hr). split; [exact Hl|]. exists rest. split; [exact Hb|].
    split; [done|]. by exists (rest_of b0 rest).
Qed.

(** Reading again after the end does not give the end again. *)
Example archive_read_again :
  let read := archive_Read conn_read [None] in
  let a := {| waited := false; stdout := ([], EOF) |} in
  ((read 1 a).1, (read 1 (read 1 a).2).1) =
  (([], Some EOF), ([], Some (Errorf "exec: Wait was already called"))).
Proof. reflexivity. Qed.

(** ** Streams of messages *)

(** The messages that are still to come, and the error after them. *)
Definition recv (st : list bytes * gerr) : (bytes * option gerr) * (list bytes * gerr) :=
  match st with
  | ([], end_) => (([], Some end_), ([], end_))
  | (m :: ms, end_) => ((m, None), (ms, end_))
  end.

(** What was received and not yet read, and its error.
    [vendor/gitlab.com/gitlab-org/gitaly/streamio/stream.go:27-31 receiveReader] *)
Record receiveReader := { rr_data : bytes; rr_err : option gerr; receiver : list bytes * gerr }.

(** [vendor/gitlab.com/gitlab-org/gitaly/streamio/stream.go:23-25 NewReader] *)
Definition NewReader (receiver : list bytes * gerr) : receiveReader :=
  {| rr_data := []; rr_err := None; receiver := receiver |}.

(** [vendor/gitlab.com/gitlab-org/gitaly/streamio/stream.go:33-43 receiveReader.Read] *)
Definition receive_Read : Reader receiveReader := λ k rr,
  let rr := match rr_data rr with
            | [] => let '((d, e), st) := recv (receiver rr) in
                    {| rr_data := d; rr_err := e; receiver := st |}
            | _ => rr
            end in
  let d := take k (rr_data rr) in
  let rest := drop k (rr_data rr) in
  ((d, match rest with [] => rr_err rr | _ => None end),
   {| rr_data := rest; rr_err := rr_err rr; receiver := receiver rr |}).

(** [internal/gitaly/smarthttp.go:39-44 infoRefsReader] *)
Definition infoRefsReader (stream : list bytes * gerr) : receiveReader := NewReader stream.

Definition received (rr : receiveReader) (b : body) : Prop :=
  rr_err rr = None ∧
  b = {| b_data := rr_data rr ++ concat (receiver rr).1; b_end := (receiver rr).2 |}.

#[export] Instance receive_simulates : Simulates receive_Read received.
Proof.
  intros k [d e [ms end_]] b Hk [He ->]. cbn in He. subst e. unfold receive_Read. cbn [rr_data].
  destruct d as [|c d].
  - cbn [recv receiver]. destruct ms as [|m ms]; cbn [recv rr_data rr_err receiver].
    + rewrite take_nil, drop_nil. cbn. split; [lia|done].
    + split; [rewrite length_take; lia|]. replace (match drop k m with [] => None | _ => None end) with (@None gerr)
      by (by destruct (drop k m)).
      exists (drop k m ++ concat ms). cbn. split; [by rewrite app_assoc, take_drop|]. done.
  - cbn [rr_data rr_err receiver]. remember (c :: d) as l eqn:Hl. clear Hl c d.
    split; [rewrite length_take; lia|].
    replace (match drop k l with [] => None | _ => None end) with (@None gerr)
      by (by destruct (drop k l)).
    exists (drop k l ++ concat ms). cbn. split; [by rewrite app_assoc, take_drop|]. done.
Qed.

(** *** Writing all of a stream *)

(** [io.Writer]: how much it took, and its error. *)
Definition Writer (W : Type) : Type := bytes → W → (Z * option gerr) * W.

Section WriteTo.
Context {W : Type} (w : Writer W).

Fixpoint write_messages (ms : list bytes) (end_ : gerr) (written : Z) (s : W)
    : (Z * option gerr) * W :=
  match ms with
  | [] => ((written, if decide (end_ = EOF) then None else Some end_), s)
  | [] :: ms => write_messages ms end_ written s
  | m :: ms =>
      let '((n, errWrite), s) := w m s in
      match errWrite with
      | Some err => (((written + n)%Z, Some err), s)
      | None => write_messages ms end_ (written + n) s
      end
  end.

(** What [io.Copy] calls for such a reader.
    [vendor/gitlab.com/gitlab-org/gitaly/streamio/stream.go:46-78 receiveReader.WriteTo] *)
Definition WriteTo (rr : receiveReader) (s : W) : (Z * option gerr) * W :=
  let '((written, err), s) := match rr_data rr with [] => ((0%Z, None), s) | d => w d s end in
  match err, rr_err rr with
  | Some err, _ => ((written, Some err), s)
  | None, Some err => ((written, Some err), s)
  | None, None => write_messages (receiver rr).1 (receiver rr).2 written s
  end.
End WriteTo.

(** A writer that takes all and keeps it. *)
Definition keep : Writer bytes := λ d s, ((Z.of_nat (length d), None), s ++ d).

Lemma write_messages_keep ms end_ n s :
  write_messages keep ms end_ n s =
    (((n + Z.of_nat (length (concat ms)))%Z, if decide (end_ = EOF) then None else Some end_),
     s ++ concat ms).
Proof.
  revert n s. induction ms as [|[|c m] ms IH]; intros n0 s; cbn [write_messages concat].
  - by rewrite app_nil_r, Z.add_0_r.
  - apply IH.
  - unfold keep at 1. rewrite IH, app_assoc. rewrite length_app, Nat2Z.inj_add, Z.add_assoc. done.
Qed.

(** All messages of a stream are written, and a regular end is no error: what
    [Git]'s programs send on to the client. *)
Lemma WriteTo_keep st :
  WriteTo keep (NewReader st) [] =
    ((Z.of_nat (length (concat st.1)), if decide (st.2 = EOF) then None else Some st.2), concat st.1).
Proof. apply write_messages_keep. Qed.

(** *** Sending all of a reader *)

Section ReadFrom.
Context {S M : Type} (rd : Reader S) (sender : bytes → M → option gerr * M) (WriteBufferSize : nat).

(** The loop of [ReadFrom]; none if the fuel is not enough.
    [vendor/gitlab.com/gitlab-org/gitaly/streamio/stream.go:116-136 sendWriter.ReadFrom] *)
Fixpoint ReadFrom (fuel : nat) (nRead : Z) (s : S) (m : M) : option ((Z * option gerr) * S * M) :=
  match fuel with
  | 0 => None
  | Datatypes.S fuel =>
      let '((d, errRead), s) := rd WriteBufferSize s in
      let nRead := (nRead + Z.of_nat (length d))%Z in
      if bool_decide (errRead ≠ None ∧ errRead ≠ Some EOF) then Some ((nRead, errRead), s, m)
      else
        let '(errSend, m) := match d with [] => (None, m) | _ => sender d m end in
        if bool_decide (errSend = None ∧ errRead ≠ Some EOF) then ReadFrom fuel nRead s m
        else Some ((nRead, errSend), s, m)
  end.
End ReadFrom.

(** A sender that never fails and keeps its messages. *)
Definition collect (d : bytes) (ms : list bytes) : option gerr * list bytes := (None, ms ++ [d]).

(** A message that can be sent. *)
Definition message (size : nat) (m : bytes) : Prop := 0 < length m ≤ size.

Lemma messages_snoc size ms d :
  Forall (message size) ms → length d ≤ size → d ≠ [] → Forall (message size) (ms ++ [d]).
Proof.
  intros Hm Hl Hd. apply Forall_app. split; [done|]. apply Forall_singleton. split; [|done].
  destruct d; [done|]. cbn. lia.
Qed.

(** The messages are the body, cut, and everything is read with as much fuel as there are
    octets and one more. *)
Lemma ReadFrom_collect {S} (rd : Reader S) R {HR : Simulates rd R} {He : Eager rd R} size fuel k s b ms :
  0 < size → R s b → b_end b = EOF → Forall (message size) ms → length (b_data b) < fuel →
  ∃ s' ms', ReadFrom rd collect size fuel k s ms =
      Some (((k + Z.of_nat (length (b_data b)))%Z, None), s', ms') ∧
    concat ms' = concat ms ++ b_data b ∧ Forall (message size) ms'.
Proof.
  intros Hsize. revert k s b ms. induction fuel as [|fuel IH]; intros k s b ms Hs Hb Hms Hf; [lia|].
  cbn [ReadFrom]. pose proof (sim_read (R := R) size s b Hsize Hs) as H.
  pose proof (eager_read (R := R) size s b Hsize Hs) as Hd.
  destruct (rd size s) as [[d [err|]] s1]; destruct H as [Hl H].
  - destruct H as [-> ->]. rewrite Hb. cbn. destruct (b_data b) as [|c l] eqn:Hc.
    + exists s1, ms. by rewrite app_nil_r.
    + exists s1, (ms ++ [c :: l]). split; [done|]. rewrite concat_app. cbn. rewrite app_nil_r.
      split; [done|]. by apply messages_snoc.
  - destruct H as (rest & Hr & H). destruct Hd as [Hd|]; [|done]. cbn.
    destruct d as [|c d]; [done|]. rewrite Hr, length_app in Hf. cbn in Hf.
    destruct (IH (k + Z.of_nat (length (c :: d)))%Z s1 _ (ms ++ [c :: d]) H Hb) as (s' & ms' & E & Hc & Hm).
    { by apply messages_snoc. }
    { cbn. lia. }
    exists s', ms'. cbn [collect]. rewrite bool_decide_eq_true_2 by done.
    rewrite E, Hc, concat_app, Hr, length_app, Nat2Z.inj_add, Z.add_assoc. cbn [concat b_data rest_of].
    by rewrite app_nil_r, <- app_assoc.
Qed.

Lemma busy_count_read {S} (rd : Reader S) k r c :
  let '((d, _), (_, c')) := busy_Read (count_Read rd) k (r, c) in
  Count c' = (Count c + Z.of_nat (length d))%Z.
Proof.
  destruct r as [[e|]]; unfold busy_Read; cbn; [lia|]. unfold count_Read.
  by destruct (rd k (ReadCloser c)) as [[d [e|]] s].
Qed.

(** What is counted is what [ReadFrom] has read. *)
Lemma ReadFrom_count {S M} (rd : Reader S) (sender : bytes → M → option gerr * M)
    size fuel k r c m k' e r' c' m' :
  ReadFrom (busy_Read (count_Read rd)) sender size fuel k (r, c) m = Some ((k', e), (r', c'), m') →
  (Count c' - Count c = k' - k)%Z.
Proof.
  revert k r c m. induction fuel as [|fuel IH]; intros k r c m; [done|]. cbn [ReadFrom].
  pose proof (busy_count_read rd size r c) as H.
  destruct (busy_Read _ size (r, c)) as [[d err] [r1 c1]].
  repeat (case_bool_decide || case_match); intros E; simplify_eq; try apply IH in E; lia.
Qed.

(** C40: a push is relayed whole: the messages sent to Gitaly are the client's body cut into
    pieces of at most the size of a buffer, and the metrics count all of it. *)
Theorem push_relayed {S} (rd : Reader S) R {HR : Simulates rd R} {He : Eager rd R} size s b
    (Hsize : 0 < size) (Hs : R s b) (Hb : b_end b = EOF) :
  ∃ r c ms,
    ReadFrom (busy_Read (count_Read rd)) collect size (length (b_data b) + 1) 0
        (client_request s) [] =
      Some ((Z.of_nat (length (b_data b)), None), (r, c), ms) ∧
    Count c = Z.of_nat (length (b_data b)) ∧ concat ms = b_data b ∧ Forall (message size) ms.
Proof.
  destruct (ReadFrom_collect (busy_Read (count_Read rd)) _ size (length (b_data b) + 1) 0
    (client_request s) (Git.busy_body b) [] Hsize (client_request_reads R s b Hs))
    as ([r c] & ms & E & Hc & Hm); [by cbn; rewrite Hb|done|cbn; lia|].
  exists r, c, ms. split; [done|]. pose proof E as H. apply ReadFrom_count in H. cbn in H. split; [lia|done].
Qed.

Lemma push_relayed_witness :
  ∃ r c ms,
    ReadFrom (busy_Read (count_Read conn_read)) collect 3 8 0
        (client_request ([to_bytes "ab"; to_bytes "cdefg"], EOF)) [] = Some ((7%Z, None), (r, c), ms) ∧
    Count c = 7%Z ∧ concat ms = to_bytes "abcdefg" ∧ Forall (message 3) ms.
Proof.
  apply (push_relayed conn_read conn_body 3 _ {| b_data := to_bytes "abcdefg"; b_end := EOF |}).
  - lia.
  - split; [repeat constructor; done|done].
  - done.
Defined.

(** The pieces that the buffer makes of it. *)
Example push_messages :
  (λ x, (x.1.1, x.2)) <$>
    ReadFrom (busy_Read (count_Read conn_read)) collect 3 8 0
      (client_request ([to_bytes "ab"; to_bytes "cdefg"], EOF)) [] =
  Some ((7%Z, None), [to_bytes "ab"; to_bytes "cde"; to_bytes "fg"]).
Proof. reflexivity. Qed.

(** ** Hashes fed in pieces *)

(** What the code asks of [hash.Hash]: fed with the pieces of a text, it ends with the
    checksum of the text. *)
Class IncrementalHash {H} (new : H) (feed : bytes → H → H) (Sum : H → bytes)
    (checksum : bytes → bytes) : Prop :=
  hash_pieces : ∀ ps, Sum (foldl (λ h p, feed p h) new ps) = checksum (concat ps).

Section multi_hash.
Context {H : Type} (new : string → H) (feed : string → bytes → H → H) (Sum : string → H → bytes).
Context (md5 sha1 sha256 sha512 : bytes → bytes).
Context {Hmd5 : IncrementalHash (new "md5") (feed "md5") (Sum "md5") md5}
  {Hsha1 : IncrementalHash (new "sha1") (feed "sha1") (Sum "sha1") sha1}
  {Hsha256 : IncrementalHash (new "sha256") (feed "sha256") (Sum "sha256") sha256}
  {Hsha512 : IncrementalHash (new "sha512") (feed "sha512") (Sum "sha512") sha512}.

(** [internal/filestore/multi_hash.go:20-23 multiHash] *)
Record multiHash := { hashes : gmap string H }.

(** [internal/filestore/multi_hash.go:25-39 newMultiHash] *)
Definition newMultiHash : multiHash :=
  {| hashes := foldl (λ m name, <[name := new name]> m) (∅ : gmap string H)
                 ((FileStore.hashFactories md5 sha1 sha256 sha512).*1) |}.

(** [Write] of the [io.MultiWriter] over the hashes, none of which fails. *)
Definition multi_Write (p : bytes) (m : multiHash) : multiHash :=
  {| hashes := map_imap (λ name h, Some (feed name p h)) (hashes m) |}.

(** [internal/filestore/multi_hash.go:41-48 multiHash.finish] *)
Definition finish (m : multiHash) : gmap string string :=
  map_imap (λ name h, Some (Hex.EncodeToString (Sum name h))) (hashes m).

Lemma multi_Write_lookup ps m name :
  hashes (foldl (λ m p, multi_Write p m) m ps) !! name =
    (λ h, foldl (λ h p, feed name p h) h ps) <$> hashes m !! name.
Proof using Type.
  revert m. induction ps as [|p ps IH]; intros m; cbn [foldl]; [by destruct (_ !! _)|].
  rewrite IH. cbn. rewrite map_lookup_imap. by destruct (hashes m !! name).
Qed.

(** However the octets of a file are cut into pieces, the checksums are those of the file. *)
Theorem multi_hash_whole (ps : list bytes) :
  finish (foldl (λ m p, multi_Write p m) newMultiHash ps) =
    FileStore.finish md5 sha1 sha256 sha512 (concat ps).
Proof using All.
  apply map_eq. intros name. unfold finish. rewrite map_lookup_imap, multi_Write_lookup.
  unfold newMultiHash, FileStore.finish. cbn.
  rewrite !lookup_insert. repeat case_decide; subst; cbn; try done;
    by rewrite hash_pieces.
Qed.
End multi_hash.

(** Instances of the hashes: a text is kept, and the checksum computed from it. *)
Definition kept : Type := bytes.
#[export] Instance kept_incremental (checksum : bytes → bytes) :
  IncrementalHash (H := kept) [] (λ p h, h ++ p) checksum checksum.
Proof.
  intros ps. f_equal. change (concat ps) with ([] ++ concat ps). generalize (@nil ascii).
  induction ps as [|p ps IH]; intros h; cbn; [by rewrite app_nil_r|]. by rewrite IH, app_assoc.
Qed.

Lemma multi_hash_whole_witness :
  let sum := λ (name : string) (h : kept), if String.eqb name "md5" then rev h else take 2 h in
  let feed := λ (_ : string) (p : bytes) (h : kept), h ++ p in
  finish sum (foldl (λ m p, multi_Write feed p m) (newMultiHash (λ _, [] : kept) (@rev _) (take 2) (take 2) (take 2))
      [to_bytes "ab"; []; to_bytes "c"]) =
    FileStore.finish (@rev _) (take 2) (take 2) (take 2) (to_bytes "abc").
Proof.
  intros sum feed.
  apply (multi_hash_whole (λ _, [] : kept) feed sum (@rev _) (take 2) (take 2) (take 2)
    (Hmd5 := kept_incremental (@rev _)) (Hsha1 := kept_incremental (take 2))
    (Hsha256 := kept_incremental (take 2)) (Hsha512 := kept_incremental (take 2))
    [to_bytes "ab"; []; to_bytes "c"]).
Defined.

Lemma client_request_whole_witness :
  let '(d, e, (r, c)) := reads (busy_Read (count_Read conn_read)) [2; 5]
      (client_request ([to_bytes "ab"; to_bytes "cdefg"], EOF)) in
  Count c = Z.of_nat (length d) ∧ WriteAfterReader.IsBusy r = bool_decide (e = None) ∧
  match e with
  | None => d `prefix_of` to_bytes "abcdefg"
  | Some err => d = to_bytes "abcdefg" ∧ err = EOF
  end.
Proof.
  apply (client_request_whole conn_read conn_body [2; 5] _ {| b_data := to_bytes "abcdefg"; b_end := EOF |}).
  - repeat constructor.
  - split; [repeat constructor; done|done].
Defined.

End Streams.
