(* ===== verification/GitalyServer.v ===== *)
(** * The Gitaly server of the tests (internal/testhelper)

    The repository has a Gitaly server that answers with texts it makes up and echoes what
    it is sent.  It is modelled as a server: its methods on a stream of answers, which may
    break.  The clients of GitalyClient.v and the handlers of Git.v and GitSend.v are then
    proved against it, end to end: a push reaches the server octet by octet and its answer
    the client, a list of references and a blob arrive whole, with the length announced. *)

From S2P Require Import Prelude GoString Http GoNet Helper Gitaly Api SendData GitalyClient ObjectStore Git GitSend.
From stdpp Require Import options.

Module GitalyServer.

(** [strings.Repeat]. *)
Definition Repeat (s : string) (n : nat) : bytes := concat (replicate n (to_bytes s)).

(** [internal/testhelper/gitaly.go:20-23 GitalyTestServer] *)
Record GitalyTestServer := { finalMessageCode : Z }.

(** [internal/testhelper/gitaly.go:48-50 NewGitalyServer] *)
Definition NewGitalyServer (finalMessageCode : Z) : GitalyTestServer :=
  {| finalMessageCode := finalMessageCode |}.

(** The texts of the answers: a hundred thousand repetitions in the code, any number here. *)
Section mocks.
Context (times : nat).
(** [internal/testhelper/gitaly.go:26-26 GitalyInfoRefsResponseMock] *)
Definition GitalyInfoRefsResponseMock : bytes := Repeat "Mock Gitaly InfoRefsResponse data" times.
(** [internal/testhelper/gitaly.go:27-27 GitalyGetBlobResponseMock] *)
Definition GitalyGetBlobResponseMock : bytes := Repeat "Mock Gitaly GetBlobResponse data" times.
(** [internal/testhelper/gitaly.go:28-28 GitalyGetArchiveResponseMock] *)
Definition GitalyGetArchiveResponseMock : bytes := Repeat "Mock Gitaly GetArchiveResponse data" times.
(** [internal/testhelper/gitaly.go:29-29 GitalyGetDiffResponseMock] *)
Definition GitalyGetDiffResponseMock : bytes := Repeat "Mock Gitaly GetDiffResponse data" times.
(** [internal/testhelper/gitaly.go:30-30 GitalyGetPatchResponseMock] *)
Definition GitalyGetPatchResponseMock : bytes := Repeat "Mock Gitaly GetPatchResponse data" times.
(** [internal/testhelper/gitaly.go:32-32 GitalyGetSnapshotResponseMock] *)
Definition GitalyGetSnapshotResponseMock : bytes := Repeat "Mock Gitaly GetSnapshotResponse data" times.
End mocks.

(** ** Messages *)

(** The fields of a request; those that are missing are empty. *)
Fixpoint find_field (name : string) (l : list (string * pb)) : option pb :=
  match l with
  | [] => None
  | (k, v) :: l => if String.eqb k name then Some v else find_field name l
  end.
Definition get_field (name : string) (m : option pb) : option pb :=
  match m with Some (PMsg l) => find_field name l | _ => None end.
Definition get_text (name : string) (m : option pb) : string :=
  match get_field name m with Some (PText s) => s | _ => "" end.

(** [internal/testhelper/gitaly.go:361-369 validateRepository] *)
Definition validateRepository (repo : option pb) : option gerr :=
  if String.eqb (get_text "storage_name" repo) "" then Some (Errorf "missing storage_name")
  else if String.eqb (get_text "relative_path" repo) "" then Some (Errorf "missing relative_path")
  else None.

(** A message of an answer; only blobs have a name and a size. *)
Record message := { g_oid : string; g_size : Z; g_data : bytes }.
Definition data_message (p : bytes) : message := {| g_oid := ""; g_size := 0; g_data := p |}.

(** ** Sending *)

Section send.
Context {S : Type} (sender : bytes → S → option gerr * S) (chunkSize : nat).

(** The number of messages that were sent, the error, the state of the sender.
    [internal/testhelper/gitaly.go:336-351 sendBytes] *)
Fixpoint send_loop (fuel i : nat) (data : bytes) (s : S) : nat * option gerr * S :=
  match data, fuel with
  | [], _ | _, O => (i, None, s)
  | _, Datatypes.S fuel =>
      let n := if length data <? chunkSize then length data else chunkSize in
      match sender (take n data) s with
      | (Some err, s) => (i, Some err, s)
      | (None, s) => send_loop fuel (i + 1) (drop n data) s
      end
  end.
Definition sendBytes (data : bytes) (s : S) : nat * option gerr * S :=
  send_loop (length data) 0 data s.
End send.

(** What a method ends with: the messages it sent, and its error. *)
Abbreviation answer := (outcome (list message * option gerr)).

Section server.
Context (times : nat) (MarshalToString : pb → result string).
Context (s : GitalyTestServer).
(** [stream.Send]: the error of the message after [k] others, if the stream is broken. *)
Context (broken : nat → option gerr).

Definition Send (m : message) (sent : list message) : option gerr * list message :=
  match broken (length sent) with
  | Some err => (Some err, sent)
  | None => (None, sent ++ [m])
  end.

(** [internal/testhelper/gitaly.go:353-359 GitalyTestServer.finalError] *)
Definition finalError : option gerr :=
  if negb (finalMessageCode s =? 0)%Z
  then Some (Wrapf ("rpc error: code = " +:+ itoa (finalMessageCode s)) (Errorf "error as specified by test"))
  else None.

(** [internal/testhelper/gitaly.go:101-104 marshalJSON] *)
Definition marshalJSON (msg : pb) : result string := MarshalToString msg.

(** The end of the methods that check the error of [sendBytes]. *)
Definition finish (r : nat * option gerr * list message) : answer :=
  let '(nSends, err, sent) := r in
  match err with
  | Some err => Value (sent, Some err)
  | None =>
      if nSends <=? 1 then Panic "should have sent more than one message"
      else Value (sent, finalError)
  end.

Definition failed (err : gerr) : answer := Value ([], Some err).

(** [internal/testhelper/gitaly.go:110-122 GitalyTestServer.sendInfoRefs] *)
Definition sendInfoRefs (data : bytes) : answer :=
  finish (sendBytes (λ p, Send (data_message p)) 100 data []).

Definition zero : bytes := ["000"%char].
Definition info_refs (service : string) (in_ : pb) : answer :=
  match validateRepository (get_field "repository" (Some in_)) with
  | Some err => failed err
  | None =>
      match marshalJSON in_ with
      | inr err => failed err
      | inl jsonString =>
          sendInfoRefs (to_bytes jsonString ++ zero ++ to_bytes service ++ zero ++
                        GitalyInfoRefsResponseMock times)
      end
  end.

(** [internal/testhelper/gitaly.go:52-75 GitalyTestServer.InfoRefsUploadPack] *)
Definition InfoRefsUploadPack (in_ : pb) : answer := info_refs "git-upload-pack" in_.

(** [internal/testhelper/gitaly.go:77-99 GitalyTestServer.InfoRefsReceivePack] *)
Definition InfoRefsReceivePack (in_ : pb) : answer := info_refs "git-receive-pack" in_.

(** The first message is the request, the others have the data, which is echoed.  An error
    of sending is not looked at.
    [internal/testhelper/gitaly.go:124-168 GitalyTestServer.PostReceivePack] *)
Definition PostReceivePack (req : result pb) (rest : body) : answer :=
  match req with
  | inr err => failed err
  | inl req =>
      match validateRepository (get_field "repository" (Some req)) with
      | Some err => failed err
      | None =>
          match marshalJSON req with
          | inr err => failed err
          | inl jsonString =>
              match read_all rest with
              | (_, Some err) => failed err
              | (d, None) =>
                  let data := to_bytes jsonString ++ zero ++ d in
                  let '(nSends, _, sent) := sendBytes (λ p, Send (data_message p)) 100 data [] in
                  if nSends <=? 1 then Panic "should have sent more than one message"
                  else Value (sent, finalError)
              end
          end
      end
  end.

(** [internal/testhelper/gitaly.go:170-214 GitalyTestServer.PostUploadPack] *)
Definition PostUploadPack (req : result pb) (rest : body) : answer :=
  match req with
  | inr err => failed err
  | inl req =>
      match validateRepository (get_field "repository" (Some req)) with
      | Some err => failed err
      | None =>
          match marshalJSON req with
          | inr err => failed err
          | inl jsonString =>
              match read_all rest with
              | (_, Some err) => failed err
              | (d, None) =>
                  let data := to_bytes jsonString ++ zero ++ d in
                  let '(nSends, _, sent) := sendBytes (λ p, Send (data_message p)) 100 data [] in
                  if nSends <=? 1 then Panic "should have sent more than one message"
                  else Value (sent, finalError)
              end
          end
      end
  end.

(** The next message is made anew after each one that was sent. *)
Definition send_blob (p : bytes) (st : (bytes → message) * list message)
    : option gerr * ((bytes → message) * list message) :=
  let '(response, sent) := st in
  match Send (response p) sent with
  | (Some err, sent) => (Some err, (response, sent))
  | (None, sent) => (None, (data_message, sent))
  end.

(** Only the first message has the name and the size.
    [internal/testhelper/gitaly.go:220-252 GitalyTestServer.GetBlob] *)
Definition GetBlob (in_ : pb) : answer :=
  match validateRepository (get_field "repository" (Some in_)) with
  | Some err => failed err
  | None =>
      let mock := GitalyGetBlobResponseMock times in
      let response p := {| g_oid := get_text "oid" (Some in_); g_size := Z.of_nat (length mock);
                           g_data := p |} in
      let '(nSends, err, (_, sent)) := sendBytes send_blob 100 mock (response, []) in
      finish (nSends, err, sent)
  end.

(** A text after the repository has been looked at. *)
Definition checked (mock : bytes) (in_ : pb) : answer :=
  match validateRepository (get_field "repository" (Some in_)) with
  | Some err => failed err
  | None => finish (sendBytes (λ p, Send (data_message p)) 100 mock [])
  end.

(** [internal/testhelper/gitaly.go:254-273 GitalyTestServer.GetArchive] *)
Definition GetArchive : pb → answer := checked (GitalyGetArchiveResponseMock times).

(** The repository is not looked at.
    [internal/testhelper/gitaly.go:275-289 GitalyTestServer.RawDiff] *)
Definition RawDiff (_ : pb) : answer :=
  finish (sendBytes (λ p, Send (data_message p)) 100 (GitalyGetDiffResponseMock times) []).

(** [internal/testhelper/gitaly.go:291-312 GitalyTestServer.RawPatch] *)
Definition RawPatch : pb → answer := checked (GitalyGetPatchResponseMock times).

(** [internal/testhelper/gitaly.go:314-333 GitalyTestServer.GetSnapshot] *)
Definition GetSnapshot : pb → answer := checked (GitalyGetSnapshotResponseMock times).

(** The methods nothing is asked of: those with one answer return a nil message and a nil
    error, those that stream end their stream at once. *)
Inductive shape := Unary | Streaming.
Definition nothing (m : shape) : option answer :=
  match m with Unary => None | Streaming => Some (Value ([], None)) end.

(** [internal/testhelper/gitaly_dummies.go:8-170 GitalyTestServer] *)
Definition dummies : list (string * shape) :=
  [("RepositoryExists", Unary); ("RepackIncremental", Unary); ("RepackFull", Unary);
   ("GarbageCollect", Unary); ("RepositorySize", Unary); ("ApplyGitattributes", Unary);
   ("FetchRemote", Unary); ("FetchSourceBranch", Unary); ("CreateRepository", Unary);
   ("Exists", Unary); ("HasLocalBranches", Unary); ("CommitDelta", Streaming);
   ("CommitDiff", Streaming); ("CommitPatch", Streaming); ("GetBlobs", Streaming);
   ("GetAllLFSPointers", Streaming); ("GetLFSPointers", Streaming); ("GetNewLFSPointers",
   Streaming); ("CreateFork", Unary); ("CalculateChecksum", Unary); ("CreateBundle",
   Streaming); ("CreateRepositoryFromBundle", Streaming); ("CreateRepositoryFromURL",
   Unary); ("FindLicense", Unary); ("FindMergeBase", Unary); ("Fsck", Unary);
   ("GetInfoAttributes", Streaming); ("IsRebaseInProgress", Unary); ("IsSquashInProgress",
   Unary); ("WriteConfig", Unary); ("WriteRef", Unary); ("Cleanup", Unary);
   ("CreateRepositoryFromSnapshot", Unary); ("BackupCustomHooks", Streaming);
   ("DeleteConfig", Unary); ("GetRawChanges", Streaming); ("RestoreCustomHooks", Streaming);
   ("SearchFilesByContent", Streaming); ("SearchFilesByName", Streaming); ("SetConfig",
   Unary); ("DiffStats", Streaming)].

(** [internal/testhelper/gitaly.go:216-218 GitalyTestServer.CommitIsAncestor] *)
Definition CommitIsAncestor : option answer := nothing Unary.

(** ** Calls

    The server's methods by their names, as gRPC calls them. *)
Definition dispatch (method : string) (request : pb) : answer :=
  if String.eqb method "SmartHTTPService/InfoRefsUploadPack" then InfoRefsUploadPack request
  else if String.eqb method "SmartHTTPService/InfoRefsReceivePack" then InfoRefsReceivePack request
  else if String.eqb method "BlobService/GetBlob" then GetBlob request
  else if String.eqb method "RepositoryService/GetArchive" then GetArchive request
  else if String.eqb method "RepositoryService/GetSnapshot" then GetSnapshot request
  else if String.eqb method "DiffService/RawDiff" then RawDiff request
  else if String.eqb method "DiffService/RawPatch" then RawPatch request
  else failed (Errorf "rpc error: unimplemented").

(** What the client of a call receives. *)
Definition stream_of (a : answer) : rpc_stream :=
  match a with
  | Value (sent, err) =>
      {| rs_size := g_size <$> head sent;
         rs_body := {| b_data := concat (g_data <$> sent); b_end := default EOF err |} |}
  | Panic _ =>
      {| rs_size := None;
         rs_body := {| b_data := []; b_end := Errorf "rpc error: transport is closing" |} |}
  end.

(** An exchange: the first message is the request, the others have the data; when reading
    the data fails, the client closes its stream too. *)
Definition exchange (method : string) (request : pb) (data : bytes) : answer :=
  if String.eqb method "SmartHTTPService/PostReceivePack" then PostReceivePack (inl request) (whole data)
  else if String.eqb method "SmartHTTPService/PostUploadPack" then PostUploadPack (inl request) (whole data)
  else failed (Errorf "rpc error: unimplemented").

(** The method reads all messages. *)
Definition accepted (request : pb) : bool :=
  match validateRepository (get_field "repository" (Some request)), marshalJSON request with
  | None, inl _ => true
  | _, _ => false
  end.
End server.

(** An environment whose Gitaly is this server, on connections that hold.  Nothing is
    answered before all is sent; all is sent when the method reads all. *)
Class GitalyEnv {V} (E : env V) (times : nat) (MarshalToString : pb → result string)
    (s : GitalyTestServer) : Prop := {
  gitaly_Dial address token v : ∃ c, (E _ (Dial_ address token) v).1 = inl c;
  gitaly_Rpc c method request v :
    (E _ (Rpc_ c method request) v).1 =
      inl (stream_of (dispatch times MarshalToString s (λ _, None) method request));
  gitaly_Bidi c method request data v : ∃ session,
    (E _ (Bidi_ c method request data) v).1 = inl session ∧ rpc_early session = [] ∧
    rpc_answer session = rs_body (stream_of (exchange MarshalToString s (λ _, None) method request
                                              (b_data data))) ∧
    (accepted MarshalToString request = true → rpc_send_error session = None);
}.

(** ** What is sent *)

Section facts.
Context (times : nat) (MarshalToString : pb → result string) (s : GitalyTestServer).

(** The messages of a text: pieces of 100 octets, the last one may be smaller. *)
Definition pieces (data : bytes) : list bytes := ObjectStore.chunks (length data) 100 data.

Lemma pieces_concat data : concat (pieces data) = data.
Proof. unfold pieces. rewrite ObjectStore.chunks_concat, take_ge; [done|lia]. Qed.

Lemma send_loop_spec broken fuel i data sent :
  length data ≤ fuel →
  let cs := ObjectStore.chunks fuel 100 data in
  ∃ k err, send_loop (λ p, Send broken (data_message p)) 100 fuel i data sent =
      (i + k, err, sent ++ (data_message <$> take k cs)) ∧ k ≤ length cs ∧
    match err with
    | None => k = length cs
    | Some e => k < length cs ∧ broken (length sent + k) = Some e
    end.
Proof.
  revert i data sent. induction fuel as [|fuel IH]; intros i data sent Hd; cbv zeta.
  - destruct data; [|cbn in Hd; lia]. exists 0, None. cbn. by rewrite Nat.add_0_r, app_nil_r.
  - destruct data as [|c data].
    { exists 0, None. cbn. by rewrite Nat.add_0_r, app_nil_r. }
    cbn [send_loop]. set (d := c :: data) in *.
    assert (take (if length d <? 100 then length d else 100) d = take 100 d ∧
            drop (if length d <? 100 then length d else 100) d = drop 100 d) as [-> ->].
    { destruct (Nat.ltb_spec (length d) 100); [|done]. by rewrite !take_ge, !drop_ge by lia. }
    cbn [ObjectStore.chunks]. destruct (take 100 d) as [|x l] eqn:Et; [done|]. rewrite <- Et.
    unfold Send at 1. destruct (broken (length sent)) as [e|] eqn:Eb.
    { exists 0, (Some e). cbn. rewrite !Nat.add_0_r, app_nil_r. split_and!; [done|lia|lia|done]. }
    destruct (IH (i + 1) (drop 100 d) (sent ++ [data_message (take 100 d)])) as (k & err & -> & Hk & He).
    { rewrite length_drop. lia. }
    exists (Datatypes.S k), err. cbn [take fmap list_fmap length]. rewrite <- app_assoc.
    split_and!; [f_equal; f_equal; lia|lia|]. destruct err; [|lia].
    rewrite length_app in He. cbn [length] in He. destruct He as [H1 H2]. split; [lia|].
    by replace (length sent + Datatypes.S k) with (length sent + 1 + k) by lia.
Qed.

(** Sending a text stops at the first message that cannot be sent: what was sent is the
    beginning of the text, in messages of 100 octets, and all of it if there is no error. *)
Theorem sendBytes_spec (broken : nat → option gerr) (data : bytes) :
  ∃ k err, sendBytes (λ p, Send broken (data_message p)) 100 data [] =
      (k, err, data_message <$> take k (pieces data)) ∧
    concat (take k (pieces data)) `prefix_of` data ∧
    match err with
    | None => k = length (pieces data) ∧ concat (take k (pieces data)) = data
    | Some e => k < length (pieces data) ∧ broken k = Some e
    end.
Proof.
  destruct (send_loop_spec broken (length data) 0 data [] ltac:(lia)) as (k & err & H & Hk & He).
  exists k, err. split; [exact H|]. fold (pieces data) in *. split.
  - rewrite <- (pieces_concat data) at 2. rewrite <- (take_drop k (pieces data)) at 2.
    rewrite concat_app. by apply prefix_app_r.
  - destruct err; [done|]. rewrite He, take_ge by lia. split; [done|apply pieces_concat].
Qed.

Lemma pieces_many data : 100 < length data → 1 < length (pieces data).
Proof.
  intros Hd. pose proof (pieces_concat data) as Hc.
  pose proof (ObjectStore.chunks_size (length data) 100 data 0) as Hs. fold (pieces data) in Hs.
  destruct (pieces data) as [|c [|d l]]; [cbn in Hc; subst; cbn in Hd; lia|..|cbn; lia].
  destruct (Hs c eq_refl) as (Hl & _). cbn in Hc. rewrite app_nil_r in Hc. subst. lia.
Qed.

(** On a stream that holds, a text of more than a message arrives whole. *)
Lemma sends_whole data : 100 < length data → ∃ k,
  sendBytes (λ p, Send (λ _, None) (data_message p)) 100 data [] =
    (k, None, data_message <$> pieces data) ∧ (k <=? 1) = false.
Proof.
  intros Hd. destruct (sendBytes_spec (λ _, None) data) as (k & [e|] & H & _ & He); [naive_solver|].
  destruct He as [-> _]. exists (length (pieces data)). rewrite H, take_ge by lia. split; [done|].
  apply Nat.leb_gt. by apply pieces_many.
Qed.

Lemma data_of_messages cs : concat (g_data <$> (data_message <$> cs)) = concat cs.
Proof. f_equal. induction cs as [|c cs IH]; [done|]. cbn. by rewrite IH. Qed.

(** The messages of a blob after the first one are as all others. *)
Lemma send_blob_loop broken fuel i data sent :
  send_loop (send_blob broken) 100 fuel i data (data_message, sent) =
    let '(n, err, sent) := send_loop (λ p, Send broken (data_message p)) 100 fuel i data sent in
    (n, err, (data_message, sent)).
Proof.
  revert i data sent. induction fuel as [|fuel IH]; intros i [|c data] sent; try done.
  cbn [send_loop send_blob]. set (d := take _ (c :: data)).
  destruct (Send broken (data_message d) sent) as [[e|] sent']; [done|]. apply IH.
Qed.

Lemma sends_blob response data : 100 < length data → ∃ k c cs,
  sendBytes (send_blob (λ _, None)) 100 data (response, []) =
    (k, None, (data_message, response c :: (data_message <$> cs))) ∧ (k <=? 1) = false ∧
  c ++ concat cs = data.
Proof.
  intros Hd. pose proof (pieces_many data Hd) as Hm. pose proof (pieces_concat data) as Hc.
  unfold pieces in Hm, Hc. unfold sendBytes. destruct (length data) as [|n] eqn:El; [lia|].
  destruct data as [|x data]; [done|]. set (d := x :: data) in *.
  cbn [send_loop]. assert ((length d <? 100) = false) as Hlt by (apply Nat.ltb_ge; lia).
  destruct d as [|x' data'] eqn:Ed; [done|]. rewrite <- Ed in *. rewrite Hlt. cbn [send_blob Send].
  cbn [ObjectStore.chunks] in Hm, Hc. destruct (take 100 d) as [|y l] eqn:Et; [by subst d|].
  rewrite <- Et in *. cbn [app]. rewrite send_blob_loop.
  destruct (send_loop_spec (λ _, None) n (0 + 1) (drop 100 d) [response (take 100 d)])
    as (k & [e|] & -> & Hk & He); [rewrite length_drop; lia|naive_solver|].
  rewrite (take_ge _ k) by lia. subst k.
  eexists _, (take 100 d), _. split; [reflexivity|]. split; [|exact Hc].
  apply Nat.leb_gt. cbn [length] in Hm. lia.
Qed.
End facts.

(** ** End to end *)

Section clients.
Context {V : Type} (E : env V) (times : nat) (MarshalToString : pb → result string)
  (s : GitalyTestServer) {HE : GitalyEnv E times MarshalToString s}.
Context (Getenv : string → string).
#[local] Set Default Proof Using "Type*".

Definition valid (repo : Gitaly.Repository) : Prop :=
  Gitaly.StorageName repo ≠ "" ∧ Gitaly.RelativePath repo ≠ "".

Lemma validate_valid repo : valid repo →
  validateRepository (Some (GitalyClient.repository repo)) = None.
Proof using Type.
  intros [H1 H2]. unfold validateRepository. cbn.
  by destruct (String.eqb_spec (Gitaly.StorageName repo) ""),
    (String.eqb_spec (Gitaly.RelativePath repo) "").
Qed.

(** The request of a push. *)
Definition push_request (r : Request) (a : Api.Response) : pb :=
  PMsg [("repository", GitalyClient.repository (Api.Repository a)); ("gl_id", PText (Api.GL_ID a));
        ("gl_username", PText (Api.GL_USERNAME a)); ("gl_repository", PText (Api.GL_REPOSITORY a));
        ("git_config_options", PList (Api.GitConfigOptions a));
        ("git_protocol", PText (Header.Get (Header_ r) "Git-Protocol"))].

(** What the server answers to it. *)
Lemma push_answer request json d :
  validateRepository (get_field "repository" (Some request)) = None →
  MarshalToString request = inl json → 100 < length (to_bytes json) + length d →
  rs_body (stream_of (exchange MarshalToString s (λ _, None) "SmartHTTPService/PostReceivePack"
                        request d)) =
    {| b_data := to_bytes json ++ zero ++ d; b_end := default EOF (finalError s) |}.
Proof using Type.
  intros Hv Hj Hl. unfold exchange, PostReceivePack, marshalJSON. cbn [String.eqb Ascii.eqb Bool.eqb].
  rewrite Hv, Hj. cbn [read_all whole b_data b_end]. rewrite decide_True by done.
  destruct (sends_whole (to_bytes json ++ zero ++ d)) as (k & -> & ->);
    [rewrite !length_app; lia|].
  cbn [stream_of rs_body]. by rewrite data_of_messages, pieces_concat.
Qed.

(** C36: a push through Gitaly: the server receives the request of the client octet by octet,
    and its answer, which here repeats the request, is the response, whatever the status
    with which the server ends. *)
Theorem push_echoed (r : Request) (a : Api.Response) (w : resp) (e : V) (json : string)
    (Hfresh : r_status w = None) (Hroom : r_room w = None)
    (Haddr : Gitaly.Address (Api.GitalyServer a) ≠ "") (Hrepo : valid (Api.Repository a))
    (Hjson : MarshalToString (push_request r a) = inl json)
    (Hbody : b_end (body_of r) = EOF)
    (Hlong : 100 < length (to_bytes json) + length (b_data (body_of r))) :
  ∃ w' e', run E (Git.post_rpc "handleReceivePack" (Git.handleReceivePack Getenv) r a) w e =
      (Value tt, w', e') ∧
    r_status w' = Some 200%Z ∧
    r_body w' = r_body w ++ to_bytes json ++ zero ++ b_data (body_of r).
Proof.
  set (data := to_bytes json ++ zero ++ b_data (body_of r)).
  assert (100 < length data) as Hd by (unfold data; rewrite !length_app; lia).
  set (e0 := (E _ (Metric Git.sessions [] 1) e).2).
  set (w1 := resp_put "Cache-Control" (Some ["no-cache"])
    (resp_put "Content-Type" (Some ["application/x-" +:+ Git.getService r +:+ "-result"]) w)).
  assert (∃ err n e1, run E (Git.handleReceivePack Getenv r a) w e0 =
    (Value (err, n), resp_append data (resp_header 200 w1), e1)) as (err & n & e1 & H).
  { unfold Git.handleReceivePack. rewrite run_bind. cbn [run Git.writePostRPCHeader bind header_set].
    fold w1. rewrite run_bind. destruct (String.eqb_spec (Gitaly.Address (Api.GitalyServer a)) "") as [|_];
      [done|].
    unfold Git.handleReceivePackWithGitaly, GitalyClient.newClient. rewrite run_bind. cbn [run call].
    destruct (gitaly_Dial (E := E) (Gitaly.Address (Api.GitalyServer a))
      (Gitaly.Token (Api.GitalyServer a)) e0) as [c Hc].
    destruct (E _ (Dial_ _ _) e0) as [x e1]. cbn in Hc. subst x. rewrite run_bind.
    unfold GitalyClient.ReceivePack. fold (push_request r a). rewrite run_bind. cbn [run call].
    destruct (gitaly_Bidi (E := E) c "SmartHTTPService/PostReceivePack" (push_request r a)
      (Git.busy_body (body_of r)) e1) as (ss & Hss & Hearly & Hans & Hsent).
    destruct (E _ (Bidi_ _ _ _ _) e1) as [x e2]. cbn [fst] in Hss. subst x.
    assert (accepted MarshalToString (push_request r a) = true) as Hacc.
    { unfold accepted, marshalJSON. change (get_field "repository" (Some (push_request r a)))
        with (Some (GitalyClient.repository (Api.Repository a))).
      by rewrite validate_valid, Hjson. }
    specialize (Hsent Hacc).
    assert (b_data (Git.busy_body (body_of r)) = b_data (body_of r)) as Hbd by done.
    rewrite Hbd, (push_answer _ json) in Hans; [|by apply validate_valid|done|done].
    fold data in Hans.
    assert (GitalyClient.exchange_error ss (Git.busy_body (body_of r)) = None) as Hex.
    { unfold GitalyClient.exchange_error. rewrite Hsent. unfold Git.busy_body, read_all.
      cbn [b_end snd]. by rewrite Hbody, !decide_True. }
    unfold Git.coupled. rewrite Hearly, Hex, Hans. cbn [Git.write_early bind].
    rewrite andb_false_r. cbn [b_data]. destruct data as [|o l] eqn:Edata; [cbn in Hd; lia|].
    rewrite <- Edata in *. cbn [Git.flush bind]. rewrite !run_bind, run_io_Copy_fresh by
      (cbn; first [done|congruence]). cbn [b_data]. 
    by eexists _, _, _. }
  destruct (Git.post_rpc_run E "handleReceivePack" (Git.handleReceivePack Getenv) r a w _ e e1 err n
    Hfresh (Git.handleReceivePack_codes Getenv r a) H) as (w' & e' & Hrun & (_ & Hst & _ & Hb & _) & _).
  exists w', e'. split; [exact Hrun|].
  assert (r_status w1 = None) as Hw1 by done.
  destruct err; cbn in Hst, Hb; unfold resp_header in *; rewrite Hw1 in *; cbn in *; by rewrite Hst, Hb.
Qed.

Lemma mock_long text : 100 < length (to_bytes text) * times → 100 < length (Repeat text times).
Proof using Type.
  clear. intros H. assert (length (Repeat text times) = length (to_bytes text) * times) as ->; [|done].
  clear. unfold Repeat. induction times as [|n IH]; cbn; [lia|]. rewrite length_app, IH. lia.
Qed.

(** The answer of a method that sends a text. *)
Lemma finish_whole data : 100 < length data →
  stream_of (finish s (sendBytes (λ p, Send (λ _, None) (data_message p)) 100 data [])) =
    {| rs_size := Some 0%Z; rs_body := {| b_data := data; b_end := default EOF (finalError s) |} |}.
Proof using Type.
  intros Hd. destruct (sends_whole data Hd) as (k & -> & Hk). unfold finish. rewrite Hk.
  pose proof (pieces_many data Hd) as Hm. pose proof (pieces_concat data) as Hc.
  destruct (pieces data) as [|c cs]; [cbn in Hm; lia|]. cbn [stream_of]. f_equal. f_equal.
  change (data_message <$> c :: cs) with (data_message <$> (c :: cs)). by rewrite data_of_messages.
Qed.

(** A list of references: the client gets the answer of the server as it is. *)
Theorem info_refs_from_server (r : Request) (a : Api.Response) (w : resp) (e : V) (json : string)
    (Hfresh : r_status w = None) (Hroom : r_room w = None)
    (Hservice : Git.getService r ∈ ["git-upload-pack"; "git-receive-pack"])
    (Hok : finalMessageCode s = 0%Z) (Hrepo : valid (Api.Repository a))
    (Hjson : MarshalToString (PMsg [("repository", GitalyClient.repository (Api.Repository a));
                      ("git_config_options", PList (Git.gitConfigOptions a));
                      ("git_protocol", PText (Header.Get (Header_ r) "Git-Protocol"))]) = inl json)
    (Htimes : 3 < times) :
  ∃ w' e', run E (Git.handleGetInfoRefs r a) w e = (Value tt, w', e') ∧
    r_status w' = Some 200%Z ∧
    r_body w' = r_body w ++ to_bytes json ++ zero ++ to_bytes (Git.getService r) ++ zero ++
                GitalyInfoRefsResponseMock times.
Proof.
  set (e0 := (E _ (Metric Git.sessions [] 1) e).2).
  destruct (gitaly_Dial (E := E) (Gitaly.Address (Api.GitalyServer a))
    (Gitaly.Token (Api.GitalyServer a)) e0) as [c Hc].
  set (m := if String.eqb (Git.getService r) "git-upload-pack"
            then "SmartHTTPService/InfoRefsUploadPack" else "SmartHTTPService/InfoRefsReceivePack").
  set (q := PMsg [("repository", GitalyClient.repository (Api.Repository a));
                  ("git_config_options", PList (Git.gitConfigOptions a));
                  ("git_protocol", PText (Header.Get (Header_ r) "Git-Protocol"))]).
  set (e1 := (E _ (Dial_ (Gitaly.Address (Api.GitalyServer a)) (Gitaly.Token (Api.GitalyServer a))) e0).2).
  set (d := to_bytes json ++ zero ++ to_bytes (Git.getService r) ++ zero ++ GitalyInfoRefsResponseMock times).
  assert (stream_of (dispatch times MarshalToString s (λ _, None) m q) = mk_rpc_stream (Some 0%Z) (whole d)) as Hans.
  { assert (dispatch times MarshalToString s (λ _, None) m q =
      info_refs times MarshalToString s (λ _, None) (Git.getService r) q) as ->.
    { unfold m. apply elem_of_cons in Hservice as [->|H]; [done|].
      by apply list_elem_of_singleton in H as ->. }
    unfold info_refs. change (get_field "repository" (Some q))
      with (Some (GitalyClient.repository (Api.Repository a))).
    rewrite validate_valid by done. unfold marshalJSON. fold q in Hjson. rewrite Hjson.
    unfold sendInfoRefs. fold d. rewrite finish_whole.
    - unfold finalError. by rewrite Hok.
    - pose proof (mock_long "Mock Gitaly InfoRefsResponse data" ltac:(cbn; lia)) as Hl.
      unfold d. rewrite !length_app. unfold GitalyInfoRefsResponseMock. lia. }
  pose proof (gitaly_Rpc (E := E) c m q e1) as Hrpc. rewrite Hans in Hrpc.
  destruct (Git.info_refs_relays E r a w e d c e1 (E _ (Rpc_ c m q) e1).2 (Some 0%Z))
    as (w' & e' & Hrun & Hst & Hb & _); try done.
  - unfold d. by destruct (to_bytes json).
  - fold e0. unfold e1. rewrite <- Hc. by destruct (E _ (Dial_ _ _) e0).
  - fold m q. rewrite <- Hrpc. by destruct (E _ (Rpc_ c m q) e1).
  - by exists w', e'.
Qed.

(** A blob: the client gets all of it, after the length that its first message announced. *)
Theorem blob_from_server (unmarshal_blob : bytes → result GitSend.blobParams) (r : Request)
    (sendData : string) (params : GitSend.blobParams) (w : resp) (e : V)
    (Hfresh : r_status w = None) (Hroom : r_room w = None)
    (Hparams : SendData.Unpack unmarshal_blob "git-blob:" sendData = inl params)
    (Haddr : Gitaly.Address (GitSend.bp_GitalyServer params) ≠ "")
    (Hrepo : validateRepository (get_field "repository" (Some (GitSend.GetBlobRequest params))) = None)
    (Hok : finalMessageCode s = 0%Z) (Htimes : 3 < times) :
  ∃ w' e', run E (GitSend.Inject_blob Getenv unmarshal_blob r sendData) w e = (Value tt, w', e') ∧
    r_status w' = Some 200%Z ∧ r_body w' = r_body w ++ GitalyGetBlobResponseMock times ∧
    r_sent w' !! "Content-Length" = Some [itoa (Z.of_nat (length (GitalyGetBlobResponseMock times)))].
Proof.
  set (mock := GitalyGetBlobResponseMock times).
  assert (100 < length mock) as Hl by (apply mock_long; cbn; lia).
  unfold GitSend.Inject_blob. rewrite Hparams.
  destruct (String.eqb_spec (Gitaly.Address (GitSend.bp_GitalyServer params)) "") as [|_]; [done|].
  cbn [negb]. unfold GitSend.handleSendBlobWithGitaly, GitalyClient.newClient.
  rewrite run_bind. cbn [run call].
  destruct (gitaly_Dial (E := E) (Gitaly.Address (GitSend.bp_GitalyServer params))
    (Gitaly.Token (GitSend.bp_GitalyServer params)) e) as [c Hc].
  destruct (E _ (Dial_ _ _) e) as [x e1]. cbn in Hc. subst x.
  cbn [GitSend.error_of GitSend.report GitSend.client_of bind]. unfold GitalyClient.SendBlob.
  rewrite !run_bind. cbn [run call].
  set (q := GitSend.GetBlobRequest params) in *.
  pose proof (gitaly_Rpc (E := E) c "BlobService/GetBlob" q e1) as Hrpc.
  destruct (E _ (Rpc_ c _ q) e1) as [x e2]. cbn [fst] in Hrpc. subst x.
  assert (stream_of (dispatch times MarshalToString s (λ _, None) "BlobService/GetBlob" q) =
    mk_rpc_stream (Some (Z.of_nat (length mock))) (whole mock)) as ->.
  { unfold dispatch. cbn [String.eqb Ascii.eqb Bool.eqb]. unfold GetBlob. rewrite Hrepo. fold mock.
    destruct (sends_blob (λ p, {| g_oid := get_text "oid" (Some q); g_size := Z.of_nat (length mock);
      g_data := p |}) mock Hl) as (k & d & ds & -> & Hk & Hd).
    unfold finish. rewrite Hk. unfold finalError. rewrite Hok. cbn [Z.eqb negb stream_of].
    f_equal. cbn [fmap list_fmap g_data concat]. unfold whole. f_equal.
    change (list_fmap message (list octet) g_data (list_fmap bytes message data_message ds))
      with (g_data <$> (data_message <$> ds)). by rewrite data_of_messages. }
  cbn [rs_size rs_body]. rewrite !run_bind. cbn [header_set run].
  rewrite !run_bind, run_io_Copy_fresh; [|done|done|cbn [b_data whole]; intros Hm; rewrite Hm in Hl; cbn in Hl; lia].
  cbn [read_all whole b_data b_end fst snd run]. rewrite decide_True by done. cbn.
  eexists _, _. split; [reflexivity|]. unfold resp_header. cbn. rewrite Hfresh. cbn.
  split_and!; [done|done|]. rewrite lookup_partial_alter_eq. done.
Qed.
End clients.

(** ** Examples *)

(** The mocks repeat four times; requests are written as this text. *)
Definition test_marshal : pb → result string := λ _, inl "{}".
Definition test_env (s : GitalyTestServer) : env unit := λ X x w,
  match x in ext X return X * unit with
  | Dial_ _ _ => (inl 0, w)
  | Rpc_ _ m q => (inl (stream_of (dispatch 4 test_marshal s (λ _, None) m q)), w)
  | Bidi_ _ m q data =>
      (inl {| rpc_early := [];
              rpc_answer := rs_body (stream_of (exchange test_marshal s (λ _, None) m q (b_data data)));
              rpc_send_error := None; rpc_send_first := true; rpc_taken := 0 |}, w)
  | e => HelperProps.quiet_env _ e w
  end.

#[export] Instance test_env_GitalyEnv s : GitalyEnv (test_env s) 4 test_marshal s.
Proof. split; cbn; eauto 8. Qed.

Definition test_repository : Gitaly.Repository :=
  {| Gitaly.StorageName := "default"; Gitaly.RelativePath := "foo/bar.git";
     Gitaly.GitObjectDirectory := ""; Gitaly.GitAlternateObjectDirectories := [];
     Gitaly.GlRepository := "project-1" |}.
Definition test_answer (storage : string) : Api.Response :=
  {| Api.GL_ID := "user-1"; Api.GL_USERNAME := "a"; Api.GL_REPOSITORY := "project-1";
     Api.RepoPath := "/r"; Api.GitConfigOptions := []; Api.StoreLFSPath := ""; Api.LfsOid := "";
     Api.LfsSize := 0; Api.TempPath := "";
     Api.RemoteObject := Api.RemoteObject (Api.only_TempPath ""); Api.Archive := ""; Api.Entry := "";
     Api.Terminal := None;
     Api.GitalyServer := {| Gitaly.Address := "unix:/g"; Gitaly.Token := "t" |};
     Api.Repository := {| Gitaly.StorageName := storage; Gitaly.RelativePath := "foo/bar.git";
                          Gitaly.GitObjectDirectory := "";
                          Gitaly.GitAlternateObjectDirectories := []; Gitaly.GlRepository := "project-1" |};
     Api.ShowAllRefs := false |}.
Definition test_push (n : nat) : Request :=
  {| Method := "POST"; URL := mk_url "" "" "/a/b.git/git-receive-pack" ""; ProtoMajor := 1;
     ProtoMinor := 1; Header_ := ∅; Body := Some (whole (Repeat "push data " n));
     ContentLength := Z.of_nat (10 * n); Host := "h"; RequestURI := ""; RemoteAddr := "" |}.

Lemma push_echoed_witness :
  let r := test_push 11 in
  ∃ w' e', run (test_env (NewGitalyServer 14)) (Git.post_rpc "handleReceivePack"
      (Git.handleReceivePack (λ _, "")) r (test_answer "default")) (new_resp ∅) tt = (Value tt, w', e') ∧
    r_status w' = Some 200%Z ∧
    r_body w' = [] ++ to_bytes "{}" ++ zero ++ b_data (body_of r).
Proof.
  apply (push_echoed (test_env (NewGitalyServer 14)) 4 test_marshal (NewGitalyServer 14) (λ _, "")
    (test_push 11) (test_answer "default") (new_resp ∅) tt "{}"); try reflexivity.
  - discriminate.
  - split; discriminate.
  - apply (bool_decide_unpack (_ < _)). vm_compute. exact I.
Defined.

(** Without a storage nothing is sent, and the client gets an error. *)
Example push_refused :
  let '(o, w, _) := run (test_env (NewGitalyServer 0)) (Git.post_rpc "handleReceivePack"
      (Git.handleReceivePack (λ _, "")) (test_push 11) (test_answer "")) (new_resp ∅) tt in
  (o, r_status w, r_body w) = (Value tt, Some 500%Z, []).
Proof. vm_compute. reflexivity. Qed.

(** A short push is one message: the server panics, the client gets an error. *)
Example push_short :
  let '(o, w, _) := run (test_env (NewGitalyServer 0)) (Git.post_rpc "handleReceivePack"
      (Git.handleReceivePack (λ _, "")) (test_push 2) (test_answer "default")) (new_resp ∅) tt in
  (o, r_status w, r_body w) = (Value tt, Some 500%Z, []).
Proof. vm_compute. reflexivity. Qed.

Definition test_get : Request :=
  {| Method := "GET"; URL := mk_url "" "" "/a/b.git/info/refs" "service=git-upload-pack";
     ProtoMajor := 1; ProtoMinor := 1; Header_ := ∅; Body := None; ContentLength := 0; Host := "h";
     RequestURI := ""; RemoteAddr := "" |}.

Lemma info_refs_from_server_witness :
  ∃ w' e', run (test_env (NewGitalyServer 0)) (Git.handleGetInfoRefs test_get (test_answer "default"))
      (new_resp ∅) tt = (Value tt, w', e') ∧
    r_status w' = Some 200%Z ∧
    r_body w' = [] ++ to_bytes "{}" ++ zero ++ to_bytes "git-upload-pack" ++ zero ++
                GitalyInfoRefsResponseMock 4.
Proof.
  apply (info_refs_from_server (test_env (NewGitalyServer 0)) 4 test_marshal (NewGitalyServer 0)
    test_get (test_answer "default") (new_resp ∅) tt "{}"); try reflexivity.
  - left.
  - split; discriminate.
  - lia.
Defined.

(** The server fails after it has sent the list: the text of an error page follows it. *)
Example info_refs_error :
  let '(o, w, _) := run (test_env (NewGitalyServer 14)) (Git.handleGetInfoRefs test_get (test_answer "default"))
      (new_resp ∅) tt in
  (o, r_status w, drop 151 (r_body w)) = (Value tt, Some 200%Z, to_bytes "Internal server error" ++ [newline]).
Proof. vm_compute. reflexivity. Qed.

Definition test_blob : GitSend.blobParams :=
  {| GitSend.bp_RepoPath := ""; GitSend.BlobId := "";
     GitSend.bp_GitalyServer := {| Gitaly.Address := "unix:/g"; Gitaly.Token := "" |};
     GitSend.GetBlobRequest :=
       PMsg [("repository", GitalyClient.repository test_repository); ("oid", PText "54fc")] |}.

Lemma blob_from_server_witness :
  ∃ w' e', run (test_env (NewGitalyServer 0))
      (GitSend.Inject_blob (λ _, "") (λ _, inl test_blob) test_get "git-blob:e30=") (new_resp ∅) tt
        = (Value tt, w', e') ∧
    r_status w' = Some 200%Z ∧ r_body w' = [] ++ GitalyGetBlobResponseMock 4 ∧
    r_sent w' !! "Content-Length" = Some [itoa (Z.of_nat (length (GitalyGetBlobResponseMock 4)))].
Proof.
  apply (blob_from_server (test_env (NewGitalyServer 0)) 4 test_marshal (NewGitalyServer 0) (λ _, "")
    (λ _, inl test_blob) test_get "git-blob:e30=" test_blob (new_resp ∅) tt); try reflexivity.
  - discriminate.
  - lia.
Defined.
End GitalyServer.
