(* ===== verification/ZipArtifacts.v ===== *)
(** * Archives of build artifacts (internal/zipartifacts, cmd/gitlab-zip-cat,
      cmd/gitlab-zip-metadata)

    Two processes work on zip archives: one lists the entries of an archive with their
    metadata, the other prints one entry.  A zip archive is the list of its entries as
    [archive/zip] gives them; opening one is a parameter.  The compressed output of the
    listing is any writer ([Write], [Close]) with a state of its own.  The standard output
    of a process is what it writes, and it ends with its exit status. *)

From Stdlib Require Import Sorting.Sorted.
From S2P Require Import Prelude GoString Http GoNet GoBase64.
From S2P Require Import Helper.
From S2P Require Import ObjectStore.
From stdpp Require Import options.

Module ZipArtifacts.

(** [internal/zipartifacts/codes.go:4-7 StatusNotZip] *)
Definition StatusNotZip : Z := 10.
Definition StatusEntryNotFound : Z := 11.

(** An entry of an archive: the fields of a [zip.File], with the contents that opening it
    gives. *)
Record File := mk_file {
  Name : string;
  ModTime : Z;
  Perm : Z;
  CRC32 : Z;
  UncompressedSize64 : Z;
  CompressedSize64 : Z;
  Comment : string;
  Open : result body;
}.

(** ** JSON *)

Definition between (a b : nat) (c : octet) : bool :=
  (a <=? nat_of_ascii c) && (nat_of_ascii c <=? b).
Definition continues : octet → bool := between 128 191.

(** The lengths of the sequences of UTF-8. *)
Definition two (c d : octet) : bool := between 194 223 c && continues d.
Definition three (c d e : octet) : bool :=
  (between 224 224 c && between 160 191 d ||
   (between 225 236 c || between 238 239 c) && continues d ||
   between 237 237 c && between 128 159 d) && continues e.
Definition four (c d e f : octet) : bool :=
  (between 240 240 c && between 144 191 d || between 241 243 c && continues d ||
   between 244 244 c && between 128 143 d) && continues e && continues f.
(** U+2028 and U+2029. *)
Definition line_end (c d e : octet) : bool :=
  between 226 226 c && between 128 128 d && between 168 169 e.

Definition json_octet (c : octet) : bytes :=
  let n := nat_of_ascii c in
  if (n =? 34) || (n =? 92) then ["\"%char; c]
  else if n =? 10 then to_bytes "\n" else if n =? 13 then to_bytes "\r"
  else if n =? 9 then to_bytes "\t"
  else if (n <? 32) || (n =? 60) || (n =? 62) || (n =? 38)
  then to_bytes "\u00" ++ Hex.encode_octet c
  else [c].

Fixpoint json_octets (l : bytes) : bytes :=
  match l with
  | [] => []
  | c :: l1 =>
      let invalid := to_bytes "\ufffd" ++ json_octets l1 in
      if nat_of_ascii c <? 128 then json_octet c ++ json_octets l1
      else match l1 with
           | [] => invalid
           | d :: l2 =>
               if two c d then c :: d :: json_octets l2
               else match l2 with
                    | [] => invalid
                    | e :: l3 =>
                        if line_end c d e then
                          to_bytes "\u202" ++ [hex_digit_of (nat_of_ascii e - 160)] ++ json_octets l3
                        else if three c d e then c :: d :: e :: json_octets l3
                        else match l3 with
                             | [] => invalid
                             | f :: l4 =>
                                 if four c d e f then c :: d :: e :: f :: json_octets l4 else invalid
                             end
                    end
           end
  end.

(** [json.Marshal] of a string. *)
Definition json_string (s : string) : bytes :=
  ["034"%char] ++ json_octets (to_bytes s) ++ ["034"%char].

(** [strconv.FormatUint(n, 8)]. *)
Fixpoint octal_of (fuel : nat) (n : N) (acc : bytes) : bytes :=
  match fuel with
  | O => acc
  | S fuel =>
      let acc := ascii_of_N (48 + n mod 8) :: acc in
      if (n <? 8)%N then acc else octal_of fuel (n / 8) acc
  end.
Definition octal (n : Z) : string := of_bytes (octal_of (S (N.size_nat (Z.to_N n))) (Z.to_N n) []).

(** ** Metadata *)

(** [internal/zipartifacts/metadata.go:14-21 metadata] *)
Record metadata := {
  m_Modified : Z;
  m_Mode : string;
  m_CRC : Z;
  m_Size : Z;
  m_Zipped : Z;
  m_Comment : string;
}.

(** [internal/zipartifacts/metadata.go:24-24 MetadataHeader] *)
Definition MetadataHeader : string := "GitLab Build Artifacts Metadata 0.0.2" +:+ of_bytes [newline].

(** [internal/zipartifacts/metadata.go:26-40 newMetadata] *)
Definition newMetadata (file : option File) : metadata :=
  match file with
  | None =>
      {| m_Modified := 0; m_Mode := ""; m_CRC := 0; m_Size := 0; m_Zipped := 0; m_Comment := "" |}
  | Some file =>
      {| m_Modified := ModTime file;
         m_Mode := octal (Perm file);
         m_CRC := CRC32 file;
         m_Size := UncompressedSize64 file;
         m_Zipped := CompressedSize64 file;
         m_Comment := Comment file |}
  end.

(** The members of an object that are not empty, in the order of the structure. *)
Definition json_member (key : string) (value : option bytes) : list bytes :=
  match value with Some v => [json_string key ++ ":"%char :: v] | None => [] end.
Definition json_int (n : Z) : option bytes :=
  if (n =? 0)%Z then None else Some (to_bytes (itoa n)).
Definition json_text (s : string) : option bytes :=
  if String.eqb s "" then None else Some (json_string s).
Definition json_Marshal (m : metadata) : bytes :=
  "{"%char :: join_on ","%char
    (json_member "modified" (json_int (m_Modified m)) ++
     json_member "mode" (json_text (m_Mode m)) ++
     json_member "crc" (json_int (m_CRC m)) ++
     json_member "size" (json_int (m_Size m)) ++
     json_member "zipped" (json_int (m_Zipped m)) ++
     json_member "comment" (json_text (m_Comment m))) ++ ["}"%char].

(** [binary.Write] of a [uint32], the most significant octet first. *)
Definition uint32 (n : nat) : Z := (Z.of_nat n mod 2 ^ 32)%Z.
Definition octet_at (n k : Z) : octet := ascii_of_N (Z.to_N (Z.land (Z.shiftr n k) 255)).
Definition big_endian (n : Z) : bytes := octet_at n <$> [24; 16; 8; 0]%Z.

Section output.
Context {W : Type} (Write : bytes → W → option gerr * W) (Close : W → W).

(** [internal/zipartifacts/metadata.go:107-113 writeBytes] *)
Definition writeBytes (data : bytes) (w : W) : option gerr * W :=
  let '(err, w) := Write (big_endian (uint32 (length data))) w in
  match err with None => Write data w | Some err => (Some err, w) end.

(** [internal/zipartifacts/metadata.go:115-117 writeString] *)
Definition writeString (str : string) : W → option gerr * W := writeBytes (to_bytes str).

(** [internal/zipartifacts/metadata.go:42-49 metadata.writeEncoded] *)
Definition writeEncoded (m : metadata) : W → option gerr * W :=
  writeBytes (json_Marshal m ++ [newline]).

(** [internal/zipartifacts/metadata.go:51-61 writeZipEntryMetadata] *)
Definition writeZipEntryMetadata (path : string) (entry : option File) (w : W)
    : option gerr * W :=
  let '(err, w) := writeString path w in
  match err with
  | Some err => (Some err, w)
  | None => writeEncoded (newMetadata entry) w
  end.

(** [d], its parent, and so on, up to the first that is ["."] or ["/"]. *)
Fixpoint parents (fuel : nat) (d : string) : list string :=
  match fuel with
  | O => []
  | S fuel =>
      if String.eqb d "." || String.eqb d "/" then [] else d :: parents fuel (Path.Dir d)
  end.
Definition directories (name : string) : list string :=
  (λ d, d +:+ "/") <$> parents (S (S (String.length name))) (Path.Dir name).

Definition add_directory (zipMap : gmap string (option File)) (entryDir : string)
    : gmap string (option File) :=
  match zipMap !! entryDir with Some _ => zipMap | None => <[entryDir := None]> zipMap end.

(** [internal/zipartifacts/metadata.go:79-88 GenerateZipMetadata] *)
Definition add_entry (zipMap : gmap string (option File)) (entry : File)
    : gmap string (option File) :=
  foldl add_directory (<[Name entry := Some entry]> zipMap) (directories (Name entry)).

(** [internal/zipartifacts/metadata.go:98-103 GenerateZipMetadata] *)
Fixpoint write_all (entries : list (string * option File)) (w : W) : option gerr * W :=
  match entries with
  | [] => (None, w)
  | (path, entry) :: entries =>
      let '(err, w) := writeZipEntryMetadata path entry w in
      match err with Some err => (Some err, w) | None => write_all entries w end
  end.

(** The entries and the directories of an archive, sorted. *)
Definition listing (archive : list File) : list (string * option File) :=
  sort_keys (map_to_list (foldl add_entry ∅ archive)).

(** [internal/zipartifacts/metadata.go:63-105 GenerateZipMetadata] *)
Definition GenerateZipMetadata (archive : list File) (w : W) : option gerr * W :=
  let '(err, w) :=
    let '(err, w) := writeString MetadataHeader w in
    match err with
    | Some err => (Some err, w)
    | None =>
        let '(err, w) := writeString "{}" w in
        match err with
        | Some err => (Some err, w)
        | None => write_all (listing archive) w
        end
    end in
  (err, Close w).
End output.

(** ** Opening archives *)

(** [internal/zipartifacts/entry.go:7-13 DecodeFileEntry] *)
Definition DecodeFileEntry (entry : string) : result string :=
  let '(decoded, ok) := StdDecode (to_bytes entry) in
  if ok then inl (of_bytes decoded) else inr (Errorf "illegal base64 data").

(** [internal/zipartifacts/open_archive.go:51-53 isURL] *)
Definition isURL (path : string) : bool := has_prefix path "http://" || has_prefix path "https://".

Section commands.
Context (url_Parse : string → result url).
(** [zip.NewReader] on the ranges of a response, and on an open file. *)
Context (zip_remote : Response → result (list File)) (zip_local : fd → result (list File)).

(** The response is closed when the process ends.
    [internal/zipartifacts/open_archive.go:55-85 openHTTPArchive] *)
Definition openHTTPArchive (archivePath : string) : prog (result (list File)) :=
  let scrubbedArchivePath := Helper.ScrubURLParams archivePath in
  match ObjectStore.NewRequest url_Parse "GET" archivePath None 0 with
  | inr err => Ret (inr (Wrapf ("Can't create HTTP GET " +:+ quote scrubbedArchivePath) err))
  | inl req =>
      resp <- call (RoundTrip_ req);;
      match resp with
      | inr err => Ret (inr (Wrapf ("HTTP GET " +:+ quote scrubbedArchivePath) err))
      | inl resp =>
          if (StatusCode resp =? 404)%Z then Ret (inr ErrArchiveNotFound)
          else if negb (StatusCode resp =? 200)%Z then
            Ret (inr (Errorf ("HTTP GET " +:+ quote scrubbedArchivePath +:+ ": " +:+
                              itoa (StatusCode resp))))
          else match zip_remote resp with
               | inr _ => Ret (inr ErrNotAZip)
               | inl archive => Ret (inl archive)
               end
      end
  end.

(** [internal/zipartifacts/open_archive.go:87-103 openFileArchive] *)
Definition openFileArchive (archivePath : string) : prog (result (list File)) :=
  f <- call (OpenPath archivePath);;
  match f with
  | inr err => Ret (inr (if decide (err = ErrNotExist) then ErrArchiveNotFound else ErrNotAZip))
  | inl f =>
      match zip_local f with
      | inr _ => call (CloseFd f);; Ret (inr ErrNotAZip)
      | inl archive => Ret (inl archive)
      end
  end.

(** [internal/zipartifacts/open_archive.go:41-47 OpenArchive] *)
Definition OpenArchive (archivePath : string) : prog (result (list File)) :=
  if isURL archivePath then openHTTPArchive archivePath else openFileArchive archivePath.

(** ** gitlab-zip-cat *)

(** [cmd/gitlab-zip-cat/main.go:79-86 findFileInZip] *)
Definition findFileInZip (fileName : string) (archive : list File) : option File :=
  find (λ file, String.eqb (Name file) fileName) archive.

(** A line on standard error, and the end of the process.
    [cmd/gitlab-zip-cat/main.go:88-90 printError] *)
Definition exit_with (status : Z) (err : gerr) : prog Z :=
  call (LogError_ None (Some err));; Ret status.

(** [cmd/gitlab-zip-cat/main.go:92-95 fatalError] *)
Definition fatalError : gerr → prog Z := exit_with 1.

(** [cmd/gitlab-zip-cat/main.go:97-100 notFoundError] *)
Definition notFoundError : gerr → prog Z := exit_with StatusEntryNotFound.

(** What is written to standard output must be written in full. *)
Definition print_line (d : bytes) : prog (option gerr) :=
  '(_, err) <- write (d ++ [newline]);; Ret err.

(** The process without arguments: its parameters come from the environment.
    [cmd/gitlab-zip-cat/main.go:30-77 main] *)
Definition zip_cat (archivePath encodedFileName : string) : prog Z :=
  if String.eqb archivePath "" || String.eqb encodedFileName "" then
    exit_with 1 (Errorf "Usage: gitlab-zip-cat")
  else
    let scrubbedArchivePath := Helper.ScrubURLParams archivePath in
    match DecodeFileEntry encodedFileName with
    | inr err => fatalError (Wrapf ("decode entry " +:+ quote encodedFileName) err)
    | inl fileName =>
        archive <- OpenArchive archivePath;;
        match archive with
        | inr err =>
            let oaError := Wrapf "OpenArchive" err in
            if decide (err = ErrArchiveNotFound) then notFoundError oaError else fatalError oaError
        | inl archive =>
            match findFileInZip fileName archive with
            | None =>
                notFoundError (Errorf ("find " +:+ quote fileName +:+ " in " +:+
                                       quote scrubbedArchivePath +:+ ": not found"))
            | Some file =>
                match Open file with
                | inr err => fatalError (Wrapf ("open " +:+ quote fileName) err)
                | inl reader =>
                    err <- print_line (to_bytes (itoa (UncompressedSize64 file)));;
                    match err with
                    | Some err => fatalError (Wrapf "write file size" err)
                    | None =>
                        '(_, err) <- io_Copy reader;;
                        match err with
                        | Some err => fatalError (Wrapf ("write " +:+ quote fileName) err)
                        | None => Ret 0%Z
                        end
                    end
                end
            end
        end
    end.

(** ** gitlab-zip-metadata *)

(** [cmd/gitlab-zip-metadata/main.go:45-51 fatalError] *)
Definition zip_metadata_fatal (err : gerr) : prog Z :=
  exit_with (if decide (err = ErrNotAZip) then StatusNotZip else 1) err.

(** The process with one argument; its output goes through a compressor.
    [cmd/gitlab-zip-metadata/main.go:32-43 main] *)
Definition zip_metadata {W} (Write : bytes → W → option gerr * W) (Close : W → W)
    (archivePath : string) (stdout : W) : prog (Z * W) :=
  archive <- OpenArchive archivePath;;
  match archive with
  | inr err => status <- zip_metadata_fatal err;; Ret (status, stdout)
  | inl archive =>
      let '(err, stdout) := GenerateZipMetadata Write Close archive stdout in
      match err with
      | Some err => status <- zip_metadata_fatal err;; Ret (status, stdout)
      | None => Ret (0%Z, stdout)
      end
  end.
End commands.

(** ** The directories of an entry *)

Definition at_root (d : string) : Prop := d = "." ∨ d = "/".

Lemma at_root_spec d : String.eqb d "." || String.eqb d "/" = true ↔ at_root d.
Proof. unfold at_root. by rewrite orb_true_iff, !String.eqb_eq. Qed.

Lemma length_Dir d : 2 ≤ String.length d → String.length (Path.Dir d) < String.length d.
Proof.
  intros H. rewrite <- !length_to_bytes in *. unfold Path.Dir. rewrite to_of_bytes.
  by apply Path.length_dir.
Qed.

Lemma Dir_short d : String.length d ≤ 1 → at_root (Path.Dir d).
Proof.
  intros H. rewrite <- length_to_bytes in H. unfold Path.Dir.
  destruct (Path.dir_short _ H) as [-> | ->]; [by left|by right].
Qed.

Lemma length_Dir_max d : String.length (Path.Dir d) ≤ Nat.max 1 (String.length d).
Proof.
  destruct (decide (2 ≤ String.length d)) as [H|H]; [pose proof (length_Dir d H); lia|].
  destruct (Dir_short d ltac:(lia)) as [-> | ->]; cbn; lia.
Qed.

Lemma Dir_not_empty d : 1 ≤ String.length (Path.Dir d).
Proof.
  unfold Path.Dir. rewrite <- length_to_bytes, to_of_bytes. destruct (Path.split_last _).1 as [|c p]; [done|].
  unfold Path.clean_bytes. destruct (Path.rooted _); [cbn; lia|]. destruct (join_on _ _); cbn; lia.
Qed.

(** The loop ends within as many steps as the path has octets. *)
Lemma parents_spec fuel d :
  1 ≤ String.length d < fuel →
  ∃ n, n ≤ String.length d ∧ parents fuel d = (λ k, Nat.iter k Path.Dir d) <$> seq 0 n ∧
    at_root (Nat.iter n Path.Dir d) ∧ ∀ k, k < n → ¬ at_root (Nat.iter k Path.Dir d).
Proof.
  revert d. induction fuel as [|fuel IH]; intros d H; [lia|]. cbn [parents].
  destruct (String.eqb d "." || String.eqb d "/") eqn:E.
  { apply at_root_spec in E. exists 0. split_and!; [lia|done|done|lia]. }
  assert (¬ at_root d) as Hd by (intros Hr; apply at_root_spec in Hr; congruence).
  destruct (decide (2 ≤ String.length d)) as [H2|H2].
  - destruct (IH (Path.Dir d)) as (n & Hn & Hp & Hr & Hb).
    { pose proof (length_Dir d H2). pose proof (Dir_not_empty d). lia. }
    pose proof (length_Dir d H2).
    assert (∀ k, Nat.iter k Path.Dir (Path.Dir d) = Nat.iter (S k) Path.Dir d) as Hs
      by (intros k; by rewrite Nat.iter_succ_r).
    exists (S n). split_and!; [lia| |by rewrite <- Hs|].
    + rewrite Hp. cbn [seq fmap list_fmap]. f_equal. rewrite <- fmap_S_seq, <- list_fmap_compose.
      apply list_fmap_ext. intros i k _. apply Hs.
    + intros [|k] Hk; [done|]. rewrite <- Hs. apply Hb. lia.
  - exists 1. pose proof (Dir_short d ltac:(lia)) as Hr. split_and!; [lia| |done|].
    + destruct fuel as [|fuel]; [done|]. cbn [parents].
      apply at_root_spec in Hr. by rewrite Hr.
    + intros k Hk. by assert (k = 0) as -> by lia.
Qed.

(** ** The listing *)

Definition last_named (archive : list File) (name : string) : option File :=
  last (filter (λ f, Name f = name) archive).

Lemma add_directories_lookup ds m name :
  foldl add_directory m ds !! name =
    match m !! name with
    | Some e => Some e
    | None => if decide (name ∈ ds) then Some None else None
    end.
Proof.
  revert m. induction ds as [|d ds IH]; intros m; cbn [foldl].
  { by destruct (m !! name). }
  rewrite IH. unfold add_directory. destruct (decide (d = name)) as [->|Hd].
  - destruct (m !! name) as [e|] eqn:E; [by rewrite E|]. rewrite lookup_insert_eq.
    rewrite decide_True; [done|by left].
  - assert (match m !! d with Some _ => m | None => <[d:=None]> m end !! name = m !! name) as ->.
    { destruct (m !! d); [done|]. by rewrite lookup_insert_ne. }
    destruct (m !! name); [done|].
    destruct (decide (name ∈ ds)); [rewrite decide_True|rewrite decide_False]; try done; [by right|].
    by intros [->|]%elem_of_cons.
Qed.

(** The directories that the entries of an archive are in. *)
Definition all_directories (archive : list File) : list string :=
  concat ((λ f, directories (Name f)) <$> archive).

Lemma all_directories_spec archive name :
  name ∈ all_directories archive ↔ ∃ f, f ∈ archive ∧ name ∈ directories (Name f).
Proof.
  unfold all_directories. induction archive as [|f archive IH]; cbn.
  - split; [by intros ?%elem_of_nil|by intros (f & ?%elem_of_nil & _)].
  - rewrite elem_of_app, IH. setoid_rewrite elem_of_cons. naive_solver.
Qed.

Lemma listing_lookup archive name :
  foldl add_entry ∅ archive !! name =
    match last_named archive name with
    | Some f => Some (Some f)
    | None => if decide (name ∈ all_directories archive) then Some None else None
    end.
Proof.
  induction archive as [|f archive IH] using rev_ind; [done|].
  rewrite foldl_app. cbn [foldl]. unfold add_entry at 1. rewrite add_directories_lookup.
  assert (name ∈ all_directories (archive ++ [f]) ↔
    name ∈ all_directories archive ∨ name ∈ directories (Name f)) as Hd.
  { unfold all_directories. rewrite fmap_app, concat_app, elem_of_app. cbn. by rewrite app_nil_r. }
  unfold last_named in *. rewrite filter_app. destruct (decide (Name f = name)) as [Hn|Hn].
  - rewrite filter_cons_True by done. rewrite last_app. cbn. by rewrite Hn, lookup_insert_eq.
  - rewrite filter_cons_False by done. rewrite app_nil_r, lookup_insert_ne by done. rewrite IH.
    destruct (last _); [done|]. repeat case_decide; naive_solver.
Qed.

(** What an archive holds under a name: the last entry of that name, or a directory. *)
Definition listed (archive : list File) (name : string) (entry : option File) : Prop :=
  match entry with
  | Some f => last_named archive name = Some f
  | None => last_named archive name = None ∧ name ∈ all_directories archive
  end.

Lemma elem_of_listing archive name entry :
  (name, entry) ∈ listing archive ↔ listed archive name entry.
Proof.
  unfold listing. rewrite sort_keys_perm, elem_of_map_to_list, listing_lookup.
  destruct entry as [f|]; cbn; destruct (last_named _ _); try case_decide; naive_solver.
Qed.

(** ** Reading a listing *)

Definition read_length (l : bytes) : Z :=
  foldl (λ n c, n * 256 + Z.of_N (N_of_ascii c))%Z 0%Z l.

(** A record: its length in four octets, and that many octets. *)
Definition read_record (l : bytes) : option (bytes * bytes) :=
  let n := Z.to_nat (read_length (take 4 l)) in
  if (length l <? 4) || (length (drop 4 l) <? n) then None
  else Some (take n (drop 4 l), drop n (drop 4 l)).
Fixpoint read_records (fuel : nat) (l : bytes) : option (list bytes) :=
  match fuel, l with
  | _, [] => Some []
  | O, _ => None
  | S fuel, _ =>
      match read_record l with Some (d, l) => cons d <$> read_records fuel l | None => None end
  end.

Lemma octet_at_value n k : (0 ≤ k)%Z →
  Z.of_N (N_of_ascii (octet_at n k)) = ((n / 2 ^ k) mod 256)%Z.
Proof.
  intros Hk. unfold octet_at. rewrite Z.shiftr_div_pow2 by done.
  change 255%Z with (Z.ones 8). rewrite Z.land_ones by done. change (2 ^ 8)%Z with 256%Z.
  pose proof (Z.mod_pos_bound (n / 2 ^ k) 256 ltac:(lia)).
  rewrite N_ascii_embedding by lia. lia.
Qed.

Lemma read_big_endian n : (0 ≤ n < 2 ^ 32)%Z → read_length (big_endian n) = n.
Proof.
  intros Hn. unfold read_length, big_endian. cbn [fmap list_fmap foldl].
  rewrite !octet_at_value by lia. change (2 ^ 0)%Z with 1%Z. rewrite Z.div_1_r.
  change (2 ^ 24)%Z with (256 * 256 * 256)%Z. change (2 ^ 16)%Z with (256 * 256)%Z.
  change (2 ^ 8)%Z with 256%Z. rewrite <- !Z.div_div by lia.
  pose proof (Z.div_mod n 256 ltac:(lia)). pose proof (Z.div_mod (n / 256) 256 ltac:(lia)).
  pose proof (Z.div_mod (n / 256 / 256) 256 ltac:(lia)).
  assert ((n / 256 / 256 / 256) mod 256 = n / 256 / 256 / 256)%Z as ->; [|lia].
  apply Z.mod_small. split; [repeat apply Z.div_pos; lia|].
  repeat apply Z.div_lt_upper_bound; lia.
Qed.

Lemma uint32_bound n : (0 ≤ uint32 n < 2 ^ 32)%Z.
Proof. apply Z.mod_pos_bound. lia. Qed.

(** A writer that keeps everything. *)
Definition collect (d : bytes) (out : bytes) : option gerr * bytes := (None, out ++ d).

Definition record (d : bytes) : bytes := big_endian (uint32 (length d)) ++ d.

Lemma writeBytes_collect d out : writeBytes collect d out = (None, out ++ record d).
Proof. unfold writeBytes, collect, record. by rewrite <- app_assoc. Qed.

Lemma read_record_app d l :
  (Z.of_nat (length d) < 2 ^ 32)%Z → read_record (record d ++ l) = Some (d, l).
Proof.
  intros Hd. unfold read_record, record. rewrite <- app_assoc.
  assert (uint32 (length d) = Z.of_nat (length d)) as Hu by (apply Z.mod_small; lia). rewrite Hu.
  assert (length (big_endian (Z.of_nat (length d))) = 4) as H4 by done.
  rewrite take_app_le by lia. rewrite (take_ge (big_endian _)) by lia.
  rewrite read_big_endian by lia. rewrite Nat2Z.id.
  assert (drop 4 (big_endian (Z.of_nat (length d)) ++ d ++ l) = d ++ l) as ->
    by (rewrite <- H4; apply drop_app_length).
  rewrite !length_app, H4.
  destruct (Nat.ltb_spec (4 + (length d + length l)) 4); [lia|].
  destruct (Nat.ltb_spec (length d + length l) (length d)); [lia|].
  cbn [orb]. by rewrite take_app_length, drop_app_length.
Qed.

Lemma read_records_app ds fuel :
  Forall (λ d, (Z.of_nat (length d) < 2 ^ 32)%Z) ds → length ds ≤ fuel →
  read_records fuel (concat (record <$> ds)) = Some ds.
Proof.
  revert fuel. induction ds as [|d ds IH]; intros fuel Hs Hf; [by destruct fuel|].
  inversion_clear Hs. destruct fuel as [|fuel]; [cbn in Hf; lia|].
  cbn [fmap list_fmap concat]. pose proof (read_record_app d (concat (record <$> ds)) ltac:(done)) as Hr.
  destruct (record d ++ _) as [|c l] eqn:E; [done|]. cbn [read_records]. rewrite Hr.
  rewrite IH; [done|done|cbn in Hf; lia].
Qed.

(** The strings of a listing. *)
Definition entry_strings (e : string * option File) : list bytes :=
  [to_bytes e.1; json_Marshal (newMetadata e.2) ++ [newline]].
Definition strings_of (archive : list File) : list bytes :=
  to_bytes MetadataHeader :: to_bytes "{}" :: concat (entry_strings <$> listing archive).

Lemma write_all_collect entries out :
  write_all collect entries out =
    (None, out ++ concat (record <$> concat (entry_strings <$> entries))).
Proof.
  revert out. induction entries as [|[path e] entries IH]; intros out; cbn [write_all].
  { by rewrite app_nil_r. }
  unfold writeZipEntryMetadata, writeString, writeEncoded. rewrite !writeBytes_collect, IH.
  cbn [fmap list_fmap concat entry_strings app fst snd]. by rewrite <- !app_assoc.
Qed.

Lemma GenerateZipMetadata_collect archive :
  GenerateZipMetadata collect id archive [] = (None, concat (record <$> strings_of archive)).
Proof.
  unfold GenerateZipMetadata, writeString. rewrite !writeBytes_collect, write_all_collect.
  cbn [fmap list_fmap concat strings_of app id]. by rewrite <- !app_assoc.
Qed.

(** The directories that are listed for an entry are its parent, the parent of that and
    so on, up to the first one that is the root or the current directory; for any name, also
    one that is no path, this ends after at most as many steps as the name has octets. *)
Theorem directories_end (name : string) :
  ∃ n, n ≤ Nat.max 1 (String.length name) ∧
    directories name = (λ k, Nat.iter (S k) Path.Dir name +:+ "/") <$> seq 0 n ∧
    at_root (Nat.iter (S n) Path.Dir name) ∧
    ∀ k, k < n → ¬ at_root (Nat.iter (S k) Path.Dir name).
Proof.
  assert (∀ k, Nat.iter k Path.Dir (Path.Dir name) = Nat.iter (S k) Path.Dir name) as Hs
    by (intros k; by rewrite Nat.iter_succ_r).
  pose proof (length_Dir_max name). pose proof (Dir_not_empty name).
  destruct (parents_spec (S (S (String.length name))) (Path.Dir name)) as (n & Hn & Hp & Hr & Hb); [lia|].
  exists n. split_and!; [lia| |by rewrite <- Hs|intros k Hk; rewrite <- Hs; by apply Hb].
  unfold directories. rewrite Hp, <- list_fmap_compose. apply list_fmap_ext. intros i k _. cbn.
  by rewrite Hs.
Qed.

(** C32: the listing of an archive has each of its entries and their directories once, in the
    order of their names; of several entries with one name it describes the last, and what
    is written is read back, record by record, as long as no text is of 4 GB or more. *)
Theorem GenerateZipMetadata_reads_back (archive : list File)
    (Hsize : Forall (λ d, (Z.of_nat (length d) < 2 ^ 32)%Z) (strings_of archive)) :
  (∃ out, GenerateZipMetadata collect id archive [] = (None, out) ∧
     read_records (length out) out = Some (strings_of archive)) ∧
  StronglySorted key_le (listing archive) ∧ NoDup (listing archive).*1 ∧
  ∀ name entry, (name, entry) ∈ listing archive ↔ listed archive name entry.
Proof.
  split_and!.
  - eexists. split; [apply GenerateZipMetadata_collect|]. apply read_records_app; [done|].
    induction Hsize as [|d ds _ _ IH]; [cbn; lia|]. cbn. rewrite length_app. lia.
  - apply sort_keys_sorted.
  - unfold listing. rewrite sort_keys_perm. apply NoDup_fst_map_to_list.
  - apply elem_of_listing.
Qed.

(** A text is preceded by its length in four octets, the most significant first: exactly
    its length below 4 GB, and the length reduced modulo 2^32 otherwise. *)
Theorem writeBytes_length (data out : bytes) :
  ∃ n, writeBytes collect data out = (None, out ++ n ++ data) ∧ length n = 4 ∧
    read_length n = (Z.of_nat (length data) mod 2 ^ 32)%Z ∧
    (read_length n = Z.of_nat (length data) ↔ (Z.of_nat (length data) < 2 ^ 32)%Z).
Proof.
  exists (big_endian (uint32 (length data))). pose proof (uint32_bound (length data)).
  rewrite read_big_endian by done. split_and!; [apply writeBytes_collect|done|done|].
  unfold uint32 in *. split; [lia|]. intros Hd. apply Z.mod_small. lia.
Qed.

(** *** Writers that fail *)

Section until.
Context {W : Type} (Write : bytes → W → option gerr * W) (Close : W → W).

(** Every chunk, up to the first that cannot be written. *)
Fixpoint write_until (chunks : list bytes) (w : W) : option gerr * W :=
  match chunks with
  | [] => (None, w)
  | d :: chunks =>
      let '(err, w) := Write d w in
      match err with Some err => (Some err, w) | None => write_until chunks w end
  end.

Lemma write_until_app ds ds' w :
  write_until (ds ++ ds') w =
    let '(err, w) := write_until ds w in
    match err with Some err => (Some err, w) | None => write_until ds' w end.
Proof.
  revert w. induction ds as [|d ds IH]; intros w; [done|]. cbn.
  by destruct (Write d w) as [[err|] w'].
Qed.

Definition chunks (d : bytes) : list bytes := [big_endian (uint32 (length d)); d].

Lemma writeBytes_until d w : writeBytes Write d w = write_until (chunks d) w.
Proof.
  unfold writeBytes, chunks. cbn [write_until]. destruct (Write (big_endian (uint32 (length d))) w) as [[err|] w']; [done|].
  by destruct (Write d w') as [[err|] w''].
Qed.

Lemma write_all_until entries w :
  write_all Write entries w = write_until (concat (chunks <$> concat (entry_strings <$> entries))) w.
Proof.
  revert w. induction entries as [|[path e] entries IH]; intros w; [done|].
  cbn [write_all fmap list_fmap concat entry_strings app fst snd].
  unfold writeZipEntryMetadata, writeString, writeEncoded. rewrite writeBytes_until, write_until_app.
  destruct (write_until _ w) as [[err|] w1]; [done|].
  rewrite writeBytes_until, write_until_app. by destruct (write_until _ w1) as [[err|] w2].
Qed.
End until.

(** Whatever the output is, the listing stops at the first write that fails and returns
    its error; the output is closed in every case. *)
Theorem GenerateZipMetadata_stops {W} (Write : bytes → W → option gerr * W) (Close : W → W)
    (archive : list File) (w : W) :
  GenerateZipMetadata Write Close archive w =
    let '(err, w) := write_until Write (concat (chunks <$> strings_of archive)) w in (err, Close w).
Proof.
  unfold GenerateZipMetadata, writeString. rewrite writeBytes_until.
  cbn [strings_of fmap list_fmap concat]. rewrite write_until_app.
  destruct (write_until Write (chunks (to_bytes MetadataHeader)) w) as [[err|] w1]; [done|].
  rewrite writeBytes_until, write_until_app.
  destruct (write_until Write (chunks (to_bytes "{}")) w1) as [[err|] w2]; [done|].
  by rewrite write_all_until.
Qed.

(** ** Printing an entry *)

Section cat.
Context {V : Type} (E : env V).
Context (url_Parse : string → result url).
Context (zip_remote : Response → result (list File)) (zip_local : fd → result (list File)).

(** What follows on the archive: its status, and what it prints. *)
Definition cat_result (fileName : string) (archive : list File) : Z * bytes :=
  match findFileInZip fileName archive with
  | None => (StatusEntryNotFound, [])
  | Some file =>
      match Open file with
      | inr _ => (1%Z, [])
      | inl b =>
          ((if decide (b_end b = EOF) then 0 else 1)%Z,
           to_bytes (itoa (UncompressedSize64 file)) ++ [newline] ++ b_data b)
      end
  end.

Lemma exit_with_run status err w e :
  ∃ e', run E (exit_with status err) w e = (Value status, w, e').
Proof. cbn. destruct (E _ (LogError_ None (Some err)) e) as [[] e']. by exists e'. Qed.

(** An entry of a local archive is printed after its size, and the status is 0 exactly
    if all of it was; status 11 says that the archive has no such entry, and nothing is
    printed then. *)
Theorem zip_cat_prints (archivePath fileName : string) (archive : list File) (f : fd)
    (w : resp) (e e1 : V)
    (Hlocal : isURL archivePath = false) (Hpath : archivePath ≠ "") (Hname : fileName ≠ "")
    (Hopen : E _ (OpenPath archivePath) e = (inl f, e1)) (Hzip : zip_local f = inl archive)
    (Hstarted : r_status w = Some 200%Z) (Hroom : r_room w = None) :
  ∃ e', run E (zip_cat url_Parse zip_remote zip_local archivePath
                 (of_bytes (StdEncode (to_bytes fileName)))) w e =
    (Value (cat_result fileName archive).1, resp_append (cat_result fileName archive).2 w, e').
Proof.
  unfold zip_cat. destruct (String.eqb_spec archivePath ""); [done|].
  assert (String.eqb (of_bytes (StdEncode (to_bytes fileName))) "" = false) as ->.
  { apply String.eqb_neq. intros H. apply (f_equal to_bytes) in H. rewrite to_of_bytes in H.
    pose proof (StdDecode_encode (to_bytes fileName)) as Hd. rewrite H in Hd. cbn in Hd.
    injection Hd as Hd. apply Hname, to_bytes_nil. done. }
  cbn [orb]. unfold DecodeFileEntry. rewrite to_of_bytes, StdDecode_encode, of_to_bytes.
  unfold OpenArchive. rewrite Hlocal. unfold openFileArchive. rewrite !run_bind. cbn [run call].
  rewrite Hopen, Hzip. cbn [run]. unfold cat_result.
  destruct (findFileInZip fileName archive) as [file|];
    [|rewrite resp_append_nil; apply exit_with_run].
  destruct (Open file) as [b|err]; [|rewrite resp_append_nil; apply exit_with_run].
  unfold print_line. rewrite !run_bind. cbn [run write].
  rewrite (resp_write_append _ w 200%Z) by done. cbn [run]. rewrite run_bind.
  rewrite (run_io_Copy E b _ 200%Z) by done. rewrite resp_append_app, <- app_assoc. cbn [fst snd].
  unfold read_all. cbn [snd]. destruct (decide (b_end b = EOF)); [|apply exit_with_run].
  by exists e1.
Qed.
End cat.

(** ** Examples *)

Definition test_file (name : string) (data : string) : File :=
  {| Name := name; ModTime := 1; Perm := 420; CRC32 := 7; UncompressedSize64 := Z.of_nat (String.length data);
     CompressedSize64 := 2; Comment := ""; Open := inl (whole (to_bytes data)) |}.
Definition test_archive : list File :=
  [test_file "a/b/c" "one"; test_file "../x" "two"; test_file "/" "three"; test_file "a/b/c" "four"].

Example test_listing :
  (listing test_archive).*1 = ["../"; "../x"; "/"; "a/"; "a/b/"; "a/b/c"].
Proof. by vm_compute. Qed.

Example test_metadata :
  of_bytes (json_Marshal (newMetadata (Some (test_file "x" "one")))) =
  of_bytes (to_bytes "{" ++ json_string "modified" ++ to_bytes ":1," ++ json_string "mode" ++
    to_bytes ":" ++ json_string "644" ++ to_bytes "," ++ json_string "crc" ++ to_bytes ":7," ++
    json_string "size" ++ to_bytes ":3," ++ json_string "zipped" ++ to_bytes ":2}").
Proof. by vm_compute. Qed.

(** Of two entries with one name the listing describes the last and the first is printed. *)
Example duplicate_entries :
  last_named test_archive "a/b/c" = Some (test_file "a/b/c" "four") ∧
  (cat_result "a/b/c" test_archive).2 = to_bytes "3" ++ [newline] ++ to_bytes "one".
Proof. by vm_compute. Qed.

Lemma GenerateZipMetadata_reads_back_witness :
  (∃ out, GenerateZipMetadata collect id test_archive [] = (None, out) ∧
     read_records (length out) out = Some (strings_of test_archive)) ∧
  StronglySorted key_le (listing test_archive) ∧ NoDup (listing test_archive).*1 ∧
  ∀ name entry, (name, entry) ∈ listing test_archive ↔ listed test_archive name entry.
Proof.
  apply (GenerateZipMetadata_reads_back test_archive).
  apply (bool_decide_unpack _). by vm_compute.
Defined.

Lemma zip_cat_prints_witness :
  ∃ e', run (HelperProps.file_env "/a.zip" []) (zip_cat (λ _, inr EOF) (λ _, inr EOF) (λ _, inl test_archive)
             "/a.zip" (of_bytes (StdEncode (to_bytes "../x")))) (resp_header 200 (new_resp ∅)) ∅ =
    (Value 0%Z, resp_append (to_bytes "3" ++ [newline] ++ to_bytes "two") (resp_header 200 (new_resp ∅)), e').
Proof.
  refine (zip_cat_prints (HelperProps.file_env "/a.zip" []) (λ _, inr EOF) (λ _, inr EOF) (λ _, inl test_archive)
    "/a.zip" "../x" test_archive (fresh ∅) (resp_header 200 (new_resp ∅)) ∅ ({[fresh ∅]} ∪ ∅) _ _ _ _ _ _ _).
  all: done.
Defined.
End ZipArtifacts.
