(* ===== verification/Artifacts.v ===== *)
(** * Build artifacts (internal/artifacts)

    Uploading: an archive of artifacts is saved as any upload is, and a process lists its
    contents; the listing is saved as a second file.  Downloading: a process prints one
    entry of an archive.  The table of media types is a parameter, and so is whether the
    client has gone, and whether a save that failed had taken all that the process printed:
    these depend on when things happen. *)

From S2P Require Import Prelude GoString Http GoNet GoBase64.
From S2P Require Import GoMultipart.
From S2P Require Import Helper.
From S2P Require Import SendData.
From S2P Require Import Gitaly.
From S2P Require Import Api.
From S2P Require Import ObjectStore.
From S2P Require Import FileStore.
From S2P Require Import Block.
From S2P Require Import Upload.
From S2P Require Import ZipArtifacts.
From stdpp Require Import options.

Module Artifacts.
Import FileStore(FileHandler, SaveFileOpts, GitLabFinalizeFields).

(** [internal/helper/helpers.go:136-148 ExitStatus] *)
Definition ExitStatus (x : gerr * option Z) : option Z := x.2.

(** ** Uploading *)

(** A goroutine that waits for what never happens: nothing after it is done. *)
Definition blocked {A} : prog A := Raise "blocked".

Section upload.
Context (url_Parse : string → result url).
Context (xml_Decode : body → result ObjectStore.compoundCompleteMultipartUploadResult).
Context (md5 sha1 sha256 sha512 : bytes → bytes).
Context (quotedprintable : body → body) (randomBoundary : bytes).
Context (Environ : list string) (TempDir : string).
Context (cancelled : bool) (drained : gerr → bytes → bool).

Abbreviation SaveFileFromReader :=
  (FileStore.SaveFileFromReader url_Parse xml_Decode md5 sha1 sha256 sha512).

(** [internal/artifacts/artifacts_upload.go:29-35 artifactsUploadProcessor.generateMetadataFromZip] *)
Definition metaOpts (opts : SaveFileOpts) : SaveFileOpts :=
  {| FileStore.TempFilePrefix := "metadata.gz";
     FileStore.LocalTempPath :=
       if String.eqb (FileStore.LocalTempPath opts) "" then TempDir else FileStore.LocalTempPath opts;
     FileStore.RemoteID := ""; FileStore.RemoteURL := ""; FileStore.PresignedPut := "";
     FileStore.PresignedDelete := ""; FileStore.PutHeaders := ∅; FileStore.Deadline := 0;
     FileStore.PartSize := 0; FileStore.PresignedParts := [];
     FileStore.PresignedCompleteMultipart := ""; FileStore.PresignedAbortMultipart := "" |}.

(** The listing is saved while the process runs, up to its end; a process that cannot get
    rid of its output is waited for in vain.
    [internal/artifacts/artifacts_upload.go:25-74 artifactsUploadProcessor.generateMetadataFromZip] *)
Definition generateMetadataFromZip (opts : SaveFileOpts) (file : FileHandler)
    : prog (result (option FileHandler) * list FileStore.leftovers) :=
  let fileName :=
    if String.eqb (FileStore.LocalPath file) "" then FileStore.RemoteURL_ file
    else FileStore.LocalPath file in
  zipMd <- call (StartCmd ["gitlab-zip-metadata"; fileName] Environ None);;
  match zipMd with
  | inr err => Ret (inr err, [])
  | inl zipMd =>
      deferring (call (CloseFd zipMd))
        (stdout <- call (ReadFd zipMd);;
         '(result, residue) <- SaveFileFromReader (whole (b_data stdout)) (-1) (metaOpts opts);;
         if match result with inl _ => false | inr err => negb (drained err (b_data stdout)) end
         then blocked
         else
           exit <- call (WaitCmd zipMd);;
           match exit with
           | Some x =>
               Ret (if decide (ExitStatus x = Some ZipArtifacts.StatusNotZip) then inl None
                    else inr x.1, [residue])
           | None => Ret (match result with inl fh => inl (Some fh) | inr err => inr err end, [residue])
           end)
  end.

(** Whether a file was seen.
    [internal/artifacts/artifacts_upload.go:76-117 artifactsUploadProcessor.ProcessFile] *)
Definition processor (opts : SaveFileOpts) : Upload.MultipartFormProcessor bool := {|
  Upload.ProcessFile formName file (rew : Upload.rewriter bool) :=
    if negb (String.eqb formName "file") then
      Ret (Some (Errorf ("Invalid form field: " +:+ quote formName)), rew)
    else if Upload.proc rew then
      Ret (Some (Errorf "Artifacts request contains more than one file"), rew)
    else
      let rew := Upload.mk_rewriter (Upload.writer rew) true (Upload.left_ rew) in
      if cancelled then Ret (Some (Errorf "ProcessFile: context done"), rew)
      else
        '(metadata, residue) <- generateMetadataFromZip opts file;;
        let rew := Upload.mk_rewriter (Upload.writer rew) (Upload.proc rew)
                     (residue ++ Upload.left_ rew) in
        Ret match metadata with
            | inr err => (Some (Wrapf "generateMetadataFromZip" err), rew)
            | inl None => (None, rew)
            | inl (Some metadata) =>
                (None, Upload.with_writer
                         (foldl Upload.write_field (Upload.writer rew)
                            (map_to_list (GitLabFinalizeFields metadata "metadata"))) rew)
            end;
  Upload.ProcessField _ rew := Ret (None, rew);
  Upload.Finalize _ r := Ret (None, r);
  Upload.Name := "artifacts";
|}.

(** [internal/artifacts/artifacts_upload.go:119-125 UploadArtifacts] *)
Definition UploadArtifacts (preAuthorizeHandler : Api.HandleFunc → string → Handler) (h : Handler)
    : Handler :=
  preAuthorizeHandler (λ r a,
    now <- call Now;;
    Upload.HandleFileUploads url_Parse xml_Decode md5 sha1 sha256 sha512 quotedprintable randomBoundary
      (processor (FileStore.GetOpts now a)) a h false r) "/authorize".

(** *** One archive per upload *)

Section one_file.
Context (opts : SaveFileOpts) (preauth : Api.Response).
Abbreviation rewrite_parts :=
  (Upload.rewrite_parts url_Parse xml_Decode md5 sha1 sha256 sha512 (processor opts) preauth).

(** The parts that upload files. *)
Definition file_parts : list Multipart.Part → list Multipart.Part :=
  filter (λ p, Multipart.FormName p ≠ "" ∧ Multipart.FileName p ≠ "").

Lemma ProcessFile_once name fh rew :
  returns (Upload.ProcessFile (processor opts) name fh rew)
    (λ '(x, rew'), x = None → name = "file" ∧ Upload.proc rew = false ∧ Upload.proc rew' = true).
Proof using Type.
  unfold processor. cbn [Upload.ProcessFile].
  destruct (String.eqb_spec name "file"); [|by apply returns_ret]. cbn [negb].
  destruct (Upload.proc rew) eqn:Er; [by apply returns_ret|].
  destruct cancelled; [by apply returns_ret|]. apply returns_bind_any. intros [[[m|]|err] residue];
    by apply returns_ret.
Qed.

Lemma handleFilePart_once name p rew :
  returns (Upload.handleFilePart url_Parse xml_Decode md5 sha1 sha256 sha512 (processor opts) preauth name p rew)
    (λ '(x, rew'), x = None → name = "file" ∧ Upload.proc rew = false ∧ Upload.proc rew' = true).
Proof using Type.
  unfold Upload.handleFilePart. apply returns_bind_any. intros [].
  destruct (Upload.illegal _); [by apply returns_ret|]. apply returns_bind_any. intros now. cbv zeta.
  apply returns_bind_any. intros [[fh|err] residue]; [|by apply returns_ret].
  apply returns_bind_any. intros []. eapply returns_mono; [apply ProcessFile_once|done].
Qed.

Lemma copyPart_once name p rew :
  returns (Upload.copyPart (processor opts) name p rew)
    (λ '(x, rew'), Upload.proc rew' = Upload.proc rew).
Proof using Type.
  unfold Upload.copyPart. destruct (read_all _) as [d [err|]]; by apply returns_ret.
Qed.

Lemma rewrite_parts_once ps err rew :
  returns (rewrite_parts ps err rew)
    (λ '(x, rew'), x = None →
       length (file_parts ps) + (if Upload.proc rew then 1 else 0) ≤ 1 ∧
       Forall (λ p, Multipart.FormName p = "file") (file_parts ps)).
Proof using Type.
  revert rew. induction ps as [|p ps IH]; intros rew; cbn [Upload.rewrite_parts].
  { apply returns_ret. intros _. cbn. destruct (Upload.proc rew); split; (lia || constructor). }
  unfold file_parts in *. rewrite filter_cons.
  destruct (String.eqb_spec (Multipart.FormName p) "") as [Hn|Hn].
  { rewrite decide_False by naive_solver. apply IH. }
  destruct (String.eqb_spec (Multipart.FileName p) "") as [Hf|Hf]; cbn [negb].
  - rewrite decide_False by naive_solver. eapply returns_bind; [apply copyPart_once|].
    intros [[x|] rew'] Hr; [by apply returns_ret|]. cbn in Hr. rewrite <- Hr. apply IH.
  - rewrite decide_True by done. eapply returns_bind; [apply handleFilePart_once|].
    intros [[x|] rew'] Hr; [by apply returns_ret|]. destruct (Hr eq_refl) as (Hname & Hs & Hs').
    eapply returns_mono; [apply IH|]. intros [y rew2] H Hy. destruct (H Hy) as [Hl Ha].
    rewrite Hs, Hs' in *. cbn [length]. split; [lia|by constructor].
Qed.
End one_file.

(** *** Leftovers *)

Section files.
Context {V : Type} (E : env V) (files : V → gset string) {HE : PathEnv E files}.
#[local] Set Default Proof Using "Type*".

Lemma generateMetadataFromZip_accounts opts fh before (l : list FileStore.leftovers) w e :
  Upload.leaves_all files before l e →
  match run E (generateMetadataFromZip opts fh) w e with
  | (Value (_, residue), _, e') => Upload.leaves_all files before (residue ++ l) e'
  | (Panic _, _, _) => True
  end.
Proof.
  intros [Hd H]. unfold generateMetadataFromZip. rewrite run_bind.
  assert (∀ X (x : ext X), makes_or_removes x = false → keeps E files (call x)) as Hcall
    by (intros X x Hx; apply keeps_files_harmless; [done|by split]).
  match goal with |- context [run E (call ?x) w e] =>
    pose proof (Hcall _ x eq_refl w e) as H1; destruct (run E (call x) w e) as [[[[f|err]|m] w1] e1] end;
    cbn [snd] in H1; [|by split; [|rewrite H1]|done].
  rewrite run_deferring, run_bind. pose proof (Hcall _ (ReadFd f) eq_refl w1 e1) as H2.
  destruct (run E (call (ReadFd f)) w1 e1) as [[[b|m] w2] e2]; cbn [snd] in H2;
    [|by destruct (run E (call (CloseFd f)) w2 e2) as [[[[]|] ?] ?]].
  rewrite run_bind.
  pose proof (FileStore.SaveFileFromReader_leaves url_Parse xml_Decode md5 sha1 sha256 sha512 E files
    (whole (b_data b)) (-1) (metaOpts opts) w2 e2) as Hl.
  destruct (run E (SaveFileFromReader _ _ _) w2 e2) as [[[[result residue]|m] w3] e3];
    [|by destruct (run E (call (CloseFd f)) w3 e3) as [[[[]|] ?] ?]].
  specialize (Hl _ _ _ _ eq_refl).
  assert (Upload.leaves_all files before ([residue] ++ l) e3) as H3.
  { unfold Upload.leaves_all, Upload.locals, FileStore.leaves in *. cbn [app omap list_omap].
    rewrite H2, H1, H in Hl. destruct (FileStore.l_local residue) as [path|]; [|done].
    destruct Hl as [Hp ->]. cbn [list_to_set]. clear - Hd Hp. set_solver. }
  destruct (match result with inl _ => false | inr err => _ end).
  { cbn [run blocked]. by destruct (run E (call (CloseFd f)) w3 e3) as [[[[]|] ?] ?]. }
  rewrite run_bind. pose proof (Hcall _ (WaitCmd f) eq_refl w3 e3) as H4.
  destruct (run E (call (WaitCmd f)) w3 e3) as [[[x|m] w4] e4]; cbn [snd] in H4;
    [|by destruct (run E (call (CloseFd f)) w4 e4) as [[[[]|] ?] ?]].
  pose proof (Hcall _ (CloseFd f) eq_refl w4 e4) as H5.
  destruct x as [x|]; cbn [run]; destruct (run E (call (CloseFd f)) w4 e4) as [[[[]|m] w5] e5];
    try done; cbn [snd] in H5; unfold Upload.leaves_all in *; by rewrite H5, H4.
Qed.
(** Every file made for an upload of artifacts, the listing included, will be removed
    when the request is over: the processor keeps the accounts that uploading relies on. *)
Theorem processor_accounts (opts : SaveFileOpts) (name : string) (fh : FileHandler)
    (rew : Upload.rewriter bool) :
  Upload.accounts E files (Upload.ProcessFile (processor opts) name fh rew) rew ∧
  Upload.accounts E files (Upload.ProcessField (processor opts) name rew) rew ∧
  ∀ s r, keeps E files (Upload.Finalize (processor opts) s r).
Proof.
  split_and!; [|by apply Upload.accounts_ret|done].
  unfold processor. cbn [Upload.ProcessFile].
  destruct (negb _); [by apply Upload.accounts_ret|].
  destruct (Upload.proc rew); [by apply Upload.accounts_ret|].
  destruct cancelled; [by apply Upload.accounts_ret|]. intros before w e H. rewrite run_bind.
  pose proof (generateMetadataFromZip_accounts opts fh before (Upload.left_ rew) w e H) as Hg.
  destruct (run E (generateMetadataFromZip opts fh) w e) as [[[[[[m|]|err] residue]|m] w1] e1]; done.
Qed.
End files.
(** An upload of artifacts that is accepted has at most one file, in the field named
    "file". *)
Theorem artifacts_one_file {V} (E : env V) (opts : SaveFileOpts) (preauth : Api.Response)
    (r : Request) (ps : list Multipart.Part) (err : gerr) (w w' : resp) (e e' : V)
    (rew' : Upload.rewriter bool)
    (Hread : Multipart.MultipartReader quotedprintable r = inl (ps, err))
    (Hrun : run E (Upload.rewriteFormFilesFromMultipart url_Parse xml_Decode md5 sha1 sha256 sha512
       quotedprintable (processor opts) preauth r
       (Upload.mk_rewriter (Multipart.NewWriter randomBoundary) false [])) w e =
       (Value (None, rew'), w', e')) :
  file_parts ps = [] ∨ ∃ p, file_parts ps = [p] ∧ Multipart.FormName p = "file".
Proof using Type.
  unfold Upload.rewriteFormFilesFromMultipart in Hrun. rewrite Hread, run_bind in Hrun. revert Hrun.
  cbn [run call]. destruct (E unit _ e) as [[] e1]. intros Hrun.
  destruct (returns_run E _ _ _ _ _ _ _ (rewrite_parts_once opts preauth ps err _) Hrun eq_refl) as [Hl Hf].
  destruct (file_parts ps) as [|p [|q l]]; [by left| |cbn in Hl; lia].
  right. exists p. split; [done|]. by inversion_clear Hf.
Qed.
End upload.

(** ** Downloading *)

(** [internal/artifacts/escape_quotes.go:8-10 escapeQuotes] *)
Definition escapeQuotes (s : string) : string := of_bytes (Mime.escape_quotes (to_bytes s)).

(** [internal/artifacts/entry.go:22-22 entryParams] *)
Record entryParams := { Archive : string; Entry : string }.

Section entry.
Context (Environ : list string) (TypeByExtension : string → string).
Context (unmarshal : bytes → result entryParams).

(** [internal/artifacts/entry.go:54-60 detectFileContentType] *)
Definition detectFileContentType (fileName : string) : string :=
  let contentType := TypeByExtension (Path.Ext fileName) in
  if String.eqb contentType "" then "application/octet-stream" else contentType.

(** [internal/artifacts/entry.go:108-119 waitCatFile] *)
Definition waitCatFile (cmd : fd) : prog (option gerr) :=
  exit <- call (WaitCmd cmd);;
  Ret match exit with
      | None => None
      | Some x =>
          if decide (ExitStatus x = Some ZipArtifacts.StatusEntryNotFound) then Some ErrNotExist
          else Some (Wrapf "wait for gitlab-zip-cat to finish" x.1)
      end.

Definition disposition (basename : string) : string :=
  "attachment; filename=" +:+ of_bytes ["034"%char] +:+ escapeQuotes basename +:+ of_bytes ["034"%char].

(** [internal/artifacts/entry.go:63-106 unpackFileFromZip] *)
Definition unpackFileFromZip (archivePath encodedFilename : string) : prog (option gerr) :=
  match ZipArtifacts.DecodeFileEntry encodedFilename with
  | inr err => Ret (Some err)
  | inl fileName =>
      catFile <- call (StartCmd ["gitlab-zip-cat"]
        (Environ ++ ["ARCHIVE_PATH=" +:+ archivePath; "ENCODED_FILE_NAME=" +:+ encodedFilename]) None);;
      match catFile with
      | inr err => Ret (Some (Wrapf "start gitlab-zip-cat" err))
      | inl catFile =>
          deferring (call (CloseFd catFile))
            (let basename := Path.Base fileName in
             stdout <- call (ReadFd catFile);;
             match cut_at newline (b_data stdout) with
             | None =>
                 catFileErr <- waitCatFile catFile;;
                 Ret (Some (default (Wrapf "read content-length" (b_end stdout)) catFileErr))
             | Some (contentLength, rest) =>
                 header_set "Content-Length" (of_bytes contentLength);;
                 header_set "Content-Type" (detectFileContentType fileName);;
                 header_set "Content-Disposition" (disposition basename);;
                 '(_, err) <- io_Copy {| b_data := rest; b_end := b_end stdout |};;
                 match err with
                 | Some err => Ret (Some (Wrapf "copy stdout of gitlab-zip-cat" err))
                 | None => waitCatFile catFile
                 end
             end)
      end
  end.

(** [internal/artifacts/entry.go:27-52 entry.Inject] *)
Definition Inject (r : Request) (sendData : string) : prog unit :=
  match SendData.Unpack unmarshal "artifacts-entry:" sendData with
  | inr err => Helper.Fail500 r (Some (Wrapf "SendEntry: unpack sendData" err))
  | inl params =>
      call (LogInfo [("entry", FText (Entry params)); ("archive", FText (Archive params));
                     ("path", FText (Path_ (URL r)))] "SendEntry: sending");;
      if String.eqb (Archive params) "" || String.eqb (Entry params) "" then
        Helper.Fail500 r (Some (Errorf "SendEntry: Archive or Entry is empty"))
      else
        err <- unpackFileFromZip (Archive params) (Entry params);;
        match err with
        | None => Ret tt
        | Some err =>
            if decide (err = ErrNotExist) then http_NotFound
            else Helper.Fail500 r (Some (Wrapf "SendEntry" err))
        end
  end.

(** [internal/artifacts/entry.go:24-24 SendEntry] *)
Definition SendEntry : SendData.Injecter :=
  {| SendData.inj_Match := SendData.Match "artifacts-entry:"; SendData.inj_Inject := Inject;
     SendData.inj_Name := SendData.Name "artifacts-entry:" |}.

(** *** The entry that is served *)

Section served.
Context {V : Type} (E : env V).
Context (fileName : string) (archive : list ZipArtifacts.File) (f : fd).
(** The process that is started prints the entry of the archive. *)
Context (Hstart : ∀ environ e, (E _ (StartCmd ["gitlab-zip-cat"] environ None) e).1 = inl f).
Context (Hout : ∀ e, (E _ (ReadFd f) e).1 = whole (ZipArtifacts.cat_result fileName archive).2).
Context (Hexit : ∀ e, (E _ (WaitCmd f) e).1 =
  let status := (ZipArtifacts.cat_result fileName archive).1 in
  if (status =? 0)%Z then None else Some (Errorf "exit status", Some status)).
#[local] Set Default Proof Using "Type*".

Definition entry_headers (file : ZipArtifacts.File) (w : resp) : resp :=
  resp_put "Content-Disposition" (Some [disposition (Path.Base fileName)])
    (resp_put "Content-Type" (Some [detectFileContentType fileName])
       (resp_put "Content-Length" (Some [itoa (ZipArtifacts.UncompressedSize64 file)]) w)).

Lemma run_call {X} (x : ext X) w e : run E (call x) w e = (Value (E _ x e).1, w, (E _ x e).2).
Proof using Type. cbn. by destruct (E _ x e). Qed.

Lemma waitCatFile_calm cmd : never_panics (waitCatFile cmd).
Proof using Type. by intros x. Qed.

Lemma unpackFileFromZip_calm a name : never_panics (unpackFileFromZip a name).
Proof using Type.
  unfold unpackFileFromZip. destruct (ZipArtifacts.DecodeFileEntry name); [|done]. intros [cmd|x]; [|done].
  apply never_panics_deferring; [done|]. cbv zeta. intros b. cbn [bind].
  destruct (cut_at _ _) as [[n rest]|]; [|by intros x]. cbn [never_panics bind header_set].
  apply never_panics_bind; [apply io_Copy_calm|]. intros [m [x|]]; [done|apply waitCatFile_calm].
Qed.

Lemma cut_at_size n d : cut_at newline (to_bytes (itoa n) ++ [newline] ++ d) = Some (to_bytes (itoa n), d).
Proof using Type.
  cbn [app]. apply cut_at_app. intros H. pose proof (itoa_octets n) as Ho. rewrite Forall_forall in Ho.
  by destruct (Ho _ H).
Qed.

Lemma unpackFileFromZip_run a w e :
  r_status w = None → r_room w = None →
  ∃ err w' e', run E (unpackFileFromZip a (of_bytes (StdEncode (to_bytes fileName)))) w e =
      (Value err, w', e') ∧
    match ZipArtifacts.findFileInZip fileName archive with
    | None => err = Some ErrNotExist ∧ w' = w
    | Some file => ∀ d, ZipArtifacts.Open file = inl (whole d) →
        err = None ∧ w' = match d with
                          | [] => entry_headers file w
                          | _ => resp_append d (resp_header 200 (entry_headers file w))
                          end
    end.
Proof.
  intros Hs Hr. destruct (never_panics_run E _ w e (unpackFileFromZip_calm a
    (of_bytes (StdEncode (to_bytes fileName))))) as (err & w' & e' & Hrun).
  exists err, w', e'. split; [done|]. revert Hrun. unfold unpackFileFromZip, ZipArtifacts.DecodeFileEntry.
  rewrite to_of_bytes, StdDecode_encode, of_to_bytes, run_bind, run_call, Hstart.
  rewrite run_deferring. cbv zeta. rewrite run_bind, run_call, Hout. unfold ZipArtifacts.cat_result in *.
  destruct (ZipArtifacts.findFileInZip fileName archive) as [file|].
  - intros Hrun d Hd. rewrite Hd in *. cbn [fst snd b_data b_end whole] in *. rewrite cut_at_size in Hrun.
    rewrite of_to_bytes in Hrun. unfold waitCatFile in Hrun. cbn [bind header_set run] in Hrun.
    rewrite run_bind in Hrun. change (mk_body d EOF) with (whole d) in Hrun.
    match type of Hrun with context [run E (io_Copy _) ?w1 ?e1] =>
      assert (run E (io_Copy (whole d)) w1 e1 =
        (Value (Z.of_nat (length d), None), match d with [] => w1 | _ => resp_append d (resp_header 200 w1) end, e1))
        as Hc end.
    { destruct d as [|c d]; [done|]. by rewrite run_io_Copy_fresh. }
    rewrite Hc, run_bind, run_call, Hexit in Hrun. cbn [run decide] in Hrun.
    rewrite run_call in Hrun. injection Hrun as <- <- _. split; [done|]. by destruct d.
  - cbn [snd b_data whole cut_at]. unfold waitCatFile. rewrite !run_bind, run_call, Hexit.
    cbn [run]. rewrite run_call. by intros [= <- <- _].
Qed.

End served.
(** *** Processes *)

Lemma waitCatFile_closes {V} (E : env V) (fds : V → gset fd) {HE : FdEnv E fds} cmd :
  keeps E fds (waitCatFile cmd).
Proof using Type. apply keeps_bind; [by apply closes_call|done]. Qed.

(** Whatever becomes of a download, the process that prints the entry is gone at its
    end and no file is left open. *)
Theorem SendEntry_closes {V} (E : env V) (fds : V → gset fd) {HE : FdEnv E fds} (r : Request)
    (sendData : string) : keeps E fds (SendData.inj_Inject SendEntry r sendData).
Proof using Type.
  assert (∀ x, keeps E fds (Helper.Fail500 r x)) as Hf
    by (intros x; apply closes_no_files; [done|by apply Helper.Fail500_harmless]).
  cbn [SendEntry SendData.inj_Inject]. unfold Inject.
  destruct (SendData.Unpack _ _ _) as [params|x]; [|done].
  apply keeps_bind; [by apply closes_call|]. intros _. destruct (_ || _); [done|].
  apply keeps_bind; [|intros [x|]; [|done]; destruct (decide _); [by apply closes_no_files|done]].
  unfold unpackFileFromZip. destruct (ZipArtifacts.DecodeFileEntry _) as [name|x]; [|done].
  eapply closes_opening_call; [done|done|done| |reflexivity|]; cbn beta iota; [done|].
  intros cmd. cbv zeta. apply keeps_bind; [by apply closes_call|]. intros b.
  destruct (cut_at _ _) as [[n rest]|].
  - do 3 (apply keeps_bind; [by apply closes_no_files|]; intros _).
    apply keeps_bind; [apply closes_no_files; [done|apply io_Copy_harmless]|].
    intros [m [x|]]; [done|by apply waitCatFile_closes].
  - apply keeps_bind; [by apply waitCatFile_closes|]. done.
Qed.
End entry.

(** ** The name of a download *)

Lemma consume_filename l : "013"%char ∉ l → "010"%char ∉ l →
  Mime.consume_media_param (to_bytes "; filename=" ++ "034"%char :: Mime.escape_quotes l ++ ["034"%char]) =
    Some (to_bytes "filename", l, []).
Proof.
  intros H1 H2. pose proof (Mime.consume_quoted_escaped l [] [] H1 H2) as Hq. revert Hq.
  generalize (Mime.escape_quotes l ++ ["034"%char]) as q. intros q Hq.
  assert (Mime.consume_value ("034"%char :: q) = (l, [])) as Hv.
  { unfold Mime.consume_value. by rewrite Hq. }
  transitivity (let '(value, rest') := Mime.consume_value ("034"%char :: q) in
    match value with
    | [] => if bool_decide (rest' = "034"%char :: q) then None
            else Some (to_bytes "filename", [], rest')
    | _ => Some (to_bytes "filename", value, rest')
    end); [reflexivity|].
  rewrite Hv. by destruct l.
Qed.

(** The name under which an entry is downloaded is the last element of its name, also
    when that has quotes or backslashes, as long as it fits on one line. *)
Theorem disposition_reads_back (basename : string) (Hline : Multipart.name_ok basename = true) :
  Mime.parse_media_type (disposition basename) =
    Some ("attachment", [(to_bytes "filename", to_bytes basename)]).
Proof.
  revert Hline. unfold Multipart.name_ok.
  rewrite andb_true_iff, !negb_true_iff. intros [H1%Net.mem_false H2%Net.mem_false].
  assert (to_bytes (disposition basename) = to_bytes "attachment; filename=" ++
    "034"%char :: Mime.escape_quotes (to_bytes basename) ++ ["034"%char]) as Hd.
  { unfold disposition, escapeQuotes. by rewrite !to_bytes_app, !to_of_bytes. }
  unfold Mime.parse_media_type. rewrite Hd.
  set (q := Mime.escape_quotes (to_bytes basename) ++ ["034"%char]).
  cbn [to_bytes String.list_ascii_of_string app cut_at Ascii.eqb Bool.eqb]. cbn [fmap list_fmap].
  match goal with |- context [Mime.trim_space ?t] =>
    let v := eval vm_compute in (Mime.trim_space t) in change (Mime.trim_space t) with v end.
  match goal with |- context [Mime.type_ok ?t] => change (Mime.type_ok t) with true end.
  cbn [length Mime.media_params].
  match goal with |- context [Mime.trim_left ?t] =>
    change (Mime.trim_left t) with t end.
  cbv iota beta.
  match goal with |- context [Mime.consume_media_param ?t] =>
    assert (Mime.consume_media_param t = Some (to_bytes "filename", to_bytes basename, [])) as -> end.
  { by apply consume_filename. }
  done.
Qed.

(** ** Examples *)

(** The archive is no zip archive: the process ends with the status that says so. *)
Definition not_zip_env : env (gset string) := λ X x w,
  match x in ext X return X * gset string with
  | StartCmd _ _ _ => (inl 5, w)
  | WaitCmd _ => (Some (Errorf "exit status 10", Some 10%Z), w)
  | x => FileStore.path_env _ x w
  end.
#[global] Instance not_zip_paths : PathEnv not_zip_env id.
Proof.
  split.
  - intros dir prefix w. cbn. split; [apply is_fresh|done].
  - done.
  - intros X x w Hx. by destruct x.
Qed.

Definition test_processor : Upload.MultipartFormProcessor bool :=
  processor FileStore.test_parse ObjectStore.test_decode (take 2) (take 3) (take 4) (take 5) [] "/tmp"
    false (λ _ _, true) FileStore.local_opts.

Definition test_rewrite (filename : string) :=
  Upload.rewriteFormFilesFromMultipart FileStore.test_parse ObjectStore.test_decode (take 2) (take 3)
    (take 4) (take 5) id test_processor Api.granted (Upload.test_request filename)
    (Upload.mk_rewriter (Multipart.NewWriter Upload.test_boundary) false []).
Definition test_rewritten : Upload.rewriter bool :=
  match (run not_zip_env (test_rewrite "a.txt") (new_resp ∅) ∅).1.1 with
  | Value x => x.2
  | Panic _ => Upload.mk_rewriter (Multipart.NewWriter []) false []
  end.

Lemma artifacts_one_file_witness :
  let ps := match Multipart.MultipartReader id (Upload.test_request "a.txt") with
            | inl (ps, _) => ps | inr _ => [] end in
  file_parts ps = [] ∨ ∃ p, file_parts ps = [p] ∧ Multipart.FormName p = "file".
Proof.
  refine (artifacts_one_file FileStore.test_parse ObjectStore.test_decode (take 2) (take 3) (take 4) (take 5)
    id Upload.test_boundary [] "/tmp" false (λ _ _, true) not_zip_env FileStore.local_opts Api.granted
    (Upload.test_request "a.txt") _ EOF (new_resp ∅) (new_resp ∅) ∅
    (run not_zip_env (test_rewrite "a.txt") (new_resp ∅) ∅).2 test_rewritten _ _).
  - vm_compute. reflexivity.
  - vm_compute. reflexivity.
Defined.

Lemma processor_accounts_witness :
  Upload.accounts not_zip_env id (Upload.ProcessFile test_processor "file"
    {| FileStore.LocalPath := "/x"; FileStore.RemoteID_ := ""; FileStore.RemoteURL_ := "";
       FileStore.Size := 0; FileStore.Name := ""; FileStore.hashes := ∅ |} test_rewritten) test_rewritten ∧
  Upload.accounts not_zip_env id (Upload.ProcessField test_processor "file" test_rewritten) test_rewritten ∧
  ∀ s r, keeps not_zip_env id (Upload.Finalize test_processor s r).
Proof. apply processor_accounts. apply _. Defined.

(** The listing cannot be saved: if the process still has output, nothing more happens, and
    the request is never answered. *)
Example metadata_blocks :
  (run not_zip_env (generateMetadataFromZip FileStore.test_parse ObjectStore.test_decode (take 2) (take 3)
     (take 4) (take 5) [] "" (λ _ _, false)
     {| FileStore.TempFilePrefix := ""; FileStore.LocalTempPath := ""; FileStore.RemoteID := "";
        FileStore.RemoteURL := ""; FileStore.PresignedPut := ""; FileStore.PresignedDelete := "";
        FileStore.PutHeaders := ∅; FileStore.Deadline := 0; FileStore.PartSize := 0;
        FileStore.PresignedParts := []; FileStore.PresignedCompleteMultipart := "";
        FileStore.PresignedAbortMultipart := "" |}
     {| FileStore.LocalPath := "/x"; FileStore.RemoteID_ := ""; FileStore.RemoteURL_ := "";
        FileStore.Size := 0; FileStore.Name := ""; FileStore.hashes := ∅ |}) (new_resp ∅) ∅).1.1 =
  Panic "blocked".
Proof. by vm_compute. Qed.

(** The process that prints the entries of an archive. *)
Definition cat_env (name : string) : env unit := λ X x w,
  match x in ext X return X * unit with
  | StartCmd _ _ _ => (inl 5, w)
  | ReadFd _ => (whole (ZipArtifacts.cat_result name ZipArtifacts.test_archive).2, w)
  | WaitCmd _ =>
      (let status := (ZipArtifacts.cat_result name ZipArtifacts.test_archive).1 in
       if (status =? 0)%Z then None else Some (Errorf "exit status", Some status), w)
  | x => HelperProps.quiet_env _ x w
  end.

Definition entry_json (d : bytes) : result entryParams :=
  inl {| Archive := "/a.zip"; Entry := of_bytes (StdEncode (to_bytes "../x")) |}.


Example entry_not_found :
  let '(o, w, _) := run (cat_env "b") (Inject [] (λ _, "")
      (λ _, inl {| Archive := "/a.zip"; Entry := of_bytes (StdEncode (to_bytes "b")) |})
      Block.request "artifacts-entry:e30=") (new_resp ∅) tt in
  o = Value tt ∧ r_status w = Some 404%Z.
Proof. by vm_compute. Qed.

Lemma SendEntry_closes_witness :
  keeps (HelperProps.file_env "/a" []) id
    (SendData.inj_Inject (SendEntry [] (λ _, "") entry_json) Block.request "artifacts-entry:e30=").
Proof. apply (SendEntry_closes [] (λ _, "") entry_json). apply _. Defined.

Lemma disposition_reads_back_witness :
  Mime.parse_media_type (disposition (of_bytes ["a"%char; "034"%char; "\"%char])) =
    Some ("attachment", [(to_bytes "filename", ["a"%char; "034"%char; "\"%char])]).
Proof. apply (disposition_reads_back (of_bytes ["a"%char; "034"%char; "\"%char])). reflexivity. Defined.
End Artifacts.
