(* ===== verification/SendUrl.v ===== *)
(** * Sending what another server has (internal/sendurl)

    Rails names a URL in the send-data header; the client gets what is there, with the
    ranges it asked for.  Following redirects is done by the HTTP client of the standard
    library, which is a parameter, as is the parsing of URLs. *)

From S2P Require Import Prelude GoString Http GoNet.
From S2P Require Import Helper.
From S2P Require Import SendData.
From S2P Require Import Block.
From S2P Require Import Api.
From S2P Require Import ObjectStore.
From stdpp Require Import options.

Module SendUrl.

(** [internal/sendurl/sendurl.go:19-22 entryParams] *)
Record entryParams := { URL_ : string; AllowRedirects : bool }.

(** [internal/sendurl/sendurl.go:26-33 rangeHeaderKeys] *)
Definition rangeHeaderKeys : list string :=
  ["If-Match"; "If-Unmodified-Since"; "If-None-Match"; "If-Modified-Since"; "If-Range"; "Range"].

Definition open_requests : string := "gitlab_workhorse_send_url_open_requests".
Definition count_request (status : string) : prog unit :=
  call (Metric "gitlab_workhorse_send_url_requests" [status] 1).

(** The headers of the client's request about ranges, and no other; one that the client did
    not send has no values.
    [internal/sendurl/sendurl.go:119-121 entry.Inject] *)
Definition copy_range_headers (r newReq : Request) : Request :=
  with_header newReq
    (foldl (λ h k, <[k := default [] (Header_ r !! k)]> h) (Header_ newReq) rangeHeaderKeys).

Section inject.
Context (url_Parse : string → result url) (unmarshal : bytes → result entryParams).
(** [http.Client.Do], which follows redirects. *)
Context (client_Do : Request → prog (result Response)).

Definition fetch (params : entryParams) (newReq : Request) : prog (result Response) :=
  if AllowRedirects params then client_Do newReq else call (RoundTrip_ newReq).

(** What is done with an answer.
    [internal/sendurl/sendurl.go:136-153 entry.Inject] *)
Definition forward (r : Request) (resp : Response) : prog unit :=
  Api.put_headers id (RHeader resp);;
  write_header (StatusCode resp);;
  deferring (close_body resp)
    ('(n, err) <- io_Copy (RBody resp);;
     call (Metric "gitlab_workhorse_send_url_bytes" [] n);;
     match err with
     | Some err =>
         count_request "request-failed";;
         Helper.Fail500 r (Some (Wrapf "SendURL: Copy response" err))
     | None => count_request "succeeded"
     end).

(** [internal/sendurl/sendurl.go:89-153 entry.Inject] *)
Definition Inject (r : Request) (sendData : string) : prog unit :=
  call (Metric open_requests [] 1);;
  deferring (call (Metric open_requests [] (-1)))
    match SendData.Unpack unmarshal "send-url:" sendData with
    | inr err => Helper.Fail500 r (Some (Wrapf "SendURL: unpack sendData" err))
    | inl params =>
        call (LogInfo [("url", FText (Helper.ScrubURLParams (URL_ params)));
                       ("path", FText (Path_ (URL r)))] "SendURL: sending");;
        if String.eqb (URL_ params) "" then
          count_request "invalid-data";;
          Helper.Fail500 r (Some (Errorf "SendURL: URL is empty"))
        else
          match ObjectStore.NewRequest url_Parse "GET" (URL_ params) None 0 with
          | inr err =>
              count_request "invalid-data";;
              Helper.Fail500 r (Some (Wrapf "SendURL: NewRequest" err))
          | inl newReq =>
              resp <- fetch params (copy_range_headers r newReq);;
              match resp with
              | inr err =>
                  count_request "request-failed";;
                  Helper.Fail500 r (Some (Wrapf "SendURL: Do request" err))
              | inl resp => forward r resp
              end
          end
    end.

(** [internal/sendurl/sendurl.go:24-24 SendURL] *)
Definition SendURL : SendData.Injecter :=
  {| SendData.inj_Match := SendData.Match "send-url:"; SendData.inj_Inject := Inject;
     SendData.inj_Name := SendData.Name "send-url:" |}.

(** ** Facts *)

Lemma copy_range_headers_lookup r newReq k :
  Header_ (copy_range_headers r newReq) !! k =
    if decide (k ∈ rangeHeaderKeys) then Some (default [] (Header_ r !! k)) else Header_ newReq !! k.
Proof using Type.
  unfold copy_range_headers. cbn [Header_ with_header].
  assert (∀ ks (h : header), foldl (λ h k, <[k := default [] (Header_ r !! k)]> h) h ks !! k =
    if decide (k ∈ ks) then Some (default [] (Header_ r !! k)) else h !! k) as H; [|apply H].
  induction ks as [|x ks IH]; intros h; cbn [foldl]; [done|]. rewrite IH.
  destruct (decide (k ∈ ks)) as [Hk|Hk]; [rewrite decide_True; [done|by right]|].
  destruct (decide (x = k)) as [->|Hx].
  - rewrite lookup_insert_eq, decide_True; [done|by left].
  - rewrite lookup_insert_ne, decide_False; [done| |done]. by intros [->|]%elem_of_cons.
Qed.

(** The request that goes to the other server is a GET of the URL that Rails named,
    without a body, and with no header of the client but those about ranges. *)
Theorem fetched_request (r : Request) (u : string) (newReq : Request)
    (Hnew : ObjectStore.NewRequest url_Parse "GET" u None 0 = inl newReq) :
  let req := copy_range_headers r newReq in
  Method req = "GET" ∧ inl (URL req) = url_Parse u ∧ Body req = None ∧
  ∀ k, Header_ req !! k =
    if decide (k ∈ rangeHeaderKeys) then Some (default [] (Header_ r !! k)) else None.
Proof using Type.
  unfold ObjectStore.NewRequest in Hnew. destruct (url_Parse u) as [x|x] eqn:E; [|done].
  injection Hnew as <-. split_and!; [done..|]. intros k. rewrite copy_range_headers_lookup. cbn.
  by case_decide; [|rewrite lookup_empty].
Qed.

(** C37: the client gets the answer of the other server: its status, its headers and its
    body.  If the body breaks off, the error page comes after what there was of it. *)
Theorem SendURL_forwards {V} (E : env V) (r : Request) (sendData : string) (params : entryParams)
    (newReq : Request) (resp : Response) (w : Http.resp) (e : V)
    (Hparams : SendData.Unpack unmarshal "send-url:" sendData = inl params)
    (Hurl : URL_ params ≠ "")
    (Hnew : ObjectStore.NewRequest url_Parse "GET" (URL_ params) None 0 = inl newReq)
    (Hfetch : ∀ e, ∃ e', run E (fetch params (copy_range_headers r newReq)) w e = (Value (inl resp), w, e'))
    (Hfresh : r_status w = None) (Hroom : r_room w = None)
    (Hallowed : body_allowed (StatusCode resp) = true) :
  ∃ w' e', run E (Inject r sendData) w e = (Value tt, w', e') ∧
    r_status w' = Some (StatusCode resp) ∧
    r_body w' = r_body w ++ b_data (RBody resp) ++
      (if decide (b_end (RBody resp) = EOF) then [] else to_bytes "Internal server error" ++ [newline]) ∧
    ∀ k vs, RHeader resp !! k = Some vs → r_sent w' !! k = Some vs.
Proof using Type.
  unfold Inject. rewrite run_bind. cbn [run call]. destruct (E unit (Metric open_requests [] 1) e) as [[] e0].
  rewrite run_deferring, Hparams, run_bind. cbn [run call]. destruct (E unit _ e0) as [[] e1].
  destruct (String.eqb_spec (URL_ params) ""); [done|]. rewrite Hnew, run_bind.
  destruct (Hfetch e1) as [e2 ->]. unfold forward. rewrite run_bind.
  destruct (Api.put_headers_run E id (RHeader resp) w e2) as (w1 & -> & Hs1 & Hb1 & Hr1 & Hh1); [done|].
  cbn [run bind write_header]. rewrite run_deferring, run_bind.
  assert (r_status (resp_header (StatusCode resp) w1) = Some (StatusCode resp)) as Hst
    by (unfold resp_header; by rewrite Hs1, Hfresh).
  rewrite (run_io_Copy E _ _ _ e2 Hst Hallowed) by (unfold resp_header; rewrite Hs1, Hfresh; cbn; congruence).
  rewrite run_bind. cbn [run call]. destruct (E unit _ e2) as [[] e3].
  set (w2 := resp_append (b_data (RBody resp)) (resp_header (StatusCode resp) w1)).
  assert (∀ w e, ∃ e', run E (close_body resp) w e = (Value tt, w, e')) as Hclose.
  { intros w3 e4. unfold close_body. destruct (RConn resp) as [f|]; [|by exists e4]. cbn.
    destruct (E _ (CloseFd f) e4) as [[] e5]. by exists e5. }
  assert (r_status w2 = Some (StatusCode resp) ∧ r_room w2 = None ∧
    r_body w2 = r_body w ++ b_data (RBody resp) ∧ r_sent w2 = r_hdr w1) as (Hs2 & Hr2 & Hb2 & Hh2).
  { unfold w2, resp_header. rewrite Hs1, Hfresh. cbn. by rewrite Hr1, Hb1. }
  assert (∀ w3 e4, r_status w3 = Some (StatusCode resp) → r_sent w3 = r_hdr w1 →
    ∃ w' e', (let '(o, r', w') := match run E (close_body resp) w3 e4 with
        | (Value _, r'', w'') => (Value tt, r'', w'') | (Panic m, r'', w'') => (Panic m, r'', w'') end in
      match (let '(x, w'0) := E unit (Metric open_requests [] (-1)) w' in (Value x, r', w'0)) with
      | (Value _, r'', w'') => (o, r'', w'') | (Panic m, r'', w'') => (Panic m, r'', w'') end) =
      (Value tt, w', e') ∧ w' = w3) as Hend.
  { intros w3 e4 _ _. destruct (Hclose w3 e4) as [e5 ->]. destruct (E unit _ e5) as [[] e6]. by exists w3, e6. }
  unfold read_all. destruct (decide (b_end (RBody resp) = EOF)) as [He|He].
  - cbn [snd count_request call run]. destruct (E unit _ e3) as [[] e4].
    destruct (Hend w2 e4 Hs2 Hh2) as (w' & e' & Hr' & ->). eexists w2, e'. split; [exact Hr'|].
    rewrite app_nil_r. split_and!; [done|done|]. intros k vs Hk. rewrite Hh2. by apply Hh1.
  - cbn [snd]. rewrite run_bind. cbn [count_request call run]. destruct (E unit _ e3) as [[] e4].
    destruct (Helper.Fail500_started E r
      (Some (Wrapf "SendURL: Copy response" (b_end (RBody resp)))) w2 (StatusCode resp) e4)
      as (w3 & e5 & -> & Hs3 & Hh3 & Hb3); [done..|].
    destruct (Hend w3 e5 Hs3 ltac:(congruence)) as (w' & e' & Hr' & ->). eexists w3, e'. split; [exact Hr'|].
    rewrite Hb3, Hb2, <- app_assoc. split_and!; [done|done|]. intros k vs Hk. rewrite Hh3, Hh2. by apply Hh1.
Qed.

(** What runs on the answer keeps what its calls keep. *)
Lemma put_headers_harmless ok name (h : header) : harmless ok (Api.put_headers name h).
Proof using Type. unfold Api.put_headers. by induction (map_to_list h) as [|[k v] l IH]. Qed.

Lemma put_headers_calm name (h : header) : never_panics (Api.put_headers name h).
Proof using Type. unfold Api.put_headers. by induction (map_to_list h) as [|[k v] l IH]. Qed.

Lemma forwarding_harmless (ok : ∀ X, ext X → Prop) (r : Request) (b : body) :
  (∀ n l d, n ∈ ["gitlab_workhorse_send_url_bytes"; "gitlab_workhorse_send_url_requests"] →
    ok _ (Metric n l d)) → (∀ h x, ok _ (Capture h x)) → (∀ rq x, ok _ (LogError_ rq x)) →
  harmless ok
    ('(n, err) <- io_Copy b;;
     call (Metric "gitlab_workhorse_send_url_bytes" [] n);;
     match err with
     | Some err =>
         count_request "request-failed";;
         Helper.Fail500 r (Some (Wrapf "SendURL: Copy response" err))
     | None => count_request "succeeded"
     end).
Proof using Type.
  intros Hm Hc Hl. apply harmless_bind; [apply io_Copy_harmless|]. intros [n err].
  split; [apply Hm; by left|]. intros []. assert (∀ status, harmless ok (count_request status)) as Hr
    by (intros status; split; [apply Hm; right; by left|done]).
  destruct err; [|apply Hr]. apply (harmless_bind _ (count_request _)); [apply Hr|]. intros [].
  by apply Helper.Fail500_harmless.
Qed.

(** The connection to the other server is released, whatever it answers and however the
    transfer ends. *)
Theorem SendURL_closes {V} (E : env V) (fds : V → gset fd) {HE : FdEnv E fds} (r : Request)
    (sendData : string) (Hdo : ∀ r, opens_response E fds (client_Do r)) :
  keeps E fds (SendData.inj_Inject SendURL r sendData).
Proof using Type.
  assert (∀ x, keeps E fds (Helper.Fail500 r x)) as Hf by (intros x; by apply Helper.Fail500_closes).
  assert (∀ X (x : ext X), opens_or_closes x = false → keeps E fds (call x)) as Hcall
    by (intros X x Hx; by apply closes_call).
  assert (∀ status x, keeps E fds (count_request status;; Helper.Fail500 r x)) as Hcf
    by (intros status x; apply keeps_bind; [by apply Hcall|done]).
  cbn [SendURL SendData.inj_Inject]. apply keeps_bind; [by apply Hcall|]. intros _.
  apply keeps_deferring; [by apply Hcall|]. destruct (SendData.Unpack _ _ _) as [params|x]; [|done].
  apply keeps_bind; [by apply Hcall|]. intros _. destruct (String.eqb _ ""); [done|].
  destruct (ObjectStore.NewRequest _ _ _ _ _) as [newReq|x]; [|done]. intros w e. rewrite run_bind.
  assert (opens_response E fds (fetch params (copy_range_headers r newReq))) as Hopen.
  { unfold fetch. destruct (AllowRedirects params); [done|]. intros w1 e1. cbn.
    pose proof (fd_opened E fds _ (RoundTrip_ (copy_range_headers r newReq)) e1 eq_refl) as H. cbn in H.
    destruct (E _ (RoundTrip_ _) e1) as [[rsp|x] e2]; cbn [fst snd] in *; [|done]. by destruct (RConn rsp). }
  specialize (Hopen w e). destruct (run E (fetch _ _) w e) as [[[[rsp|x]|m] w1] e1];
    [|by rewrite (Hcf _ _ w1 e1)|done].
  assert (holds_response fds (fds e) rsp e1) as Hh by (unfold holds_response; by destruct (RConn rsp)).
  unfold forward. rewrite run_bind.
  destruct (never_panics_run E (Api.put_headers id (RHeader rsp)) w1 e1) as ([] & w2 & e2 & Hp).
  { apply put_headers_calm. }
  pose proof (closes_no_files E fds _ HE (put_headers_harmless _ id (RHeader rsp)) w1 e1) as Hp2.
  rewrite Hp in Hp2 |- *. cbn [snd] in Hp2. cbn [run bind write_header]. rewrite run_deferring.
  pose proof (closes_no_files E fds _ HE (forwarding_harmless (λ _ e, opens_or_closes e = false) r (RBody rsp) ltac:(done) ltac:(done) ltac:(done))
    (resp_header (StatusCode rsp) w2) e2) as Hb.
  destruct (run E _ (resp_header (StatusCode rsp) w2) e2) as [[o w3] e3]. cbn [snd] in Hb.
  destruct (close_body_run E fds (fds e) rsp w3 e3 HE) as (e4 & -> & H4); [|done].
  unfold holds_response in *. by rewrite Hb, Hp2.
Qed.

(** Calls that move the gauge of open requests. *)
Definition moves {X} (x : ext X) : bool :=
  match x with Metric n _ _ => String.eqb n open_requests | _ => false end.

(** The gauge of open requests comes back to where it was, panics included. *)
Theorem SendURL_gauge {V} (E : env V) (gauge : V → Z) (r : Request) (sendData : string)
    (Hgauge : ∀ d e, gauge (E _ (Metric open_requests [] d) e).2 = (gauge e + d)%Z)
    (Hother : ∀ X (x : ext X) e, moves x = false → gauge (E _ x e).2 = gauge e)
    (Hdo : ∀ r, keeps E gauge (client_Do r)) :
  keeps E gauge (SendData.inj_Inject SendURL r sendData).
Proof using Type.
  assert (∀ A (p : prog A), harmless (λ _ x, moves x = false) p → keeps E gauge p) as Hk.
  { intros A p. apply keeps_harmless. intros X x e Hx. by apply Hother. }
  assert (∀ x, keeps E gauge (Helper.Fail500 r x)) as Hf by (intros x; by apply Hk, Helper.Fail500_harmless).
  assert (∀ status, keeps E gauge (count_request status)) as Hc by (intros status; by apply Hk).
  cbn [SendURL SendData.inj_Inject]. intros w e. unfold Inject. rewrite run_bind. cbn [run call].
  pose proof (Hgauge 1%Z e) as H1. destruct (E unit (Metric open_requests [] 1) e) as [[] e1]. cbn [snd] in H1.
  rewrite run_deferring. match goal with |- context [run E ?p w e1] => assert (keeps E gauge p) as Hp end.
  { destruct (SendData.Unpack _ _ _) as [params|x]; [|done].
    apply keeps_bind; [by apply Hk|]. intros _.
    destruct (String.eqb _ ""); [by apply keeps_bind|].
    destruct (ObjectStore.NewRequest _ _ _ _ _) as [newReq|x]; [|by apply keeps_bind].
    apply keeps_bind; [unfold fetch; destruct (AllowRedirects params); [done|by apply Hk]|].
    intros [rsp|x]; [|by apply keeps_bind].
    apply keeps_bind; [apply Hk, put_headers_harmless|]. intros _.
    apply keeps_bind; [by apply Hk|]. intros _. apply keeps_deferring.
    - apply Hk. unfold close_body. by destruct (RConn rsp).
    - apply Hk, forwarding_harmless; [|done..].
      by intros n l d [-> | [-> | []%elem_of_nil]%elem_of_cons]%elem_of_cons. }
  specialize (Hp w e1). destruct (run E _ w e1) as [[o w2] e2]. cbn [snd] in Hp. cbn [run call].
  pose proof (Hgauge (-1)%Z e2) as H2. destruct (E unit (Metric open_requests [] (-1)) e2) as [[] e3].
  cbn [snd] in *. lia.
Qed.
End inject.

(** ** Examples *)

Definition url_json (d : bytes) : result entryParams :=
  inl {| URL_ := "https://storage/x"; AllowRedirects := false |}.
Definition test_url (s : string) : result url := inl (ObjectStore.test_url s).
Definition no_client (r : Request) : prog (result Response) := Ret (inr (Errorf "client")).

(** Another server that answers with a part of a file, until the connection breaks; the
    state is the gauge. *)
Definition part_answer : Response :=
  {| StatusCode := 206; RHeader := {["Content-Range" := ["bytes 0-2/9"]]};
     RBody := {| b_data := to_bytes "abc"; b_end := Errorf "unexpected EOF" |}; RConn := None |}.
Definition url_env : env Z := λ X x g,
  match x in ext X return X * Z with
  | RoundTrip_ _ => (inl part_answer, g)
  | Metric n _ d => (tt, if String.eqb n open_requests then (g + d)%Z else g)
  | x => ((HelperProps.quiet_env _ x tt).1, g)
  end.
Definition test_inject : Request → string → prog unit := Inject test_url url_json no_client.

Lemma fetched_request_witness :
  let req := copy_range_headers Block.request
    {| Method := "GET"; URL := ObjectStore.test_url "https://storage/x"; ProtoMajor := 1; ProtoMinor := 1;
       Header_ := ∅; Body := None; ContentLength := 0; Host := "storage"; RequestURI := "";
       RemoteAddr := "" |} in
  Method req = "GET" ∧ inl (URL req) = test_url "https://storage/x" ∧ Body req = None ∧
  ∀ k, Header_ req !! k =
    if decide (k ∈ rangeHeaderKeys) then Some (default [] (Header_ Block.request !! k)) else None.
Proof. apply (fetched_request test_url Block.request "https://storage/x"). reflexivity. Defined.

Lemma SendURL_forwards_witness :
  ∃ w' e', run url_env (test_inject Block.request "send-url:e30=") (new_resp ∅) 0%Z = (Value tt, w', e') ∧
    r_status w' = Some 206%Z ∧
    r_body w' = [] ++ to_bytes "abc" ++ (to_bytes "Internal server error" ++ [newline]) ∧
    ∀ k vs, RHeader part_answer !! k = Some vs → r_sent w' !! k = Some vs.
Proof.
  refine (SendURL_forwards test_url url_json no_client url_env Block.request "send-url:e30="
    {| URL_ := "https://storage/x"; AllowRedirects := false |} _ part_answer (new_resp ∅) 0%Z _ _ _ _ _ _ _);
    try reflexivity; [discriminate|]. intros e. by exists e.
Defined.

Lemma SendURL_closes_witness :
  keeps (HelperProps.file_env "/a" []) id
    (SendData.inj_Inject (SendURL test_url url_json no_client) Block.request "send-url:e30=").
Proof. apply (SendURL_closes test_url url_json no_client); [apply _|]. by intros r w e. Defined.

Lemma SendURL_gauge_witness :
  keeps url_env id
    (SendData.inj_Inject (SendURL test_url url_json no_client) Block.request "send-url:e30=").
Proof.
  apply (SendURL_gauge test_url url_json no_client).
  - done.
  - intros X x e Hx. destruct x; try done. cbn in Hx |- *. by rewrite Hx.
  - by intros r w e.
Defined.
End SendUrl.
