(* ===== verification/TestHelper.v ===== *)
(** * What the tests of the repository check (internal/testhelper/testhelper.go)

    The assertions, the server that stands for Rails, and the set-up of the environment the
    tests run in.  The server refuses what does not come from this program: the requests
    that the proxy and the API client make are accepted ([Backend], [Api]).  The secret the
    tests use is one that [Secret] accepts. *)

From S2P Require Import Prelude GoString GoRegexp GoBase64 Http Helper Secret Backend Api.
From stdpp Require Import options.

Module TestHelper.

(** [t.Fatalf] ends the test. *)
Inductive verdict := Passed | Fatalf (msg : string).

(** [%v] of a list of strings. *)
Definition show (l : list string) : string := "[" +:+ join_strings " " l +:+ "]".
Definition shown (l : list bytes) : string := show (of_bytes <$> l).

(** ** Patch series *)

(** [\w]. *)
Definition word_char (c : octet) : bool :=
  is_upper c || is_lower c || is_digit c || Ascii.eqb c "_"%char.

(** [internal/testhelper/testhelper.go:26-26 extractPatchSeriesMatcher] *)
Definition extractPatchSeriesMatcher : regexp :=
  {| at_start := true; pattern := Seq (lit "From ") (Grp (plus (Chr word_char))); at_end := false |}.

(** What the group captured ([FindStringSubmatch] of an anchored expression). *)
Definition FindSubmatch (x : regexp) (s : bytes) : option bytes := snd <$> find_here (pattern x) s.

Definition lf : octet := ascii_of_nat 10.
Definition cr : octet := ascii_of_nat 13.

(** A line without the carriage return at its end. *)
Definition dropCR (l : bytes) : bytes :=
  match rev l with c :: l' => if Ascii.eqb c cr then rev l' else l | [] => l end.

(** The lines of a text; what follows the last line feed is one if it is not empty. *)
Definition lines_of (d : bytes) : list bytes :=
  let ls := split_on lf d in
  match last ls with Some [] => removelast ls | _ => ls end.

(** [bufio.Scanner] on lines: it stops at the first one that fills its buffer. *)
Fixpoint scan_lines (ls : list bytes) : list bytes :=
  match ls with
  | l :: ls => if length l <? 65536 then dropCR l :: scan_lines ls else []
  | [] => []
  end.

(** The state of the loop: the commits found, and the last three lines.
    [internal/testhelper/testhelper.go:37-42 AssertPatchSeries] *)
Definition patch_step (st : list bytes * (bytes * bytes * bytes)) (line : bytes)
    : list bytes * (bytes * bytes * bytes) :=
  let '(actual, (_, f1, f2)) := st in
  (match FindSubmatch extractPatchSeriesMatcher line with
   | Some sha => actual ++ [sha]
   | None => actual
   end, (f1, f2, line)).

(** [internal/testhelper/testhelper.go:30-53 AssertPatchSeries] *)
Definition AssertPatchSeries (blob : bytes) (expected : list bytes) : verdict :=
  let '(actual, (f0, f1, f2)) :=
    foldl patch_step ([], ([], [], [])) (scan_lines (lines_of blob)) in
  if negb (bool_decide (join_on lf actual = join_on lf expected)) then
    Fatalf ("Patch series differs. Expected: " +:+ shown expected +:+ ". Got: " +:+ shown actual)
  else if negb (bool_decide (f0 = to_bytes "-- ")) then
    let sep := of_bytes [lf; ascii_of_nat 9] in
    Fatalf ("Expected end of patch, found: " +:+ sep +:+
            quote (join_strings sep (of_bytes <$> [f0; f1; f2])))
  else Passed.

(** ** Responses *)

(** What an [httptest.ResponseRecorder] has recorded: the status is 200 unless another one
    was written. *)
Definition Code (response : resp) : Z := default 200%Z (r_status response).
Definition Body_String (response : resp) : string := of_bytes (r_body response).

(** [internal/testhelper/testhelper.go:55-59 AssertResponseCode] *)
Definition AssertResponseCode (response : resp) (expectedCode : Z) : verdict :=
  if negb (Z.eqb (Code response) expectedCode) then
    Fatalf ("for HTTP request expected to get " +:+ itoa expectedCode +:+ ", got " +:+
            itoa (Code response) +:+ " instead")
  else Passed.

(** [internal/testhelper/testhelper.go:61-65 AssertResponseBody] *)
Definition AssertResponseBody (response : resp) (expectedBody : string) : verdict :=
  let got := Body_String response in
  if negb (String.eqb got expectedBody) then
    Fatalf ("for HTTP request expected to receive " +:+ quote expectedBody +:+ ", got " +:+
            quote got +:+ " instead as body")
  else Passed.

(** [internal/testhelper/testhelper.go:67-71 AssertResponseBodyRegexp] *)
Definition AssertResponseBodyRegexp (response : resp) (regexp_String : regexp → string)
    (expectedBody : regexp) : verdict :=
  let got := Body_String response in
  if negb (MatchString expectedBody got) then
    Fatalf ("for HTTP request expected to receive body matching " +:+
            quote (regexp_String expectedBody) +:+ ", got " +:+ quote got +:+ " instead")
  else Passed.

(** [actual[i]] is in range, since the lengths are equal.
    [internal/testhelper/testhelper.go:97-107 assertHeaderExists] *)
Definition assertHeaderExists (header : string) (actual expected : list string) : verdict :=
  let differs := Fatalf ("for HTTP request expected to receive the header " +:+ quote header +:+
    " with " +:+ show expected +:+ ", got " +:+ show actual) in
  if negb (length expected =? length actual) then differs
  else
    (fix compare (i : nat) (es : list string) : verdict :=
       match es with
       | [] => Passed
       | value :: es =>
           if negb (String.eqb value (nth i actual "")) then differs else compare (S i) es
       end) 0 expected.

(** [internal/testhelper/testhelper.go:73-77 AssertResponseWriterHeader] *)
Definition AssertResponseWriterHeader (w : resp) (header : string) (expected : list string) : verdict :=
  assertHeaderExists header (default [] (r_hdr w !! Header.canonical_key header)) expected.

(** What may be asked for its headers. *)
Inductive answer :=
  | AResponse (resp : Response)
  | AWriter (w : resp)
  | AOther.

(** [internal/testhelper/testhelper.go:79-95 AssertResponseHeader] *)
Definition AssertResponseHeader (w : answer) (header : string) (expected : list string) : verdict :=
  let header := Header.canonical_key header in
  match w with
  | AResponse resp => assertHeaderExists header (default [] (RHeader resp !! header)) expected
  | AWriter w => assertHeaderExists header (default [] (r_hdr w !! header)) expected
  | AOther => Fatalf "invalid type of w passed AssertResponseHeader"
  end.

(** ** The server *)

(** [internal/testhelper/testhelper.go:109-125 TestServerWithHandler] *)
Definition TestServerWithHandler (url_String : url → string) (url : option regexp)
    (handler : Handler) : Handler := λ r,
  let deny := call (LogInfo [] ("UPSTREAM " +:+ Method r +:+ " " +:+ url_String (URL r) +:+ " DENY")) in
  if match url with Some url => negb (MatchString url (Path_ (URL r))) | None => false end then
    deny;; write_header 404
  else if String.eqb (Header.Get (Header_ r) "Gitlab-Workhorse") "" then
    deny;; write_header 403
  else handler r.

(** ** The environment *)

(** [currentFile] is where the compiler found the file.
    [internal/testhelper/testhelper.go:147-153 RootDir] *)
Definition RootDir (currentFile : option string) : outcome string :=
  match currentFile with
  | None => Panic "RootDir: calling runtime.Caller failed"
  | Some currentFile => Value (Path.Join (Path.Dir currentFile) "../..")
  end.

(** [internal/testhelper/testhelper.go:22-24 ConfigureSecret] *)
Definition ConfigureSecret (currentFile : option string) (st : Secret.state) : outcome Secret.state :=
  match RootDir currentFile with
  | Panic m => Panic m
  | Value root => Value (Secret.SetPath (Path.Join root "testdata/test-secret") st)
  end.

(** [internal/testhelper/testhelper.go:127-127 workhorseExecutables] *)
Definition workhorseExecutables : list string :=
  ["gitlab-workhorse"; "gitlab-zip-cat"; "gitlab-zip-metadata"].

Section executables.
(** [os.Stat] and [os.IsNotExist], and what [os.Setenv] answers. *)
Context (Stat : string → option gerr) (IsNotExist : gerr → bool) (Setenv : string → option gerr).

(** The error, and the PATH after it.
    [internal/testhelper/testhelper.go:129-145 BuildExecutables] *)
Definition BuildExecutables (currentFile : option string) (PATH : string)
    : outcome (option gerr * string) :=
  match RootDir currentFile with
  | Panic m => Panic m
  | Value rootDir =>
      Value
        ((fix loop (exes : list string) : option gerr * string :=
            match exes with
            | exe :: exes =>
                match Stat (Path.Join rootDir exe) with
                | Some err =>
                    if IsNotExist err then
                      (Some (Errorf ("cannot find executable " +:+ exe +:+
                         ". Please run 'make prepare-tests'")), PATH)
                    else loop exes
                | None => loop exes
                end
            | [] =>
                let testPath := rootDir +:+ ":" +:+ PATH in
                match Setenv testPath with
                | Some _ => (Some (Errorf ("failed to set PATH to " +:+ testPath)), PATH)
                | None => (None, testPath)
                end
            end) workhorseExecutables)
  end.
End executables.

(** ** Properties *)

(** A header is as expected when it has exactly the expected values, in their order. *)
Theorem assertHeaderExists_spec header actual expected :
  assertHeaderExists header actual expected = Passed ↔ actual = expected.
Proof.
  unfold assertHeaderExists. destruct (Nat.eqb_spec (length expected) (length actual)) as [Hl|Hl]; cbn.
  2: { split; [done|]. intros ->. done. }
  match goal with |- context [Fatalf ?m] => generalize m; intros msg end.
  assert (∀ es i, length actual = i + length es →
    (fix compare (i : nat) (es : list string) : verdict :=
       match es with
       | [] => Passed
       | value :: es =>
           if negb (String.eqb value (nth i actual "")) then Fatalf msg else compare (S i) es
       end) i es = Passed ↔ drop i actual = es) as H.
  { intros es. induction es as [|e es IH]; intros i Hi; cbn in Hi.
    - split; [|done]. intros _. apply nil_length_inv. rewrite length_drop. lia.
    - destruct (lookup_lt_is_Some_2 actual i) as [v Hv]; [lia|].
      rewrite (drop_S actual v i Hv), (nth_lookup_Some actual i "" v Hv).
      destruct (String.eqb_spec e v) as [->|Hne]; cbn.
      + rewrite IH by lia. split; [by intros ->|by intros [=]].
      + split; [done|]. by intros [=]. }
  rewrite H by done. done.
Qed.

(** The regular expression finds the longest word after the prefix. *)
Fixpoint word_of (s : bytes) : bytes :=
  match s with c :: s' => if word_char c then c :: word_of s' else [] | [] => [] end.

Lemma bt_words {R} fuel s cap (k : bytes → option bytes → option R) :
  length s ≤ fuel → (∀ s' cap', is_Some (k s' cap')) →
  iterate (bt (Chr word_char)) fuel s cap k = k (drop (length (word_of s)) s) cap.
Proof.
  intros Hf Hk. revert s Hf. induction fuel as [|fuel IH]; intros s Hf.
  - destruct s; [done|cbn in Hf; lia].
  - destruct s as [|c s]; [done|]. cbn in Hf. cbn [iterate bt word_of].
    destruct (word_char c); [|done]. rewrite (proj2 (Nat.ltb_lt _ _)) by (cbn; lia).
    rewrite IH by lia. cbn [length drop]. by destruct (Hk (drop (length (word_of s)) s) cap) as [x ->].
Qed.

Lemma bt_lit {R} l s cap (k : bytes → option bytes → option R) :
  bt (lit_bytes l) s cap k =
    if prefix_of_bytes l s then k (drop (length l) s) cap else None.
Proof.
  revert s. induction l as [|c l IH]; intros s; [by destruct s|].
  destruct s as [|d s]; [done|]. cbn. destruct (Ascii.eqb c d); [apply IH|done].
Qed.

Lemma word_of_prefix s : take (length (word_of s)) s = word_of s.
Proof. induction s as [|c s IH]; [done|]. cbn. destruct (word_char c); cbn; by rewrite ?IH. Qed.

(** The commit that a line names, if it does. *)
Definition names_commit (line : bytes) : option bytes :=
  if prefix_of_bytes (to_bytes "From ") line then
    match word_of (drop 5 line) with [] => None | w => Some w end
  else None.

Lemma FindSubmatch_commit line :
  FindSubmatch extractPatchSeriesMatcher line = names_commit line.
Proof.
  unfold FindSubmatch, find_here, extractPatchSeriesMatcher, names_commit, lit. cbn [pattern bt].
  rewrite bt_lit. destruct (prefix_of_bytes _ _); [|done]. change (length (to_bytes "From ")) with 5.
  generalize (drop 5 line). intros s. cbn [plus bt]. destruct s as [|c s]; [done|]. cbn [word_of].
  destruct (word_char c); [|done].
  match goal with |- context [iterate ?m ?n ?s ?c ?k] =>
    change (iterate m n s c k) with (iterate (bt (Chr word_char)) n s c k) end.
  rewrite bt_words by done. cbn [fmap option_fmap option_map snd length].
  f_equal. rewrite length_drop.
  assert (length (word_of s) ≤ length s) as Hl.
  { rewrite <- (word_of_prefix s) at 1. rewrite length_take. lia. }
  replace (S (length s) - (length s - length (word_of s))) with (S (length (word_of s))) by lia.
  cbn. by rewrite word_of_prefix.
Qed.

Definition word (w : bytes) : Prop := w ≠ [] ∧ Forall (λ c, word_char c = true) w.

Lemma names_commit_word line w : names_commit line = Some w → word w.
Proof.
  unfold names_commit. destruct (prefix_of_bytes _ _); [|done]. generalize (drop 5 line). intros s.
  assert (Forall (λ c, word_char c = true) (word_of s)) as H.
  { induction s as [|c s IH]; cbn; [constructor|]. destruct (word_char c) eqn:E; by constructor. }
  destruct (word_of s) as [|c u]; [done|]. intros [= <-]. done.
Qed.

Lemma word_no_lf w : word w → lf ∉ w.
Proof. intros [_ Hw] Hin. eapply Forall_forall in Hw; [|exact Hin]. done. Qed.

(** Lists of words that are joined by line feeds are told apart. *)
Lemma join_words xs ys :
  Forall word xs → Forall word ys → join_on lf xs = join_on lf ys → xs = ys.
Proof.
  intros Hx Hy E. destruct (decide (xs = [])) as [->|Hxn].
  - symmetry. apply (join_on_nil lf); [|done]. eapply Forall_impl; [exact Hy|]. by intros ? [].
  - destruct (decide (ys = [])) as [->|Hyn].
    { apply (join_on_nil lf); [|done]. eapply Forall_impl; [exact Hx|]. by intros ? []. }
    apply (f_equal (split_on lf)) in E.
    rewrite !split_join_on in E; [done|done| |done|]; (eapply Forall_impl; [eassumption|]; apply word_no_lf).
Qed.

(** The commits named by the lines of a text, and its last three lines. *)
Definition commits (ls : list bytes) : list bytes := omap names_commit ls.
Definition third_last (ls : list bytes) : bytes := nth 2 (rev ls) [].

Lemma nth_rev_cons {A} (x d : A) l i : i < length l → nth i (rev (x :: l)) d = nth i (rev l) d.
Proof. intros H. cbn. by rewrite app_nth1 by (rewrite length_rev; lia). Qed.

Lemma patch_loop ls st :
  foldl patch_step st ls =
    (st.1 ++ commits ls,
     let f := [st.2.1.1; st.2.1.2; st.2.2] ++ ls in
     (nth 2 (rev f) [], nth 1 (rev f) [], nth 0 (rev f) [])).
Proof.
  revert st. induction ls as [|l ls IH]; intros [actual [[f0 f1] f2]]; cbn [foldl].
  - cbn. by rewrite app_nil_r.
  - rewrite IH. cbn [patch_step]. rewrite FindSubmatch_commit. cbn [fst snd]. unfold commits. cbn [omap list_omap].
    f_equal.
    + destruct (names_commit l); [by rewrite <- app_assoc|done].
    + cbn zeta. change ([f0; f1; f2] ++ l :: ls) with (f0 :: ([f1; f2; l] ++ ls)).
      by rewrite !nth_rev_cons by (rewrite length_app; cbn; lia).
Qed.

(** A series of patches is accepted when the commits that its lines name are the expected
    ones, in their order, and the last patch has its signature. *)
Theorem AssertPatchSeries_spec blob expected (Hw : Forall word expected) :
  let ls := scan_lines (lines_of blob) in
  AssertPatchSeries blob expected = Passed ↔
  commits ls = expected ∧ third_last ls = to_bytes "-- ".
Proof.
  intros ls. unfold AssertPatchSeries. fold ls. rewrite patch_loop. cbn [fst snd]. cbn zeta.
  assert (nth 2 (rev ([[]; []; []] ++ ls)) [] = third_last ls) as ->.
  { unfold third_last. rewrite rev_app_distr. destruct (decide (2 < length ls)) as [Hl|Hl].
    - rewrite app_nth1; [done|]. by rewrite length_rev.
    - rewrite (nth_overflow (rev ls)) by (rewrite length_rev; lia).
      rewrite app_nth2 by (rewrite length_rev; lia).
      destruct (2 - _) as [|[|[|[|n]]]]; done. }
  change ([] ++ commits ls) with (commits ls).
  assert (Forall word (commits ls)) as Hc.
  { apply Forall_forall. intros w (l & _ & Hl)%list_elem_of_omap. by eapply names_commit_word. }
  destruct (decide (join_on lf (commits ls) = join_on lf expected)) as [E|E].
  - apply join_words in E; [|done..]. rewrite E, bool_decide_eq_true_2 by done. cbn.
    case_bool_decide; cbn; naive_solver.
  - rewrite bool_decide_eq_false_2 by done. cbn. split; [done|]. intros [Hx _]. by rewrite Hx in E.
Qed.

(** *** Who is served *)

(** What this program says of itself in a request. *)
Definition from_workhorse (r : Request) : Prop := Header.Get (Header_ r) "Gitlab-Workhorse" ≠ "".

(** The server serves what comes from this program, at a URL that it is asked to serve, and
    refuses everything else without running the handler. *)
Theorem TestServerWithHandler_spec {V} (E : env V) url_String re (h : Handler) r w e :
  let log := (E _ (LogInfo [] ("UPSTREAM " +:+ Method r +:+ " " +:+ url_String (URL r) +:+ " DENY")) e).2 in
  run E (TestServerWithHandler url_String re h r) w e =
    if match re with Some re => negb (MatchString re (Path_ (URL r))) | None => false end
    then (Value tt, resp_header 404 w, log)
    else if decide (from_workhorse r) then run E (h r) w e else (Value tt, resp_header 403 w, log).
Proof.
  intros log. unfold TestServerWithHandler.
  destruct (match re with Some re => negb (MatchString re (Path_ (URL r))) | None => false end).
  { cbn. subst log. by destruct (E _ _ e) as [[] e']. }
  unfold from_workhorse. destruct (String.eqb_spec (Header.Get (Header_ r) "Gitlab-Workhorse") "") as [Hv|Hv].
  - rewrite decide_False by (intros H; by apply H). cbn. subst log. by destruct (E _ _ e) as [[] e'].
  - by rewrite decide_True.
Qed.

(** Every request that the proxy passes on is served, whatever its headers were. *)
Theorem proxied_request_served {V} (E : env V) url_String re (p : Backend.Proxy) (h : Handler) r w e
    (Hb : Backend.AllowResponseBuffering p = true) (Hv : Backend.Version p ≠ "")
    (Hm : match re with Some re => MatchString re (Path_ (URL r)) = true | None => True end) :
  ∃ q, from_workhorse q ∧ URL q = URL r ∧
    run E (Backend.ServeHTTP p (TestServerWithHandler url_String re h) r) w e =
      run E (h q) (resp_put "X-Accel-Buffering" None w) (E _ Now e).2.
Proof.
  destruct (Backend.Proxy_ServeHTTP_spec E p (TestServerWithHandler url_String re h) r w e Hb)
    as (hd & Hrun & Hg & _ & _).
  exists (with_header r hd). assert (from_workhorse (with_header r hd)) as Hf.
  { unfold from_workhorse. cbn. by rewrite Hg. }
  split; [done|]. split; [done|]. rewrite Hrun, TestServerWithHandler_spec.
  rewrite (decide_True _ _ Hf). cbn [with_header URL]. destruct re as [re|]; [by rewrite Hm|done].
Qed.

(** So is every request for an authorization. *)
Theorem api_request_served {V} (E : env V) url_String (api : Api.API) tok (h : Handler) r suffix w e w' e'
    (Hv : Api.Version api ≠ "") :
  ∃ q, run E (Api.newRequest api (Ret (inl tok)) r None suffix) w e = (Value (inl q), w, e) ∧
    run E (TestServerWithHandler url_String None h q) w' e' = run E (h q) w' e'.
Proof.
  destruct (Api.newRequest_spec E api tok r suffix w e) as (q & Hq & _ & _ & _ & _ & _ & Hver & _).
  exists q. split; [done|]. rewrite TestServerWithHandler_spec. rewrite decide_True; [done|].
  unfold from_workhorse, Header.Get, Header.Values.
  change (Header.canonical_key "Gitlab-Workhorse") with "Gitlab-Workhorse". by rewrite Hver.
Qed.

(** *** The environment of the tests *)

Lemma split_last_dir d f :
  Path.slash ∉ f → Path.split_last (d ++ Path.slash :: f) = (d ++ [Path.slash], f).
Proof.
  intros Hf. induction d as [|c d IH]; cbn.
  - assert (Path.split_last f = ([], f)) as ->; [|done].
    induction f as [|c f IHf]; [done|]. cbn. apply not_elem_of_cons in Hf as [Hc Hf].
    rewrite IHf by done. by destruct (Ascii.eqb_spec c Path.slash) as [->|].
  - rewrite IH. by destruct d.
Qed.

Lemma clean_step_up r top st : top ≠ Path.dotdot → Path.clean_step r (top :: st) Path.dotdot = st.
Proof. intros H. unfold Path.clean_step. by rewrite decide_False, decide_True, decide_False by naive_solver. Qed.

(** The root of the repository is three levels above the file. *)
Lemma RootDir_spec (root : list bytes) :
  Forall Path.plain root →
  RootDir (Some (of_bytes (Path.slash :: join_on Path.slash
    (root ++ [to_bytes "internal"; to_bytes "testhelper"; to_bytes "testhelper.go"])))) =
  Value (of_bytes (Path.slash :: join_on Path.slash root)).
Proof.
  intros Hr. cbn [RootDir]. f_equal.
  set (dir := root ++ [to_bytes "internal"; to_bytes "testhelper"]).
  assert (Forall Path.plain [to_bytes "internal"; to_bytes "testhelper"]) as Hp.
  { repeat constructor; by apply (bool_decide_unpack _). }
  assert (Forall Path.plain dir) as Hd by by apply Forall_app.
  assert (dir ≠ []) as Hn by (unfold dir; by destruct root).
  assert (Path.Dir (of_bytes (Path.slash :: join_on Path.slash (root ++
    [to_bytes "internal"; to_bytes "testhelper"; to_bytes "testhelper.go"]))) =
    of_bytes (Path.slash :: join_on Path.slash dir)) as ->.
  { unfold Path.Dir. f_equal. rewrite to_of_bytes.
    change (root ++ _) with (root ++ [to_bytes "internal"; to_bytes "testhelper"] ++ [to_bytes "testhelper.go"]).
    rewrite app_assoc. fold dir. rewrite join_on_app by done. cbn [join_on].
    change (Path.slash :: ?a ++ ?b) with ((Path.slash :: a) ++ b).
    rewrite split_last_dir by by apply (bool_decide_unpack _). cbn [fst].
    rewrite Path.clean_snoc_slash, Path.clean_rooted by done. by rewrite Path.elements_of_join. }
  unfold Path.Join. rewrite decide_False by by destruct dir. unfold Path.Clean. f_equal.
  rewrite !to_bytes_app, to_of_bytes. cbn [app].
  change (to_bytes "/" ++ to_bytes "../..") with (Path.slash :: to_bytes "../..").
  rewrite Path.clean_rooted. f_equal. f_equal. unfold Path.elements_of.
  rewrite split_on_app, split_join_on by (try done; by apply Path.plain_no_slash).
  unfold Path.clean_segs. rewrite foldl_app, (Path.foldl_plain _ dir) by done.
  unfold dir. rewrite rev_app_distr. cbn. rewrite !(clean_step_up true) by done. by rewrite app_nil_r, rev_involutive.
Qed.

(** The compiled file in a checkout at [root]. *)
Definition this_file (root : list bytes) : option string :=
  Some (of_bytes (Path.slash :: join_on Path.slash
    (root ++ [to_bytes "internal"; to_bytes "testhelper"; to_bytes "testhelper.go"]))).
Definition root_path (root : list bytes) : string := of_bytes (Path.slash :: join_on Path.slash root).

(** The contents of testdata/test-secret. *)
Definition test_secret : bytes := to_bytes "+M8OJgJxoxdDRgOR0UT8sDbAgp/63y/XUNE3d8+tawA=" ++ [lf].

(** After the set-up the secret is read from the repository's file, whatever was kept
    before, and signing works: it has the 32 octets that [Secret] asks for. *)
Theorem ConfigureSecret_read (root : list bytes) (ReadFile : string → result bytes) st
    (Hr : Forall Path.plain root)
    (Hf : ReadFile (Path.Join (root_path root) "testdata/test-secret") = inl test_secret) :
  ∃ st1 s st2, ConfigureSecret (this_file root) st = Value st1 ∧
    Secret.Bytes ReadFile id st1 = (inl s, st2) ∧
    take Secret.numSecretBytes <$> Secret.slices st2 !! s = Some (StdDecode test_secret).1 ∧
    length (StdDecode test_secret).1 = Secret.numSecretBytes.
Proof.
  assert (StdDecode test_secret = ((StdDecode test_secret).1, true)) as Hd by by vm_compute.
  assert (length (StdDecode test_secret).1 = 32) as Hl by by vm_compute.
  set (d := (StdDecode test_secret).1) in *.
  unfold ConfigureSecret, this_file. rewrite RootDir_spec by done. fold (root_path root).
  eexists _, _, _. split; [done|].
  unfold Secret.Bytes, Secret.SetPath, Secret.getBytes, id. cbn [Secret.theSecret Secret.bytes_].
  unfold Secret.setBytes. cbn [Secret.theSecret Secret.bytes_ Secret.path]. rewrite Hf, Hd, Hl.
  cbn [negb Nat.eqb Secret.numSecretBytes]. split; [reflexivity|]. cbn.
  rewrite !lookup_insert_eq. split; [|done]. cbn [fmap option_fmap option_map default]. f_equal.
Qed.

Lemma ConfigureSecret_read_witness :
  ∃ st1 s st2,
    ConfigureSecret (this_file [to_bytes "src"; to_bytes "workhorse"])
      {| Secret.theSecret := {| Secret.path := "/etc/secret"; Secret.bytes_ := None |}; Secret.slices := ∅ |} =
      Value st1 ∧
    Secret.Bytes (λ p, if String.eqb p "/src/workhorse/testdata/test-secret" then inl test_secret
                       else inr (Errorf "no such file")) id st1 = (inl s, st2) ∧
    take Secret.numSecretBytes <$> Secret.slices st2 !! s = Some (StdDecode test_secret).1 ∧
    length (StdDecode test_secret).1 = Secret.numSecretBytes.
Proof.
  apply (ConfigureSecret_read [to_bytes "src"; to_bytes "workhorse"]).
  - by apply (bool_decide_unpack _).
  - vm_compute. reflexivity.
Defined.

(** The executables are searched in the root of the repository, which then comes first in
    the PATH; a program that is missing is reported and the PATH stays as it was. *)
Theorem BuildExecutables_spec Stat IsNotExist Setenv (root : list bytes) (PATH : string)
    (Hr : Forall Path.plain root)
    (Hs : Setenv (root_path root +:+ ":" +:+ PATH) = None) :
  let missing exe := ∃ err, Stat (Path.Join (root_path root) exe) = Some err ∧ IsNotExist err = true in
  ∃ err path, BuildExecutables Stat IsNotExist Setenv (this_file root) PATH = Value (err, path) ∧
    ((∀ exe, exe ∈ workhorseExecutables → ¬ missing exe) ∧ err = None ∧
       path = root_path root +:+ ":" +:+ PATH ∨
     ∃ exe, exe ∈ workhorseExecutables ∧ missing exe ∧ path = PATH ∧
       err = Some (Errorf ("cannot find executable " +:+ exe +:+ ". Please run 'make prepare-tests'"))).
Proof.
  intros missing. unfold BuildExecutables, this_file. rewrite RootDir_spec by done. fold (root_path root).
  generalize workhorseExecutables. intros exes.
  match goal with |- context [Value (?l exes)] => set (loop := l) end.
  assert (loop exes = (None, root_path root +:+ ":" +:+ PATH) ∧ (∀ exe, exe ∈ exes → ¬ missing exe) ∨
    ∃ exe, exe ∈ exes ∧ missing exe ∧ loop exes =
      (Some (Errorf ("cannot find executable " +:+ exe +:+ ". Please run 'make prepare-tests'")), PATH)) as H.
  { induction exes as [|exe exes IH].
    - left. cbv beta iota zeta delta [loop]. rewrite Hs. split; [done|]. by intros ? ?%elem_of_nil.
    - cbv beta iota zeta delta [loop]. fold loop. destruct (Stat _) as [err|] eqn:E; [destruct (IsNotExist err) eqn:Ei|].
      + right. exists exe. split; [by left|]. split; [by exists err|done].
      + assert (¬ missing exe) as Hm by (intros (e & He & Hi); congruence).
        destruct IH as [[IH1 IH2]|(x & H1 & H2 & H3)]; [left|right].
        * split; [done|]. intros x [->|Hx]%elem_of_cons; [done|by apply IH2].
        * exists x. split; [by right|done].
      + assert (¬ missing exe) as Hm by (intros (e & He & Hi); congruence).
        destruct IH as [[IH1 IH2]|(x & H1 & H2 & H3)]; [left|right].
        * split; [done|]. intros x [->|Hx]%elem_of_cons; [done|by apply IH2].
        * exists x. split; [by right|done]. }
  destruct H as [[E Hm]|(exe & Hin & Hm & E)]; rewrite E; eexists _, _; (split; [done|]); [by left|].
  right. by exists exe.
Qed.

Lemma BuildExecutables_spec_witness :
  let missing exe := ∃ err,
    (if String.eqb (Path.Join (root_path [to_bytes "src"]) exe) "/src/gitlab-zip-cat"
     then Some (Errorf "no such file") else None) = Some err ∧ true = true in
  ∃ err path,
    BuildExecutables (λ p, if String.eqb p "/src/gitlab-zip-cat" then Some (Errorf "no such file") else None)
      (λ _, true) (λ _, None) (this_file [to_bytes "src"]) "/bin" = Value (err, path) ∧
    ((∀ exe, exe ∈ workhorseExecutables → ¬ missing exe) ∧ err = None ∧ path = "/src:/bin" ∨
     ∃ exe, exe ∈ workhorseExecutables ∧ missing exe ∧ path = "/bin" ∧
       err = Some (Errorf ("cannot find executable " +:+ exe +:+ ". Please run 'make prepare-tests'"))).
Proof.
  apply (BuildExecutables_spec
    (λ p, if String.eqb p "/src/gitlab-zip-cat" then Some (Errorf "no such file") else None) (λ _, true) (λ _, None) [to_bytes "src"] "/bin").
  - by apply (bool_decide_unpack _).
  - reflexivity.
Defined.

(** ** Examples *)

(** What [git format-patch] prints for one commit. *)
Definition patch (sha subject : string) : bytes :=
  join_on lf (to_bytes <$> ["From " +:+ sha +:+ " Mon Sep 17 00:00:00 2001"; "From: A <a@b>"; "Subject: " +:+ subject;
    "---"; "-- "; "2.18.0"; ""; ""]).

Example series_of_two :
  AssertPatchSeries (patch "12ab" "one" ++ patch "34cd" "two") (to_bytes <$> ["12ab"; "34cd"]) = Passed.
Proof. reflexivity. Qed.

Lemma AssertPatchSeries_spec_witness :
  let ls := scan_lines (lines_of (patch "12ab" "one")) in
  AssertPatchSeries (patch "12ab" "one") [to_bytes "12ab"] = Passed ↔
  commits ls = [to_bytes "12ab"] ∧ third_last ls = to_bytes "-- ".
Proof. apply AssertPatchSeries_spec. repeat constructor; done. Defined.

(** A line longer than the scanner's buffer hides the commits after it. *)
Lemma long_line_hides (l : bytes) ls : 65536 ≤ length l → scan_lines (l :: ls) = [].
Proof. intros H. cbn [scan_lines]. by rewrite (proj2 (Nat.ltb_ge _ _)). Qed.

Lemma proxied_request_served_witness :
  let p := {| Backend.Version := "8.0"; Backend.AllowResponseBuffering := true |} in
  let r := mk_request "GET" (mk_url "" "" "/api" "") 1 1 ∅ None 0 "" "" "" in
  let E := HelperProps.quiet_env in
  ∃ q, from_workhorse q ∧ URL q = URL r ∧
    run E (Backend.ServeHTTP p (TestServerWithHandler Path_ (Some (mk_regexp true (lit "/api") false))
        (λ _, write_header 200)) r) (new_resp ∅) tt =
      run E (write_header 200) (resp_put "X-Accel-Buffering" None (new_resp ∅)) (E _ Now tt).2.
Proof. intros p r E. by apply (proxied_request_served E). Defined.

Lemma api_request_served_witness :
  let api := {| Api.URL_ := mk_url "http" "rails" "" ""; Api.Version := "8.0" |} in
  let r := mk_request "POST" (mk_url "" "" "/g/p.git" "") 1 1 ∅ None 0 "" "" "10.0.0.1:5000" in
  let E := HelperProps.quiet_env in
  ∃ q, run E (Api.newRequest api (Ret (inl "token")) r None "") (new_resp ∅) tt = (Value (inl q), new_resp ∅, tt) ∧
    run E (TestServerWithHandler Path_ None (λ _, write_header 200) q) (new_resp ∅) tt =
      run E (write_header 200) (new_resp ∅) tt.
Proof. intros api r E. by apply (api_request_served E Path_ api "token" (λ _, write_header 200)). Defined.

End TestHelper.
