(* ===== verification/Declared.v ===== *)
(** * Which metrics, processes and remote calls the program uses

    A type discipline for the calls of all handlers: a metric that is updated is declared,
    with as many labels as it gets values (the Prometheus client panics otherwise); the
    processes started are those of a fixed list, whatever clients and Rails send; the remote
    calls are methods of Gitaly's services.  Each handler obeys it as long as the code it
    calls does; the lemmas are the hints of the database [declared]. *)

From S2P Require Import Prelude GoString Http Metrics Effects GoNet GoMultipart UrlPrefix Helper Hijack.
From S2P Require Import Block SendData SendFile StaticPages Upstream Queueing Builds Terminal.
From S2P Require Import Gitaly Backend Api ObjectStore FileStore Upload GitalyClient Git.
From S2P Require Import GitSend Artifacts SendUrl.
From stdpp Require Import options.

Module Declared.

(** The programs that are started, by their first argument. *)
Definition programs : list string :=
  ["git"; "gzip"; "bzip2"; "gitlab-zip-cat"; "gitlab-zip-metadata"].

(** The methods called. *)
Definition methods : list string :=
  ["SmartHTTPService/InfoRefsUploadPack"; "SmartHTTPService/InfoRefsReceivePack";
   "SmartHTTPService/PostReceivePack"; "SmartHTTPService/PostUploadPack";
   "BlobService/GetBlob"; "DiffService/RawDiff"; "DiffService/RawPatch";
   "RepositoryService/GetArchive"; "RepositoryService/GetSnapshot"].

Definition known (l : list string) (s : string) : Prop := existsb (String.eqb s) l = true.

Definition declared_call (X : Type) (e : ext X) : Prop :=
  match e with
  | Metric _ _ _ => Effects.well_counted e
  | StartCmd args _ _ | Output_ args _ => known programs (default "" (head args))
  | Rpc_ _ m _ | Bidi_ _ m _ _ => known methods m
  | _ => True
  end.

Abbreviation declared p := (harmless declared_call p).

Create HintDb declared.

Ltac declared_step :=
  match goal with
  | |- True => exact I
  | |- ∀ _, _ => intros ?
  | |- _ ∧ _ => split
  | |- declared_call _ _ => first [exact I | exact eq_refl]
  | |- harmless _ (match ?x with _ => _ end) => destruct x eqn:?
  | |- harmless _ ((match ?x with _ => _ end) _) => destruct x eqn:?
  | |- harmless _ (deferring _ _) => apply harmless_deferring
  | |- harmless _ (bind _ _) => apply harmless_bind
  | |- harmless _ (try _) => apply harmless_try
  | |- harmless _ (under _ _ _) => apply Effects.harmless_under
  | |- harmless _ (serve_under _ _ _ _) => apply Effects.harmless_serve_under
  | |- Effects.harmless_wrapper _ _ => solve [auto with declared nocore]
  | |- harmless _ _ => solve [auto with declared nocore]
  | |- harmless _ _ =>
      progress cbn [harmless call header_get header_set header_del header_put write_header write]
  end.
Ltac declared_tac := repeat declared_step; try done.

(** ** Helpers *)

Lemma Fail500_declared r e : declared (Helper.Fail500 r e).
Proof. by apply Helper.Fail500_harmless. Qed.
Lemma LogError_declared r e : declared (Helper.LogError r e).
Proof. by apply Helper.LogError_harmless. Qed.
Lemma RequestEntityTooLarge_declared r e : declared (Helper.RequestEntityTooLarge r e).
Proof. by apply Helper.RequestEntityTooLarge_harmless. Qed.
Lemma http_Error_declared msg code : declared (http_Error msg code).
Proof. unfold http_Error. declared_tac. Qed.
Lemma io_Copy_declared b : declared (io_Copy b).
Proof. apply io_Copy_harmless. Qed.
Lemma close_body_declared resp : declared (close_body resp).
Proof. unfold close_body. declared_tac. Qed.
Lemma reraise_declared {A} (o : outcome A) : declared (reraise o).
Proof. by destruct o. Qed.
#[export] Hint Resolve Fail500_declared LogError_declared RequestEntityTooLarge_declared
  http_Error_declared io_Copy_declared close_body_declared reraise_declared : declared.

Lemma HTTPError_declared r msg code : declared (Helper.HTTPError r msg code).
Proof. unfold Helper.HTTPError. declared_tac. Qed.
Lemma http_NotFound_declared : declared http_NotFound.
Proof. unfold http_NotFound. declared_tac. Qed.
Lemma OpenFile_declared path : declared (Helper.OpenFile path).
Proof. unfold Helper.OpenFile. declared_tac. Qed.
Lemma DisableResponseBuffering_declared : declared Helper.DisableResponseBuffering.
Proof. unfold Helper.DisableResponseBuffering. declared_tac. Qed.
Lemma AllowResponseBuffering_declared : declared Helper.AllowResponseBuffering.
Proof. unfold Helper.AllowResponseBuffering. declared_tac. Qed.
Lemma SetNoCacheHeaders_declared : declared Helper.SetNoCacheHeaders.
Proof. unfold Helper.SetNoCacheHeaders. declared_tac. Qed.
#[export] Hint Resolve HTTPError_declared http_NotFound_declared OpenFile_declared
  DisableResponseBuffering_declared AllowResponseBuffering_declared
  SetNoCacheHeaders_declared : declared.

(** *** Methods of writers *)

Section methods.
Context {W : Type}.
Implicit Types (w : W).

Lemma mget_declared w : declared (mget w).
Proof. done. Qed.
Lemma mput_declared w' w : declared (mput w' w).
Proof. done. Qed.
Lemma mret_declared {A} (a : A) w : declared (mret a w).
Proof. done. Qed.
Lemma mlift_declared {A} (p : prog A) w : declared p → declared (mlift p w).
Proof. intros Hp. unfold mlift. declared_tac. Qed.
Lemma mbind_declared {A B} (m : method W A) (f : A → method W B) w :
  (∀ w, declared (m w)) → (∀ a w, declared (f a w)) → declared (mbind m f w).
Proof. intros Hm Hf. unfold mbind. apply harmless_bind; [apply Hm|]. intros [[a|e] w']; [apply Hf|done]. Qed.
End methods.
#[export] Hint Resolve mget_declared mput_declared mret_declared : declared.
Ltac method_step :=
  match goal with
  | |- harmless _ (mbind _ _ _) => apply mbind_declared
  | |- harmless _ (mlift _ _) => apply mlift_declared
  | _ => declared_step
  end.
Ltac methods_tac := repeat method_step; try done.

(** [Write] of the shape that the writers share. *)
Lemma lazy_write_declared {W} (status : W → Z) (hijacked : W → bool)
    (wh : Z → method W unit) :
  (∀ s w, declared (wh s w)) →
  Effects.harmless_wrapper declared_call (Hijack.lazy_wrapper status hijacked wh).
Proof.
  intros Hwh. split; [done|]. intros d w. cbn [Hijack.lazy_wrapper wr_Write].
  unfold Hijack.lazy_write. methods_tac.
Qed.

(** ** The proxy chain *)

Lemma Block_declared r (h : Handler) : (∀ r, declared (h r)) → declared (Block.Block r h).
Proof.
  intros Hh. unfold Block.Block.
  assert (∀ s b, declared (Block.WriteHeader r s b)) as Hwh
    by (intros s b; unfold Block.WriteHeader; methods_tac).
  apply Effects.harmless_serve_under; [by apply lazy_write_declared|by intros b; apply Hwh|apply Hh].
Qed.

Section serve_content.
Context (ServeContent : Request → string → Z → fd → prog unit).
Context (Hserve : ∀ r name t f, declared (ServeContent r name t f)).

Lemma SendFile_declared r (h : Handler) :
  (∀ r, declared (h r)) → declared (SendFile.SendFile ServeContent r h).
Proof using Hserve.
  intros Hh. unfold SendFile.SendFile.
  assert (∀ s b, declared (SendFile.WriteHeader ServeContent r s b)) as Hwh.
  { intros s b. unfold SendFile.WriteHeader, SendFile.sendFileFromDisk,
      SendFile.countSendFileMetrics. methods_tac. }
  apply Effects.harmless_serve_under; [by apply lazy_write_declared|by intros b; apply Hwh|apply Hh].
Qed.

Lemma ServeExisting_declared offset s prefix cache h r :
  (∀ h', h = Some h' → ∀ r, declared (h' r)) →
  declared (StaticPages.ServeExisting ServeContent offset s prefix cache h r).
Proof using Hserve.
  intros Hh. unfold StaticPages.ServeExisting, StaticPages.gzip_file, StaticPages.wall_clock.
  declared_tac. by apply Hh.
Qed.
End serve_content.

Lemma counting_declared : Effects.harmless_wrapper declared_call Counting.wrapper.
Proof.
  split; intros d [c n]; cbn [Counting.wrapper wr_WriteHeader wr_Write];
    unfold Counting.WriteHeader, Counting.Write, Counting.WriteHeader; methods_tac.
Qed.

Lemma logging_declared : Effects.harmless_wrapper declared_call Logging.wrapper.
Proof.
  split; intros d l; cbn [Logging.wrapper wr_WriteHeader wr_Write];
    unfold Logging.WriteHeader, Logging.Write, Logging.WriteHeader; methods_tac.
Qed.
#[export] Hint Resolve counting_declared logging_declared : declared.

Lemma SendData_declared r injecters (h : Handler) :
  Forall (λ i, ∀ r s, declared (SendData.inj_Inject i r s)) injecters →
  (∀ r, declared (h r)) → declared (SendData.SendData r injecters h).
Proof.
  intros Hi Hh. unfold SendData.SendData.
  assert (∀ s b, declared (SendData.WriteHeader r injecters s b)) as Hwh.
  { intros s b. unfold SendData.WriteHeader, SendData.tryInject. methods_tac.
    unfold SendData.inject. declared_tac.
    rewrite Forall_forall in Hi. apply Hi. eapply list_elem_of_In, find_some. eassumption. }
  apply Effects.harmless_serve_under; [by apply lazy_write_declared|by intros b; apply Hwh|apply Hh].
Qed.

Lemma ErrorPagesUnless_declared s disabled (h : Handler) r :
  (∀ r, declared (h r)) → declared (StaticPages.ErrorPagesUnless s disabled h r).
Proof.
  intros Hh. unfold StaticPages.ErrorPagesUnless. destruct disabled; [apply Hh|].
  assert (∀ s b, declared (StaticPages.WriteHeader s b)) as Hwh.
  { intros st b. unfold StaticPages.WriteHeader, StaticPages.serve_page. methods_tac. }
  apply Effects.harmless_serve_under; [by apply lazy_write_declared|by intros b; apply Hwh|apply Hh].
Qed.

Lemma DeployPage_declared s (h : Handler) r :
  (∀ r, declared (h r)) → declared (StaticPages.DeployPage s h r).
Proof. intros Hh. unfold StaticPages.DeployPage. declared_tac. Qed.

(** ** Authorization *)

Lemma put_headers_declared name h : declared (Api.put_headers name h).
Proof. unfold Api.put_headers. by induction (map_to_list h) as [|[k v] l IH]. Qed.
#[export] Hint Resolve put_headers_declared : declared.

Lemma copyAuthHeader_declared resp : declared (Api.copyAuthHeader resp).
Proof.
  unfold Api.copyAuthHeader. induction (map_to_list (RHeader resp)) as [|[k v] l IH]; [done|].
  cbn [foldr]. declared_tac.
Qed.
Lemma passResponseBack_declared resp r : declared (Api.passResponseBack resp r).
Proof. unfold Api.passResponseBack. declared_tac. Qed.
#[export] Hint Resolve copyAuthHeader_declared passResponseBack_declared : declared.

Lemma RoundTrip_declared Error rt r : declared (Backend.RoundTrip Error rt r).
Proof. unfold Backend.RoundTrip. declared_tac. Qed.
#[export] Hint Resolve RoundTrip_declared : declared.

(** What an authorizer is: it does nothing undeclared unless the handler does. *)
Definition authorizer (pre : Api.HandleFunc → string → Handler) : Prop :=
  ∀ next suffix r, (∀ r a, declared (next r a)) → declared (pre next suffix r).

Lemma PreAuthorizeHandler_authorizer api token Error rt json_Decode :
  declared token →
  authorizer (Api.PreAuthorizeHandler api token (Backend.RoundTrip Error rt) json_Decode).
Proof.
  intros Ht next suffix r Hnext.
  unfold Api.PreAuthorizeHandler, Api.PreAuthorize, Api.newRequest, Api.doRequestWithoutRedirects.
  declared_tac.
Qed.

Lemma SkipRailsAuthorizer_authorizer path : authorizer (Upload.SkipRailsAuthorizer path).
Proof. intros next suffix r Hnext. apply Hnext. Qed.

(** ** Saving files *)

Section storage.
Context (url_Parse : string → result url).
Context (xml_Decode : body → result ObjectStore.compoundCompleteMultipartUploadResult).
Context (md5 sha1 sha256 sha512 : bytes → bytes).

Lemma counted_declared metrics name labels d :
  Effects.arity name = Some (length labels) →
  declared (ObjectStore.counted metrics name labels d).
Proof. intros H. unfold ObjectStore.counted. by destruct metrics. Qed.

Lemma syncAndDelete_declared url : declared (ObjectStore.syncAndDelete url_Parse url).
Proof. unfold ObjectStore.syncAndDelete. declared_tac. Qed.
#[local] Hint Resolve syncAndDelete_declared : declared.
#[local] Hint Extern 0 (harmless _ (ObjectStore.counted _ _ _ _)) =>
  (apply counted_declared; reflexivity) : declared.

Lemma newObject_declared metrics url h size s :
  declared (ObjectStore.newObject url_Parse md5 metrics url h size s).
Proof. unfold ObjectStore.newObject, ObjectStore.send. declared_tac. Qed.
#[local] Hint Resolve newObject_declared : declared.

Lemma readAndUploadOnePart_declared deadline url h src i :
  declared (ObjectStore.readAndUploadOnePart url_Parse md5 deadline url h src i).
Proof.
  unfold ObjectStore.readAndUploadOnePart, ObjectStore.remove_buffer,
    ObjectStore.upload_buffered, ObjectStore.uploadPart. declared_tac.
Qed.
#[local] Hint Resolve readAndUploadOnePart_declared : declared.

Lemma upload_parts_declared deadline h size urls i cmu s :
  declared (ObjectStore.upload_parts url_Parse md5 deadline h size urls i cmu s).
Proof. revert i cmu s. induction urls; intros i cmu s; cbn [ObjectStore.upload_parts]; declared_tac. Qed.
#[local] Hint Resolve upload_parts_declared : declared.

Lemma complete_declared url cmu :
  declared (ObjectStore.complete url_Parse md5 xml_Decode url cmu).
Proof. unfold ObjectStore.complete. declared_tac. Qed.
#[local] Hint Resolve complete_declared : declared.

Lemma NewMultipart_declared urls url h deadline size s :
  declared (ObjectStore.NewMultipart url_Parse md5 xml_Decode urls url h deadline size s).
Proof. unfold ObjectStore.NewMultipart. declared_tac. Qed.
#[local] Hint Resolve NewMultipart_declared : declared.

Lemma remove_leftovers_declared l : declared (FileStore.remove_leftovers url_Parse l).
Proof. unfold FileStore.remove_leftovers, ObjectStore.cleanup. declared_tac. Qed.
#[local] Hint Resolve remove_leftovers_declared : declared.

Lemma upload_remote_declared opts size s :
  declared (FileStore.upload_remote url_Parse xml_Decode md5 opts size s).
Proof. unfold FileStore.upload_remote, ObjectStore.NewObject. declared_tac. Qed.
#[local] Hint Resolve upload_remote_declared : declared.

Abbreviation SaveFileFromReader :=
  (FileStore.SaveFileFromReader url_Parse xml_Decode md5 sha1 sha256 sha512).

Lemma SaveFileFromReader_declared b size opts : declared (SaveFileFromReader b size opts).
Proof.
  unfold FileStore.SaveFileFromReader, FileStore.uploadLocalFile, FileStore.copy_to_remote,
    ObjectStore.NewObject. declared_tac.
Qed.
#[local] Hint Resolve SaveFileFromReader_declared : declared.

Lemma BodyUploader_declared pre (h : Handler) p r :
  authorizer pre → (∀ r, declared (h r)) →
  declared (FileStore.BodyUploader url_Parse xml_Decode md5 sha1 sha256 sha512 pre h p r).
Proof.
  intros Hpre Hh. apply Hpre. intros r' a. unfold FileStore.upload_body. declared_tac.
Qed.

(** *** Forms *)

Section forms.
Context (quotedprintable : body → body) (randomBoundary : bytes).

(** A processor of parts with declared programs. *)
Definition declared_processor {S} (f : Upload.MultipartFormProcessor S) : Prop :=
  (∀ name fh rew, declared (Upload.ProcessFile f name fh rew)) ∧
  (∀ name rew, declared (Upload.ProcessField f name rew)) ∧
  (∀ s r, declared (Upload.Finalize f s r)).

Lemma rewrite_parts_declared {S} (f : Upload.MultipartFormProcessor S) a ps err rew :
  declared_processor f →
  declared (Upload.rewrite_parts url_Parse xml_Decode md5 sha1 sha256 sha512 f a ps err rew).
Proof.
  intros (H1 & H2 & H3). revert rew. induction ps; intros rew; cbn [Upload.rewrite_parts]; [done|].
  unfold Upload.handleFilePart, Upload.copyPart. declared_tac.
Qed.

Lemma remove_all_declared l : declared (Upload.remove_all url_Parse l).
Proof. induction l; cbn [Upload.remove_all]; declared_tac. Qed.
#[local] Hint Resolve remove_all_declared : declared.

Lemma HandleFileUploads_declared {S} (f : Upload.MultipartFormProcessor S) a (h : Handler) s r :
  declared_processor f → (∀ r, declared (h r)) →
  declared (Upload.HandleFileUploads url_Parse xml_Decode md5 sha1 sha256 sha512 quotedprintable
              randomBoundary f a h s r).
Proof.
  intros Hf Hh. pose proof (λ a ps err rew, rewrite_parts_declared f a ps err rew Hf) as Hparts.
  destruct Hf as (H1 & H2 & H3).
  unfold Upload.HandleFileUploads, Upload.rewriteFormFilesFromMultipart. declared_tac.
Qed.

Lemma Accelerate_declared token pre (h : Handler) r :
  (∀ fields, declared (token fields)) → authorizer pre → (∀ r, declared (h r)) →
  declared (Upload.Accelerate url_Parse xml_Decode md5 sha1 sha256 sha512 quotedprintable
              randomBoundary token pre h r).
Proof.
  intros Ht Hpre Hh. apply Hpre. intros r' a. apply HandleFileUploads_declared; [|done].
  split_and!; cbn [Upload.tracker Upload.ProcessFile Upload.ProcessField Upload.Finalize];
    declared_tac.
Qed.

Lemma UploadArtifacts_declared Environ TempDir cancelled drained pre (h : Handler) r :
  authorizer pre → (∀ r, declared (h r)) →
  declared (Artifacts.UploadArtifacts url_Parse xml_Decode md5 sha1 sha256 sha512 quotedprintable
              randomBoundary Environ TempDir cancelled drained pre h r).
Proof.
  intros Hpre Hh. apply Hpre. intros r' a. declared_tac.
  apply HandleFileUploads_declared; [|done].
  split_and!; cbn [Artifacts.processor Upload.ProcessFile Upload.ProcessField Upload.Finalize];
    unfold Artifacts.generateMetadataFromZip; declared_tac.
Qed.
End forms.
End storage.

(** ** Git over HTTP *)

Lemma relay_declared s b : declared (GitalyClient.relay s b).
Proof. apply GitalyClient.relay_harmless. Qed.
#[export] Hint Resolve relay_declared : declared.

Lemma session_declared r (p : prog nat) : declared p → declared (Git.session r p).
Proof. intros Hp. unfold Git.session, Git.NewHttpResponseWriter, Git.Log. declared_tac. Qed.

Lemma post_rpc_declared name handler r a :
  declared (handler r a) → declared (Git.post_rpc name handler r a).
Proof. intros Hh. apply session_declared. declared_tac. Qed.

Lemma ReadAllTempfile_declared b : declared (Git.ReadAllTempfile b).
Proof. unfold Git.ReadAllTempfile. declared_tac. Qed.
Lemma flush_declared t : declared (Git.flush t).
Proof. unfold Git.flush. declared_tac. Qed.
#[export] Hint Resolve ReadAllTempfile_declared flush_declared : declared.
Lemma coupled_declared s b : declared (Git.coupled s b).
Proof. unfold Git.coupled, Git.write_early. declared_tac. Qed.
#[export] Hint Resolve coupled_declared : declared.

Lemma handleUploadPack_declared r a : declared (Git.handleUploadPack r a).
Proof.
  unfold Git.handleUploadPack, Git.writePostRPCHeader, Git.handleUploadPackWithGitaly,
    GitalyClient.newClient, GitalyClient.UploadPack. declared_tac.
Qed.

Lemma handleReceivePack_declared Getenv r a : declared (Git.handleReceivePack Getenv r a).
Proof.
  unfold Git.handleReceivePack, Git.writePostRPCHeader, Git.handleReceivePackLocally,
    Git.startGitCommand, Git.handleReceivePackWithGitaly, GitalyClient.newClient,
    GitalyClient.ReceivePack. declared_tac.
Qed.

Lemma handleGetInfoRefs_declared r a : declared (Git.handleGetInfoRefs r a).
Proof.
  apply session_declared. unfold Git.handleGetInfoRefsWithGitaly, GitalyClient.newClient,
    GitalyClient.InfoRefsResponseReader. declared_tac.
Qed.

(** ** Downloads *)

Section send.
Context (Getenv : string → string) (Environ : list string).
Context (ServeContent : Request → string → Z → fd → prog unit).
Context (Hserve : ∀ r name t f, declared (ServeContent r name t f)).

Lemma report_declared r what err : declared (GitSend.report r what err).
Proof. unfold GitSend.report. declared_tac. Qed.
#[local] Hint Resolve report_declared : declared.

Lemma copy_command_declared r args what headers :
  known programs (default "" (head args)) → declared headers →
  declared (GitSend.copy_command Getenv r args what headers).
Proof. intros Hargs Hh. unfold GitSend.copy_command. declared_tac. Qed.
#[local] Hint Extern 0 (harmless _ (GitSend.copy_command _ _ _ _ _)) =>
  (apply copy_command_declared; [reflexivity|done]) : declared.

Lemma Inject_blob_declared json r s : declared (GitSend.Inject_blob Getenv json r s).
Proof.
  unfold GitSend.Inject_blob, GitSend.handleSendBlobWithGitaly, GitSend.handleSendBlobLocally,
    GitalyClient.newClient, GitalyClient.SendBlob, GitalyClient.nil_dereference. declared_tac.
Qed.

Lemma Inject_diff_declared json pbjson r s : declared (GitSend.Inject_diff Getenv json pbjson r s).
Proof.
  unfold GitSend.Inject_diff, GitSend.handleSendDiffWithGitaly, GitSend.handleSendDiffLocally,
    GitalyClient.NewDiffClient, GitalyClient.newClient, GitalyClient.SendRawDiff,
    GitalyClient.nil_dereference. declared_tac.
Qed.

Lemma Inject_patch_declared json pbjson r s : declared (GitSend.Inject_patch Getenv json pbjson r s).
Proof.
  unfold GitSend.Inject_patch, GitSend.handleSendPatchWithGitaly, GitSend.handleSendPatchLocally,
    GitalyClient.NewDiffClient, GitalyClient.newClient, GitalyClient.SendRawPatch,
    GitalyClient.nil_dereference. declared_tac.
Qed.

Lemma Inject_snapshot_declared json pbjson r s : declared (GitSend.Inject_snapshot json pbjson r s).
Proof.
  unfold GitSend.Inject_snapshot, GitalyClient.newClient, GitalyClient.SnapshotReader. declared_tac.
Qed.

Lemma wait_declared cmds : declared (GitSend.wait cmds).
Proof. by apply GitSend.wait_harmless. Qed.
Lemma kill_all_declared cmds : declared (GitSend.kill_all cmds).
Proof. by apply GitSend.kill_all_harmless. Qed.
Lemma setArchiveHeaders_declared format name : declared (GitSend.setArchiveHeaders format name).
Proof. apply GitSend.setArchiveHeaders_harmless. Qed.
#[local] Hint Resolve wait_declared kill_all_declared setArchiveHeaders_declared : declared.

Lemma copy_archive_declared t b : declared (GitSend.copy_archive t b).
Proof.
  unfold GitSend.copy_archive. destruct t as [[f path]|]; [|declared_tac].
  generalize (length (b_data b)) as fuel, (read_all b).2 as err. intros fuel err.
  revert fuel. generalize (b_data b) as d. intros d fuel. revert d.
  induction fuel as [|fuel IH]; intros d; cbn [GitSend.tee_chunks]; declared_tac.
Qed.
#[local] Hint Resolve copy_archive_declared : declared.

(** Reading an archive, whose processes are among those known. *)
Definition declared_reader (o : result GitSend.reader) : Prop :=
  match o with inl x => declared (GitSend.octets x) | inr _ => True end.

Lemma parseArchiveFormat_known format args :
  (GitSend.parseArchiveFormat format).1 = Some args → known programs (default "" (head args)).
Proof. by destruct format; intros [= <-]. Qed.

Lemma newArchiveReader_declared path format prefix id :
  Effects.guarded (λ _ _ _, True) declared_call
    (GitSend.newArchiveReader Getenv Environ path format prefix id) declared_reader.
Proof.
  unfold GitSend.newArchiveReader. pose proof (parseArchiveFormat_known format) as Hknown.
  destruct (GitSend.parseArchiveFormat format) as [[args|] formatArg]; cbn [bind call Effects.guarded].
  - split; [by apply Hknown|]. intros [cmd|x] _; [|done]. cbn [bind Effects.guarded].
    split; [reflexivity|]. intros [cmd'|x] _; cbn; [|by split]. by split.
  - split; [reflexivity|]. intros [cmd'|x] _; cbn; [|done]. by split.
Qed.

Lemma handleArchiveWithGitaly_declared params format :
  Effects.guarded (λ _ _ _, True) declared_call
    (GitSend.handleArchiveWithGitaly params format) declared_reader.
Proof.
  cbn. split; [done|]. intros [c|x] _; [|done]. cbn. split; [reflexivity|]. by intros [s|x] _.
Qed.

Lemma stream_archive_declared r params format name t :
  declared (GitSend.stream_archive Getenv Environ r params format name t).
Proof.
  unfold GitSend.stream_archive. apply Effects.harmless_bind_guarded with declared_reader.
  - destruct (negb _); [|apply newArchiveReader_declared]. apply Effects.guarded_bind.
    eapply Effects.guarded_mono; [apply handleArchiveWithGitaly_declared|]. by intros [x|y].
  - intros [x|y] Hx; cbn in Hx; [|declared_tac].
    unfold GitSend.finalizeCachedArchive. declared_tac.
Qed.
#[local] Hint Resolve stream_archive_declared : declared.

Lemma Inject_archive_declared json r s :
  declared (GitSend.Inject_archive Getenv Environ ServeContent json r s).
Proof using Hserve.
  unfold GitSend.Inject_archive, GitSend.prepareArchiveTempfile. declared_tac.
Qed.

Lemma Inject_entry_declared types json r s : declared (Artifacts.Inject Environ types json r s).
Proof.
  unfold Artifacts.Inject, Artifacts.unpackFileFromZip, Artifacts.waitCatFile. declared_tac.
Qed.
End send.

Lemma Inject_url_declared url_Parse json client r s :
  (∀ r, declared (client r)) → declared (SendUrl.Inject url_Parse json client r s).
Proof.
  intros Hc. unfold SendUrl.Inject, SendUrl.fetch, SendUrl.forward, SendUrl.count_request.
  declared_tac.
Qed.

(** ** Terminals, runners, the queue and the proxy *)

Lemma terminal_declared url_Parse Dial Upgrade Serve r t :
  (∀ t, declared (Dial t)) → (∀ r, declared (Upgrade r)) → (∀ a b, declared (Serve a b)) →
  declared (Terminal.handle url_Parse Dial Upgrade Serve r t).
Proof.
  intros H1 H2 H3. unfold Terminal.handle, Terminal.ProxyTerminal, Terminal.connectToServer,
    Terminal.upgradeClient. declared_tac.
Qed.

Lemma RegisterHandler_declared json (h : Handler) watch d r :
  (∀ r, declared (h r)) → (∀ k v t, declared (watch k v t)) →
  declared (Builds.RegisterHandler json h watch d r).
Proof.
  intros Hh Hw. unfold Builds.RegisterHandler, Builds.readRunnerBody, Builds.proxyRegisterRequest,
    Builds.watchForRunnerChange, Builds.while_open, Builds.open, Builds.count. declared_tac.
Qed.

Lemma QueueRequests_declared name (h : Handler) limit queueLimit t r :
  (∀ r, declared (h r)) → declared (Queueing.QueueRequests name h limit queueLimit t r).
Proof. intros Hh. unfold Queueing.QueueRequests. declared_tac. Qed.

Lemma proxy_declared p (reverse : Handler) r :
  (∀ r, declared (reverse r)) → declared (Backend.ServeHTTP p reverse r).
Proof. intros Hh. unfold Backend.ServeHTTP. declared_tac. Qed.

Lemma contentEncodingHandler_declared V (h : Handler) r :
  (∀ r, declared (h r)) → declared (Upstream.contentEncodingHandler V h r).
Proof. intros Hh. unfold Upstream.contentEncodingHandler. declared_tac. Qed.

Lemma denyWebsocket_declared V (h : Handler) r :
  (∀ r, declared (h r)) → declared (Upstream.denyWebsocket V h r).
Proof. intros Hh. unfold Upstream.denyWebsocket. declared_tac. Qed.

Lemma RequestFinished_declared logger l r : declared (Logging.RequestFinished logger l r).
Proof. unfold Logging.RequestFinished, Logging.writeAccessLog. declared_tac. Qed.
End Declared.
