(* ===== verification/System.v ===== *)
(** * The program put together (internal/upstream/routes.go on the handlers of the packages)

    [services] gives the routing table the handlers of the other files, all behind the same
    client of Rails and the same round tripper; [NewUpstream] is the whole handler.  Code
    that is not the program's is a record of functions.  The main theorem is about all of
    it: as long as Rails does not authorize a request to a route that asks for
    authorization, serving it starts no process, calls no Gitaly server, writes no file and
    sends no other server anything but requests for authorization. *)

From S2P Require Import Prelude GoString Http Effects GoNet UrlPrefix Helper.
From S2P Require Import SendData Upstream Queueing KeyWatcher Builds Terminal Gitaly Backend Api.
From S2P Require Import ObjectStore FileStore Upload Git GitSend Artifacts SendUrl.
From S2P Require Import StaticPages Declared.
From stdpp Require Import options.

Module System.

(** ** Third-party code *)

Record Libraries := {
  url_Parse : string → result url;
  Error : gerr → string;
  json_Response : body → result Api.Response;
  json_runnerRequest : bytes → result Builds.runnerRequest;
  json_archive : bytes → result GitSend.archiveParams;
  json_blob : bytes → result GitSend.blobParams;
  json_diff : bytes → result GitSend.diffParams;
  json_patch : bytes → result GitSend.patchParams;
  json_snapshot : bytes → result GitSend.snapshotParams;
  json_entry : bytes → result Artifacts.entryParams;
  json_url : bytes → result SendUrl.entryParams;
  jsonpb_Unmarshal : string → pb * option gerr;
  xml_Decode : body → result ObjectStore.compoundCompleteMultipartUploadResult;
  md5 : bytes → bytes;
  sha1 : bytes → bytes;
  sha256 : bytes → bytes;
  sha512 : bytes → bytes;
  quotedprintable : body → body;
  randomBoundary : bytes;
  TypeByExtension : string → string;
  Getenv : string → string;
  Environ : list string;
  TempDir : string;
  (* whether the client has gone, and whether a failed save had read everything *)
  cancelled : bool;
  drained : gerr → bytes → bool;
  (* signing with the default claims, and with those of a form's fields *)
  JWTTokenString : prog (result string);
  JWTTokenString_fields : gmap string string → prog (result string);
  (* websockets *)
  Dial : Terminal.TerminalSettings → prog (result (fd * string));
  Upgrade : Request → prog (result (fd * string));
  Serve : Terminal.codec → Terminal.codec → prog (option gerr);
  (* watching a key of Redis: see KeyWatcher *)
  WatchKey : Builds.WatchKeyHandler;
  reverseProxy : Handler;
  client_Do : Request → prog (result Response);
  ServeContent : Request → string → Z → fd → prog unit;
}.

(** The routing package's own third-party code comes with it. *)
Definition with_ServeContent (L : Libraries) (V : Upstream.Vendor) : Upstream.Vendor :=
  {| Upstream.GetRemoteAddr := Upstream.GetRemoteAddr V;
     Upstream.IsWebSocketUpgrade := Upstream.IsWebSocketUpgrade V;
     Upstream.instrument := Upstream.instrument V;
     Upstream.gzip_NewReader := Upstream.gzip_NewReader V;
     Upstream.ServeContent := ServeContent L;
     Upstream.local_offset := Upstream.local_offset V |}.

(** ** The handlers behind the routes *)

Section services.
Context (L : Libraries) (cfg : Upstream.Config) (rt : Backend.RoundTripper).

Definition backend : url := default Upstream.DefaultBackend (Upstream.Backend cfg).

(** [internal/api/api.go:60-66 NewAPI] *)
Definition NewAPI : Api.API :=
  {| Api.URL_ := backend; Api.Version := Upstream.Version cfg |}.

(** The client of Rails all authorized handlers share.
    [internal/upstream/routes.go:101-106 upstream.configureRoutes] *)
Definition PreAuthorizeHandler : Api.HandleFunc → string → Handler :=
  Api.PreAuthorizeHandler NewAPI (JWTTokenString L) (Backend.RoundTrip (Error L) rt)
    (json_Response L).

(** [internal/terminal/terminal.go:23-42 Handler] *)
Definition TerminalHandler : Handler :=
  PreAuthorizeHandler (λ r a,
    Terminal.handle (url_Parse L) (Dial L) (Upgrade L) (Serve L) r (Api.Terminal a)) "authorize".

(** [upload.Accelerate] behind any authorizer. *)
Definition Accelerate : (Api.HandleFunc → string → Handler) → Handler → Handler :=
  Upload.Accelerate (url_Parse L) (xml_Decode L) (md5 L) (sha1 L) (sha256 L) (sha512 L)
    (quotedprintable L) (randomBoundary L) (JWTTokenString_fields L).

(** [internal/upstream/routes.go:101-130 upstream.configureRoutes] *)
Definition services : Upstream.Services :=
  {| Upstream.GetInfoRefsHandler := Git.GetInfoRefsHandler PreAuthorizeHandler;
     Upstream.UploadPack := Git.UploadPack PreAuthorizeHandler;
     Upstream.ReceivePack := Git.ReceivePack (Getenv L) PreAuthorizeHandler;
     Upstream.PutStore :=
       FileStore.PutStore (url_Parse L) (xml_Decode L) (md5 L) (sha1 L) (sha256 L) (sha512 L)
         PreAuthorizeHandler;
     Upstream.UploadArtifacts :=
       Artifacts.UploadArtifacts (url_Parse L) (xml_Decode L) (md5 L) (sha1 L) (sha256 L)
         (sha512 L) (quotedprintable L) (randomBoundary L) (Environ L) (TempDir L)
         (cancelled L) (drained L) PreAuthorizeHandler;
     Upstream.TerminalHandler := TerminalHandler;
     Upstream.BodyUploader := λ h,
       FileStore.BodyUploader (url_Parse L) (xml_Decode L) (md5 L) (sha1 L) (sha256 L)
         (sha512 L) PreAuthorizeHandler h None;
     Upstream.Accelerate_api := Accelerate PreAuthorizeHandler;
     Upstream.Accelerate_skip_rails := λ path, Accelerate (Upload.SkipRailsAuthorizer path);
     Upstream.QueueRequests := Queueing.QueueRequests;
     Upstream.RegisterHandler := λ h,
       Builds.RegisterHandler (json_runnerRequest L) h (WatchKey L);
     Upstream.NewProxy :=
       Backend.ServeHTTP (Backend.NewProxy (Some backend) (Upstream.Version cfg)).1
         (reverseProxy L);
     Upstream.SendArchive :=
       GitSend.SendArchive (Getenv L) (Environ L) (ServeContent L) (json_archive L);
     Upstream.SendBlob := GitSend.SendBlob (Getenv L) (json_blob L);
     Upstream.SendDiff := GitSend.SendDiff (Getenv L) (json_diff L) (jsonpb_Unmarshal L);
     Upstream.SendPatch := GitSend.SendPatch (Getenv L) (json_patch L) (jsonpb_Unmarshal L);
     Upstream.SendSnapshot := GitSend.SendSnapshot (json_snapshot L) (jsonpb_Unmarshal L);
     Upstream.SendEntry :=
       Artifacts.SendEntry (Environ L) (TypeByExtension L) (json_entry L);
     Upstream.SendURL := SendUrl.SendURL (url_Parse L) (json_url L) (client_Do L) |}.
End services.

(** Without an address and a socket there is no handler: the process panics.
    [internal/upstream/upstream.go:37-48 NewUpstream] *)
Definition NewUpstream (L : Libraries) (V : Upstream.Vendor) (cfg : Upstream.Config)
    (logger : bool) : outcome Upstream.upstream :=
  match Backend.NewRoundTripper (Some (backend cfg)) (Upstream.Socket cfg)
          (Upstream.DevelopmentMode cfg) with
  | Value rt => Value (Upstream.NewUpstream (with_ServeContent L V) (services L cfg rt) cfg logger)
  | Panic m => Panic m
  end.

(** ** Requests that Rails does not authorize *)

(** The places in the table of the routes that ask Rails first. *)
Definition authorized_routes : list nat := [0; 1; 2; 3; 4; 5; 6; 7; 10; 14].

(** What the transport answers to a request for authorization grants it. *)
Definition grants (L : Libraries) (resp : Response) : bool :=
  (StatusCode resp =? 200)%Z && Api.validResponseContentType resp &&
  match json_Response L (RBody resp) with inl _ => true | inr _ => false end.

(** Rails' answers when it does not. *)
Definition refusing (L : Libraries) (X : Type) (e : ext X) : X → Prop :=
  match e in ext X return X → Prop with
  | RoundTrip_ _ => λ o, match o with inl resp => grants L resp = false | inr _ => True end
  | _ => λ _, True
  end.

(** A request for authorization: no body, and this program's token. *)
Definition asks_only (q : Request) : Prop :=
  Body q = None ∧ is_Some (Header_ q !! Api.RequestHeader).

(** The calls that change nothing outside of the process but logs and metrics. *)
Definition quiet (X : Type) (e : ext X) : Prop :=
  match e with
  | Now | Metric _ _ _ | Capture _ _ | LogError_ _ _ | LogInfo _ _ | AccessLog _
  | ReadFile _ | CloseFd _ => True
  | RoundTrip_ q => asks_only q
  | _ => False
  end.

Section refused.
Context (L : Libraries) (cfg : Upstream.Config) (rt : Backend.RoundTripper).
Context (V : Upstream.Vendor) (logger : bool).

Abbreviation silent p := (Effects.guarded (refusing L) quiet p (λ _, True)).

Lemma silent_harmless {A} (p : prog A) : harmless quiet p → silent p.
Proof. apply Effects.guarded_harmless. Qed.

Lemma Fail500_silent r e : silent (Helper.Fail500 r e).
Proof. apply silent_harmless, Helper.Fail500_harmless. by split_and!. Qed.

Lemma LogError_silent r e : silent (Helper.LogError r e).
Proof. apply silent_harmless, Helper.LogError_harmless. by split. Qed.

Lemma HTTPError_silent r msg code : silent (Helper.HTTPError r msg code).
Proof.
  apply silent_harmless. unfold Helper.HTTPError, http_Error.
  destruct (Helper.ProtoAtLeast r 1 1); by harmless_tac.
Qed.

Lemma close_body_silent resp : silent (close_body resp).
Proof. apply silent_harmless. unfold close_body. by harmless_tac. Qed.

(** The request for authorization is one. *)
Lemma newRequest_asks r suffix (Htoken : silent (JWTTokenString L)) :
  Effects.guarded (refusing L) quiet (Api.newRequest (NewAPI cfg) (JWTTokenString L) r None suffix)
    (λ o, match o with inl q => asks_only q | inr _ => True end).
Proof.
  unfold Api.newRequest. apply Effects.guarded_bind.
  eapply Effects.guarded_mono; [exact Htoken|]. intros [tok|x] _; [|exact I].
  split; [done|]. cbn [Header_]. unfold Header.Set_.
  change (Header.canonical_key Api.RequestHeader) with Api.RequestHeader.
  by rewrite lookup_insert_eq.
Qed.

(** A failure of the transport grants nothing either. *)
Lemma RoundTrip_refused q (Hq : asks_only q) :
  Effects.guarded (refusing L) quiet (Backend.RoundTrip (Error L) rt q)
    (λ o, match o with inl resp => grants L resp = false | inr _ => True end).
Proof.
  unfold Backend.RoundTrip. cbn [bind call Effects.guarded]. split; [done|]. intros start _.
  split; [done|]. intros [resp|err] Hresp; [exact Hresp|]. cbn [Effects.guarded bind call].
  split; [done|]. intros now _. apply Effects.guarded_bind.
  eapply Effects.guarded_mono; [apply LogError_silent|]. intros _ _. reflexivity.
Qed.

Lemma passResponseBack_silent resp r : silent (Api.passResponseBack resp r).
Proof.
  unfold Api.passResponseBack. destruct (Api.bufferResponse _) as [d|x]; [|apply Fail500_silent].
  apply Effects.guarded_bind. eapply Effects.guarded_mono; [apply close_body_silent|]. intros _ _.
  apply silent_harmless. unfold Api.put_headers. cbn [bind call harmless]. split; [done|].
  intros _. apply harmless_bind.
  { by induction (map_to_list (RHeader resp)) as [|[k v] l0 IH]. }
  intros _. cbn [harmless write_header bind]. apply harmless_bind; [by destruct d|].
  intros [n [y|]]; [|done]. by apply Helper.LogError_harmless.
Qed.

(** Behind the authorization nothing of the handler happens. *)
Lemma PreAuthorizeHandler_silent next suffix r (Htoken : silent (JWTTokenString L)) :
  silent (PreAuthorizeHandler L cfg rt next suffix r).
Proof.
  unfold PreAuthorizeHandler, Api.PreAuthorizeHandler, Api.PreAuthorize.
  apply Effects.guarded_bind, Effects.guarded_bind.
  eapply Effects.guarded_mono; [by apply newRequest_asks|].
  intros [q|x] Hq; [|apply Fail500_silent]. apply Effects.guarded_bind.
  eapply Effects.guarded_mono; [by apply RoundTrip_refused|].
  intros [resp|x] Hresp; [|apply Fail500_silent]. cbn [bind call Effects.guarded].
  split; [done|]. intros _ _. unfold grants in Hresp.
  destruct (StatusCode resp =? 200)%Z, (Api.validResponseContentType resp);
    cbn [negb orb andb bind] in *;
    try (apply Effects.guarded_deferring; [apply close_body_silent|apply passResponseBack_silent]).
  destruct (json_Response L (RBody resp)) as [a|x]; [done|]. apply Effects.guarded_bind.
  eapply Effects.guarded_mono; [apply close_body_silent|]. intros _ _. apply Fail500_silent.
Qed.

Lemma contentEncodingHandler_silent h r :
  (∀ r, silent (h r)) → silent (Upstream.contentEncodingHandler V h r).
Proof.
  intros Hh. unfold Upstream.contentEncodingHandler.
  destruct (if String.eqb _ _ then _ else _); [apply Hh|apply Fail500_silent].
Qed.

Lemma denyWebsocket_silent h r :
  (∀ r, silent (h r)) → silent (Upstream.denyWebsocket V h r).
Proof.
  intros Hh. unfold Upstream.denyWebsocket.
  destruct (Upstream.IsWebSocketUpgrade V r); [apply HTTPError_silent|apply Hh].
Qed.

(** The metrics of a route do nothing themselves. *)
Definition quiet_instrument : Prop := ∀ m t (h : Handler) r,
  (∀ r, silent (h r)) → silent (Upstream.instrument V m t h r).

Lemma authorized_silent i ro r (Htoken : silent (JWTTokenString L)) (Hinst : quiet_instrument) :
  i ∈ authorized_routes →
  Upstream.Routes (Upstream.NewUpstream V (services L cfg rt) cfg logger) !! i = Some ro →
  silent (Upstream.handler ro r).
Proof.
  intros Hi Hro. pose proof (λ next suffix r, PreAuthorizeHandler_silent next suffix r Htoken) as Hpre.
  unfold authorized_routes in Hi.
  repeat (apply elem_of_cons in Hi as [->|Hi]; [injection Hro as <-|]);
    [..|by apply not_elem_of_nil in Hi].
  all: cbn [Upstream.handler Upstream.route Upstream.wsRoute]; apply Hinst; intros r1.
  all: try apply denyWebsocket_silent; try (intros r2).
  all: try apply contentEncodingHandler_silent; try (intros r3).
  all: apply Hpre.
Qed.

Lemma logging_wrapper_silent : Effects.guarded_wrapper (refusing L) quiet Logging.wrapper.
Proof.
  split; intros s l; cbn; [by destruct (Logging.wroteHeader l)|].
  destruct l as [st [] n t]; cbn; by intros x.
Qed.
End refused.

(** ** Third-party code that keeps to what is declared *)

Record declared_libraries (L : Libraries) (V : Upstream.Vendor) : Prop := {
  dl_token : Declared.declared (JWTTokenString L);
  dl_token_fields : ∀ fields, Declared.declared (JWTTokenString_fields L fields);
  dl_Dial : ∀ t, Declared.declared (Dial L t);
  dl_Upgrade : ∀ r, Declared.declared (Upgrade L r);
  dl_Serve : ∀ a b, Declared.declared (Serve L a b);
  dl_WatchKey : ∀ k v t, Declared.declared (WatchKey L k v t);
  dl_reverseProxy : ∀ r, Declared.declared (reverseProxy L r);
  dl_client_Do : ∀ r, Declared.declared (client_Do L r);
  dl_ServeContent : ∀ r name t f, Declared.declared (ServeContent L r name t f);
  dl_instrument : ∀ m t (h : Handler) r,
    (∀ r, Declared.declared (h r)) → Declared.declared (Upstream.instrument V m t h r);
}.

Section declared.
Context (L : Libraries) (V : Upstream.Vendor) (cfg : Upstream.Config) (rt : Backend.RoundTripper).
Context (logger : bool) (HL : declared_libraries L V).

#[local] Set Default Proof Using "Type*".

Lemma authorizer_declared : Declared.authorizer (PreAuthorizeHandler L cfg rt).
Proof. apply Declared.PreAuthorizeHandler_authorizer. by destruct HL. Qed.

Lemma services_proxy_declared r :
  Declared.declared (Upstream.proxy (with_ServeContent L V) (services L cfg rt) r).
Proof.
  destruct HL. unfold Upstream.proxy. apply Declared.SendData_declared.
  - rewrite !Forall_cons, Forall_nil. split_and!; [intros r' s..|done].
    + by apply Declared.Inject_archive_declared.
    + apply Declared.Inject_blob_declared.
    + apply Declared.Inject_diff_declared.
    + apply Declared.Inject_patch_declared.
    + apply Declared.Inject_snapshot_declared.
    + apply Declared.Inject_entry_declared.
    + by apply Declared.Inject_url_declared.
  - intros r'. apply Declared.SendFile_declared; [done|]. intros r''.
    apply Declared.Block_declared. intros r0. by apply Declared.proxy_declared.
Qed.

Lemma accelerated_declared path r :
  Declared.declared (Accelerate L (Upload.SkipRailsAuthorizer path)
    (Upstream.proxy (with_ServeContent L V) (services L cfg rt)) r).
Proof.
  apply Declared.Accelerate_declared; [by destruct HL|apply Declared.SkipRailsAuthorizer_authorizer|].
  apply services_proxy_declared.
Qed.

Lemma routes_declared i ro r :
  Upstream.Routes (Upstream.NewUpstream (with_ServeContent L V) (services L cfg rt) cfg logger) !! i
    = Some ro →
  Declared.declared (Upstream.handler ro r).
Proof.
  intros Hro. pose proof services_proxy_declared as Hproxy. pose proof accelerated_declared as Hacc.
  pose proof authorizer_declared as Hpre. destruct HL as [? ? ? ? ? ? ? ? Hserve Hinst].
  assert (i < 17) as Hi by (by apply lookup_lt_Some in Hro).
  repeat (destruct i as [|i]; [injection Hro as <-|]); [..|lia].
  all: cbn [Upstream.handler Upstream.route Upstream.wsRoute]; apply Hinst; clear r; intros r.
  all: first [apply Declared.denyWebsocket_declared; clear r; intros r|idtac].
  all: first [apply Declared.contentEncodingHandler_declared; clear r; intros r|idtac].
  all: first
    [ apply Hproxy
    | by apply Declared.BodyUploader_declared
    | by apply Declared.UploadArtifacts_declared
    | by apply Declared.Accelerate_declared
    | apply Hpre; intros r' a;
      first [ apply Declared.handleGetInfoRefs_declared
            | apply Declared.post_rpc_declared, Declared.handleUploadPack_declared
            | apply Declared.post_rpc_declared, Declared.handleReceivePack_declared
            | by apply Declared.terminal_declared ]
    | apply Declared.RegisterHandler_declared; [|done]; intros r';
      apply Declared.QueueRequests_declared, Hacc
    | apply Declared.ErrorPagesUnless_declared, Hproxy
    | apply Declared.ServeExisting_declared; [done|]; intros h' [= <-] r' ].
  - unfold Upstream.NotFoundUnless.
    destruct (Upstream.DevelopmentMode cfg); [apply Hproxy|apply Declared.http_NotFound_declared].
  - apply Declared.DeployPage_declared. intros r1. apply Declared.ErrorPagesUnless_declared, Hacc.
Qed.
End declared.

(** ** Properties *)

(** C3: as long as Rails does not authorize it, a request to a route that asks for
    authorization changes nothing: whatever is observed of the environment that answering
    clocks, logs, metrics and requests for authorization leaves as it was, is as it was.  So
    no process is started, no Gitaly server called, no file made, and no other server gets
    anything of the client. *)
Theorem unauthorized_does_nothing {W T} (E : env W) (obs : W → T) (L : Libraries)
    (V : Upstream.Vendor) (cfg : Upstream.Config) (logger : bool) (u : Upstream.upstream)
    (r : Request) (i : nat) (ro : Upstream.routeEntry) (w : resp) (e : W)
    (HE : ∀ X (x : ext X) e, quiet X x → obs (E X x e).2 = obs e)
    (Hrefuse : ∀ X (x : ext X) e, refusing L X x (E X x e).1)
    (Htoken : harmless quiet (JWTTokenString L))
    (Hinst : quiet_instrument L (with_ServeContent L V))
    (Hu : NewUpstream L V cfg logger = Value u)
    (Hroute : let r := Upstream.with_remote_addr r (Upstream.GetRemoteAddr V r) in
      Upstream.find_route u (UrlPrefix.CleanURIPath (Path_ (URL r))) r = Some (i, ro))
    (Hi : i ∈ authorized_routes) :
  obs (run E (Upstream.ServeHTTP (with_ServeContent L V) u r) w e).2 = obs e.
Proof.
  unfold NewUpstream in Hu. destruct (Backend.NewRoundTripper _ _ _) as [rt|]; [|done].
  injection Hu as <-. cbv zeta in Hroute.
  eapply (Effects.guarded_keeps (refusing L) quiet E obs); [exact HE|exact Hrefuse|].
  unfold Upstream.ServeHTTP. cbn [Upstream.GetRemoteAddr with_ServeContent].
  set (r' := Upstream.with_remote_addr r (Upstream.GetRemoteAddr V r)) in *.
  apply Effects.guarded_bind. unfold Logging.NewStatsCollectingResponseWriter.
  cbn [bind call Effects.guarded]. split; [done|]. intros now _.
  apply Effects.guarded_serve_under; [apply logging_wrapper_silent|..].
  - intros l. apply silent_harmless. cbn.
    unfold Logging.RequestFinished, Logging.writeAccessLog. by destruct logger; cbn.
  - unfold Upstream.dispatch. cbn [bind Helper.DisableResponseBuffering Effects.guarded header_set].
    destruct (String.eqb (RequestURI r') "*"); [apply HTTPError_silent|].
    destruct (String.eqb (Method r') "CONNECT"); [apply HTTPError_silent|].
    destruct (negb _); [apply HTTPError_silent|]. rewrite Hroute.
    apply Upstream.find_route_Some in Hroute as [Hro _].
    eapply authorized_silent; [|done..]. by apply silent_harmless.
Qed.

(** ** Examples *)

Definition failed {A B} : A → result B := λ _, inr (Errorf "not decoded").

(** Libraries that decode nothing and reach nothing. *)
Definition test_libraries : Libraries :=
  {| url_Parse := failed; Error := λ _, "error"; json_Response := λ _, inl Api.granted;
     json_runnerRequest := failed; json_archive := failed; json_blob := failed;
     json_diff := failed; json_patch := failed; json_snapshot := failed; json_entry := failed;
     json_url := failed; jsonpb_Unmarshal := λ _, (PMsg [], None); xml_Decode := failed;
     md5 := id; sha1 := id; sha256 := id; sha512 := id; quotedprintable := id;
     randomBoundary := []; TypeByExtension := λ _, ""; Getenv := λ _, ""; Environ := [];
     TempDir := "/tmp"; cancelled := false; drained := λ _ _, false;
     JWTTokenString := Ret (inl "token"); JWTTokenString_fields := λ _, Ret (inl "token");
     Dial := λ _, Ret (inr EOF); Upgrade := λ _, Ret (inr EOF); Serve := λ _ _, Ret None;
     WatchKey := λ _ _ _, Ret (KeyWatcher.WatchKeyStatusTimeout, None);
     reverseProxy := λ _, write_header 200;
     client_Do := λ r, call (RoundTrip_ r); ServeContent := λ _ _ _ _, write_header 200 |}.

Definition test_instance : outcome Upstream.upstream :=
  NewUpstream test_libraries Upstream.test_vendor Upstream.test_config true.

(** Rails answers with a status; the calls that are not quiet are counted. *)
Definition answering (status : Z) : env nat := λ X x n,
  match x in ext X return X * nat with
  | RoundTrip_ _ =>
      (inl {| StatusCode := status; RHeader := {["Content-Type" := [Api.ResponseContentType]]};
              RBody := whole []; RConn := None |}, n)
  | Now => (0%Z, n)
  | Metric _ _ _ | Capture _ _ | LogError_ _ _ | LogInfo _ _ | AccessLog _ | CloseFd _ => (tt, n)
  | ReadFile _ => (inr ErrNotExist, n)
  | x => ((HelperProps.quiet_env _ x tt).1, S n)
  end.

Definition served (status : Z) (r : Request) : option (option Z * nat) :=
  match test_instance with
  | Value u =>
      let '(_, w, n) := run (answering status) (Upstream.ServeHTTP
        (with_ServeContent test_libraries Upstream.test_vendor) u r) (new_resp ∅) 0 in
      Some (r_status w, n)
  | Panic _ => None
  end.

(** A fetch Rails refuses, and one it authorizes, for which Gitaly is called. *)
Definition fetch : Request :=
  let q := Upstream.get "GET" "/group/project.git/info/refs" in
  {| Method := Method q;
     URL := {| Scheme := "http"; UHost := "h"; Path_ := Path_ (URL q);
               RawQuery := "service=git-upload-pack" |};
     ProtoMajor := 1; ProtoMinor := 1; Header_ := ∅; Body := None; ContentLength := 0;
     Host := "h"; RequestURI := RequestURI q; RemoteAddr := RemoteAddr q |}.
Example fetch_refused : served 401 fetch = Some (Some 401%Z, 0).
Proof. vm_compute. reflexivity. Qed.
Example fetch_authorized : served 200 fetch = Some (Some 500%Z, 1).
Proof. vm_compute. reflexivity. Qed.

Lemma unauthorized_does_nothing_witness :
  ∃ u, NewUpstream test_libraries Upstream.test_vendor Upstream.test_config true = Value u ∧
    (run (answering 401) (Upstream.ServeHTTP
       (with_ServeContent test_libraries Upstream.test_vendor) u fetch) (new_resp ∅) 0).2 = 0.
Proof.
  eexists. split; [reflexivity|].
  assert (∃ ro, Upstream.find_route
    (Upstream.NewUpstream (with_ServeContent test_libraries Upstream.test_vendor)
       (services test_libraries Upstream.test_config {| Backend.Transport := Backend.Tcp "localhost:8080";
          Backend.developmentMode := false |}) Upstream.test_config true)
    (UrlPrefix.CleanURIPath (Path_ (URL fetch))) fetch = Some (0, ro)) as [ro Hro]
    by (eexists; reflexivity).
  apply (unauthorized_does_nothing (answering 401) id test_libraries Upstream.test_vendor
    Upstream.test_config true _ fetch 0 ro (new_resp ∅) 0).
  - intros X x n Hx. by destruct x.
  - intros X x n. by destruct x.
  - done.
  - intros m t h r Hh. apply Hh.
  - reflexivity.
  - exact Hro.
  - apply list_elem_of_here.
Defined.

End System.
