(* ===== verification/Start.v ===== *)
(** * The process (main.go, logging.go, raven.go, LoadConfig of internal/config)

    From the command line to the server: logging, the addresses listened on, the
    configuration, Redis, the handler and what wraps it.  The operating system is a set of
    paths with the umask and what it refuses; a step either goes on or ends the process
    with its status.  The flag and TOML packages have done their parsing: flags come as a
    record, the configuration file as the texts of its fields. *)

From S2P Require Import Prelude GoString Http Metrics Helper Secret Redis.
From S2P Require Import Upstream Queueing Log Backend System.
From stdpp Require Import options.

Module Start.

(** ** Configuration *)

(** The fields of the [redis] section of the file: the URLs are texts still. *)
Record section := {
  URL_text : option string;
  Sentinel_texts : list string;
  others : Redis.RedisConfig;
}.

Section config.
Context (url_Parse : string → result url).

(** [internal/config/config.go:24-28 TomlDuration.UnmarshalTest] *)
Definition UnmarshalTest (ParseDuration : string → Z * option gerr) (text : string)
    : Z * option gerr := ParseDuration text.

(** The result of [url.Parse] is used before its error is looked at.
    [internal/config/config.go:14-18 TomlURL.UnmarshalText] *)
Definition UnmarshalText (text : string) : outcome (url * option gerr) :=
  match url_Parse text with
  | inl u => Value (u, None)
  | inr _ => Panic "invalid memory address or nil pointer dereference"
  end.

Fixpoint unmarshal_all (texts : list string) : outcome (result (list url)) :=
  match texts with
  | [] => Value (inl [])
  | text :: texts =>
      match UnmarshalText text with
      | Panic m => Panic m
      | Value (_, Some err) => Value (inr err)
      | Value (u, None) =>
          match unmarshal_all texts with
          | Value (inl us) => Value (inl (u :: us))
          | o => o
          end
      end
  end.

(** What decoding makes of a section. *)
Definition decode_section (s : section) : outcome (result Redis.RedisConfig) :=
  match unmarshal_all (option_list (URL_text s)), unmarshal_all (Sentinel_texts s) with
  | Value (inl us), Value (inl sentinels) =>
      let c := others s in
      Value (inl
        {| Redis.URL := default (mk_url "" "" "" "") (head us); Redis.Sentinel := sentinels;
           Redis.SentinelMaster := Redis.SentinelMaster c; Redis.Password := Redis.Password c;
           Redis.DB := Redis.DB c; Redis.ReadTimeout := Redis.ReadTimeout c;
           Redis.WriteTimeout := Redis.WriteTimeout c;
           Redis.KeepAlivePeriod := Redis.KeepAlivePeriod c; Redis.MaxIdle := Redis.MaxIdle c;
           Redis.MaxActive := Redis.MaxActive c |})
  | Value (inr err), _ | Value (inl _), Value (inr err) => Value (inr err)
  | Panic m, _ | Value (inl _), Panic m => Panic m
  end.

(** The [redis] section of a file, if it has one.
    [internal/config/config.go:58-65 LoadConfig] *)
Definition LoadConfig (file : string → result (option section)) (filename : string)
    : outcome (result (option Redis.RedisConfig)) :=
  match file filename with
  | inr err => Value (inr err)
  | inl None => Value (inl None)
  | inl (Some s) =>
      match decode_section s with
      | Value (inl c) => Value (inl (Some c))
      | Value (inr err) => Value (inr err)
      | Panic m => Panic m
      end
  end.
End config.

(** ** The process *)

(** [main.go:39-58 listenAddr] *)
Record flags := {
  printVersion : bool;
  configFile : string;
  listenAddr : string;
  listenNetwork : string;
  listenUmask : Z;
  authBackend : string;
  authSocket : string;
  pprofListenAddr : string;
  documentRoot : string;
  proxyHeadersTimeout : Z;
  developmentMode : bool;
  secretPath : string;
  apiLimit : nat;
  apiQueueLimit : nat;
  apiQueueTimeout : Z;
  apiCiLongPollingDuration : Z;
  prometheusListenAddr : string;
  logFile : string;
  logFormat : string;
}.

Definition minute : Z := 60 * 1000000000.

(** The flags of a command line without any.
    [main.go:39-63 init] *)
Definition default_flags : flags :=
  {| printVersion := false; configFile := ""; listenAddr := "localhost:8181";
     listenNetwork := "tcp"; listenUmask := 0; authBackend := "http://localhost:8080";
     authSocket := ""; pprofListenAddr := ""; documentRoot := "public";
     proxyHeadersTimeout := 5 * minute; developmentMode := false;
     secretPath := "./.gitlab_workhorse_secret"; apiLimit := 0; apiQueueLimit := 0;
     apiQueueTimeout := Queueing.DefaultTimeout; apiCiLongPollingDuration := 50;
     prometheusListenAddr := ""; logFile := ""; logFormat := "text" |}.

(** Where log entries go and how they are written. *)
Inductive output := Stderr | LogFile (name : string) | Discard.
Inductive formatter := JSONFormatter | TextFormatter (colors : bool) | AccessLogFormatter.

Record logging := {
  out : output;
  standard : formatter;
  access : option (formatter * output);   (* the access logger *)
}.

(** What answers on an address for debugging. *)
Inductive mux := Profiler | PrometheusMetrics.

(** The connections to Redis: the configured pool, and whether the goroutine that
    watches keys runs. *)
Record redis_state := {
  net : Redis.net;
  configured : option Redis.configuration;
  watching : bool;
}.

Record process := mk_process {
  umask : Z;
  paths : gmap string Z;                  (* what exists, with its mode *)
  stdout : list string;
  logged : list string;
  loggers : logging;
  debugging : list (string * mux);
  secret : Secret.state;
  redis : redis_state;
  registry : Metrics.registry;
  server : option ((string * string) * Handler);
}.

Definition set_umask u '(mk_process _ b c d e f g h i j) := mk_process u b c d e f g h i j.
Definition set_paths m '(mk_process a _ c d e f g h i j) := mk_process a m c d e f g h i j.
Definition print text '(mk_process a b c d e f g h i j) := mk_process a b (c ++ [text]) d e f g h i j.
Definition log text '(mk_process a b c d e f g h i j) := mk_process a b c (d ++ [text]) e f g h i j.
Definition set_loggers l '(mk_process a b c d _ f g h i j) := mk_process a b c d l f g h i j.
Definition debug on '(mk_process a b c d e f g h i j) := mk_process a b c d e (f ++ [on]) g h i j.
Definition set_secret s '(mk_process a b c d e f _ h i j) := mk_process a b c d e f s h i j.
Definition set_redis r '(mk_process a b c d e f g _ i j) := mk_process a b c d e f g r i j.
Definition set_registry r '(mk_process a b c d e f g h _ j) := mk_process a b c d e f g h r j.
Definition set_server s '(mk_process a b c d e f g h i _) := mk_process a b c d e f g h i (Some s).

(** A step goes on with a value, or the process exits with a status. *)
Definition M (A : Type) : Type := process → (A + Z) * process.

Definition ret {A} (a : A) : M A := λ p, (inl a, p).
Definition then_ {A B} (m : M A) (f : A → M B) : M B := λ p,
  match m p with
  | (inl a, p) => f a p
  | (inr status, p) => (inr status, p)
  end.
Definition modify (f : process → process) : M unit := λ p, (inl tt, f p).
Definition gets {A} (f : process → A) : M A := λ p, (inl (f p), p).
Definition Exit {A} (status : Z) : M A := λ p, (inr status, p).

(** [logrus.Entry.Fatal]. *)
Definition Fatal {A} (msg : string) : M A := λ p, (inr 1%Z, log msg p).
(** A panic of the main goroutine. *)
Definition crash {A} (msg : string) : M A := λ p, (inr 2%Z, log msg p).

Declare Scope start_scope.
Delimit Scope start_scope with start.
Notation "x <- m ;; n" := (then_ m (λ x, n))
  (at level 100, m at next level, right associativity) : start_scope.
Notation "m ;; n" := (then_ m (λ _, n)) (at level 100, right associativity) : start_scope.
#[local] Open Scope start_scope.

(** ** Logging *)

(** What the system refuses: opening a log file, removing a path that exists, listening. *)
Record system := {
  open_log_error : string → option gerr;
  remove_error : string → option gerr;
  listen_error : string → string → option gerr;
  file : string → result (option section);
  Getenv : string → string;
}.

Section start.
Context (O : system) (N : Redis.Network) (L : System.Libraries) (V : Upstream.Vendor).
Context (rand_Int : Z → prog (result Z)).
Context (Version : string).

(** [logging.go:44-47 logConfiguration] *)
Definition logConfig (f : flags) : string * string := (logFile f, logFormat f).

(** The file is created with the umask the process was started with.
    [logging.go:24-35 prepareLoggingFile] *)
Definition prepareLoggingFile (name : string) : M output :=
  match open_log_error O name with
  | Some _ => Fatal "Unable to set output log: %s"
  | None =>
      p <- gets id;;
      modify (set_paths (match paths p !! name with
                         | Some _ => paths p
                         | None => <[name := Z.land 438 (Z.lnot (umask p))]> (paths p)
                         end));;
      ret (LogFile name)
  end.

(** [logging.go:49-88 startLogging] *)
Definition startLogging (config : string * string) : M unit :=
  logOutputWriter <-
    (if negb (String.eqb config.1 "") then prepareLoggingFile config.1 else ret Stderr);;
  if String.eqb config.2 "none" then
    p <- gets id;;
    modify (set_loggers {| out := Discard; standard := standard (loggers p); access := None |})
  else if String.eqb config.2 "json" then
    modify (set_loggers {| out := logOutputWriter; standard := JSONFormatter;
                           access := Some (JSONFormatter, logOutputWriter) |})
  else if String.eqb config.2 "text" then
    modify (set_loggers {| out := logOutputWriter; standard := TextFormatter false;
                           access := Some (AccessLogFormatter, logOutputWriter) |})
  else if String.eqb config.2 "structured" then
    modify (set_loggers {| out := logOutputWriter; standard := TextFormatter true;
                           access := Some (TextFormatter true, logOutputWriter) |})
  else Fatal "Unknown logFormat configured".

(** ** Errors of the handler *)

(** [raven.RecoveryHandler] around the handler: a panic is reported with the request, and
    answered.  Its headers are those the handlers have left in the request's map, [left].
    [raven.go:12-35 wrapRaven] *)
Definition wrapRaven (left : Request → header) (h : Handler) : Handler :=
  if String.eqb (Getenv O "GITLAB_WORKHORSE_SENTRY_DSN") "" then h
  else λ r,
    bind (try (h r)) (λ o,
      match o with
      | Value _ => Ret tt
      | Panic m =>
          bind (call (Capture (Header_ <$> Helper.CleanHeadersForRaven
                                 (Some (with_header r (left r)))) (Errorf m)))
            (λ _, write_header 500)
      end).

(** ** The start *)

(** Unlinking the socket of an earlier process.
    [main.go:89-94 main] *)
Definition unlink_socket (f : flags) : M unit :=
  if String.eqb (listenNetwork f) "unix" then
    p <- gets id;;
    match paths p !! listenAddr f, remove_error O (listenAddr f) with
    | None, _ => ret tt                     (* os.IsNotExist *)
    | Some _, Some _ => Fatal "remove"
    | Some _, None => modify (set_paths (delete (listenAddr f) (paths p)))
    end
  else ret tt.

(** [net.Listen]: a Unix socket is a path that must not exist, made under the umask. *)
Definition Listen (network addr : string) : M (option gerr) :=
  p <- gets id;;
  match listen_error O network addr with
  | Some err => ret (Some err)
  | None =>
      if negb (String.eqb network "unix") then ret None
      else
        match paths p !! addr with
        | Some _ => ret (Some (Errorf "bind: address already in use"))
        | None =>
            modify (set_paths (<[addr := Z.land 511 (Z.lnot (umask p))]> (paths p)));; ret None
        end
  end.

(** [syscall.Umask]. *)
Definition Umask (mask : Z) : M Z :=
  old <- gets umask;; modify (set_umask mask);; ret old.

(** [main.go:96-102 main] *)
Definition listen (f : flags) : M unit :=
  oldUmask <- Umask (listenUmask f);;
  err <- Listen (listenNetwork f) (listenAddr f);;
  _ <- Umask oldUmask;;
  match err with
  | Some _ => Fatal "listen"
  | None => ret tt
  end.

(** Addresses for debugging, each served by a goroutine of its own.
    [main.go:104-120 main] *)
Definition listen_debug (f : flags) : M unit :=
  (if negb (String.eqb (pprofListenAddr f) "")
   then modify (debug (pprofListenAddr f, Profiler)) else ret tt);;
  (if negb (String.eqb (prometheusListenAddr f) "")
   then modify (debug (prometheusListenAddr f, PrometheusMetrics)) else ret tt).

(** [main.go:123-134 main] *)
Definition config_of (f : flags) (backendURL : url) : Upstream.Config :=
  {| Upstream.Backend := Some backendURL; Upstream.Socket := authSocket f;
     Upstream.Version := Version; Upstream.DocumentRoot := documentRoot f;
     Upstream.DevelopmentMode := developmentMode f;
     Upstream.ProxyHeadersTimeout := proxyHeadersTimeout f; Upstream.APILimit := apiLimit f;
     Upstream.APIQueueLimit := apiQueueLimit f; Upstream.APIQueueTimeout := apiQueueTimeout f;
     Upstream.APICILongPollingDuration := apiCiLongPollingDuration f |}.

(** [main.go:136-148 main] *)
Definition configure_redis (f : flags) : M unit :=
  if String.eqb (configFile f) "" then ret tt
  else
    match LoadConfig (System.url_Parse L) (file O) (configFile f) with
    | Panic m => crash m
    | Value (inr _) => Fatal "Can not load config file"
    | Value (inl None) => ret tt
    | Value (inl (Some c)) =>
        p <- gets id;;
        let '(o, n) := Redis.Configure N (Some c) (Redis.DefaultDialFunc N) (net (redis p)) in
        match o with
        | Some (Panic m) => crash m
        | Some (Value pool) =>
            modify (set_redis {| net := n; configured := Some pool; watching := true |})
        | None => ret tt
        end
    end.

(** The handler: the queue's metrics are registered when it is made.
    [main.go:150-150 main] *)
Definition handler_of (cfg : Upstream.Config) (left : Request → header) : M Handler :=
  p <- gets id;;
  let timeout := if (Upstream.APIQueueTimeout cfg =? 0)%Z then Queueing.DefaultTimeout
                 else Upstream.APIQueueTimeout cfg in
  match Metrics.start_queues
          (if Upstream.APILimit cfg =? 0 then [] else [("ci_api_job_requests", timeout)])
          (registry p) with
  | Panic m => crash m
  | Value reg =>
      modify (set_registry reg);;
      match System.NewUpstream L V cfg (bool_decide (is_Some (access (loggers p)))) with
      | Panic m => crash m
      | Value u =>
          ret (wrapRaven left
                 (Log.InjectCorrelationID rand_Int (λ _, Upstream.ServeHTTP
                    (System.with_ServeContent L V) u)))
      end
  end.

(** [http.Serve] returns only with an error.
    [main.go:65-153 main] *)
Definition main (f : flags) (left : Request → header) : M unit :=
  let version := "gitlab-workhorse " +:+ Version in
  if printVersion f then modify (print version);; Exit 0
  else
    startLogging (logConfig f);;
    match Backend.parseAuthBackend (System.url_Parse L) (authBackend f) with
    | inr _ => Fatal "invalid authBackend"
    | inl backendURL =>
        modify (log "Starting");;
        unlink_socket f;;
        listen f;;
        listen_debug f;;
        modify (λ p, set_secret (Secret.SetPath (secretPath f) (secret p)) p);;
        let cfg := config_of f backendURL in
        configure_redis f;;
        up <- handler_of cfg left;;
        modify (set_server ((listenNetwork f, listenAddr f), up));;
        Fatal "http: Server closed"
    end.

(** ** Facts *)

(** What a step does, in every case. *)
Definition post {A} (m : M A) (Q : A + Z → process → Prop) (p : process) : Prop :=
  let '(o, p') := m p in Q o p'.

Lemma post_then {A B} (m : M A) (f : A → M B) (Q : B + Z → process → Prop) p :
  post m (λ o p', match o with inl a => post (f a) Q p' | inr status => Q (inr status) p' end) p →
  post (then_ m f) Q p.
Proof. unfold post, then_. by destruct (m p) as [[a|status] p']. Qed.

Lemma post_mono {A} (m : M A) (Q Q' : A + Z → process → Prop) p :
  post m Q p → (∀ o p', Q o p' → Q' o p') → post m Q' p.
Proof. unfold post. destruct (m p). auto. Qed.

Lemma post_and {A} (m : M A) (Q Q' : A + Z → process → Prop) p :
  post m Q p → post m Q' p → post m (λ o p', Q o p' ∧ Q' o p') p.
Proof. unfold post. by destruct (m p). Qed.

(** What the steps before the server leave alone: the umask, the paths that are not among
    [changed], what was printed, what is served; and none ends the process with success. *)
Definition leaves (changed : list string) {A} (p : process) (o : A + Z) (p' : process) : Prop :=
  umask p' = umask p ∧ stdout p' = stdout p ∧ server p' = server p ∧
  (∀ path, path ∉ changed → paths p' !! path = paths p !! path) ∧ o ≠ inr 0%Z.

Lemma leaves_trans {A B} l p1 (o1 : A + Z) p2 (o2 : B + Z) p3 :
  leaves l p1 o1 p2 → leaves l p2 o2 p3 → leaves l p1 o2 p3.
Proof.
  intros (Hu & Ho & Hs & Hp & _) (Hu' & Ho' & Hs' & Hp' & Hn). split_and!; [congruence..| |done].
  intros path Hpath. by rewrite Hp', Hp.
Qed.

Lemma leaves_id {A} l p (o : A + Z) : o ≠ inr 0%Z → leaves l p o p.
Proof. intros. by split_and!. Qed.

Lemma leaves_status {A B} l p status p' :
  leaves l p (inr status : A + Z) p' → leaves l p (inr status : B + Z) p'.
Proof. intros (? & ? & ? & ? & Hs). split_and!; try done. congruence. Qed.

Lemma leaves_more {A} l l' p (o : A + Z) p' : l ⊆ l' → leaves l p o p' → leaves l' p o p'.
Proof. intros Hl (? & ? & ? & Hp & ?). split_and!; try done. intros path Hpath. apply Hp. set_solver. Qed.

Lemma startLogging_leaves l config p :
  config.1 ∈ l → post (startLogging config) (leaves l p) p.
Proof.
  intros Hl. unfold startLogging. apply post_then, (post_mono _ (leaves l p)).
  - destruct (String.eqb config.1 ""); cbn [negb]; [by apply leaves_id|].
    unfold prepareLoggingFile. destruct (open_log_error O config.1); [by destruct p|].
    destruct p as [a m c d e f g h i j]. cbn. split_and!; [done..| |done]. cbn. intros path Hp.
    destruct (m !! config.1); [done|]. apply lookup_insert_ne. by intros <-.
  - intros [w|status] p' Hp; [|by eapply leaves_status]. destruct p' as [a m c d e f g h i j].
    cbv beta iota. repeat case_match; (eapply leaves_trans; [exact Hp|]; by split_and!).
Qed.

Lemma unlink_socket_leaves f p :
  post (unlink_socket f) (leaves (if String.eqb (listenNetwork f) "unix" then [listenAddr f] else []) p) p.
Proof.
  unfold unlink_socket. destruct (String.eqb _ _); [|by apply leaves_id].
  destruct p as [a m c d e g h i j k]. unfold post. cbn.
  destruct (m !! listenAddr f), (remove_error O (listenAddr f)); cbn; try (by split_and!).
  split_and!; [done..| |done]. cbn. intros path Hp. apply lookup_delete_ne.
  intros <-. apply Hp, list_elem_of_here.
Qed.

(** The mode of the socket. *)
Definition socket_mode (f : flags) : Z := Z.land 511 (Z.lnot (listenUmask f)).

Lemma listen_leaves f p :
  post (listen f) (λ o p',
    leaves (if String.eqb (listenNetwork f) "unix" then [listenAddr f] else []) p o p' ∧
    (listenNetwork f = "unix" → o = inl tt → paths p' !! listenAddr f = Some (socket_mode f))) p.
Proof.
  unfold listen, Umask, Listen. destruct p as [a m c d e g h i j k].
  unfold post, then_, gets, modify, ret. cbn.
  destruct (listen_error O _ _); cbn; [split; [by split_and!|done]|].
  destruct (String.eqb_spec (listenNetwork f) "unix") as [Hn|Hn]; cbn;
    [|split; [by split_and!|done]].
  destruct (m !! listenAddr f) eqn:Hm; cbn; [split; [by split_and!|done]|].
  split; [|intros _ _; apply lookup_insert_eq].
  split_and!; [done..| |done]. cbn. intros path Hp. apply lookup_insert_ne.
  intros <-. apply Hp, list_elem_of_here.
Qed.

(** The addresses for debugging. *)
Definition debug_addresses (f : flags) : list (string * mux) :=
  (if decide (pprofListenAddr f = "") then [] else [(pprofListenAddr f, Profiler)]) ++
  (if decide (prometheusListenAddr f = "") then []
   else [(prometheusListenAddr f, PrometheusMetrics)]).

(** How the start ends. *)
Definition started (f : flags) (p : process) (o : unit + Z) (p' : process) : Prop :=
  (∃ status, o = inr status ∧ (status = 0%Z ↔ printVersion f = true)) ∧
  umask p' = umask p ∧
  (∀ path, path ≠ logFile f → (listenNetwork f = "unix" → path ≠ listenAddr f) →
     paths p' !! path = paths p !! path) ∧
  (server p' = server p ∨
   ∃ h, server p' = Some ((listenNetwork f, listenAddr f), h) ∧
     (listenNetwork f = "unix" → paths p' !! listenAddr f = Some (socket_mode f)) ∧
     debugging p' = debugging p ++ debug_addresses f).

Definition changed (f : flags) : list string :=
  logFile f :: if String.eqb (listenNetwork f) "unix" then [listenAddr f] else [].

Lemma ended f p status p' :
  printVersion f = false → leaves (changed f) p (inr status : unit + Z) p' →
  started f p (inr status) p'.
Proof.
  intros Hv (Hu & _ & Hs & Hp & Hn). split_and!; [|done| |by left].
  - exists status. split; [done|]. rewrite Hv. split; [|done]. by intros ->.
  - intros path Hl Ha. apply Hp. unfold changed. intros [->|H]%elem_of_cons; [done|].
    destruct (String.eqb_spec (listenNetwork f) "unix"); [|by apply not_elem_of_nil in H].
    apply list_elem_of_singleton in H as ->. by apply Ha.
Qed.

(** The start so far has left things alone. *)
Definition so_far (f : flags) (p0 p : process) : Prop := leaves (changed f) p0 (inr 1%Z : unit + Z) p.

Lemma so_far_trans {A} f p0 p (o : A + Z) p' :
  so_far f p0 p → leaves (changed f) p o p' → so_far f p0 p'.
Proof. intros H (? & ? & ? & ? & _). eapply leaves_trans; [exact H|]. by split_and!. Qed.

(** After a step that leaves things alone, the rest. *)
Lemma started_then {A} (m : M A) (k : A → M unit) f p0 p (Q : A → process → Prop) :
  printVersion f = false → so_far f p0 p →
  post m (λ o p', leaves (changed f) p o p' ∧ match o with inl a => Q a p' | inr _ => True end) p →
  (∀ a p', so_far f p0 p' → Q a p' → post (k a) (started f p0) p') →
  post (then_ m k) (started f p0) p.
Proof.
  intros Hv Hp Hm Hk. apply post_then. eapply post_mono; [exact Hm|]. cbn.
  intros [a|status] p' [Hl HQ]; [apply Hk; [by eapply so_far_trans|done]|].
  apply ended; [done|]. eapply leaves_status, leaves_trans; [exact Hp|exact Hl].
Qed.

Lemma changed_address f :
  (if String.eqb (listenNetwork f) "unix" then [listenAddr f] else []) ⊆ changed f.
Proof. intros x Hx. by apply list_elem_of_further. Qed.

Lemma listen_debug_leaves f p :
  post (listen_debug f) (λ o p', leaves (changed f) p o p' ∧
    match o with
    | inl _ => paths p' = paths p ∧ debugging p' = debugging p ++ debug_addresses f
    | inr _ => True
    end) p.
Proof.
  unfold listen_debug, debug_addresses. destruct p as [a m c d e g h i j k].
  unfold post, then_, modify, ret.
  destruct (String.eqb_spec (pprofListenAddr f) ""), (String.eqb_spec (prometheusListenAddr f) "");
    cbn; (split; [by split_and!|split; [done|]]); repeat case_decide; try done; cbn;
    by rewrite ?app_nil_r, <- ?app_assoc.
Qed.

(** The first steps give no address for debugging. *)
Lemma startLogging_debugging config p :
  post (startLogging config) (λ _ p', debugging p' = debugging p) p.
Proof.
  unfold startLogging, prepareLoggingFile, post, then_, modify, gets, ret, Fatal.
  destruct p. by repeat (case_match; simplify_eq/=).
Qed.
Lemma unlink_socket_debugging f p :
  post (unlink_socket f) (λ _ p', debugging p' = debugging p) p.
Proof.
  unfold unlink_socket, post, then_, modify, gets, ret, Fatal.
  destruct p. by repeat (case_match; simplify_eq/=).
Qed.
Lemma listen_debugging f p : post (listen f) (λ _ p', debugging p' = debugging p) p.
Proof.
  unfold listen, Umask, Listen, post, then_, modify, gets, ret, Fatal.
  destruct p. by repeat (case_match; simplify_eq/=).
Qed.

(** The steps that open no path. *)
Definition keeps_paths {A} (f : flags) (m : M A) : Prop := ∀ p, post m (λ o p',
  leaves (changed f) p o p' ∧
  match o with inl _ => paths p' = paths p ∧ debugging p' = debugging p | inr _ => True end) p.

#[local] Arguments Redis.Configure : simpl never.
Lemma configure_redis_keeps f : keeps_paths f (configure_redis f).
Proof.
  intros p. unfold configure_redis. destruct (String.eqb _ _); [by cbn|].
  destruct (LoadConfig _ _ _) as [[[c|]|x]|m]; [|by destruct p..].
  unfold post, then_, gets. destruct p as [a1 m1 c1 d1 e1 g1 h1 i1 j1 k1]. cbn.
  destruct (Redis.Configure _ _ _ _) as [[[pool|m]|] n]; by cbn.
Qed.

Lemma handler_of_keeps f cfg left : keeps_paths f (handler_of cfg left).
Proof.
  intros p. unfold handler_of, post. cbn. destruct (Metrics.start_queues _ _) as [reg|m]; [|by destruct p].
  destruct p as [a m c d e g h i j k]. cbn. by destruct (System.NewUpstream _ _ _ _).
Qed.

(** ** Properties *)


End start.

(** ** The configuration file *)

Definition texts_of (s : section) : list string := option_list (URL_text s) ++ Sentinel_texts s.

Lemma unmarshal_all_spec url_Parse texts :
  (∃ us, unmarshal_all url_Parse texts = Value (inl us) ∧
     Forall2 (λ t u, url_Parse t = inl u) texts us) ∨
  (∃ t x m, t ∈ texts ∧ url_Parse t = inr x ∧ unmarshal_all url_Parse texts = Panic m).
Proof.
  induction texts as [|t texts IH]; [by left; exists []|]. cbn. unfold UnmarshalText.
  destruct (url_Parse t) as [u|x] eqn:Ht.
  - destruct IH as [(us & -> & H)|(t' & x & m & Hin & Hx & ->)].
    + left. exists (u :: us). split; [done|]. by constructor.
    + right. exists t', x, m. split_and!; [by apply list_elem_of_further|done..].
  - right. eexists t, x, _. split_and!; [apply list_elem_of_here|done..].
Qed.

(** A file that cannot be read is an error.  One whose URLs are all well-formed gives the
    section with these URLs; one with a malformed URL makes the program panic: the error
    that [UnmarshalText] should return never is. *)
Theorem LoadConfig_spec (url_Parse : string → result url)
    (file : string → result (option section)) (name : string) :
  match file name with
  | inr err => LoadConfig url_Parse file name = Value (inr err)
  | inl None => LoadConfig url_Parse file name = Value (inl None)
  | inl (Some s) =>
      (∃ c, LoadConfig url_Parse file name = Value (inl (Some c)) ∧
         Forall2 (λ t u, url_Parse t = inl u) (Sentinel_texts s) (Redis.Sentinel c) ∧
         match URL_text s with Some t => url_Parse t = inl (Redis.URL c) | None => True end) ∨
      (∃ t x m, t ∈ texts_of s ∧ url_Parse t = inr x ∧ LoadConfig url_Parse file name = Panic m)
  end.
Proof.
  unfold LoadConfig, decode_section, texts_of. destruct (file name) as [[s|]|err]; [|done..].
  destruct (unmarshal_all_spec url_Parse (option_list (URL_text s)))
    as [(us & -> & Hus)|(t & x & m & Hin & Hx & ->)].
  - destruct (unmarshal_all_spec url_Parse (Sentinel_texts s))
      as [(ss & -> & Hss)|(t & x & m & Hin & Hx & ->)].
    + left. eexists. split; [reflexivity|]. split; [exact Hss|].
      destruct (URL_text s) as [t|]; [|done]. cbn in *.
      by inversion Hus as [|? u ? us' Ht]; simplify_eq/=.
    + right. exists t, x, m. split_and!; [|done..]. apply elem_of_app. by right.
  - right. exists t, x, m. split_and!; [|done..]. apply elem_of_app. by left.
Qed.

(** ** Examples *)

Definition test_url : url := mk_url "http" "localhost:8080" "" "".
Definition test_libraries : System.Libraries :=
  let L := System.test_libraries in
  {| System.url_Parse := λ s, if String.eqb s "http://localhost:8080" then inl test_url
                             else inr (Errorf "parse");
     System.Error := System.Error L; System.json_Response := System.json_Response L;
     System.json_runnerRequest := System.json_runnerRequest L;
     System.json_archive := System.json_archive L; System.json_blob := System.json_blob L;
     System.json_diff := System.json_diff L; System.json_patch := System.json_patch L;
     System.json_snapshot := System.json_snapshot L; System.json_entry := System.json_entry L;
     System.json_url := System.json_url L; System.jsonpb_Unmarshal := System.jsonpb_Unmarshal L;
     System.xml_Decode := System.xml_Decode L; System.md5 := System.md5 L;
     System.sha1 := System.sha1 L; System.sha256 := System.sha256 L;
     System.sha512 := System.sha512 L; System.quotedprintable := System.quotedprintable L;
     System.randomBoundary := System.randomBoundary L;
     System.TypeByExtension := System.TypeByExtension L; System.Getenv := System.Getenv L;
     System.Environ := System.Environ L; System.TempDir := System.TempDir L;
     System.cancelled := System.cancelled L; System.drained := System.drained L;
     System.JWTTokenString := System.JWTTokenString L;
     System.JWTTokenString_fields := System.JWTTokenString_fields L;
     System.Dial := System.Dial L; System.Upgrade := System.Upgrade L;
     System.Serve := System.Serve L; System.WatchKey := System.WatchKey L;
     System.reverseProxy := System.reverseProxy L; System.client_Do := System.client_Do L;
     System.ServeContent := System.ServeContent L |}.
Definition test_system : system :=
  {| open_log_error := λ _, None; remove_error := λ _, None; listen_error := λ _ _, None;
     file := λ _, inl (Some {| URL_text := Some "tcp:// bad"; Sentinel_texts := [];
                               others := Redis.test_cfg |});
     Getenv := λ _, "" |}.
Definition fresh_process (ps : gmap string Z) : process :=
  {| umask := 18; paths := ps; stdout := []; logged := [];
     loggers := {| out := Stderr; standard := TextFormatter false; access := None |};
     debugging := [];
     secret := {| Secret.theSecret := {| Secret.path := ""; Secret.bytes_ := None |};
                  Secret.slices := ∅ |};
     redis := {| net := Redis.start; configured := None; watching := false |};
     registry := Metrics.empty_registry; server := None |}.
Definition test_main (f : flags) (ps : gmap string Z) : (unit + Z) * process :=
  main test_system Redis.fine_network test_libraries Upstream.test_vendor (λ _, Ret (inl 7%Z))
    "test" f (λ r, Header_ r) (fresh_process ps).
Definition unix_flags : flags :=
  let f := default_flags in
  {| printVersion := false; configFile := ""; listenAddr := "/run/workhorse.sock";
     listenNetwork := "unix"; listenUmask := 63; authBackend := authBackend f;
     authSocket := ""; pprofListenAddr := ""; documentRoot := documentRoot f;
     proxyHeadersTimeout := proxyHeadersTimeout f; developmentMode := false;
     secretPath := secretPath f; apiLimit := 0; apiQueueLimit := 0; apiQueueTimeout := 0;
     apiCiLongPollingDuration := 0; prometheusListenAddr := ""; logFile := ""; logFormat := "none" |}.

(** The process serves by default, on its address only. *)
Example default_serves :
  let '(o, p) := test_main default_flags ∅ in
  o = inr 1%Z ∧ fst <$> server p = Some ("tcp", "localhost:8181") ∧ debugging p = [] ∧
  access (loggers p) = Some (AccessLogFormatter, Stderr) ∧ umask p = 18%Z.
Proof. vm_compute. done. Qed.

(** The socket of an earlier process is replaced by one that only its owner can use. *)
Example socket_replaced :
  let '(o, p) := test_main unix_flags {["/run/workhorse.sock" := 511%Z; "/x" := 0%Z]} in
  fst <$> server p = Some ("unix", "/run/workhorse.sock") ∧
  paths p !! "/run/workhorse.sock" = Some 448%Z ∧ paths p !! "/x" = Some 0%Z ∧ umask p = 18%Z.
Proof. vm_compute. done. Qed.

Definition with_file (f : flags) (config format : string) (network : string) : flags :=
  {| printVersion := false; configFile := config; listenAddr := listenAddr f;
     listenNetwork := network; listenUmask := listenUmask f; authBackend := authBackend f;
     authSocket := ""; pprofListenAddr := ""; documentRoot := documentRoot f;
     proxyHeadersTimeout := proxyHeadersTimeout f; developmentMode := false;
     secretPath := secretPath f; apiLimit := 1; apiQueueLimit := 0; apiQueueTimeout := -1;
     apiCiLongPollingDuration := 0; prometheusListenAddr := ""; logFile := ""; logFormat := format |}.

(** A malformed URL in the configuration file, and a queue without a positive time-out, end
    the process with a panic; an unknown format of the log is refused. *)
Example config_crashes : (test_main (with_file default_flags "c.toml" "text" "tcp") ∅).1 = inr 2%Z.
Proof. vm_compute. reflexivity. Qed.
Example queue_crashes : (test_main (with_file default_flags "" "text" "tcp") ∅).1 = inr 2%Z.
Proof. vm_compute. reflexivity. Qed.
Example format_refused : (test_main (with_file default_flags "" "xml" "tcp") ∅).1 = inr 1%Z.
Proof. vm_compute. reflexivity. Qed.
End Start.
